(* ===== verification/_CoqProject ===== *)
-Q . S2P
Prelude.v
Effects.v
GoStrings.v
Status.v
GoJson.v
Repos.v
GithubRepo.v
GithubEvents.v
GithubWebhook.v
Redact.v
Db.v
Queries.v
Sample.v
Outbox.v
Evolution.v
Claim.v
RunnerEvent.v
Heartbeat.v
Workspaces.v
Reaper.v
Auth.v
Validation.v
Submission.v
Cancel.v
Artifacts.v
TxRetry.v
CallbackDelivery.v
Watchdog.v
Admission.v
Ssrf.v
Inbound.v
Lifecycle.v
InboundDelivery.v
WebhookDelivery.v
GithubAction.v
PrFeedback.v
Signatures.v
Triggers.v
RunnerPaths.v
RunnerReport.v
RunnerRpc.v
RunnerRpcRun.v
RunnerContainer.v
RunnerTask.v
RunnerDrain.v
RunnerReap.v
