(* ===== verification/Prelude.v ===== *)
(** * Chetter: a verification development for the control plane and its runners

    Chetter runs coding agents: clients submit tasks to a control plane, which
    keeps them in a SQL database; runner processes poll it for work, execute an
    agent in a container, and report events back; a reaper recovers work whose
    runner went silent; an outbox delivers task events to webhooks and spawns
    follow-up tasks. This development models the control plane's own logic
    ([src/internal/service], the SQL of [src/internal/repository] and
    [src/internal/store], and the pure packages they use) and the runner's run of
    a task ([src/runner/internal]), and proves what makes them correct.

    ** The data

    One unit of work is a row in each of four tables: a task, an agent session
    of the task (its container and conversation), a user prompt in the session,
    and execution attempts of the prompt, which runners claim under a lease.
    Db.v has these rows and the runners, drain requests, task events,
    checkpoints, trigger runs and callback deliveries, as finite maps by primary
    key in the record [DB]. NULL is [None]; a timestamp is an integer number of
    microseconds, the resolution of the columns. Queries.v has one definition
    per SQL statement the modelled code runs: its WHERE clause, its SET list,
    its ORDER BY and its number of affected rows. A transaction is a
    computation in the monad [tx] below, and [run_tx] rolls back on error.

    ** Files and sources

    - Prelude.v: errors, transactions, relations a transaction follows, SQL and
      sorting lemmas. GoStrings.v: Go's [strings] functions.
    - Status.v: status and category functions of [runner_rpc.go].
    - GoJson.v: [json.Valid], as the event payload check uses it.
    - Repos.v: [store/repos.go], the repository sets of a task.
    - Redact.v: [redact/redact.go], secrets out of runner output.
    - Db.v, Queries.v: [repository/models.go] and [repository/*.sql.go].
    - Sample.v: small databases for the witnesses.
    - Outbox.v: the interface between the writers of events and callback
      deliveries (class [Outbox]); CallbackDelivery.v implements it
      ([callback_outbox]) and has the delivery worker and the spawn of
      follow-up tasks ([callback_deliveries.go], [event_callbacks.go]).
    - Evolution.v: how a statement may change rows (preorders on states).
    - Claim.v: [ClaimTask] and [claimOnce]; RunnerEvent.v: [ReportTaskEvents];
      Heartbeat.v: registration, heartbeats and drains; Workspaces.v:
      [PruneWorkspaces]; all of [runner_rpc.go].
    - Reaper.v: the reaping passes of [service.go] and [store.ReapStaleTasks].
    - Auth.v: team scopes ([auth/auth.go] and the access checks).
    - Validation.v: [internal/validation].
    - Submission.v: [SubmitTask], [RecoverTask], [RerunTask],
      [ResumeAgentSession] with the admission limit ([service.go]).
    - Cancel.v: [CancelTask], [ExtendTaskTimeout], [ClearQueue] ([api.go]).
    - TxRetry.v: the retry loops of [tx.go] and [store/retry.go].
    - Ssrf.v: the destination policy of outbound HTTP ([internal/ssrf]).
    - Watchdog.v and Admission.v: the two decisions of the runner process the
      control plane depends on: when it stops a silent harness
      ([runner/internal/controller/progress_watchdog.go]), and when it claims
      and what it reports under host pressure ([admission.go] and the claim
      loop of [runner_rpc.go]); Admission.v composes the latter with
      Heartbeat.v and Reaper.v.
    - Inbound.v and InboundDelivery.v: inbound webhooks, the receiver
      ([internal/inbound], [inbound_webhooks.go]) and the worker that turns
      deliveries into tasks ([inbound_deliveries.go]); the worker's file comes
      last, since it composes the inbox with Lifecycle.v.
    - GithubRepo.v: [internal/githubrepo], the names of repositories (the
      parameter [githubrepo_Parse] of Submission.v is its [Parse] followed by
      [FullName]) and the directories they are checked out into.
    - Effects.v: computations that call other services, with the trace of their
      calls, and the logic in which "only after" is stated of them.
    - GithubEvents.v, GithubWebhook.v, WebhookDelivery.v: the GitHub App's
      webhook ([internal/webhook]): payloads, the requests built from triggers and
      the footers read; the five handlers over the interface [Services]; the
      signed endpoint, its deduplication, the rows and the retry worker
      ([webhook_deliveries.go]).
    - GithubAction.v: the GitHub requests of runners ([runner_github_rpc.go])
      over the interface [ActionServer], and the signatures of what they write
      ([github_tools.go]); Signatures.v reads these back with the webhook's
      expressions.
    - Artifacts.v: the artifact table, [RecordArtifact] and
      [ResumeSessionForPR]; PrFeedback.v puts all writers of artifacts beside
      that lookup.
    - Triggers.v: triggers ([service.go]), the interval lock all replicas share
      ([coordination.go]) and promotion ([trigger_promotion.go]).
    - The runner ([src/runner/internal]): RunnerPaths.v has its paths, the file
      system with links and the workspaces ([workspace], [agentenv]);
      RunnerReport.v the requests and the reports, their building, redaction and
      delivery; RunnerRpc.v and RunnerRpcRun.v the event machine and the run of an
      RPC harness; RunnerContainer.v the environments, the command lines of
      containers, their limits and the isolation gate; RunnerTask.v the run of a
      task on every backend, as the list of its actions ([runner_task.go],
      [kubernetes_executor.go]); RunnerDrain.v the process around these runs, its
      claim loop, heartbeats, shutdown and drain as one machine ([heartbeat.go],
      [runner_rpc.go], [cmd/runner/main.go]); RunnerReap.v what it cleans up behind
      lost tasks ([runner.go]).
    - Lifecycle.v: all of these handlers as one transition system.

    ** What is shown

    - Of the whole system (Lifecycle.v): every run implements the automaton of
      an execution attempt, claims fence for good, no waiting or running task is
      left without the attempt that serves it; and two ways in which a recovered
      task is lost all the same.
    - Of each handler: its effect on every table on success, that an error
      changes nothing, and on which condition it errs (Claim.v, RunnerEvent.v,
      Heartbeat.v, Reaper.v, Submission.v, Cancel.v, Workspaces.v,
      CallbackDelivery.v).
    - Of the pure parts: equivalence with declarative rules (Validation.v),
      normal forms (Repos.v), isolation of teams (Auth.v), removal of secrets
      (Redact.v), bounds on retries (TxRetry.v).
    - Of the runner's part: the watchdog's bounds, that it spares live runs and
      ends silent ones (Watchdog.v); what load shedding does to waiting work
      (Admission.v). Of the delivery client: it reaches only what the policy
      allows (Ssrf.v).
    - Of inbound webhooks: what is answered 202 is in the inbox, each delivery
      makes at most one task in every interleaving with the control plane
      (InboundDelivery.v), and how events can be lost all the same.
    - Of the GitHub App: who may start or resume work by an event, what a review
      event submits (GithubWebhook.v), how often a delivery is handled and which
      are lost (WebhookDelivery.v), that a runner acts on GitHub only behind the
      fence of its running attempt (GithubAction.v), that signatures read back
      (Signatures.v), and that feedback on pull requests never resumes a session
      (PrFeedback.v).
    - Of triggers: at most one run per interval over all replicas, what a tick
      submits, that teams reach only their own triggers, and where promotion
      does not keep to that (Triggers.v).
    - Of the runner: a run reports its end exactly once and gives back what it
      took, a refused claim starts nothing, clones get only their own tokens
      (RunnerTask.v); a container is confined to its workspace and limits
      (RunnerContainer.v); paths stay in their workspace and workspaces of other
      tasks are not touched (RunnerPaths.v); reports hide the run's token and are
      delivered in bounded time (RunnerReport.v); token counts add up and errors
      stick (RunnerRpc.v), and the RPC process is waited for (RunnerRpcRun.v).
    - Of the process around the runs: a heartbeat and its answer settle every
      task with the control plane, how many tasks run at once, that a drain starts
      nothing new, what it leaves behind and that it ends, and that a shutdown
      interrupts its tasks instead of waiting for them (RunnerDrain.v); pruning
      and the sweep spare what is in use, and listings read back (RunnerReap.v).
    - Behaviour that departs from what the code or its comments intend is
      stated as theorems too, next to the component.

    ** Conventions and bounds

    A clock reading is an argument ([now] of the process, [dbnow] of the
    database), and so is every random identifier; the theorems hold for all of
    them. SKIP LOCKED is a predicate [skip] on the rows other transactions hold;
    a transaction is atomic, as the row locks of the code make it. An UPDATE
    with a join takes the first matching row in key order. Integers that the
    code keeps at a width wrap or fail at that width ([int32_of], [totals_ok]).
    Code outside the repository, or outside the modelled parts, is a parameter:
    team, definition and identity lookups ([Lookups]), the callback dispatcher's
    templates and HTTP answers ([CallbackEnv], [SpawnEnv]). Fuel appears only
    where recursion is on a string or a bounded retry, with the length of the
    string or the bound of the code as the fuel. A run on a runner is a function
    of the answers it gets (the records [RpcEnv], [ServeEnv], [KubeEnv] and
    [TaskEnv]); the theorems hold for all of them. A float is the exact rational
    it stands for, an infinity or no number.

    ** Not modelled

    HTTP and MCP plumbing, listings and exports (read-only), the web
    interface, the rest of the runner process (the harness adapters, the network
    proxies, process start), the GitHub and OIDC clients, schema
    migrations, configuration and metrics, the PostgreSQL twin of the
    repository (the same statements in another dialect), and generated code.
    Audit records and logs have no effect on the tables and are left out of the
    handlers. *)

From stdpp Require Export base tactics gmap strings list fin_maps pretty.
From Stdlib Require Export ZArith Lia Sorting.Sorted.
From coqutil Require Export Datatypes.RecordSetters.
Export DoubleBraceUpdate.
#[global] Arguments constant {_} _ _ /.

#[export] Set Default Goal Selector "!".
#[global] Open Scope Z_scope.

(** ** Notations *)

Declare Scope chetter_scope.
Delimit Scope chetter_scope with chetter.
#[global] Open Scope chetter_scope.

(** Decidable equality as a boolean test, the `==` of the source. *)
Notation "x == y" := (bool_decide (x = y)) (at level 70, no associativity) : chetter_scope.
Infix "^^" := String.append (at level 60, right associativity) : chetter_scope.

(** ** Time

    Every timestamp is a number of microseconds, the resolution of the
    DATETIME(6) columns the code persists its times in; a Go duration is the
    same unit. *)
Definition time := Z.
Definition seconds (n : Z) : Z := n * 1000000.
Definition hours (n : Z) : Z := seconds (n * 3600).

(** ** Errors

    The error values the modelled code distinguishes by identity or by type;
    every other error is a message. *)
Inductive err :=
| ENoRows                                  (* sql.ErrNoRows *)
| EDuplicateKey (tbl : string)             (* unique or primary key violation *)
| EOutOfRange                              (* BIGINT value is out of range *)
| ENoClaimableTask                         (* errNoClaimableTask *)
| ETaskNotClaimed                          (* errTaskNotClaimed *)
| ECapacity (limit current : Z)            (* *PendingTaskCapacityError *)
| EInvalidArgument (msg : string)          (* connect.CodeInvalidArgument *)
| EFailedPrecondition (msg : string)       (* connect.CodeFailedPrecondition *)
| EMsg (msg : string)                      (* fmt.Errorf without arguments *)
| EFmt (format : string) (args : list string).   (* fmt.Errorf, not yet formatted *)

#[export] Instance err_eq_dec : EqDecision err.
Proof. solve_decision. Defined.

(** A computation that may fail without touching any state. *)
#[export] Instance sum_ret : MRet (sum err) := λ A a, inr a.
#[export] Instance sum_bind : MBind (sum err) :=
  λ A B f m, match m with inl e => inl e | inr a => f a end.

Definition err_guard (b : bool) (e : err) : err + unit := if b then inl e else inr tt.

Lemma sum_bind_inr {A B} (m : err + A) (f : A → err + B) b :
  (m ≫= f) = inr b ↔ ∃ a, m = inr a ∧ f a = inr b.
Proof. unfold mbind, sum_bind. destruct m; naive_solver. Qed.

Lemma err_guard_inr b e u : err_guard b e = inr u ↔ b = false.
Proof. unfold err_guard. destruct b, u; naive_solver. Qed.

(** ** Transactions

    A database transaction over a state [S]: it either fails, and then no
    state comes out of it, or returns a value and the state to commit. *)
Definition tx (S A : Type) : Type := S → err + A * S.

#[export] Instance tx_ret {S} : MRet (tx S) := λ A a s, inr (a, s).
#[export] Instance tx_bind {S} : MBind (tx S) :=
  λ A B f m s, match m s with inl e => inl e | inr (a, s') => f a s' end.

Definition tx_fail {S A} (e : err) : tx S A := λ _, inl e.
Definition tx_read {S A} (f : S → A) : tx S A := λ s, inr (f s, s).
Definition tx_write {S} (f : S → S) : tx S unit := λ s, inr (tt, f s).

(** A query that returns one row, `:one` in the query files. *)
Definition tx_one {S A} (f : S → option A) : tx S A :=
  λ s, match f s with Some a => inr (a, s) | None => inl ENoRows end.

(** A guarded update with its affected-row count, `:execrows`. *)
Definition tx_rows {S} (f : S → Z * S) : tx S Z := λ s, inr (f s).

Definition tx_guard {S} (b : bool) (e : err) : tx S unit :=
  if b then tx_fail e else mret tt.

Fixpoint tx_iter {S A} (f : A → tx S unit) (l : list A) : tx S unit :=
  match l with
  | [] => mret tt
  | x :: l' => f x ≫= λ _, tx_iter f l'
  end.

(** Commit on success, roll back on error. *)
Definition run_tx {S A} (m : tx S A) (s : S) : (err + A) * S :=
  match m s with inl e => (inl e, s) | inr (a, s') => (inr a, s') end.

Section tx_lemmas.
Context {S : Type}.

Lemma tx_bind_inr {A B} (m : tx S A) (f : A → tx S B) s r :
  (m ≫= f) s = inr r ↔ ∃ a s', m s = inr (a, s') ∧ f a s' = inr r.
Proof.
  unfold mbind, tx_bind. destruct (m s) as [e|[a s']]; naive_solver.
Qed.

Lemma tx_ret_inr {A} (a b : A) (s s' : S) :
  (mret a : tx S A) s = inr (b, s') ↔ b = a ∧ s' = s.
Proof. unfold mret, tx_ret. naive_solver. Qed.

Lemma tx_fail_inr {A} e (s : S) (r : A * S) : (tx_fail e : tx S A) s = inr r ↔ False.
Proof. unfold tx_fail. naive_solver. Qed.

Lemma tx_guard_inr b e (s : S) u s' :
  tx_guard b e s = inr (u, s') ↔ b = false ∧ s' = s.
Proof. destruct b, u; unfold tx_guard, tx_fail, mret, tx_ret; naive_solver. Qed.

Lemma tx_one_inr {A} (f : S → option A) (s : S) a s' :
  tx_one f s = inr (a, s') ↔ f s = Some a ∧ s' = s.
Proof. unfold tx_one. destruct (f s); naive_solver. Qed.

Lemma tx_rows_inr (f : S → Z * S) s n s' :
  tx_rows f s = inr (n, s') ↔ f s = (n, s').
Proof. unfold tx_rows. split; [by intros [= ?]|by intros ->]. Qed.

Lemma tx_read_inr {A} (f : S → A) (s : S) a s' :
  tx_read f s = inr (a, s') ↔ a = f s ∧ s' = s.
Proof. unfold tx_read. naive_solver. Qed.

Lemma tx_write_inr (f : S → S) (s : S) u s' :
  tx_write f s = inr (u, s') ↔ s' = f s.
Proof. destruct u. unfold tx_write. naive_solver. Qed.

(** A failed transaction leaves the state as it was. *)
Lemma run_tx_error {A} (m : tx S A) s e s' :
  run_tx m s = (inl e, s') → s' = s.
Proof. unfold run_tx. destruct (m s) as [?|[??]]; naive_solver. Qed.

Lemma run_tx_ok {A} (m : tx S A) s a s' :
  run_tx m s = (inr a, s') ↔ m s = inr (a, s').
Proof. unfold run_tx. destruct (m s) as [?|[??]]; naive_solver. Qed.

(** A property of the state that every iteration keeps is kept by the loop. *)
Lemma tx_iter_inv {A} (P : S → Prop) (f : A → tx S unit) l :
  (∀ x s u s', x ∈ l → P s → f x s = inr (u, s') → P s') →
  ∀ s u s', P s → tx_iter f l s = inr (u, s') → P s'.
Proof.
  induction l as [|x l IH]; intros Hf s u s' HP; simpl.
  - rewrite tx_ret_inr. naive_solver.
  - rewrite tx_bind_inr. intros ([] & s1 & H1 & H2).
    eapply (IH (λ y s u s' Hy, Hf y s u s' (list_elem_of_further _ _ _ Hy))); [|done].
    eapply Hf; [left|done|done].
Qed.
End tx_lemmas.

(** Inversion of a successful transaction into its steps. *)
Ltac tx_inv :=
  repeat match goal with
  | H : (_ ≫= _) _ = inr _ |- _ =>
      apply tx_bind_inr in H as (? & ? & ? & H); simpl in H
  | H : (mret _) _ = inr (_, _) |- _ => apply tx_ret_inr in H as [? ?]
  | H : tx_fail _ _ = inr _ |- _ => apply tx_fail_inr in H as []
  | H : tx_guard _ _ _ = inr (_, _) |- _ => apply tx_guard_inr in H as [? ?]
  | H : tx_one _ _ = inr (_, _) |- _ => apply tx_one_inr in H as [? ?]
  | H : tx_read _ _ = inr (_, _) |- _ => apply tx_read_inr in H as [? ?]
  | H : tx_write _ _ = inr (_, _) |- _ => apply tx_write_inr in H
  | H : tx_rows _ _ = inr (_, _) |- _ => rewrite tx_rows_inr in H
  | x : unit |- _ => destruct x
  end; simplify_eq.

(** ** Relations a transaction follows

    [Follows R m]: whenever [m] commits, [R] relates the state before to the
    state after. The instances below lift a preorder through the combinators,
    so that a whole transaction follows it as soon as its statements do. *)
Class Follows {S A} (R : S → S → Prop) (m : tx S A) : Prop :=
  follows s a s' : m s = inr (a, s') → R s s'.

(** The same for a statement with its affected rows. *)
Class StmtFollows {S} (R : S → S → Prop) (u : S → Z * S) : Prop :=
  stmt_follows s : R s (u s).2.

Section follows.
Context {S : Type} (R : S → S → Prop) `{!PreOrder R}.

#[export] Instance follows_bind {A B} (m : tx S A) (f : A → tx S B) :
  Follows R m → (∀ a, Follows R (f a)) → Follows R (m ≫= f).
Proof. intros Hm Hf s b s' (a & s1 & H1 & H2)%tx_bind_inr. etrans; [by eapply Hm|by eapply Hf]. Qed.

#[export] Instance follows_ret {A} (a : A) : Follows R (mret a : tx S A).
Proof. by intros s b s' [_ ->]%tx_ret_inr. Qed.

#[export] Instance follows_fail {A} e : Follows R (tx_fail e : tx S A).
Proof. by intros s b s' []%tx_fail_inr. Qed.

#[export] Instance follows_guard b e : Follows R (tx_guard b e).
Proof. by intros s u s' [_ ->]%tx_guard_inr. Qed.

#[export] Instance follows_read {A} (f : S → A) : Follows R (tx_read f).
Proof. by intros s b s' [_ ->]%tx_read_inr. Qed.

#[export] Instance follows_one {A} (f : S → option A) : Follows R (tx_one f).
Proof. by intros s b s' [_ ->]%tx_one_inr. Qed.

#[export] Instance follows_rows (u : S → Z * S) : StmtFollows R u → Follows R (tx_rows u).
Proof. intros Hu s n s' H%tx_rows_inr. specialize (Hu s). by rewrite H in Hu. Qed.

#[export] Instance stmt_if (b : bool) (u v : S → Z * S) :
  StmtFollows R u → StmtFollows R v → StmtFollows R (if b then u else v).
Proof. by destruct b. Qed.

#[export] Instance follows_iter {A} (f : A → tx S unit) l :
  (∀ x, Follows R (f x)) → Follows R (tx_iter f l).
Proof. intros Hf. induction l; simpl; apply _. Qed.

Lemma follows_write (f : S → S) : (∀ s, R s (f s)) → Follows R (tx_write f).
Proof. by intros Hf s u s' ->%tx_write_inr. Qed.

(** A transaction run to its end follows the relation whatever it answers. *)
Lemma follows_run {A} (m : tx S A) s r s' : Follows R m → run_tx m s = (r, s') → R s s'.
Proof.
  intros Hm H. destruct r as [e|a].
  - by apply run_tx_error in H as ->.
  - apply run_tx_ok in H. by eapply Hm.
Qed.
End follows.

#[export] Hint Extern 2 (Follows _ (match ?x with _ => _ end)) => destruct x : typeclass_instances.

(** Walks through a transaction that has been unfolded, down to its statements,
    which are left to their instances. *)
Ltac follow :=
  cbv beta zeta;
  lazymatch goal with
  | |- Follows _ (_ ≫= _) => apply follows_bind; [exact _|follow|intros ?; follow]
  | |- Follows _ (mret _) => apply follows_ret; exact _
  | |- Follows _ (tx_guard _ _) => apply follows_guard; exact _
  | |- Follows _ (tx_fail _) => apply follows_fail; exact _
  | |- Follows _ (tx_read _) => apply follows_read; exact _
  | |- Follows _ (tx_one _) => apply follows_one; exact _
  | |- Follows _ (tx_iter _ _) => apply follows_iter; [exact _|intros ?; follow]
  | |- Follows _ (tx_rows (if _ then _ else _)) =>
      apply follows_rows, stmt_if; exact _
  | |- Follows _ (tx_write (if ?b then _ else _)) => destruct b; exact _
  | |- Follows _ (match ?x with _ => _ end) => destruct x; follow
  | |- _ => exact _
  end.

(** ** SQL

    NULL is [None]. A comparison with NULL is not true, which is all a WHERE
    clause asks. *)
Definition sql_lt (a b : option time) : bool :=
  match a, b with Some x, Some y => x <? y | _, _ => false end.

Definition coalesce {A} (a b : option A) : option A :=
  match a with Some _ => a | None => b end.

(** [NULLIF(s, '')] of a bound string. *)
Definition nullif_empty (s : string) : option string :=
  if s == "" then None else Some s.

(** [sql.NullString{String: s, Valid: s != ""}] builds the same value. *)
Definition nullString (s : string) : option string := nullif_empty s.

(** The Go string of a nullable column: [row.Column.String]. *)
Definition str_of (o : option string) : string := default "" o.

(** [COALESCE(MAX(x), 0)]. *)
Definition sql_max (l : list Z) : Z :=
  match l with [] => 0 | x :: l' => foldr Z.max x l' end.

Lemma sql_max_ge l x : x ∈ l → x <= sql_max l.
Proof.
  destruct l as [|y l]; simpl; [set_solver|].
  assert (y <= foldr Z.max y l ∧ ∀ z, z ∈ l → z <= foldr Z.max y l) as [H1 H2].
  { induction l as [|w l [IH1 IH2]]; simpl; [split; [lia|set_solver]|].
    split; [lia|]. intros z [->|Hz]%elem_of_cons; [lia|]. specialize (IH2 z Hz). lia. }
  intros [->|Hx]%elem_of_cons; auto.
Qed.

(** The range of a BIGINT column and of a Go [int64]. *)
Definition int64_ok (z : Z) : bool := (- 2 ^ 63 <=? z) && (z <? 2 ^ 63).

(** The conversion [int32(z)]. *)
Definition int32_of (z : Z) : Z := (z + 2 ^ 31) mod 2 ^ 32 - 2 ^ 31.

(** Decimal text of an integer, the [%d] of [fmt.Sprintf]. *)
Definition fmt_d (z : Z) : string := pretty z.

Section sql.
Context {K V : Type} `{Countable K}.
Implicit Types m : gmap K V.

(** [UPDATE t SET f WHERE id = k AND p], with the affected rows. *)
Definition update_pk (k : K) (p : V → bool) (f : V → V) (m : gmap K V) : Z * gmap K V :=
  match m !! k with
  | Some v => if p v then (1, <[k := f v]> m) else (0, m)
  | None => (0, m)
  end.

(** [UPDATE t SET f WHERE p], with the affected rows. *)
Definition update_where (p : K → V → bool) (f : K → V → V) (m : gmap K V) : Z * gmap K V :=
  (Z.of_nat (size (filter (λ kv, Is_true (p kv.1 kv.2)) m)),
   map_imap (λ k v, Some (if p k v then f k v else v)) m).

(** [INSERT], failing on a primary key that is taken. *)
Definition insert_pk (tbl : string) (k : K) (v : V) (m : gmap K V) : err + gmap K V :=
  match m !! k with
  | Some _ => inl (EDuplicateKey tbl)
  | None => inr (<[k := v]> m)
  end.

Lemma update_pk_lookup k p f m j :
  (update_pk k p f m).2 !! j =
  (λ v, if bool_decide (j = k) && p v then f v else v) <$> m !! j.
Proof.
  unfold update_pk. destruct (decide (j = k)) as [->|Hjk].
  - rewrite bool_decide_eq_true_2 by done. destruct (m !! k) as [v|] eqn:E; simpl.
    + destruct (p v); simpl; [by rewrite lookup_insert_eq|by rewrite E].
    + by rewrite E.
  - rewrite bool_decide_eq_false_2 by done. simpl.
    destruct (m !! k) as [v|]; [destruct (p v)|]; simpl;
      rewrite ?lookup_insert_ne by done; by destruct (m !! j).
Qed.

Lemma update_pk_rows k p f m :
  (update_pk k p f m).1 = 1 ∧ (∃ v, m !! k = Some v ∧ p v = true ∧ (update_pk k p f m).2 = <[k := f v]> m)
  ∨ (update_pk k p f m).1 = 0 ∧ (update_pk k p f m).2 = m ∧ (∀ v, m !! k = Some v → p v = false).
Proof.
  unfold update_pk. destruct (m !! k) as [v|] eqn:E; [|right; naive_solver].
  destruct (p v) eqn:Hp; simpl; [left|right]; naive_solver.
Qed.

Lemma update_where_lookup p f m k :
  (update_where p f m).2 !! k = (λ v, if p k v then f k v else v) <$> m !! k.
Proof.
  unfold update_where. simpl. rewrite map_lookup_imap. by destruct (m !! k).
Qed.

(** The affected-row count is zero exactly when no row qualifies. *)
Lemma update_where_rows_zero p f m :
  (update_where p f m).1 = 0 ↔ ∀ k v, m !! k = Some v → p k v = false.
Proof.
  unfold update_where. simpl. split.
  - intros Hz k v Hkv. destruct (p k v) eqn:E; [|done].
    assert (filter (λ kv, Is_true (p kv.1 kv.2)) m = ∅) as Hf
      by (apply map_size_empty_iff; lia).
    assert (filter (λ kv, Is_true (p kv.1 kv.2)) m !! k = Some v) as Hl
      by (apply map_lookup_filter_Some; simpl; by rewrite E).
    by rewrite Hf in Hl.
  - intros Hp. replace (filter _ m) with (∅ : gmap K V); [by rewrite map_size_empty|].
    symmetry. apply map_empty. intros k. apply map_lookup_filter_None.
    right. intros v Hkv. simpl. rewrite (Hp k v Hkv). by intros [].
Qed.

Lemma insert_pk_inr tbl k v m m' :
  insert_pk tbl k v m = inr m' ↔ m !! k = None ∧ m' = <[k := v]> m.
Proof. unfold insert_pk. destruct (m !! k); naive_solver. Qed.
End sql.

(** ** ORDER BY ... LIMIT 1

    [best lt l] is a row no other row of [l] precedes; ties go to the first. *)
Section best.
Context {A : Type} (lt : A → A → bool).

Fixpoint best_from (a : A) (l : list A) : A :=
  match l with
  | [] => a
  | x :: l' => best_from (if lt x a then x else a) l'
  end.

Definition best (l : list A) : option A :=
  match l with [] => None | x :: l' => Some (best_from x l') end.

Lemma best_from_elem a l : best_from a l = a ∨ best_from a l ∈ l.
Proof.
  revert a. induction l as [|x l IH]; intros a; simpl; [by left|].
  destruct (IH (if lt x a then x else a)) as [->|?]; [|right; by right].
  destruct (lt x a); [right; left|by left].
Qed.

Lemma best_elem l a : best l = Some a → a ∈ l.
Proof.
  destruct l as [|x l]; simpl; [done|]. intros [= <-].
  destruct (best_from_elem x l) as [->|?]; [left|by right].
Qed.

Lemma best_None l : best l = None ↔ l = [].
Proof. destruct l; simpl; naive_solver. Qed.

(** When the order comes from an integer key, the choice has the least key. *)
Lemma best_from_min (f : A → Z) a l :
  (∀ x y, lt x y = (f x <? f y)) →
  f (best_from a l) <= f a ∧ ∀ x, x ∈ l → f (best_from a l) <= f x.
Proof.
  intros Hlt. revert a. induction l as [|x l IH]; intros a; simpl.
  - split; [lia|]. intros x. by rewrite elem_of_nil.
  - destruct (IH (if lt x a then x else a)) as [H1 H2]. rewrite Hlt in *.
    destruct (Z.ltb_spec (f x) (f a)); split; try lia;
      intros y [->|Hy]%elem_of_cons; try lia; by apply H2.
Qed.

Lemma best_min (f : A → Z) l a :
  (∀ x y, lt x y = (f x <? f y)) →
  best l = Some a → ∀ x, x ∈ l → f a <= f x.
Proof.
  intros Hlt. destruct l as [|y l]; simpl; [done|]. intros [= <-] x.
  destruct (best_from_min f y l Hlt) as [H1 H2].
  intros [->|Hx]%elem_of_cons; [done|by apply H2].
Qed.

(** A row that precedes every other one is the choice. *)
Lemma best_from_unique a b l :
  (∀ x y, lt x y = true → lt y x = false) →
  b = a ∨ lt a b = true ∧ a ∈ l → (∀ y, y ∈ l → y = a ∨ lt a y = true) → best_from b l = a.
Proof.
  intros Hasym. revert b. induction l as [|x l IH]; intros b Hb Hl; simpl.
  { destruct Hb as [|[_ Hin]]; [done|by apply elem_of_nil in Hin]. }
  apply IH; [|by intros y Hy; apply Hl; right].
  destruct (Hl x) as [->|Hx]; [left| |].
  - destruct Hb as [->|[Hb _]]; [left; by case_match|left; by rewrite Hb].
  - destruct Hb as [->|[Hb Hin]]; [left; by rewrite (Hasym _ _ Hx)|right].
    apply elem_of_cons in Hin as [->|Hin]; [by rewrite (Hasym _ _ Hx) in Hx|].
    by destruct (lt x b).
Qed.

Lemma best_unique a l :
  (∀ x y, lt x y = true → lt y x = false) →
  a ∈ l → (∀ y, y ∈ l → y = a ∨ lt a y = true) → best l = Some a.
Proof.
  intros Hasym Ha Hl. destruct l as [|x l]; [by apply elem_of_nil in Ha|]. simpl. f_equal.
  apply best_from_unique; [done| |by intros y Hy; apply Hl; right].
  destruct (Hl x) as [->|Hx]; [left|by left|]. right. split; [done|].
  apply elem_of_cons in Ha as [->|]; [|done]. by rewrite (Hasym _ _ Hx) in Hx.
Qed.

(** Nothing precedes the choice, for a strict weak order. *)
Lemma best_from_least a l :
  (∀ x y z, lt x y = true → lt y z = true → lt x z = true) →
  (∀ x y z, lt x z = true → lt x y = true ∨ lt y z = true) →
  (∀ x, lt x x = false) →
  ∀ x, x ∈ a :: l → lt x (best_from a l) = false.
Proof.
  intros Ht Hn Hi. revert a. induction l as [|y l IH]; intros a x Hx; simpl.
  { apply elem_of_cons in Hx as [->|Hx]; [apply Hi|by apply elem_of_nil in Hx]. }
  pose proof (IH (if lt y a then y else a)) as IH'.
  assert (lt a (best_from (if lt y a then y else a) l) = false ∧
          lt y (best_from (if lt y a then y else a) l) = false) as [H1 H2].
  { pose proof (IH' _ (list_elem_of_here _ _)) as H0.
    destruct (lt y a) eqn:E; split; try done; apply not_true_iff_false; intros Hc.
    - by rewrite (Ht _ _ _ E Hc) in H0.
    - destruct (Hn _ a _ Hc); congruence. }
  apply elem_of_cons in Hx as [->|[->|Hx]%elem_of_cons]; [done|done|].
  apply IH'. by right.
Qed.
End best.

(** ** ORDER BY *)
Section sort_by.
Context {A : Type} (key : A → Z).

(** Insertion sort by an integer key; equal keys keep their order. *)
Fixpoint insert_by (x : A) (l : list A) : list A :=
  match l with
  | [] => [x]
  | y :: l' => if key y <=? key x then y :: insert_by x l' else x :: l
  end.

Definition sort_by (l : list A) : list A := foldl (λ acc x, insert_by x acc) [] l.

Lemma insert_by_perm x l : insert_by x l ≡ₚ x :: l.
Proof.
  induction l as [|y l IH]; simpl; [done|]. case_match; [|done].
  rewrite IH. constructor.
Qed.

Lemma sort_by_perm l : sort_by l ≡ₚ l.
Proof.
  unfold sort_by.
  assert (∀ acc, foldl (λ acc x, insert_by x acc) acc l ≡ₚ acc ++ l) as H.
  { induction l as [|x l IH]; intros acc; simpl; [by rewrite app_nil_r|].
    rewrite IH, insert_by_perm. simpl. by rewrite Permutation_middle. }
  apply H.
Qed.

Lemma sort_by_elem l x : x ∈ sort_by l ↔ x ∈ l.
Proof. by rewrite sort_by_perm. Qed.

Lemma insert_by_sorted x l :
  StronglySorted (λ a b, key a <= key b) l → StronglySorted (λ a b, key a <= key b) (insert_by x l).
Proof.
  induction 1 as [|y l Hl IH Hy]; simpl; [repeat constructor|].
  destruct (Z.leb_spec (key y) (key x)).
  - constructor; [done|]. rewrite insert_by_perm. by constructor.
  - constructor; [by constructor|]. constructor; [lia|].
    eapply Forall_impl; [exact Hy|]. simpl. lia.
Qed.

Lemma sort_by_sorted l : StronglySorted (λ a b, key a <= key b) (sort_by l).
Proof.
  unfold sort_by.
  assert (∀ acc, StronglySorted (λ a b, key a <= key b) acc →
    StronglySorted (λ a b, key a <= key b) (foldl (λ acc x, insert_by x acc) acc l)) as H.
  { induction l as [|x l IH]; intros acc Hacc; simpl; [done|]. apply IH, insert_by_sorted, Hacc. }
  apply H. constructor.
Qed.
End sort_by.

Lemma filter_length_perm {A} (f : A → bool) l k :
  l ≡ₚ k → length (List.filter f l) = length (List.filter f k).
Proof.
  induction 1 as [|x l k _ IH|x y l|l k h _ IH1 _ IH2]; simpl; [done| | |congruence].
  - destruct (f x); simpl; congruence.
  - by destruct (f x), (f y).
Qed.

(** The affected-row count of an update counts the rows the predicate selects. *)
Lemma update_where_count {K V} `{Countable K} (p : K → V → bool) f (m : gmap K V) :
  (update_where p f m).1 = Z.of_nat (length (List.filter (λ kv, p kv.1 kv.2) (map_to_list m))).
Proof.
  unfold update_where. simpl. f_equal. induction m as [|i x m Hi IH] using map_ind; [done|].
  rewrite (filter_length_perm _ _ _ (map_to_list_insert m i x Hi)). simpl.
  rewrite map_filter_insert. simpl. destruct (p i x) eqn:E.
  - rewrite decide_True by done. rewrite map_size_insert_None.
    + simpl. by rewrite IH.
    + apply map_lookup_filter_None. by left.
  - rewrite decide_False by (by intros []). by rewrite delete_id, IH.
Qed.

(** Distinct keys stay distinct through a filter-map that keeps the key. *)
Lemma NoDup_omap_key {A B K} (f : A → option B) (ka : A → K) (kb : B → K) l :
  (∀ x y, f x = Some y → kb y = ka x) → NoDup (map ka l) → NoDup (map kb (omap f l)).
Proof.
  intros Hf. induction l as [|x l IH]; simpl; [constructor|]. intros [Hx Hl]%NoDup_cons.
  destruct (f x) as [y|] eqn:E; simpl; [|by apply IH]. constructor; [|by apply IH].
  intros (z & Hz & Hin)%list_elem_of_fmap. apply list_elem_of_omap in Hin as (w & Hw & Hwz).
  apply Hx, list_elem_of_fmap. exists w. split; [|done].
  by rewrite <- (Hf _ _ E), <- (Hf _ _ Hwz).
Qed.

Lemma NoDup_fst_filter {A B} (f : A * B → bool) l :
  NoDup (map fst l) → NoDup (map fst (List.filter f l)).
Proof.
  induction l as [|x l IH]; simpl; [constructor|]. intros [Hx Hl]%NoDup_cons.
  destruct (f x); [|by apply IH]. simpl. constructor; [|by apply IH].
  intros (y & Hy & Hin)%list_elem_of_fmap. apply Hx, list_elem_of_fmap. exists y. split; [done|].
  apply list_elem_of_In, filter_In in Hin as [Hin _]. by apply list_elem_of_In.
Qed.
