(* ===== verification/Effects.v ===== *)
(** * Computations with external effects

    A handler that calls other services is a computation over the state [W] of
    the world outside it: every call takes its answer from the world, may change
    it, and leaves an event in the trace. An error value is returned, never
    rolled back, for what was done outside stays done.

    The logic below shows that every event of a trace is allowed by the events
    before it. *)
From S2P Require Import Prelude.

Section eff.
Context {W E : Type}.

Definition eff (A : Type) : Type := W → A * list E * W.

#[global] Instance eff_ret : MRet eff := λ A a w, (a, [], w).
#[global] Instance eff_bind : MBind eff := λ A B k m w,
  let '(a, es, w1) := m w in
  let '(b, es', w2) := k a w1 in
  (b, es ++ es', w2).

(** One call: [f] answers, [ev] is the event with the answer in it. *)
Definition call {A} (f : W → A * W) (ev : A → E) : eff A := λ w, let '(a, w') := f w in (a, [ev a], w').

(** A call that leaves no event. *)
Definition ask {A} (f : W → A * W) : eff A := λ w, let '(a, w') := f w in (a, [], w').

Definition or_fail {X A B : Type} (m : eff (X + A)) (k : A → eff (X + B)) : eff (X + B) :=
  m ≫= λ r, match r with inl e => mret (inl e) | inr a => k a end.

Definition when (b : bool) (m : eff unit) : eff unit := if b then m else mret tt.

(** A loop that goes on after an error. *)
Fixpoint each {A B} (f : A → eff B) (l : list A) : eff (list B) :=
  match l with
  | [] => mret []
  | a :: l' => f a ≫= λ b, each f l' ≫= λ bs, mret (b :: bs)
  end.

Definition result_of {A} (m : eff A) (w : W) : A := (m w).1.1.
Definition trace_of {A} (m : eff A) (w : W) : list E := (m w).1.2.
Definition world_of {A} (m : eff A) (w : W) : W := (m w).2.
End eff.
Arguments eff : clear implicits.

(** *** Traces of composed computations *)

Section traces.
Context {W E : Type}.

Lemma trace_bind {A B} (m : eff W E A) (k : A → eff W E B) w :
  trace_of (m ≫= k) w = trace_of m w ++ trace_of (k (result_of m w)) (world_of m w).
Proof.
  unfold trace_of, result_of, world_of, mbind, eff_bind. destruct (m w) as [[a es] w1]. cbn.
  by destruct (k a w1) as [[b es'] w2].
Qed.

Lemma result_bind {A B} (m : eff W E A) (k : A → eff W E B) w :
  result_of (m ≫= k) w = result_of (k (result_of m w)) (world_of m w).
Proof.
  unfold result_of, world_of, mbind, eff_bind. destruct (m w) as [[a es] w1]. cbn.
  by destruct (k a w1) as [[b es'] w2].
Qed.

Lemma trace_call {A} (f : W → A * W) (ev : A → E) w : trace_of (call f ev) w = [ev (f w).1].
Proof. unfold trace_of, call. by destruct (f w). Qed.

Lemma result_call {A} (f : W → A * W) (ev : A → E) w : result_of (call f ev) w = (f w).1.
Proof. unfold result_of, call. by destruct (f w). Qed.

Lemma trace_ask {A} (f : W → A * W) w : trace_of (ask (E := E) f) w = [].
Proof. unfold trace_of, ask. by destruct (f w). Qed.

Lemma or_fail_inr {X A B} (m : eff W E (X + A)) (k : A → eff W E (X + B)) w b :
  result_of (or_fail m k) w = inr b →
  ∃ a, result_of m w = inr a ∧ result_of (k a) (world_of m w) = inr b ∧
       trace_of (or_fail m k) w = trace_of m w ++ trace_of (k a) (world_of m w).
Proof.
  unfold or_fail. rewrite result_bind, trace_bind.
  destruct (result_of m w) as [x|a]; [done|]. intros H. by exists a.
Qed.

(** What a projection sees of a loop: what it sees of each round. *)
Lemma omap_each {A B C} (p : E → option C) (f : A → eff W E B) (g : A → list C) l w :
  (∀ a w, omap p (trace_of (f a) w) = g a) →
  omap p (trace_of (each f l) w) = mjoin (map g l).
Proof.
  intros Hf. revert w. induction l as [|a l IH]; intros w; [done|].
  cbn [each map mjoin list_join]. rewrite !trace_bind, !omap_app, Hf, IH. cbn. by rewrite app_nil_r.
Qed.
End traces.

(** ** Weights

    A weight is a number per event. [weighs f g m]: whatever the world answers,
    the events of [m] weigh together what its result says; [quiet f m]: nothing. *)
Section weights.
Context {W E : Type}.
Variable f : E → Z.

Fixpoint weight (es : list E) : Z := match es with [] => 0 | e :: es' => f e + weight es' end.

Definition weighs {A} (g : A → Z) (m : eff W E A) : Prop :=
  ∀ w, weight (trace_of m w) = g (result_of m w).

Definition quiet {A} (m : eff W E A) : Prop := weighs (λ _, 0) m.

Lemma weight_app es es' : weight (es ++ es') = weight es + weight es'.
Proof. induction es as [|e es IH]; [done|]. cbn. rewrite IH. lia. Qed.

Lemma weighs_ret {A} (g : A → Z) a : g a = 0 → weighs g (mret a).
Proof. intros H w. unfold trace_of, result_of, mret, eff_ret. cbn. by rewrite H. Qed.

Lemma weighs_bind {A B} (g : A → Z) (h : B → Z) (m : eff W E A) (k : A → eff W E B) :
  weighs g m → (∀ a, weighs (λ b, h b - g a) (k a)) → weighs h (m ≫= k).
Proof.
  intros Hm Hk w. rewrite trace_bind, weight_app, result_bind, Hm.
  rewrite (Hk (result_of m w) (world_of m w)). lia.
Qed.

(** Something quiet first. *)
Lemma weighs_after {A B} (h : B → Z) (m : eff W E A) (k : A → eff W E B) :
  quiet m → (∀ a, weighs h (k a)) → weighs h (m ≫= k).
Proof.
  intros Hm Hk. apply (weighs_bind (λ _, 0)); [done|]. intros a w. rewrite Hk. lia.
Qed.

(** Something of a fixed weight first. *)
Lemma weighs_step {A B} n (h : B → Z) (m : eff W E A) (k : A → eff W E B) :
  weighs (λ _, n) m → (∀ a, weighs (λ b, h b - n) (k a)) → weighs h (m ≫= k).
Proof. apply weighs_bind. Qed.

Lemma weighs_ext {A} (g h : A → Z) (m : eff W E A) : (∀ a, g a = h a) → weighs g m → weighs h m.
Proof. intros Hgh Hm w. by rewrite Hm, Hgh. Qed.

Lemma weighs_call {A} (g : A → Z) (c : W → A * W) (ev : A → E) :
  (∀ a, f (ev a) = g a) → weighs g (call c ev).
Proof.
  intros H w. rewrite trace_call, result_call. cbn. rewrite H. lia.
Qed.

Lemma quiet_ret {A} (a : A) : quiet (mret a).
Proof. by apply weighs_ret. Qed.

Lemma quiet_ask {A} (c : W → A * W) : quiet (ask c).
Proof. intros w. by rewrite trace_ask. Qed.

Lemma quiet_bind {A B} (m : eff W E A) (k : A → eff W E B) :
  quiet m → (∀ a, quiet (k a)) → quiet (m ≫= k).
Proof. apply weighs_after. Qed.

Lemma quiet_call {A} (c : W → A * W) (ev : A → E) : (∀ a, f (ev a) = 0) → quiet (call c ev).
Proof. apply weighs_call. Qed.

Lemma quiet_when b (m : eff W E unit) : quiet m → quiet (when b m).
Proof. intros Hm. destruct b; [done|apply quiet_ret]. Qed.

Lemma quiet_each {A B} (g : A → eff W E B) l : (∀ a, quiet (g a)) → quiet (each g l).
Proof.
  intros Hg. induction l as [|a l IH]; [apply quiet_ret|]. cbn. apply quiet_bind; [done|]. intros b.
  apply quiet_bind; [done|]. intros bs. apply quiet_ret.
Qed.
End weights.

(** The first error of a loop. *)
Fixpoint first_err (l : list (err + unit)) : err + unit :=
  match l with [] => inr tt | inl e :: _ => inl e | inr _ :: l' => first_err l' end.

(** ** Traces whose every event is allowed *)

Section logic.
Context {W E : Type}.

(** A fact about the past that later events do not undo. *)
Class Stable (P : list E → Prop) := stable : ∀ past es, P past → P (past ++ es).

#[global] Instance stable_true : Stable (λ _, True).
Proof. done. Qed.
#[global] Instance stable_in e : Stable (λ past, e ∈ past).
Proof. intros past es. set_solver. Qed.
#[global] Instance stable_elem e : @Stable (elem_of e).
Proof. apply stable_in. Qed.
Lemma stable_and P Q : Stable P → Stable Q → Stable (λ past, P past ∧ Q past).
Proof. intros HP HQ past es [? ?]. split; by apply stable. Qed.
Lemma stable_exists {A} (P : A → list E → Prop) :
  (∀ a, Stable (P a)) → Stable (λ past, ∃ a, P a past).
Proof. intros HP past es [a ?]. exists a. by apply stable. Qed.
Lemma stable_or P Q : Stable P → Stable Q → Stable (λ past, P past ∨ Q past).
Proof. intros HP HQ past es [?|?]; [left|right]; by apply stable. Qed.
Lemma stable_imp (φ : Prop) P : Stable P → Stable (λ past, φ → P past).
Proof. intros HP past es H Hφ. apply stable. by apply H. Qed.

Variable allowed : list E → E → Prop.

Fixpoint lawful (past es : list E) : Prop :=
  match es with
  | [] => True
  | e :: es' => allowed past e ∧ lawful (past ++ [e]) es'
  end.

Lemma lawful_app past es es' :
  lawful past es → lawful (past ++ es) es' → lawful past (es ++ es').
Proof.
  revert past. induction es as [|e es IH]; intros past; simpl.
  - by rewrite app_nil_r.
  - intros [He Hes] Hes'. split; [done|]. apply IH; [done|]. by rewrite <- app_assoc.
Qed.

Lemma lawful_at past es i e :
  lawful past es → es !! i = Some e → allowed (past ++ take i es) e.
Proof.
  revert past i. induction es as [|e' es IH]; intros past i Hes Hi; [done|].
  destruct Hes as [He' Hes]. destruct i as [|i]; simpl in *.
  - simplify_eq. by rewrite app_nil_r.
  - pose proof (IH _ _ Hes Hi) as Hlaw. by rewrite <- app_assoc in Hlaw.
Qed.

Lemma lawful_Forall (φ : E → Prop) past es :
  (∀ past e, allowed past e → φ e) → lawful past es → Forall φ es.
Proof.
  intros Hφ. revert past. induction es as [|e es IH]; intros past; [by constructor|].
  intros [He Hes]. constructor; [by eapply Hφ|by eapply IH].
Qed.

(** [triple P m R]: from a past that satisfies [P], [m] does only what is
    allowed, and [R] holds of its result and of the whole past. *)
Definition triple {A} (P : list E → Prop) (m : eff W E A) (R : A → list E → Prop) : Prop :=
  ∀ w past, P past → lawful past (trace_of m w) ∧ R (result_of m w) (past ++ trace_of m w).

Lemma triple_conseq {A} (P P' : list E → Prop) (m : eff W E A) (R R' : A → list E → Prop) :
  triple P' m R' → (∀ past, P past → P' past) → (∀ a past, R' a past → R a past) → triple P m R.
Proof. intros Hm HP HR w past Hp. destruct (Hm w past (HP _ Hp)) as [? ?]. auto. Qed.

Lemma triple_ret {A} (P : list E → Prop) (a : A) (R : A → list E → Prop) :
  (∀ past, P past → R a past) → triple P (mret a) R.
Proof.
  intros H w past Hp. unfold trace_of, result_of, mret, eff_ret. cbn. rewrite app_nil_r. auto.
Qed.

Lemma triple_bind {A B} P Q R (m : eff W E A) (k : A → eff W E B) :
  triple P m Q → (∀ a, triple (Q a) (k a) R) → triple P (m ≫= k) R.
Proof.
  intros Hm Hk w past Hp. destruct (Hm w past Hp) as [Hl HQ].
  unfold trace_of, result_of, mbind, eff_bind in *.
  destruct (m w) as [[a es] w1]. cbn in *.
  destruct (Hk a w1 _ HQ) as [Hl' HR]. unfold trace_of, result_of in Hl', HR.
  destruct (k a w1) as [[b es'] w2]. cbn in *.
  rewrite <- app_assoc in HR. split; [by apply lawful_app|done].
Qed.

Lemma triple_call_from {A} (P : list E → Prop) (R : A → list E → Prop) (f : W → A * W) (ev : A → E) :
  (∀ w past, P past → allowed past (ev (f w).1) ∧ R (f w).1 (past ++ [ev (f w).1])) →
  triple P (call f ev) R.
Proof.
  intros H w past Hp. specialize (H w past Hp). unfold trace_of, result_of, call.
  destruct (f w) as [a w']. cbn in *. tauto.
Qed.

Lemma triple_call {A} (P : list E → Prop) (R : A → list E → Prop) (f : W → A * W) (ev : A → E) :
  (∀ a past, P past → allowed past (ev a) ∧ R a (past ++ [ev a])) →
  triple P (call f ev) R.
Proof. intros H. apply triple_call_from. auto. Qed.

Lemma triple_ask {A} P (f : W → A * W) : triple P (ask f) (λ _, P).
Proof.
  intros w past Hp. unfold trace_of, result_of, ask. destruct (f w) as [a w']. cbn.
  by rewrite app_nil_r.
Qed.

Lemma triple_or_fail {X A B} (P : list E → Prop) Q R (m : eff W E (X + A)) (k : A → eff W E (X + B)) :
  triple P m Q → (∀ e past, Q (inl e) past → R (inl e) past) → (∀ a, triple (Q (inr a)) (k a) R) →
  triple P (or_fail m k) R.
Proof.
  intros Hm He Hk. eapply triple_bind; [exact Hm|]. intros [e|a]; [|apply Hk].
  apply triple_ret. intros past H. by apply He.
Qed.

(** *** Rules for what stays true throughout *)

(** [m] does only what is allowed as long as [P] holds, and keeps [P]. *)
Definition under {A} (P : list E → Prop) (m : eff W E A) : Prop := triple P m (λ _, P).

Lemma under_ret {A} P (a : A) : under P (mret a).
Proof. by apply triple_ret. Qed.

Lemma under_bind {A B} P (m : eff W E A) (k : A → eff W E B) :
  under P m → (∀ a, under P (k a)) → under P (m ≫= k).
Proof. intros Hm Hk. by eapply triple_bind. Qed.

Lemma under_call {A} P `{!Stable P} (f : W → A * W) (ev : A → E) :
  (∀ a past, P past → allowed past (ev a)) → under P (call f ev).
Proof. intros H. apply triple_call. intros a past Hp. split; [auto|by apply stable]. Qed.

Lemma under_ask {A} P (f : W → A * W) : under P (ask f).
Proof. apply triple_ask. Qed.

Lemma under_or_fail {X A B} P (m : eff W E (X + A)) (k : A → eff W E (X + B)) :
  under P m → (∀ a, under P (k a)) → under P (or_fail m k).
Proof.
  intros Hm Hk. apply under_bind; [done|]. intros [e|a]; [apply under_ret|apply Hk].
Qed.

Lemma under_when P b (m : eff W E unit) : under P m → under P (when b m).
Proof. intros Hm. destruct b; [done|apply under_ret]. Qed.

Lemma under_if {A} P (b : bool) (m m' : eff W E A) :
  under P m → under P m' → under P (if b then m else m').
Proof. by destruct b. Qed.

Lemma under_each {A B} P (f : A → eff W E B) l : (∀ a, under P (f a)) → under P (each f l).
Proof.
  intros Hf. induction l as [|a l IH]; simpl; [apply under_ret|].
  apply under_bind; [apply Hf|]. intros b. apply under_bind; [done|]. intros bs. apply under_ret.
Qed.

(** After a computation that keeps [P], with a stronger past. *)
Lemma under_weaken {A} (P Q : list E → Prop) (m : eff W E A) (R : A → list E → Prop) :
  under P m → (∀ past, Q past → P past) → triple Q m (λ _ past, P past).
Proof. intros Hm HQ. eapply triple_conseq; [exact Hm|done|done]. Qed.
End logic.

(** Facts are combined by the connectives; unification finds the parts. *)
#[export] Hint Extern 5 (Stable _) =>
  first [apply stable_and | apply stable_or | apply stable_imp | apply stable_exists] : typeclass_instances.

(** Walks through a computation whose events are all allowed under [P]. *)
Ltac under_step :=
  match goal with
  | |- under _ _ (mret _) => apply under_ret
  | |- under _ _ (_ ≫= _) => apply under_bind; [|intros ?]
  | |- under _ _ (or_fail _ _) => apply under_or_fail; [|intros ?]
  | |- under _ _ (when _ _) => apply under_when
  | |- under _ _ (ask _) => apply under_ask
  | |- under _ _ (each _ _) => apply under_each; intros ?
  | |- under _ _ (if ?b then _ else _) => destruct b eqn:?
  | |- under _ _ (match ?r with inl _ => _ | inr _ => _ end) => destruct r
  | |- under _ _ (let '(_, _) := ?r in _) => destruct r
  end.
