(* ===== verification/GoStrings.v ===== *)
(** * Go strings

    The functions of Go's [strings] package that the modelled code calls, on
    byte strings. Case mapping and space trimming are those of the ASCII
    range; a byte outside it is left alone. *)
From Stdlib Require Export Strings.Ascii.
From S2P Require Import Prelude.

Fixpoint contains (s sub : string) : bool :=
  String.prefix sub s ||
  match s with EmptyString => false | String _ s' => contains s' sub end.

Definition hasPrefix (s pre : string) : bool := String.prefix pre s.

Definition rev_string (s : string) : string :=
  String.string_of_list_ascii (reverse (String.list_ascii_of_string s)).

Definition hasSuffix (s suf : string) : bool := String.prefix (rev_string suf) (rev_string s).

Definition lower_ascii (c : ascii) : ascii :=
  let n := N_of_ascii c in
  if ((65 <=? n) && (n <=? 90))%N then ascii_of_N (n + 32) else c.

Definition upper_ascii (c : ascii) : ascii :=
  let n := N_of_ascii c in
  if ((97 <=? n) && (n <=? 122))%N then ascii_of_N (n - 32) else c.

Fixpoint map_string (f : ascii → ascii) (s : string) : string :=
  match s with EmptyString => EmptyString | String c s' => String (f c) (map_string f s') end.

Definition toLower : string → string := map_string lower_ascii.
Definition toUpper : string → string := map_string upper_ascii.

Definition equalFold (s t : string) : bool := toLower s == toLower t.

Definition is_space (c : ascii) : bool :=
  let n := N_of_ascii c in ((9 <=? n) && (n <=? 13) || (n =? 32))%N.

Fixpoint trim_left (s : string) : string :=
  match s with
  | EmptyString => EmptyString
  | String c s' => if is_space c then trim_left s' else s
  end.

Definition trimSpace (s : string) : string :=
  rev_string (trim_left (rev_string (trim_left s))).

Definition trimSuffix (s suf : string) : string :=
  if hasSuffix s suf then String.substring 0 (String.length s - String.length suf) s else s.

Definition trimPrefix (s pre : string) : string :=
  if hasPrefix s pre
  then String.substring (String.length pre) (String.length s - String.length pre) s else s.

(** [strings.ReplaceAll(s, old, new)] for a non-empty [old]: leftmost,
    non-overlapping matches. [skip] counts the bytes of a match still to drop. *)
Fixpoint replace_from (old new : string) (skip : nat) (s : string) : string :=
  match s with
  | EmptyString => EmptyString
  | String c s' =>
      match skip with
      | S k => replace_from old new k s'
      | O => if String.prefix old s
             then new ^^ replace_from old new (String.length old - 1)%nat s'
             else String c (replace_from old new 0 s')
      end
  end.

Definition replaceAll (s old new : string) : string := replace_from old new 0 s.

(** [strings.Split(s, sep)] for a one-byte separator. *)
Fixpoint split_on (sep : ascii) (s : string) : list string :=
  match s with
  | EmptyString => [""]
  | String c s' =>
      let r := split_on sep s' in
      if c == sep then "" :: r
      else match r with [] => [String c ""] | w :: ws => String c w :: ws end
  end.

(** [strings.Cut(s, sep)] for a one-byte separator. *)
Fixpoint cut (sep : ascii) (s : string) : option (string * string) :=
  match s with
  | EmptyString => None
  | String c s' =>
    if c == sep then Some ("", s')
    else match cut sep s' with Some (a, b) => Some (String c a, b) | None => None end
  end.

(** [strings.Fields] and [strings.Join(_, " ")]. *)
Fixpoint fields_from (acc : string) (s : string) : list string :=
  match s with
  | EmptyString => if acc == "" then [] else [acc]
  | String c s' =>
      if is_space c
      then (if acc == "" then [] else [acc]) ++ fields_from "" s'
      else fields_from (acc ^^ String c "") s'
  end.
Definition fields : string → list string := fields_from "".
Definition join (sep : string) (l : list string) : string := String.concat sep l.

(** [s[:n]] of a string of at least [n] bytes. *)
Definition take_bytes (n : nat) (s : string) : string := String.substring 0 n s.

(** The width in bytes of the first rune of [s], as [range] over a string
    decodes it: 1 for ASCII and for an invalid encoding, and the length of a
    well-formed UTF-8 sequence otherwise. *)
Definition in_range (lo hi : N) (c : ascii) : bool :=
  ((lo <=? N_of_ascii c) && (N_of_ascii c <=? hi))%N.

Definition rune_width (s : string) : nat :=
  match s with
  | String c0 (String c1 s1) =>
      let n := N_of_ascii c0 in
      if ((194 <=? n) && (n <=? 223))%N then
        if in_range 128 191 c1 then 2%nat else 1%nat
      else if ((224 <=? n) && (n <=? 239))%N then
        match s1 with
        | String c2 _ =>
            if in_range (if n =? 224 then 160 else 128)%N (if n =? 237 then 159 else 191)%N c1
               && in_range 128 191 c2 then 3%nat else 1%nat
        | _ => 1%nat
        end
      else if ((240 <=? n) && (n <=? 244))%N then
        match s1 with
        | String c2 (String c3 _) =>
            if in_range (if n =? 240 then 144 else 128)%N (if n =? 244 then 143 else 191)%N c1
               && in_range 128 191 c2 && in_range 128 191 c3 then 4%nat else 1%nat
        | _ => 1%nat
        end
      else 1%nat
  | _ => 1%nat
  end.

(** ** Lemmas *)

Lemma prefix_app s pre : String.prefix pre s = true ↔ ∃ t, s = pre ^^ t.
Proof.
  revert s. induction pre as [|c pre IH]; intros s; simpl.
  - split; [by exists s|]. by destruct s.
  - destruct s as [|d s]; simpl; [by split; [|intros [? [=]]]|].
    destruct (ascii_dec c d) as [->|Hcd].
    + rewrite IH. split; [intros [t ->]; by exists t|intros [t [= ->]]; by exists t].
    + split; [done|]. by intros [t [= ->]].
Qed.

(** [contains s sub] holds exactly when [sub] occurs in [s]. *)
Lemma contains_spec s sub : contains s sub = true ↔ ∃ u v, s = u ^^ sub ^^ v.
Proof.
  induction s as [|c s IH]; cbn [contains]; rewrite orb_true_iff, prefix_app.
  - split; [|intros (u & v & Hs)].
    + intros [[t Ht]|]; [by exists "", t|done].
    + left. destruct u; [|done]. by exists v.
  - rewrite IH. split.
    + intros [[t Ht]|(u & v & ->)]; [by exists "", t|by exists (String c u), v].
    + intros ([|d u] & v & Hs); simpl in Hs; [left; by exists v|right].
      injection Hs as -> ->. exists u, v. reflexivity.
Qed.

Lemma prefix_nil s : String.prefix "" s = true.
Proof. by destruct s. Qed.

Lemma app_cons c s t : String c s ^^ t = String c (s ^^ t).
Proof. reflexivity. Qed.

Lemma string_app_length s t : String.length (s ^^ t) = (String.length s + String.length t)%nat.
Proof. induction s as [|c s IH]; [done|]. rewrite app_cons. simpl. by rewrite IH. Qed.

Lemma string_app_nil_r s : s ^^ "" = s.
Proof. induction s as [|c s IH]; [done|]. by rewrite app_cons, IH. Qed.

Lemma string_app_assoc s t u : (s ^^ t) ^^ u = s ^^ t ^^ u.
Proof. induction s as [|c s IH]; [done|]. by rewrite !app_cons, IH. Qed.

Lemma substring_length n s : (n <= String.length s)%nat → String.length (String.substring 0 n s) = n.
Proof.
  revert s. induction n as [|n IH]; intros [|c s] Hn; simpl in *; try lia; auto.
  rewrite IH; lia.
Qed.

Lemma rev_string_length s : String.length (rev_string s) = String.length s.
Proof.
  unfold rev_string.
  assert (∀ l, String.length (String.string_of_list_ascii l) = length l) as Hl
    by (induction l; simpl; congruence).
  rewrite Hl, length_reverse. by induction s; simpl; congruence.
Qed.

Lemma trim_left_length s : (String.length (trim_left s) <= String.length s)%nat.
Proof. induction s as [|c s IH]; simpl; [lia|]. destruct (is_space c); simpl; lia. Qed.

(** Text in which [old] does not occur is returned unchanged. *)
Lemma replaceAll_id s old new : contains s old = false → replaceAll s old new = s.
Proof.
  unfold replaceAll. induction s as [|c s IH]; intros Hc; [done|].
  cbn [contains] in Hc. apply orb_false_iff in Hc as [Hp Hc].
  cbn [replace_from]. rewrite Hp. by rewrite IH.
Qed.

(** ** Trimming twice is trimming once *)

Lemma list_of_string_app s t :
  String.list_ascii_of_string (s ^^ t) =
  String.list_ascii_of_string s ++ String.list_ascii_of_string t.
Proof. induction s as [|c s IH]; [done|]. rewrite app_cons. simpl. by rewrite IH. Qed.

Lemma string_of_list_app l k :
  String.string_of_list_ascii (l ++ k) =
  String.string_of_list_ascii l ^^ String.string_of_list_ascii k.
Proof. induction l as [|c l IH]; [done|]. simpl. by rewrite IH, app_cons. Qed.

Lemma rev_string_cons c s : rev_string (String c s) = rev_string s ^^ String c "".
Proof. unfold rev_string. simpl. by rewrite reverse_cons, string_of_list_app. Qed.

Lemma rev_string_snoc c s : rev_string (s ^^ String c "") = String c (rev_string s).
Proof. unfold rev_string. by rewrite list_of_string_app, reverse_app. Qed.

Lemma trim_left_snoc c s :
  is_space c = false → trim_left (s ^^ String c "") = trim_left s ^^ String c "".
Proof.
  intros Hc. induction s as [|d s IH]; [simpl; by rewrite Hc|].
  rewrite app_cons. cbn [trim_left]. by destruct (is_space d).
Qed.

Lemma trim_left_cases s :
  trim_left s = "" ∨ ∃ c t, trim_left s = String c t ∧ is_space c = false.
Proof.
  induction s as [|c s IH]; [by left|]. cbn [trim_left].
  destruct (is_space c) eqn:E; [done|]. right. by exists c, s.
Qed.

Lemma trim_left_idem s : trim_left (trim_left s) = trim_left s.
Proof.
  destruct (trim_left_cases s) as [->|(c & t & -> & Hc)]; [done|].
  cbn [trim_left]. by rewrite Hc.
Qed.

Lemma trimSpace_idem s : trimSpace (trimSpace s) = trimSpace s.
Proof.
  unfold trimSpace at 2 3.
  destruct (trim_left_cases s) as [->|(c & t & -> & Hc)]; [done|].
  rewrite rev_string_cons, trim_left_snoc, rev_string_snoc by done.
  set (y := trim_left (rev_string t)). unfold trimSpace.
  replace (trim_left (String c (rev_string y))) with (String c (rev_string y))
    by (cbn [trim_left]; by rewrite Hc).
  rewrite <- rev_string_snoc.
  assert (∀ u, rev_string (rev_string u) = u) as Hinv.
  { intros u. induction u as [|d u IH]; [done|].
    by rewrite rev_string_cons, rev_string_snoc, IH. }
  rewrite Hinv, trim_left_snoc by done. subst y. by rewrite trim_left_idem.
Qed.

Lemma toLower_idem s : toLower (toLower s) = toLower s.
Proof.
  unfold toLower. induction s as [|c s IH]; [done|]. cbn [map_string]. rewrite IH. f_equal.
  destruct c as [[] [] [] [] [] [] [] []]; reflexivity.
Qed.

(** ** Bytes of a string *)

Lemma toLower_app s t : toLower (s ^^ t) = toLower s ^^ toLower t.
Proof.
  induction s as [|c s IH]; [done|]. rewrite !app_cons.
  change (String (lower_ascii c) (toLower (s ^^ t)) = toLower (String c s) ^^ toLower t).
  by rewrite IH.
Qed.

Fixpoint all_bytes (p : ascii → bool) (s : string) : bool :=
  match s with EmptyString => true | String c s' => p c && all_bytes p s' end.

Lemma all_bytes_app p s t : all_bytes p (s ^^ t) = all_bytes p s && all_bytes p t.
Proof.
  induction s as [|c s IH]; [done|]. rewrite app_cons. cbn [all_bytes].
  by rewrite IH, andb_assoc.
Qed.

Lemma all_bytes_weaken (p q : ascii → bool) s :
  (∀ c, p c = true → q c = true) → all_bytes p s = true → all_bytes q s = true.
Proof.
  intros Hpq. induction s as [|c s IH]; [done|]. cbn [all_bytes].
  rewrite !andb_true_iff. naive_solver.
Qed.

(** A string without space bytes is not trimmed. *)
Lemma trim_left_nospace s : all_bytes (λ c, negb (is_space c)) s = true → trim_left s = s.
Proof.
  destruct s as [|c s]; [done|]. cbn [all_bytes trim_left].
  intros [Hc _]%andb_true_iff. apply negb_true_iff in Hc. by rewrite Hc.
Qed.

Lemma all_bytes_rev p s : all_bytes p s = true → all_bytes p (rev_string s) = true.
Proof.
  induction s as [|c s IH]; [done|]. rewrite rev_string_cons, all_bytes_app. cbn [all_bytes].
  intros [Hc Hs]%andb_true_iff. by rewrite IH, Hc.
Qed.

Lemma rev_string_involutive s : rev_string (rev_string s) = s.
Proof.
  induction s as [|c s IH]; [done|]. by rewrite rev_string_cons, rev_string_snoc, IH.
Qed.

Lemma trimSpace_nospace s : all_bytes (λ c, negb (is_space c)) s = true → trimSpace s = s.
Proof.
  intros Hs. unfold trimSpace. rewrite (trim_left_nospace s) by done.
  rewrite trim_left_nospace by (by apply all_bytes_rev). apply rev_string_involutive.
Qed.

(** ** Numbers in a text

    A word without digits and minus signs is found in a text around a printed
    number only if it is found on one of its sides. *)
Definition number_char (c : ascii) : bool := in_range 48 57 c || (c == "-")%char.

Lemma prefix_before w u c v :
  all_bytes (λ d, negb (d == c)) w = true → String.prefix w (u ^^ String c v) = String.prefix w u.
Proof.
  revert u. induction w as [|d w IH]; intros u Hw; [by destruct u|].
  apply andb_true_iff in Hw as [Hd%negb_true_iff%bool_decide_eq_false Hw].
  destruct u as [|x u]; simpl; [by destruct (ascii_dec d c)|].
  destruct (ascii_dec d x); [by apply IH|done].
Qed.

Lemma contains_around w u c v :
  all_bytes (λ d, negb (d == c)) w = true →
  contains (u ^^ String c v) w = contains u w || contains v w.
Proof.
  intros Hw. induction u as [|x u IH].
  - change (String.prefix w (String c v) || contains v w = contains "" w || contains v w).
    pose proof (prefix_before w "" c v Hw) as Hp.
    change (String.prefix w (String c v) = String.prefix w "") in Hp. rewrite Hp.
    cbn [contains]. by rewrite orb_false_r.
  - change (String.prefix w (String x u ^^ String c v) || contains (u ^^ String c v) w
            = (String.prefix w (String x u) || contains u w) || contains v w).
    by rewrite prefix_before, IH, orb_assoc.
Qed.

Lemma contains_skips w u d v :
  d ≠ "" → w ≠ "" → all_bytes number_char d = true → all_bytes (λ c, negb (number_char c)) w = true →
  contains (u ^^ d ^^ v) w = contains u w || contains v w.
Proof.
  intros Hd Hw Hdigits Hfree.
  assert (∀ c, number_char c = true → all_bytes (λ x, negb (x == c)) w = true) as Hsep.
  { intros c Hc. eapply all_bytes_weaken; [|exact Hfree]. intros x Hx.
    apply negb_true_iff, bool_decide_eq_false. intros ->. by rewrite Hc in Hx. }
  assert (∀ d, all_bytes number_char d = true → contains (d ^^ v) w = contains v w) as Hrest.
  { intros d'. induction d' as [|c d' IH]; [done|]. intros [Hc Hd']%andb_true_iff.
    rewrite <- (IH Hd'). refine (eq_trans (contains_around w "" c (d' ^^ v) (Hsep c Hc)) _).
    by destruct w. }
  destruct d as [|c d]; [done|]. apply andb_true_iff in Hdigits as [Hc Hdigits].
  refine (eq_trans (contains_around w u c (d ^^ v) (Hsep c Hc)) _). by rewrite Hrest.
Qed.

Lemma pretty_go_chars (n : N) : ∀ s,
  all_bytes number_char s = true → all_bytes number_char (pretty_N_go n s) = true.
Proof.
  induction (N.lt_wf_0 n) as [n _ IH]. intros s Hs. destruct (decide (0 < n)%N) as [Hn|Hn].
  - rewrite pretty_N_go_step by done. apply IH; [by apply N.div_lt|].
    cbn [all_bytes]. rewrite Hs, andb_true_r. unfold pretty_N_char. by repeat case_match.
  - assert (n = 0%N) as -> by lia. by rewrite pretty_N_go_0.
Qed.

Lemma pretty_go_length (n : N) : ∀ s,
  (0 < String.length s)%nat → (0 < String.length (pretty_N_go n s))%nat.
Proof.
  induction (N.lt_wf_0 n) as [n _ IH]. intros s Hs. destruct (decide (0 < n)%N).
  - rewrite pretty_N_go_step by done. apply IH; [by apply N.div_lt|simpl; lia].
  - assert (n = 0%N) as -> by lia. by rewrite pretty_N_go_0.
Qed.

Lemma fmt_d_chars z : all_bytes number_char (fmt_d z) = true ∧ fmt_d z ≠ "".
Proof.
  assert (∀ n : N, all_bytes number_char (pretty n) = true ∧ pretty n ≠ "") as Hn.
  { intros n. unfold pretty, pretty_N. destruct (decide _) as [|Hnz]; [done|].
    split; [by apply pretty_go_chars|]. rewrite pretty_N_go_step by lia. intros Hz.
    pose proof (pretty_go_length (n `div` 10)%N (String (pretty_N_char (n `mod` 10)) "")
      (Nat.lt_0_succ _)) as Hpos. rewrite Hz in Hpos. simpl in Hpos. lia. }
  unfold fmt_d. destruct z as [|p|p]; [done|apply (Hn (N.pos p))|].
  destruct (Hn (N.pos p)) as [H _]. split; [|done]. simpl. exact H.
Qed.
