(* ===== verification/Status.v ===== *)
(** * Status strings and error classification

    The pure vocabulary of [internal/service/runner_rpc.go]: how a status a
    runner reports becomes an attempt, session and event status, how an error
    message is put into a category, and the small list and string functions
    the handlers share. *)
From S2P Require Import Prelude GoStrings.

(** The [switch] of Go over string constants. *)
Definition one_of (l : list string) (s : string) : bool := existsb (String.eqb s) l.

(** ** Status maps *)

Definition executionAttemptStatus (taskStatus : string) : string :=
  if one_of ["done"; "completed"] taskStatus then "succeeded"
  else if one_of ["error"] taskStatus then "failed"
  else if one_of ["cancelled"] taskStatus then "cancelled"
  else "running".

(** [(runStatus, sessionStatus)], or [None] where the code returns [ok = false]. *)
Definition sessionTerminalStatuses (taskStatus : string) : option (string * string) :=
  if one_of ["done"; "completed"] taskStatus then Some ("completed", "completed")
  else if one_of ["error"] taskStatus then Some ("failed", "error")
  else if one_of ["cancelled"] taskStatus then Some ("cancelled", "error")
  else None.

Definition statusIsErrorCategoryCandidate (status : string) : bool :=
  one_of ["error"; "cancelled"] status.

(** ** Error categories *)

Definition normalizeErrorCategory (category : string) : string :=
  if one_of ["budget_exceeded"; "model_error"; "runtime_error"; "timeout";
             "transport_error"; "stuck"; "resource_limit"; "cancelled"; "unknown";
             "sandbox_start_failed"; "sandbox_crashed"] category
  then category else "".

Definition isRecoverablePromptError (errorCategory : string) : bool :=
  one_of ["timeout"; "transport_error"] errorCategory.

Definition isPromptTransportFailureMessage (lower : string) : bool :=
  if negb (contains lower "post /message") then false
  else contains lower "eof" || contains lower "connection reset" ||
       contains lower "broken pipe" || contains lower "server closed" ||
       contains lower "connection refused".

Definition contains_any (l : list string) (s : string) : bool := existsb (contains s) l.

Definition classifyTaskErrorCategory (status message : string) : string :=
  if status == "cancelled" then "cancelled" else
  let lower := toLower message in
  if contains_any ["sandbox failed to start"; "sandbox_start_failed"] lower then
    "sandbox_start_failed"
  else if contains_any ["sandbox crashed"; "sandbox_crashed"] lower then "sandbox_crashed"
  else if contains_any ["budget"; "cost limit"; "max budget"] lower then "budget_exceeded"
  else if contains_any ["oomkilled"; "out of memory"; "memory limit"; "resource limit";
                        "cgroup memory"] lower then "resource_limit"
  else if contains_any ["timeout"; "deadline exceeded"; "context deadline";
                        "lease expired"] lower then "timeout"
  else if isPromptTransportFailureMessage lower then "transport_error"
  else if contains_any ["stuck"; "loop"] lower then "stuck"
  else if contains_any ["model"; "llm"; "rate limit"; "provider"; "api error"] lower then
    "model_error"
  else if message == "" then "unknown"
  else "runtime_error".

Definition classifyFailureCategory (errorCategory : string) : string :=
  if one_of ["timeout"] errorCategory then "timeout"
  else if one_of ["cancelled"] errorCategory then "user_cancelled"
  else if one_of ["budget_exceeded"] errorCategory then "quota_exceeded"
  else if one_of ["model_error"] errorCategory then "internal_error"
  else if one_of ["resource_limit"] errorCategory then "resource_limit"
  else if one_of ["runtime_error"; "transport_error"; "stuck"; "isolation_unavailable";
                  "sandbox_start_failed"; "sandbox_crashed"] errorCategory
       then "harness_error"
  else "unknown".

Definition truncateTo500 (s : string) : string :=
  if (String.length s <=? 500)%nat then s else take_bytes 497 s ^^ "...".

(** ** Event types *)

(** One iteration of the loop, on the rune that starts at this byte; a rune
    outside ASCII is replaced as a whole, whatever its width. *)
Definition sanitize_byte (c : ascii) : ascii :=
  let n := N_of_ascii c in
  if ((97 <=? n) && (n <=? 122) || (48 <=? n) && (n <=? 57))%N then c
  else if one_of ["."; "_"; "-"] (String c "") then c
  else "_"%char.

Fixpoint sanitize_runes (skip : nat) (s : string) : string :=
  match s with
  | EmptyString => EmptyString
  | String c s' =>
      match skip with
      | S k => sanitize_runes k s'
      | O => String (sanitize_byte c) (sanitize_runes (rune_width s - 1) s')
      end
  end.

Definition sanitizeEventTypePart (part : string) : string :=
  if part == "" then "unknown" else
  let b := sanitize_runes 0 (toLower part) in
  if (String.length b =? 0)%nat then "unknown" else b.

Definition taskEventType (status errorCategory : string) (heartbeat : bool) : string :=
  if heartbeat then "task.heartbeat" else
  if one_of ["done"; "completed"] status then "task.completed"
  else if one_of ["error"] status then
    "task.failed." ^^ (if errorCategory == "" then "unknown" else errorCategory)
  else if one_of ["cancelled"] status then "task.cancelled"
  else if one_of ["running"] status then "task.progress"
  else "task." ^^ sanitizeEventTypePart status.

(** ** Lists of names *)

(** The loop of [normalizeTeamNames], with the [seen] set it keeps. *)
Fixpoint normalize_loop (seen : list string) (values : list string) : list string :=
  match values with
  | [] => []
  | value :: rest =>
      let value := trimSpace value in
      if (value == "") || one_of seen value then normalize_loop seen rest
      else value :: normalize_loop (value :: seen) rest
  end.

Definition normalizeTeamNames (values : list string) : list string :=
  normalize_loop [] values.

Definition splitCSV (value : string) : list string :=
  if trimSpace value == "" then [] else normalizeTeamNames (split_on "," value).

Definition nullStringSlice (values : list string) : list (option string) :=
  map nullString (List.filter (λ v, negb (v == "")) values).

Definition isHeartbeatSummary (summary : string) : bool := contains summary "server.heartbeat".

(** ** Token usage of an event; the getters return 0 for an absent message. *)
Record TokenUsage := {
  InputTokens : Z;
  OutputTokens : Z;
  CacheReadTokens : Z;
  CacheWriteTokens : Z;
  ReasoningTokens : Z;
  CostCents : Z;
}.

Definition token_field (f : TokenUsage → Z) (tu : option TokenUsage) : Z :=
  match tu with None => 0 | Some u => f u end.
Definition tokenUsageInputTokens := token_field InputTokens.
Definition tokenUsageOutputTokens := token_field OutputTokens.
Definition tokenUsageCacheReadTokens := token_field CacheReadTokens.
Definition tokenUsageCacheWriteTokens := token_field CacheWriteTokens.
Definition tokenUsageReasoningTokens := token_field ReasoningTokens.
Definition tokenUsageCostCents := token_field CostCents.

(** ** Lemmas *)

Lemma one_of_spec l s : one_of l s = true ↔ s ∈ l.
Proof.
  unfold one_of. rewrite existsb_exists. split.
  - intros (x & Hx & ->%String.eqb_eq). by apply list_elem_of_In.
  - intros Hs. exists s. split; [by apply list_elem_of_In|by apply String.eqb_eq].
Qed.

Lemma one_of_false l s : one_of l s = false ↔ s ∉ l.
Proof. rewrite <- not_true_iff_false. by rewrite one_of_spec. Qed.

(** The status of the attempt and that of the session end together. *)
Lemma terminal_statuses_agree st :
  sessionTerminalStatuses st = None ↔ executionAttemptStatus st = "running".
Proof.
  unfold sessionTerminalStatuses, executionAttemptStatus.
  repeat case_match; naive_solver.
Qed.

Lemma attempt_status_cases st :
  executionAttemptStatus st ∈ ["succeeded"; "failed"; "cancelled"; "running"].
Proof. unfold executionAttemptStatus. repeat case_match; set_solver. Qed.

Lemma normalizeErrorCategory_idem c :
  normalizeErrorCategory (normalizeErrorCategory c) = normalizeErrorCategory c.
Proof.
  unfold normalizeErrorCategory at 2 3. case_match eqn:E; [|done].
  unfold normalizeErrorCategory. by rewrite E.
Qed.

Lemma truncateTo500_length s : (String.length (truncateTo500 s) <= 500)%nat.
Proof.
  unfold truncateTo500. destruct (Nat.leb_spec (String.length s) 500); [done|].
  unfold take_bytes. rewrite string_app_length, substring_length by lia. simpl. lia.
Qed.

(** The bytes of an event type. *)
Definition event_byte (c : ascii) : bool :=
  let n := N_of_ascii c in
  ((97 <=? n) && (n <=? 122) || (48 <=? n) && (n <=? 57) || (n =? 46) || (n =? 95) || (n =? 45))%N.

Lemma sanitize_byte_ok c : event_byte (sanitize_byte c) = true.
Proof. destruct c as [[] [] [] [] [] [] [] []]; reflexivity. Qed.

Lemma sanitize_byte_id c : event_byte c = true → sanitize_byte c = c.
Proof. destruct c as [[] [] [] [] [] [] [] []]; (reflexivity || discriminate). Qed.

Lemma lower_event_byte c : event_byte c = true → lower_ascii c = c.
Proof. destruct c as [[] [] [] [] [] [] [] []]; (reflexivity || discriminate). Qed.

Lemma rune_width_event c s : event_byte c = true → rune_width (String c s) = 1%nat.
Proof.
  destruct s as [|d s]; [done|].
  destruct c as [[] [] [] [] [] [] [] []]; (reflexivity || discriminate).
Qed.

Lemma sanitize_runes_ok s k : all_bytes event_byte (sanitize_runes k s) = true.
Proof.
  revert k. induction s as [|c s IH]; intros [|k]; try done; cbn [sanitize_runes]; [|done].
  cbn [all_bytes]. by rewrite sanitize_byte_ok, IH.
Qed.

Lemma sanitize_runes_id s : all_bytes event_byte s = true → sanitize_runes 0 s = s.
Proof.
  induction s as [|c s IH]; [done|]. cbn [all_bytes sanitize_runes].
  intros [Hc Hs]%andb_true_iff. rewrite rune_width_event, sanitize_byte_id by done.
  simpl. by rewrite IH.
Qed.

Lemma toLower_event s : all_bytes event_byte s = true → toLower s = s.
Proof.
  unfold toLower. induction s as [|c s IH]; [done|]. cbn [all_bytes map_string].
  intros [Hc Hs]%andb_true_iff. by rewrite lower_event_byte, IH.
Qed.

Lemma sanitizeEventTypePart_ok s :
  all_bytes event_byte (sanitizeEventTypePart s) = true ∧ sanitizeEventTypePart s ≠ "".
Proof.
  unfold sanitizeEventTypePart. case_match; [done|].
  pose proof (sanitize_runes_ok (toLower s) 0) as Hok.
  by destruct (sanitize_runes 0 (toLower s)).
Qed.

Lemma sanitizeEventTypePart_id s :
  s ≠ "" → all_bytes event_byte s = true → sanitizeEventTypePart s = s.
Proof.
  intros Hne Hs. unfold sanitizeEventTypePart.
  rewrite bool_decide_eq_false_2 by done.
  rewrite toLower_event, sanitize_runes_id by done. by destruct s.
Qed.

Lemma category_bytes c :
  all_bytes event_byte (normalizeErrorCategory c) = true.
Proof.
  unfold normalizeErrorCategory. case_match eqn:E; [|done].
  apply one_of_spec in E. repeat (apply elem_of_cons in E as [->|E]; [done|]).
  by apply not_elem_of_nil in E.
Qed.

Lemma trimSpace_nonblank_loop seen values v :
  v ∈ normalize_loop seen values ↔ v ≠ "" ∧ v ∉ seen ∧ v ∈ map trimSpace values.
Proof.
  revert seen. induction values as [|w values IH]; intros seen; simpl; [set_solver|].
  destruct (decide (trimSpace w = "")) as [Hw|Hw]; simpl.
  - rewrite bool_decide_eq_true_2 by done. simpl. rewrite IH. set_solver.
  - rewrite bool_decide_eq_false_2 by done. simpl.
    destruct (one_of seen (trimSpace w)) eqn:E.
    + apply one_of_spec in E. rewrite IH. set_solver.
    + apply one_of_false in E. rewrite elem_of_cons, IH.
      destruct (decide (v = trimSpace w)); set_solver.
Qed.

Lemma normalize_loop_NoDup seen values : NoDup (normalize_loop seen values).
Proof.
  revert seen. induction values as [|w values IH]; intros seen; simpl; [constructor|].
  case_match; [apply IH|]. constructor; [|apply IH].
  rewrite trimSpace_nonblank_loop. set_solver.
Qed.

(** ** Properties *)

(** Every category the message classifier produces is one the server
    accepts from a runner, is never empty, and maps to the task-level failure
    "unknown" only for an empty message of a task that was not cancelled. *)
Theorem classification_closed status message :
  let c := classifyTaskErrorCategory status message in
  normalizeErrorCategory c = c ∧ c ≠ "" ∧
  (classifyFailureCategory c = "unknown" ↔ status ≠ "cancelled" ∧ message = "").
Proof.
  unfold classifyTaskErrorCategory.
  destruct (decide (status = "cancelled")) as [->|Hs]; [vm_compute; naive_solver|].
  rewrite bool_decide_eq_false_2 by done. cbv zeta.
  destruct (decide (message = "")) as [->|Hm]; [vm_compute; naive_solver|].
  rewrite (bool_decide_eq_false_2 (message = "")) by done.
  repeat (case_match; [repeat split; (done || (intros H'; by vm_compute in H') || naive_solver)|]).
  repeat split; (done || naive_solver).
Qed.

(** C20. An event type is "task." and a non-empty suffix of lower-case letters,
    digits, dots, underscores and dashes, whatever status a runner sends, as
    long as its error category went through [normalizeErrorCategory]; and the
    sanitiser changes nothing in a suffix that is already of that form. *)
Theorem event_type_safe status category heartbeat :
  (∃ part, taskEventType status (normalizeErrorCategory category) heartbeat = "task." ^^ part
           ∧ part ≠ "" ∧ all_bytes event_byte part = true) ∧
  ∀ p, sanitizeEventTypePart (sanitizeEventTypePart p) = sanitizeEventTypePart p.
Proof.
  split.
  - unfold taskEventType. destruct heartbeat; [by exists "heartbeat"|].
    case_match; [by exists "completed"|].
    case_match; [|case_match; [by exists "cancelled"|case_match; [by exists "progress"|]]].
    + pose proof (category_bytes category) as Hb.
      destruct (decide (normalizeErrorCategory category = "")) as [->|Hne].
      * by exists "failed.unknown".
      * rewrite bool_decide_eq_false_2 by done.
        exists ("failed." ^^ normalizeErrorCategory category).
        split; [reflexivity|split; [done|]]. by rewrite all_bytes_app, Hb.
    + exists (sanitizeEventTypePart status). destruct (sanitizeEventTypePart_ok status); auto.
  - intros p. destruct (sanitizeEventTypePart_ok p). by apply sanitizeEventTypePart_id.
Qed.

(** Team names are normalised to a duplicate-free list of exactly the
    trimmed, non-blank names given, and a comma-separated list goes through
    the same normalisation. *)
Theorem normalizeTeamNames_spec values csv :
  NoDup (normalizeTeamNames values) ∧
  (∀ v, v ∈ normalizeTeamNames values ↔ v ≠ "" ∧ v ∈ map trimSpace values) ∧
  (∀ v, v ∈ splitCSV csv ↔ v ≠ "" ∧ v ∈ map trimSpace (split_on "," csv) ∧ trimSpace csv ≠ "").
Proof.
  split; [apply normalize_loop_NoDup|]. split; intros v.
  - unfold normalizeTeamNames. rewrite trimSpace_nonblank_loop. set_solver.
  - unfold splitCSV. case_match eqn:E.
    + apply bool_decide_eq_true in E. set_solver.
    + apply bool_decide_eq_false in E. unfold normalizeTeamNames.
      rewrite trimSpace_nonblank_loop. set_solver.
Qed.
