(* ===== verification/GoJson.v ===== *)
(** * JSON validity

    [json.Valid] of Go's [encoding/json], which [recordTaskEvent] asks of a
    runner's payload: a recogniser of one JSON value with white space around
    it, at most 10000 levels deep. [scan] runs on fuel; [Valid] gives it twice
    the length of the text and more, and [scan_enough] shows that is enough. *)
From S2P Require Import Prelude GoStrings.

Definition json_space (c : ascii) : bool :=
  let n := N_of_ascii c in ((n =? 32) || (n =? 9) || (n =? 10) || (n =? 13))%N.

Fixpoint skip_ws (s : string) : string :=
  match s with
  | EmptyString => EmptyString
  | String c s' => if json_space c then skip_ws s' else s
  end.

Definition is_digit (c : ascii) : bool := in_range 48 57 c.
Definition is_hex (c : ascii) : bool := is_digit c || in_range 97 102 c || in_range 65 70 c.

Fixpoint digits (s : string) : string :=
  match s with
  | EmptyString => EmptyString
  | String c s' => if is_digit c then digits s' else s
  end.

(** At least one digit. *)
Definition digits1 (s : string) : option string :=
  match s with
  | String c s' => if is_digit c then Some (digits s') else None
  | EmptyString => None
  end.

(** The rest of a string literal after its opening quote. *)
Fixpoint scan_string (s : string) : option string :=
  match s with
  | EmptyString => None
  | String c s' =>
      if (c =? "034")%char then Some s'
      else if (c =? "\")%char then
        match s' with
        | String e s2 =>
            if (e =? "u")%char then
              match s2 with
              | String a (String b (String d (String f s3))) =>
                  if is_hex a && is_hex b && is_hex d && is_hex f then scan_string s3 else None
              | _ => None
              end
            else if existsb (Ascii.eqb e) ["034";"\";"/";"b";"f";"n";"r";"t"]%char
                 then scan_string s2 else None
        | EmptyString => None
        end
      else if (N_of_ascii c <? 32)%N then None
      else scan_string s'
  end.

Definition exponent (s : string) : option string :=
  match s with
  | String c s1 =>
      if (c =? "e")%char || (c =? "E")%char then
        match s1 with
        | String d s2 => if (d =? "+")%char || (d =? "-")%char then digits1 s2 else digits1 s1
        | EmptyString => None
        end
      else Some s
  | EmptyString => Some s
  end.

Definition fraction (s : string) : option string :=
  match s with
  | String c s1 => if (c =? ".")%char then r ← digits1 s1; exponent r else exponent s
  | EmptyString => Some s
  end.

Definition scan_number (s : string) : option string :=
  let s := match s with
           | String c s1 => if (c =? "-")%char then s1 else s
           | EmptyString => s
           end in
  match s with
  | String c s1 => if (c =? "0")%char then fraction s1
                   else if is_digit c then fraction (digits s1) else None
  | EmptyString => None
  end.

Fixpoint literal (w s : string) : option string :=
  match w, s with
  | EmptyString, _ => Some s
  | String c w', String d s' => if (c =? d)%char then literal w' s' else None
  | String _ _, EmptyString => None
  end.

Inductive mode := MValue | MElements | MMembers.

(** The rest of [s] after the byte [c]. *)
Definition closing (c : ascii) (s : string) : option string :=
  match s with String d r => if (d =? c)%char then Some r else None | EmptyString => None end.

(** What follows an element: a comma and more, or the closing bracket. *)
Definition after (close : ascii) (more : string → option string) (r : option string)
    : option string :=
  match r with
  | None => None
  | Some r => match skip_ws r with
              | String c r' => if (c =? ",")%char then more r'
                               else if (c =? close)%char then Some r' else None
              | EmptyString => None
              end
  end.

Definition scan_body (rec : N → mode → string → option string) (depth : N) (m : mode)
    (s : string) : option string :=
  match m with
  | MValue =>
    match skip_ws s with
    | EmptyString => None
    | String c s1 as s0 =>
      if (c =? "034")%char then scan_string s1
      else if (c =? "{")%char then
        if (10000 <=? depth)%N then None else
        match closing "}" (skip_ws s1) with
        | Some s2 => Some s2
        | None => rec (depth + 1)%N MMembers (skip_ws s1)
        end
      else if (c =? "[")%char then
        if (10000 <=? depth)%N then None else
        match closing "]" (skip_ws s1) with
        | Some s2 => Some s2
        | None => rec (depth + 1)%N MElements (skip_ws s1)
        end
      else if (c =? "t")%char then literal "true" s0
      else if (c =? "f")%char then literal "false" s0
      else if (c =? "n")%char then literal "null" s0
      else scan_number s0
    end
  | MElements => after "]"%char (rec depth MElements) (rec depth MValue s)
  | MMembers =>
    match closing "034" (skip_ws s) with
    | None => None
    | Some s1 =>
      match scan_string s1 with
      | None => None
      | Some r =>
        match closing ":" (skip_ws r) with
        | None => None
        | Some r' => after "}"%char (rec depth MMembers) (rec depth MValue r')
        end
      end
    end
  end.

Fixpoint scan (fuel : nat) : N → mode → string → option string :=
  match fuel with O => λ _ _ _, None | S f => scan_body (scan f) end.

Definition Valid (s : string) : bool :=
  match scan (2 * String.length s + 2) 0 MValue s with
  | None => false
  | Some r => skip_ws r == ""
  end.

(** ** The fuel is enough *)

Notation len := String.length (only parsing).

Lemma skip_ws_len s : (len (skip_ws s) <= len s)%nat.
Proof. induction s as [|c s IH]; simpl; [lia|]. case_match; simpl; lia. Qed.

Lemma digits_len s : (len (digits s) <= len s)%nat.
Proof. induction s as [|c s IH]; simpl; [lia|]. case_match; simpl; lia. Qed.

Lemma digits1_len s r : digits1 s = Some r → (len r < len s)%nat.
Proof.
  destruct s as [|c s]; simpl; [done|]. case_match; [|done]. intros [= <-].
  pose proof (digits_len s). lia.
Qed.

Lemma exponent_len s r : exponent s = Some r → (len r <= len s)%nat.
Proof.
  destruct s as [|c s]; simpl; [by intros [= <-]|]. case_match; [|by intros [= <-]; simpl].
  destruct s as [|d s]; [done|]. case_match; intros Hd%digits1_len; simpl in *; lia.
Qed.

Lemma fraction_len s r : fraction s = Some r → (len r <= len s)%nat.
Proof.
  destruct s as [|c s]; unfold fraction; [by intros [= <-]|].
  case_match; [|intros Hf%exponent_len; done].
  intros (q & Hq%digits1_len & Hr%exponent_len)%bind_Some. simpl. lia.
Qed.

Lemma scan_number_len s r : scan_number s = Some r → (len r < len s)%nat.
Proof.
  unfold scan_number. destruct s as [|c s]; [done|].
  assert (∀ t, match t with
          | String c s1 => if (c =? "0")%char then fraction s1
                           else if is_digit c then fraction (digits s1) else None
          | EmptyString => None end = Some r → (len r < len t)%nat) as H.
  { intros [|d t]; [done|]. case_match; [intros Hf%fraction_len; simpl; lia|].
    case_match; [|done]. intros Hf%fraction_len. pose proof (digits_len t). simpl. lia. }
  destruct (c =? "-")%char; [intros Hs; apply H in Hs; simpl; lia|apply (H (String c s))].
Qed.

Lemma scan_string_len s : ∀ r, scan_string s = Some r → (len r < len s)%nat.
Proof.
  induction s as [s IH] using (induction_ltof1 _ len). unfold ltof in IH.
  intros r. destruct s as [|c s]; [done|]. cbn [scan_string].
  case_match; [intros [= <-]; simpl; lia|].
  case_match.
  - destruct s as [|e s]; [done|]. case_match.
    + destruct s as [|a [|b [|d [|f s]]]]; try done. case_match; [|done].
      intros Hs%IH; simpl in *; lia.
    + case_match; [|done]. intros Hs%IH; simpl in *; lia.
  - case_match; [done|]. intros Hs%IH; simpl in *; lia.
Qed.

Lemma literal_len w s r : literal w s = Some r → (len r + len w = len s)%nat.
Proof.
  revert s. induction w as [|c w IH]; intros s; simpl; [intros [= <-]; lia|].
  destruct s as [|d s]; [done|]. case_match; [|done]. intros Hs%IH. simpl. lia.
Qed.

Lemma closing_len c s r : closing c s = Some r → (len r < len s)%nat.
Proof. destruct s; simpl; [done|]. case_match; [|done]. intros [= <-]. lia. Qed.

Lemma after_len close more o s r :
  (∀ t, o = Some t → (len t < len s)%nat) →
  (∀ t u, more t = Some u → (len u < len t)%nat) →
  after close more o = Some r → (len r < len s)%nat.
Proof.
  intros Ho Hm. destruct o as [t|]; simpl; [|done]. specialize (Ho t eq_refl).
  pose proof (skip_ws_len t). destruct (skip_ws t) as [|c t']; [done|]. simpl in *.
  case_match; [intros Hr%Hm; lia|]. case_match; [|done]. intros [= <-]. lia.
Qed.

Lemma scan_len f : ∀ d m s r, scan f d m s = Some r → (len r < len s)%nat.
Proof.
  induction f as [|f IH]; intros d m s r; [done|].
  change (scan (S f)) with (scan_body (scan f)). unfold scan_body. destruct m.
  - pose proof (skip_ws_len s) as Hw. destruct (skip_ws s) as [|c s1]; [done|].
    simpl in Hw. intros Hs. enough (len r < S (len s1))%nat by lia. revert Hs.
    pose proof (skip_ws_len s1) as Hw1.
    assert (∀ d' m' b, match closing b (skip_ws s1) with
              | Some s2 => Some s2 | None => scan f d' m' (skip_ws s1) end = Some r →
              (len r < S (len s1))%nat) as Hopen.
    { intros d' m' b. destruct (closing b (skip_ws s1)) as [s2|] eqn:E.
      - apply closing_len in E. intros [= <-]. lia.
      - intros Hs%IH. lia. }
    case_match; [intros Hs%scan_string_len; lia|].
    case_match; [case_match; [done|apply Hopen]|].
    case_match; [case_match; [done|apply Hopen]|].
    do 3 (case_match; [intros Hs%literal_len; simpl in *; lia|]).
    intros Hs%scan_number_len. simpl in Hs. lia.
  - apply after_len; [apply IH|intros t u; apply IH].
  - destruct (closing _ (skip_ws s)) as [s1|] eqn:E1; [|done].
    destruct (scan_string s1) as [q|] eqn:E2; [|done].
    destruct (closing _ (skip_ws q)) as [r'|] eqn:E3; [|done].
    apply closing_len in E1, E3. apply scan_string_len in E2.
    pose proof (skip_ws_len s). pose proof (skip_ws_len q). intros Hr.
    assert (len r < len r')%nat; [|lia].
    eapply after_len; [apply IH|intros t u; apply IH|exact Hr].
Qed.

(** The fuel one call needs. *)
Definition need (m : mode) (s : string) : nat :=
  (2 * len s + match m with MValue => 1 | _ => 2 end)%nat.

Lemma after_ext close more more' o s :
  (∀ t, o = Some t → (len t < len s)%nat) →
  (∀ t, (S (len t) < len s)%nat → more t = more' t) →
  after close more o = after close more' o.
Proof.
  intros Ho Hm. destruct o as [t|]; simpl; [|done]. specialize (Ho t eq_refl).
  pose proof (skip_ws_len t). destruct (skip_ws t) as [|c t']; [done|]. simpl in *.
  case_match; [|done]. apply Hm. lia.
Qed.

Lemma scan_step f : ∀ d m s, (need m s <= f)%nat → scan (S f) d m s = scan f d m s.
Proof.
  induction f as [|f IH]; intros d m s Hf; [unfold need in Hf; destruct m; lia|].
  change (scan (S (S f))) with (scan_body (scan (S f))).
  change (scan (S f) d) with (scan_body (scan f) d).
  unfold scan_body. unfold need in Hf. destruct m.
  - pose proof (skip_ws_len s) as Hw. destruct (skip_ws s) as [|c s1]; [done|]. simpl in Hw.
    pose proof (skip_ws_len s1).
    case_match; [done|]. case_match; [case_match; [done|]|case_match; [case_match; [done|]|done]];
      (destruct (closing _ (skip_ws s1)); [done|]); apply IH; unfold need; lia.
  - rewrite (IH d MValue s) by (unfold need; lia).
    apply (after_ext _ _ _ _ s); [intros t; apply scan_len|].
    intros t Ht. apply IH. unfold need. lia.
  - destruct (closing _ (skip_ws s)) as [s1|] eqn:E1; [|done].
    destruct (scan_string s1) as [q|] eqn:E2; [|done].
    destruct (closing _ (skip_ws q)) as [r'|] eqn:E3; [|done].
    apply closing_len in E1, E3. apply scan_string_len in E2.
    pose proof (skip_ws_len s). pose proof (skip_ws_len q).
    rewrite (IH d MValue r') by (unfold need; lia).
    apply (after_ext _ _ _ _ r'); [intros t; apply scan_len|].
    intros t Ht. apply IH. unfold need. lia.
Qed.

(** More fuel than [Valid] gives changes nothing. *)
Lemma scan_enough s f d :
  (2 * len s + 2 <= f)%nat → scan f d MValue s = scan (2 * len s + 2) d MValue s.
Proof.
  intros Hf. replace f with ((f - (2 * len s + 2)) + (2 * len s + 2))%nat by lia.
  induction (f - (2 * len s + 2))%nat as [|k IH]; [done|].
  simpl plus. rewrite scan_step; [exact IH|]. unfold need. lia.
Qed.
