(* ===== verification/Repos.v ===== *)
(** * Repository sets

    [internal/store/repos.go] and [normalizeSubmitRepoRefs] of
    [internal/service/service.go]: a task carries a list of repositories, of
    which exactly one is primary and comes first. The JSON column that stores
    a set is [None] for NULL and the list it decodes to otherwise. *)
From S2P Require Import Prelude GoStrings.

Record RepoRef := mkRepoRef { URL : string; Ref : string; Primary : bool }.

#[export] Instance RepoRef_eq_dec : EqDecision RepoRef.
Proof. solve_decision. Defined.

(** The loop of [NormalizeRepoRefs]; [primaryIndex = None] is the code's -1. *)
Fixpoint dedup_refs (seen : list string) (deduped : list RepoRef) (primaryIndex : option nat)
    (refs : list RepoRef) : list RepoRef * option nat :=
  match refs with
  | [] => (deduped, primaryIndex)
  | ref :: rest =>
      let ref := mkRepoRef (trimSpace (URL ref)) (trimSpace (Ref ref)) (Primary ref) in
      if URL ref == "" then dedup_refs seen deduped primaryIndex rest else
      let key := toLower (URL ref) in
      if existsb (String.eqb key) seen then dedup_refs seen deduped primaryIndex rest else
      let primaryIndex :=
        match primaryIndex with
        | None => if Primary ref then Some (length deduped) else None
        | Some _ => primaryIndex
        end in
      dedup_refs (key :: seen) (deduped ++ [ref]) primaryIndex rest
  end.

Definition NormalizeRepoRefs (refs : list RepoRef) : list RepoRef :=
  let '(deduped, primaryIndex) := dedup_refs [] [] None refs in
  let i := default 0%nat primaryIndex in
  match deduped !! i with
  | None => []
  | Some p =>
      mkRepoRef (URL p) (Ref p) true ::
      map (λ ref, mkRepoRef (URL ref) (Ref ref) false) (take i deduped ++ drop (S i) deduped)
  end.

Definition PrimaryRepoRef (refs : list RepoRef) : option RepoRef :=
  match refs with
  | [] => None
  | r :: _ => if URL r == "" then None else Some r
  end.

Definition MarshalRepoRefs (refs : list RepoRef) : option (list RepoRef) :=
  match NormalizeRepoRefs refs with [] => None | normalized => Some normalized end.

Definition UnmarshalRepoRefs (raw : option (list RepoRef)) : list RepoRef :=
  match raw with None => [] | Some refs => NormalizeRepoRefs refs end.

Definition normalizeSubmitRepoRefs (repos : list RepoRef) (gitURL gitRef : string) : list RepoRef :=
  let gitURL := trimSpace gitURL in
  let legacy := mkRepoRef gitURL gitRef true in
  match repos with
  | [] => if gitURL == "" then [] else NormalizeRepoRefs [legacy]
  | _ =>
      if negb (gitURL == "") &&
         negb (existsb (λ ref, equalFold (trimSpace (URL ref)) gitURL) repos)
      then NormalizeRepoRefs (legacy :: repos)
      else NormalizeRepoRefs repos
  end.

#[global] Arguments NormalizeRepoRefs : simpl never.

(** ** Lemmas *)

Definition url_key (ref : RepoRef) : string := toLower (URL ref).

(** What the loop maintains: keys are distinct, all of them are in [seen],
    URLs are trimmed and non-blank, and the primary index points into the
    list. *)
Record dedup_ok (seen : list string) (deduped : list RepoRef) (pi : option nat) : Prop := {
  dd_nodup : NoDup (map url_key deduped);
  dd_seen : ∀ k, k ∈ seen ↔ k ∈ map url_key deduped;
  dd_trim : ∀ r, r ∈ deduped → URL r ≠ "" ∧ trimSpace (URL r) = URL r ∧ trimSpace (Ref r) = Ref r;
  dd_idx : ∀ i, pi = Some i → (i < length deduped)%nat;
}.

Lemma existsb_elem k l : existsb (String.eqb k) l = true ↔ k ∈ l.
Proof.
  rewrite existsb_exists. setoid_rewrite String.eqb_eq.
  setoid_rewrite <- list_elem_of_In. naive_solver.
Qed.

Lemma dedup_refs_ok refs : ∀ seen deduped pi,
  dedup_ok seen deduped pi →
  let '(d, p) := dedup_refs seen deduped pi refs in ∃ seen', dedup_ok seen' d p.
Proof.
  induction refs as [|ref refs IH]; intros seen deduped pi Hok; cbn [dedup_refs]; [by exists seen|].
  set (r := mkRepoRef _ _ _). cbv zeta.
  destruct (decide (URL r = "")) as [E1|E1];
    [rewrite (bool_decide_eq_true_2 _ E1); by apply IH|].
  rewrite (bool_decide_eq_false_2 _ E1).
  destruct (existsb (String.eqb (toLower (URL r))) seen) eqn:E2; [by apply IH|]. apply IH.
  assert (url_key r ∉ seen) as Hnew.
  { rewrite <- existsb_elem. unfold url_key. by rewrite E2. }
  destruct Hok as [Hn Hs Ht Hi]. split.
  - rewrite map_app. rewrite NoDup_app.
    split; [done|split; [|by apply NoDup_singleton]].
    intros x Hx Hr. apply list_elem_of_singleton in Hr as ->. by apply Hnew, Hs.
  - intros k. rewrite map_app, elem_of_cons, elem_of_app, Hs. simpl.
    rewrite list_elem_of_singleton. unfold url_key. naive_solver.
  - intros x [Hx|Hx%list_elem_of_singleton]%elem_of_app; [by apply Ht|subst x].
    simpl. by rewrite !trimSpace_idem.
  - intros i. rewrite length_app. simpl. destruct pi as [j|]; [intros [= ->]|].
    + pose proof (Hi i eq_refl). lia.
    + destruct (Primary ref); [intros [= <-]; lia|done].
Qed.

Lemma dedup_ok_init : dedup_ok [] [] None.
Proof. split; [constructor|done|set_solver|done]. Qed.

(** The keys the loop collects are those of the usable entries. *)
Lemma dedup_refs_keys refs : ∀ seen deduped pi,
  (∀ k, k ∈ seen ↔ k ∈ map url_key deduped) →
  ∀ k, k ∈ map url_key (dedup_refs seen deduped pi refs).1 ↔
       k ∈ map url_key deduped ∨
       ∃ r, r ∈ refs ∧ trimSpace (URL r) ≠ "" ∧ k = toLower (trimSpace (URL r)).
Proof.
  induction refs as [|ref refs IH]; intros seen deduped pi Hs k; cbn [dedup_refs]; [set_solver|].
  cbn [URL]. destruct (decide (trimSpace (URL ref) = "")) as [E1|E1].
  { rewrite (bool_decide_eq_true_2 _ E1), IH by done. set_solver. }
  rewrite (bool_decide_eq_false_2 _ E1).
  destruct (existsb _ seen) eqn:E2.
  - apply existsb_elem, Hs in E2. rewrite IH by done. set_solver.
  - rewrite IH; [|intros j; rewrite map_app, elem_of_cons, elem_of_app, Hs; set_solver].
    rewrite map_app, elem_of_app. set_solver.
Qed.

(** The normal form. *)
Definition usable (r : RepoRef) : Prop :=
  URL r ≠ "" ∧ trimSpace (URL r) = URL r ∧ trimSpace (Ref r) = Ref r.

Record canonical (l : list RepoRef) : Prop := {
  can_nodup : NoDup (map url_key l);
  can_usable : Forall usable l;
  can_primary : match l with
                | [] => True
                | r :: tail => Primary r = true ∧ Forall (λ r, Primary r = false) tail
                end;
}.

Lemma dedup_refs_fixed refs : ∀ seen deduped i,
  NoDup (map url_key refs) → Forall usable refs →
  (∀ r, r ∈ refs → url_key r ∉ seen) →
  dedup_refs seen deduped (Some i) refs = (deduped ++ refs, Some i).
Proof.
  induction refs as [|r refs IH]; intros seen deduped i Hn Hu Hs; cbn [dedup_refs].
  { by rewrite app_nil_r. }
  apply Forall_cons in Hu as [(Hne & Ht1 & Ht2) Hu]. cbv zeta. rewrite Ht1, Ht2. cbn [URL].
  rewrite (bool_decide_eq_false_2 _ Hne).
  simpl in Hn. apply NoDup_cons in Hn as [Hnr Hn].
  replace (existsb _ seen) with false.
  2: { symmetry. apply not_true_iff_false. rewrite existsb_elem. apply (Hs r). by left. }
  replace (mkRepoRef (URL r) (Ref r) (Primary r)) with r by by destruct r.
  rewrite IH; [by rewrite <- app_assoc|done|done|].
  intros r' Hr' [Heq|Hin]%elem_of_cons.
  - apply Hnr. apply list_elem_of_fmap. by exists r'.
  - by apply (Hs r'); [right|].
Qed.

Lemma normalize_canonical_fixed l : canonical l → NormalizeRepoRefs l = l.
Proof.
  intros [Hn Hu Hp]. destruct l as [|r tail]; [done|]. destruct Hp as [Hp Ht].
  unfold NormalizeRepoRefs. cbn [dedup_refs].
  apply Forall_cons in Hu as [(Hne & Ht1 & Ht2) Hu]. cbv zeta. rewrite Ht1, Ht2, Hp. cbn [URL Primary].
  rewrite (bool_decide_eq_false_2 _ Hne). cbn [existsb app length].
  simpl in Hn. apply NoDup_cons in Hn as [Hnr Hn].
  rewrite dedup_refs_fixed; [|done|done|].
  - simpl. destruct r as [u f []]; [|done]. f_equal.
    transitivity (map id tail); [|apply map_id]. apply map_ext_in. intros [u' f' b'] Hin.
    apply list_elem_of_In in Hin. rewrite Forall_forall in Ht. specialize (Ht _ Hin).
    simpl in Ht. by subst.
  - intros r' Hr' Heq%list_elem_of_singleton. apply Hnr. apply list_elem_of_fmap. by exists r'.
Qed.

Lemma normalize_shape refs :
  ∃ d p, dedup_refs [] [] None refs = (d, p) ∧
  map url_key (NormalizeRepoRefs refs) ≡ₚ map url_key d ∧ canonical (NormalizeRepoRefs refs).
Proof.
  pose proof (dedup_refs_ok refs _ _ _ dedup_ok_init) as Hok.
  unfold NormalizeRepoRefs. destruct (dedup_refs [] [] None refs) as [d p].
  destruct Hok as (seen & [Hn _ Ht Hi]). exists d, p. split; [done|].
  destruct (d !! default 0%nat p) as [r|] eqn:E.
  - set (rest := take _ d ++ drop _ d).
    assert (d ≡ₚ r :: rest) as Hd.
    { unfold rest. rewrite <- delete_take_drop. by apply delete_Permutation. }
    assert (map url_key (mkRepoRef (URL r) (Ref r) true
                          :: map (λ ref, mkRepoRef (URL ref) (Ref ref) false) rest)
            = map url_key (r :: rest)) as Hk.
    { simpl. f_equal. by rewrite map_map. }
    assert (map url_key (r :: rest) ≡ₚ map url_key d) as Hp
      by (apply (Permutation_map url_key); by symmetry).
    split; [by rewrite Hk|]. split.
    + rewrite Hk, Hp. done.
    + assert (Forall usable d) as Hu by (apply Forall_forall; exact Ht).
      rewrite Hd in Hu. apply Forall_cons in Hu as [Hr Hu].
      constructor; [exact Hr|]. apply Forall_map. exact Hu.
    + split; [done|]. apply Forall_map. by apply Forall_true.
  - assert (d = []) as ->.
    { destruct d as [|x d]; [done|]. apply lookup_ge_None in E.
      destruct p as [i|]; simpl in *; [specialize (Hi i eq_refl); lia|lia]. }
    split; [done|]. split; [constructor|constructor|done].
Qed.

Lemma dedup_refs_extends refs : ∀ seen deduped i,
  ∃ ext, dedup_refs seen deduped (Some i) refs = (deduped ++ ext, Some i).
Proof.
  induction refs as [|r refs IH]; intros seen deduped i; cbn [dedup_refs].
  { exists []. by rewrite app_nil_r. }
  cbv zeta. case_match; [apply IH|]. case_match; [apply IH|].
  destruct (IH (toLower (trimSpace (URL r)) :: seen)
    (deduped ++ [mkRepoRef (trimSpace (URL r)) (trimSpace (Ref r)) (Primary r)]) i) as [ext He].
  eexists. cbn [URL] in *. rewrite He. by rewrite <- app_assoc.
Qed.

(** A usable first entry that is flagged primary stays the primary one. *)
Lemma normalize_primary_first r refs :
  trimSpace (URL r) ≠ "" → Primary r = true →
  PrimaryRepoRef (NormalizeRepoRefs (r :: refs)) =
  Some (mkRepoRef (trimSpace (URL r)) (trimSpace (Ref r)) true).
Proof.
  intros Hne Hp. unfold NormalizeRepoRefs. cbn [dedup_refs]. cbv zeta. cbn [URL Primary].
  rewrite (bool_decide_eq_false_2 _ Hne), Hp. cbn [existsb length app].
  destruct (dedup_refs_extends refs [toLower (trimSpace (URL r))]
    [mkRepoRef (trimSpace (URL r)) (trimSpace (Ref r)) true] 0%nat) as [ext ->].
  simpl. by rewrite (bool_decide_eq_false_2 _ Hne).
Qed.

Lemma normalize_keys refs k :
  k ∈ map url_key (NormalizeRepoRefs refs) ↔
  ∃ r, r ∈ refs ∧ trimSpace (URL r) ≠ "" ∧ k = toLower (trimSpace (URL r)).
Proof.
  destruct (normalize_shape refs) as (d & p & Hd & Hp & _).
  pose proof (dedup_refs_keys refs [] [] None ltac:(done) k) as Hk.
  rewrite Hd in Hk. simpl in Hk. rewrite Hp, Hk. set_solver.
Qed.

Lemma normalize_nil refs :
  NormalizeRepoRefs refs = [] ↔ ∀ r, r ∈ refs → trimSpace (URL r) = "".
Proof.
  split.
  - intros Hnil r Hr. destruct (decide (trimSpace (URL r) = "")) as [|Hne]; [done|].
    assert (toLower (trimSpace (URL r)) ∈ map url_key (NormalizeRepoRefs refs)) as Hin
      by (apply normalize_keys; eauto).
    rewrite Hnil in Hin. by apply not_elem_of_nil in Hin.
  - intros Hall. destruct (NormalizeRepoRefs refs) as [|x l] eqn:E; [done|].
    assert (url_key x ∈ map url_key (NormalizeRepoRefs refs)) as Hin
      by (rewrite E; left).
    apply normalize_keys in Hin as (r & Hr & Hne & _). by apply Hall in Hr.
Qed.

Lemma normalize_canonical refs : canonical (NormalizeRepoRefs refs).
Proof. by destruct (normalize_shape refs) as (d & p & _ & _ & ?). Qed.

(** ** Properties *)

(** Normalising a repository set keeps exactly one entry per usable URL
    (trimmed, non-blank, compared without case), puts one primary entry first
    and no other, is idempotent, and survives storage: what is read back from
    the column is the normalised set. *)
Theorem NormalizeRepoRefs_spec refs :
  let out := NormalizeRepoRefs refs in
  canonical out ∧
  (∀ k, k ∈ map url_key out ↔
        ∃ r, r ∈ refs ∧ trimSpace (URL r) ≠ "" ∧ k = toLower (trimSpace (URL r))) ∧
  NormalizeRepoRefs out = out ∧
  UnmarshalRepoRefs (MarshalRepoRefs refs) = out.
Proof.
  intros out. pose proof (normalize_canonical refs) as Hc. fold out in Hc.
  split; [done|]. split; [apply normalize_keys|]. split.
  - by apply normalize_canonical_fixed.
  - unfold MarshalRepoRefs. fold out. destruct out eqn:E; [done|].
    simpl. by apply normalize_canonical_fixed.
Qed.

(** A submission's set is empty exactly when neither the list nor the
    legacy git_url names a usable repository; a git_url that is given is always
    in the set, and it is the primary repository when the list lacks it. *)
Theorem normalizeSubmitRepoRefs_spec repos gitURL gitRef :
  let out := normalizeSubmitRepoRefs repos gitURL gitRef in
  canonical out ∧
  (out = [] ↔ trimSpace gitURL = "" ∧ ∀ r, r ∈ repos → trimSpace (URL r) = "") ∧
  (trimSpace gitURL ≠ "" → toLower (trimSpace gitURL) ∈ map url_key out) ∧
  (trimSpace gitURL ≠ "" →
   (∀ r, r ∈ repos → toLower (trimSpace (URL r)) ≠ toLower (trimSpace gitURL)) →
   PrimaryRepoRef out = Some (mkRepoRef (trimSpace gitURL) (trimSpace gitRef) true)).
Proof.
  intros out. unfold normalizeSubmitRepoRefs in out. revert out. cbv zeta.
  set (legacy := mkRepoRef (trimSpace gitURL) gitRef true).
  destruct (decide (trimSpace gitURL = "")) as [Hg|Hg].
  { rewrite (bool_decide_eq_true_2 _ Hg). simpl.
    destruct repos as [|r0 repos]; [split_and!; (done || (by split; set_solver) || by repeat constructor)|].
    split; [apply normalize_canonical|]. rewrite normalize_nil. naive_solver. }
  rewrite (bool_decide_eq_false_2 _ Hg).
  assert (∀ refs, trimSpace gitURL ≠ "" →
    toLower (trimSpace gitURL) ∈ map url_key (NormalizeRepoRefs (legacy :: refs)) ∧
    NormalizeRepoRefs (legacy :: refs) ≠ [] ∧
    PrimaryRepoRef (NormalizeRepoRefs (legacy :: refs)) =
      Some (mkRepoRef (trimSpace gitURL) (trimSpace gitRef) true)) as Hleg.
  { intros refs _. assert (trimSpace (URL legacy) ≠ "") as Hl by (simpl; by rewrite trimSpace_idem).
    split; [|split].
    - apply normalize_keys. exists legacy. split; [left|]. split; [done|].
      simpl. by rewrite trimSpace_idem.
    - rewrite normalize_nil. intros Hall. apply Hl, Hall. left.
    - rewrite normalize_primary_first by done. simpl. by rewrite trimSpace_idem. }
  destruct repos as [|r0 repos].
  { destruct (Hleg [] Hg) as (? & ? & ?). split; [apply normalize_canonical|].
    split; [|auto]. by split; [|intros []]. }
  destruct (existsb _ (r0 :: repos)) eqn:E; cbn [negb andb].
  - apply existsb_exists in E as (r & Hr & Heq%bool_decide_eq_true).
    apply list_elem_of_In in Hr.
    assert (trimSpace (URL r) ≠ "") as Hne.
    { intros Hz. rewrite Hz in Heq. apply Hg. by destruct (trimSpace gitURL). }
    split; [apply normalize_canonical|]. rewrite normalize_nil.
    split; [split; [intros Hall; by apply Hall in Hr|by intros []]|]. split.
    + intros _. apply normalize_keys. exists r. by rewrite Heq.
    + intros _ Hno. by destruct (Hno r Hr).
  - destruct (Hleg (r0 :: repos) Hg) as (? & ? & ?). split; [apply normalize_canonical|].
    split; [|auto]. by split; [|intros []].
Qed.

Lemma normalizeSubmitRepoRefs_spec_witness :
  PrimaryRepoRef (normalizeSubmitRepoRefs [mkRepoRef "https://h/b" "" true] " https://h/a " "main") =
  Some (mkRepoRef "https://h/a" "main" true).
Proof.
  apply (normalizeSubmitRepoRefs_spec [mkRepoRef "https://h/b" "" true] " https://h/a " "main").
  - by vm_compute.
  - intros r ->%list_elem_of_singleton. by vm_compute.
Defined.
