(* ===== verification/GithubRepo.v ===== *)
(** * Repository names and the layout of a workspace

    [internal/githubrepo]: which texts name a GitHub repository, and the
    directories the repositories of a task are checked out into. [url.Parse]
    is a parameter. *)
From S2P Require Import Prelude GoStrings.

(** ** Names ([repo.go]) *)

Record Repository := mkRepository { Owner : string; Name : string }.

Definition FullName (r : Repository) : string := Owner r ^^ "/" ^^ Name r.
Definition Normalized (r : Repository) : string := toLower (FullName r).

Definition alnum (c : ascii) : bool := in_range 65 90 c || in_range 97 122 c || in_range 48 57 c.
Definition owner_byte (c : ascii) : bool := alnum c || (c == "-")%char.
Definition repo_byte (c : ascii) : bool :=
  alnum c || (c == ".")%char || (c == "_")%char || (c == "-")%char.

(** [^[A-Za-z0-9](?:[A-Za-z0-9-]{0,37}[A-Za-z0-9])?$] *)
Definition ownerPattern (s : string) : bool :=
  match s, rev_string s with
  | String first _, String last _ =>
      alnum first && alnum last && all_bytes owner_byte s && (String.length s <=? 39)%nat
  | _, _ => false
  end.

(** [^[A-Za-z0-9._-]{1,100}$] *)
Definition repoPattern (s : string) : bool :=
  (1 <=? String.length s)%nat && (String.length s <=? 100)%nat && all_bytes repo_byte s.

(** A parsed URL; the user with whether it has a password. *)
Record URL := mkURL {
  u_Scheme : string;
  u_User : option (string * bool);
  u_Hostname : string;
  u_Port : string;
  u_RawQuery : string;
  u_Fragment : string;
  u_Path : string;
}.

Definition drop_bytes (n : nat) (s : string) : string := String.substring n (String.length s - n) s.

Definition github_host : string := "git@github.com:".

Section parse.
Variable url_Parse : string → option URL.

Definition url_path (u : URL) : option string :=
  if negb (u_RawQuery u == "") || negb (u_Fragment u == "") || negb (u_Port u == "") ||
     negb (equalFold (u_Hostname u) "github.com") then None
  else
    let scheme := toLower (u_Scheme u) in
    let path := Some (trimPrefix (u_Path u) "/") in
    if scheme == "https" then match u_User u with Some _ => None | None => path end
    else if scheme == "ssh" then
      match u_User u with
      | Some (name, hasPassword) => if negb (name == "git") then None
                                    else if (hasPassword : bool) then None else path
      | None => None
      end
    else None.

Definition clone_path (value : string) : option string :=
  if hasPrefix (toLower value) github_host
  then Some (drop_bytes (String.length github_host) value)
  else if contains value "://" then match url_Parse value with None => None | Some u => url_path u end
  else Some value.

Definition Parse (value : string) : option Repository :=
  let value := trimSpace value in
  if value == "" then None
  else match clone_path value with
  | None => None
  | Some name =>
    match split_on "/" (trimSuffix (trimSuffix name "/") ".git") with
    | [owner; repo] =>
      if negb (ownerPattern owner) || contains owner "--" || negb (repoPattern repo) ||
         (repo == ".") || (repo == "..") then None
      else Some (mkRepository owner repo)
    | _ => None
    end
  end.

Definition Same (left right : string) : bool :=
  match Parse left with
  | None => false
  | Some a => match Parse right with None => false | Some b => Normalized a == Normalized b end
  end.
End parse.

(** ** Layout ([layout.go]) *)

Definition ReposSubdir : string := "repos".

Fixpoint drop_while (p : ascii → bool) (s : string) : string :=
  match s with
  | EmptyString => EmptyString
  | String c s' => if p c then drop_while p s' else s
  end.

(** [strings.TrimRight] and [strings.Trim] of a set of bytes. *)
Definition trim_right (p : ascii → bool) (s : string) : string :=
  rev_string (drop_while p (rev_string s)).
Definition trim_set (p : ascii → bool) (s : string) : string := trim_right p (drop_while p s).

(** What follows the first occurrence of a text; the first, the last byte of a
    set. *)
Fixpoint after_text (sub s : string) : option string :=
  if hasPrefix s sub then Some (drop_bytes (String.length sub) s)
  else match s with EmptyString => None | String _ s' => after_text sub s' end.

Fixpoint after_first (p : ascii → bool) (s : string) : option string :=
  match s with
  | EmptyString => None
  | String c s' => if p c then Some s' else after_first p s'
  end.

Fixpoint after_last (p : ascii → bool) (s : string) : option string :=
  match s with
  | EmptyString => None
  | String c s' => match after_last p s' with
                   | Some t => Some t
                   | None => if p c then Some s' else None
                   end
  end.

Definition slug_byte (c : ascii) : bool :=
  in_range 97 122 c || in_range 48 57 c || (c == ".")%char || (c == "_")%char || (c == "-")%char.

Fixpoint keep_safe (s : string) : string :=
  match s with
  | EmptyString => EmptyString
  | String c s' =>
      if slug_byte c then String c (keep_safe s')
      else if is_space c then String "-" (keep_safe s')
      else keep_safe s'
  end.

Definition edge_byte (c : ascii) : bool := (c == ".")%char || (c == "-")%char.

Definition sanitizeSegment (value : string) : string :=
  trim_set edge_byte (keep_safe (toLower (trimSpace value))).

Definition path_sep (c : ascii) : bool := (c == "/")%char || (c == ":")%char.

Definition RepoSlug (raw : string) : string :=
  let value := trimSuffix (trim_right (λ c, c == "/"%char) (trimSpace raw)) ".git" in
  let value := default value (after_text "://" value) in
  let value := match after_last (λ c, c == "@"%char) value with
               | Some rest => if all_bytes (λ c, negb (path_sep c)) rest then value else rest
               | None => value
               end in
  let value := default value (after_first path_sep value) in
  let value := default value (after_last path_sep value) in
  let slug := sanitizeSegment value in
  if slug == "" then "repo" else slug.

(** The digits are written from the end of an array of twenty. *)
Fixpoint itoa_from (fuel : nat) (n : N) (digits : string) : string :=
  match fuel with
  | O => digits
  | S fuel' => if (0 <? n)%N
               then itoa_from fuel' (n / 10) (String (ascii_of_N (48 + n mod 10)) digits)
               else digits
  end.
Definition itoa (n : N) : string := if (n =? 0)%N then "0" else itoa_from 20 n "".

(** The first name not in use: the base, base-2, base-3, ... *)
Fixpoint free_name (fuel : nat) (used : list string) (base : string) (n : N) (candidate : string)
    : string :=
  match fuel with
  | O => candidate
  | S fuel' => if bool_decide (candidate ∈ used)
               then free_name fuel' used base (n + 1) (base ^^ "-" ^^ itoa n)
               else candidate
  end.

Fixpoint subdirs_from (used urls : list string) : list string :=
  match urls with
  | [] => []
  | raw :: rest =>
    let base := RepoSlug raw in
    let candidate := free_name (length used) used base 2 base in
    (ReposSubdir ^^ "/" ^^ candidate) :: subdirs_from (candidate :: used) rest
  end.

Definition SecondarySubdirs (urls : list string) : list string := subdirs_from [] urls.

Example slugs :
  map RepoSlug ["https://github.com/org/service.git"; "git@github.com:org/service.git";
    "ssh://git@github.com/org/service"; "https://gitlab.com/group/sub/repo";
    "https://example.com/My_Repo"; ""; "https://github.com/org/"]
  = ["service"; "service"; "service"; "repo"; "my_repo"; "repo"; "org"].
Proof. reflexivity. Qed.

Example layout :
  SecondarySubdirs ["https://github.com/acme/shared-lib.git"; "https://gitlab.com/other/shared-lib.git";
    "git@github.com:acme/tools.git"] = ["repos/shared-lib"; "repos/shared-lib-2"; "repos/tools"].
Proof. reflexivity. Qed.

(** ** Lemmas: names *)

Record valid_repository (r : Repository) : Prop := {
  vr_owner : ownerPattern (Owner r) = true;
  vr_dashes : contains (Owner r) "--" = false;
  vr_name : repoPattern (Name r) = true;
  vr_dots : Name r ≠ "." ∧ Name r ≠ "..";
}.

Lemma rev_string_app s t : rev_string (s ^^ t) = rev_string t ^^ rev_string s.
Proof.
  induction s as [|c s IH]; [by rewrite string_app_nil_r|].
  rewrite app_cons, !rev_string_cons, IH. by rewrite string_app_assoc.
Qed.

Lemma hasSuffix_app s t : hasSuffix (s ^^ t) t = true.
Proof. unfold hasSuffix. rewrite rev_string_app. apply prefix_app. by eexists. Qed.

Lemma substring_app_l s t : String.substring 0 (String.length s) (s ^^ t) = s.
Proof. induction s as [|c s IH]; [by destruct t|]. simpl. by rewrite IH. Qed.

Lemma trimSuffix_app s t : trimSuffix (s ^^ t) t = s.
Proof.
  unfold trimSuffix. rewrite hasSuffix_app, string_app_length.
  replace (String.length s + String.length t - String.length t)%nat with (String.length s) by lia.
  apply substring_app_l.
Qed.

Lemma trimSuffix_none s t : hasSuffix s t = false → trimSuffix s t = s.
Proof. unfold trimSuffix. by intros ->. Qed.

(** A text that ends in a byte of a set does not end in a byte outside it. *)
Lemma hasSuffix_other p s t c :
  t ≠ "" → all_bytes p t = true → p c = false → hasSuffix (s ^^ t) (String c "") = false.
Proof.
  intros Ht Hp Hc. unfold hasSuffix. rewrite rev_string_app. apply all_bytes_rev in Hp.
  assert (rev_string t ≠ "") as Hr by (intros H; apply Ht; by rewrite <- (rev_string_involutive t), H).
  destruct (rev_string t) as [|d r]; [done|]. apply andb_true_iff in Hp as [Hd _].
  simpl. destruct (ascii_dec c d) as [->|]; [congruence|done].
Qed.

Lemma split_on_plain sep s : all_bytes (λ c, negb (c == sep)) s = true → split_on sep s = [s].
Proof.
  induction s as [|c s IH]; [done|]. intros [Hc Hs]%andb_true_iff. simpl. rewrite (IH Hs).
  apply negb_true_iff in Hc. by rewrite Hc.
Qed.

Lemma split_on_app sep s t :
  all_bytes (λ c, negb (c == sep)) s = true → split_on sep (s ^^ String sep t) = s :: split_on sep t.
Proof.
  induction s as [|c s IH].
  - intros _. cbn [String.append]. simpl. by rewrite bool_decide_eq_true_2.
  - intros [Hc Hs]%andb_true_iff. rewrite app_cons. simpl. rewrite (IH Hs).
    apply negb_true_iff in Hc. by rewrite Hc.
Qed.

Lemma owner_bytes s : ownerPattern s = true → all_bytes owner_byte s = true ∧ s ≠ "".
Proof.
  unfold ownerPattern. destruct s as [|c s]; [done|]. destruct (rev_string _); [done|].
  rewrite !andb_true_iff. naive_solver.
Qed.

Lemma name_bytes s : repoPattern s = true → all_bytes repo_byte s = true ∧ s ≠ "".
Proof. unfold repoPattern. rewrite !andb_true_iff. intros [[H _] ?]. split; [done|by intros ->]. Qed.

Lemma owner_repo_byte c : owner_byte c = true → repo_byte c = true.
Proof. destruct c as [[] [] [] [] [] [] [] []]; vm_compute; congruence. Qed.

(** The bytes of a full name, apart from its slash. *)
Definition full_byte (c : ascii) : bool := repo_byte c || (c == "/")%char.

Lemma full_byte_plain c :
  full_byte c = true → is_space c = false ∧ (c == ":")%char = false ∧ (lower_ascii c == ":")%char = false.
Proof. destruct c as [[] [] [] [] [] [] [] []]; vm_compute; repeat split; congruence. Qed.

Lemma repo_byte_slash c : repo_byte c = true → negb (c == "/"%char) = true.
Proof. destruct c as [[] [] [] [] [] [] [] []]; vm_compute; congruence. Qed.

Lemma full_name_bytes r : valid_repository r → all_bytes full_byte (FullName r) = true.
Proof.
  intros [[Ho _]%owner_bytes _ [Hn _]%name_bytes _]. unfold FullName.
  rewrite !all_bytes_app. rewrite (all_bytes_weaken owner_byte full_byte (Owner r)), 
    (all_bytes_weaken repo_byte full_byte (Name r)); [done| |done| |done].
  - intros c Hc. unfold full_byte. by rewrite Hc.
  - intros c Hc. unfold full_byte. by rewrite owner_repo_byte.
Qed.

Lemma all_bytes_lower (p : ascii → bool) s :
  all_bytes (λ c, p (lower_ascii c)) s = true → all_bytes p (toLower s) = true.
Proof. induction s as [|c s IH]; [done|]. simpl. rewrite !andb_true_iff. naive_solver. Qed.

(** A text without colons is neither of the two URL forms. *)
Lemma clone_path_plain parse s : all_bytes full_byte s = true → clone_path parse s = Some s.
Proof.
  intros Hs. unfold clone_path, hasPrefix.
  destruct (String.prefix github_host (toLower s)) eqn:E1.
  { apply prefix_app in E1 as [t Ht].
    assert (all_bytes (λ c, negb (c == ":")%char) (toLower s) = true) as Hl.
    { apply all_bytes_lower. eapply all_bytes_weaken; [|exact Hs].
      intros c (_ & _ & ->)%full_byte_plain. done. }
    rewrite Ht, all_bytes_app in Hl. vm_compute in Hl. discriminate. }
  destruct (contains s "://") eqn:E2; [|done].
  apply contains_spec in E2 as (u & v & ->). rewrite !all_bytes_app in Hs.
  exfalso. apply andb_true_iff in Hs as [_ [Hs _]%andb_true_iff]. vm_compute in Hs. discriminate.
Qed.

(** What [Parse] makes of the path of a repository. *)
Lemma parse_path r s :
  valid_repository r → s = FullName r →
  match split_on "/" s with
  | [owner; repo] =>
    if negb (ownerPattern owner) || contains owner "--" || negb (repoPattern repo) ||
       (repo == ".") || (repo == "..") then None
    else Some (mkRepository owner repo)
  | _ => None
  end = Some r.
Proof.
  intros [Ho Hd Hn [Hdot Hdots]] ->. unfold FullName.
  change ("/" ^^ Name r) with (String "/" (Name r)). rewrite split_on_app.
  - rewrite split_on_plain.
    + rewrite Ho, Hd, Hn, !bool_decide_eq_false_2 by done. by destruct r.
    + eapply all_bytes_weaken; [apply repo_byte_slash|]. by apply name_bytes.
  - eapply all_bytes_weaken; [|by apply owner_bytes].
    intros c Hc. by apply repo_byte_slash, owner_repo_byte.
Qed.

Lemma full_name_no_slash r : valid_repository r → hasSuffix (FullName r) "/" = false.
Proof.
  intros [_ _ [Hn Hne]%name_bytes _]. unfold FullName. rewrite <- string_app_assoc.
  by apply (hasSuffix_other repo_byte).
Qed.

Lemma Parse_valid parse v r : Parse parse v = Some r → valid_repository r.
Proof.
  unfold Parse. destruct (_ == ""); [done|]. destruct (clone_path _ _) as [name|]; [|done].
  destruct (split_on _ _) as [|o [|n [|? ?]]]; try done.
  destruct (_ || _) eqn:E; [done|]. intros [= <-].
  rewrite !orb_false_iff, !negb_false_iff, !bool_decide_eq_false in E.
  destruct E as [[[[? ?] ?] ?] ?]. by constructor.
Qed.

Lemma full_byte_text s : all_bytes full_byte s = true → all_bytes (λ c, negb (is_space c)) s = true.
Proof. apply all_bytes_weaken. by intros c (-> & _ & _)%full_byte_plain. Qed.

Lemma string_app_nonempty s t : t ≠ "" → s ^^ t ≠ "".
Proof. by destruct s. Qed.

Lemma substring_all s : String.substring 0 (String.length s) s = s.
Proof. pose proof (substring_app_l s "") as H. by rewrite string_app_nil_r in H. Qed.

Lemma hasSuffix_segment s n w :
  all_bytes (λ c, negb (c == "/"%char)) w = true →
  hasSuffix (s ^^ "/" ^^ n) w = hasSuffix n w.
Proof.
  intros Hw. unfold hasSuffix. rewrite !rev_string_app, string_app_assoc.
  apply (prefix_before _ _ "/"). by apply all_bytes_rev.
Qed.

(** A text whose path, trimmed, is a full name. *)
Lemma parse_text parse r s t :
  valid_repository r → all_bytes full_byte s = true → s ≠ "" → clone_path parse s = Some t →
  trimSuffix (trimSuffix t "/") ".git" = FullName r → Parse parse s = Some r.
Proof.
  intros Hv Hs Hne Hc Ht. unfold Parse. rewrite trimSpace_nospace by (by apply full_byte_text).
  rewrite bool_decide_eq_false_2 by done. rewrite Hc. by apply parse_path.
Qed.

Lemma parse_ssh parse r s :
  valid_repository r → all_bytes full_byte s = true →
  trimSuffix (trimSuffix s "/") ".git" = FullName r → Parse parse (github_host ^^ s) = Some r.
Proof.
  intros Hv Hs Ht. unfold Parse.
  rewrite trimSpace_nospace by (by rewrite all_bytes_app, (full_byte_text s Hs)).
  rewrite bool_decide_eq_false_2 by done.
  assert (clone_path parse (github_host ^^ s) = Some s) as ->; [|by apply parse_path].
  unfold clone_path. assert (hasPrefix (toLower (github_host ^^ s)) github_host = true) as ->
    by (rewrite toLower_app; apply prefix_app; by exists (toLower s)).
  unfold drop_bytes. f_equal. rewrite string_app_length.
  replace (String.length github_host + String.length s - String.length github_host)%nat
    with (String.length s) by lia.
  exact (substring_all s).
Qed.

(** ** Properties: names *)

(** Names round-trip: what [Parse] returns are exactly the valid
    repositories, and each is read back from its clone path with the .git
    suffix, from that with a slash at the end, from its SSH form, and from its
    full name - provided the name itself does not end in .git, which [Parse]
    takes for the suffix. *)
Theorem Parse_roundtrip parse r :
  ((∃ v, Parse parse v = Some r) ↔ valid_repository r) ∧
  (valid_repository r →
   Parse parse (FullName r ^^ ".git") = Some r ∧
   Parse parse ((FullName r ^^ ".git") ^^ "/") = Some r ∧
   Parse parse (github_host ^^ FullName r ^^ ".git") = Some r ∧
   (hasSuffix (Name r) ".git" = false → Parse parse (FullName r) = Some r)).
Proof.
  assert (valid_repository r → all_bytes full_byte (FullName r ^^ ".git") = true ∧
    trimSuffix (trimSuffix (FullName r ^^ ".git") "/") ".git" = FullName r) as Hgit.
  { intros Hv. split; [by rewrite all_bytes_app, full_name_bytes|].
    rewrite (trimSuffix_none (FullName r ^^ ".git") "/") by (by apply (hasSuffix_other repo_byte)).
    apply trimSuffix_app. }
  split.
  - split; [by intros [v ?%Parse_valid]|]. intros Hv. destruct (Hgit Hv) as [Hb Ht].
    exists (FullName r ^^ ".git").
    by apply (parse_text _ _ _ (FullName r ^^ ".git")); [..|apply string_app_nonempty|apply clone_path_plain|].
  - intros Hv. destruct (Hgit Hv) as [Hb Ht]. split; [|split; [|split]].
    + by apply (parse_text _ _ _ (FullName r ^^ ".git"));
        [..|apply string_app_nonempty|apply clone_path_plain|].
    + assert (all_bytes full_byte ((FullName r ^^ ".git") ^^ "/") = true) as Hb'
        by (by rewrite all_bytes_app, Hb).
      apply (parse_text _ _ _ ((FullName r ^^ ".git") ^^ "/")); try done;
        [by apply string_app_nonempty|by apply clone_path_plain|by rewrite !trimSuffix_app].
    + by apply parse_ssh.
    + intros Hsuf. apply (parse_text _ _ _ (FullName r)); [done|by apply full_name_bytes| | |].
      * by apply string_app_nonempty.
      * by apply clone_path_plain, full_name_bytes.
      * rewrite (trimSuffix_none (FullName r) "/") by (by apply full_name_no_slash).
        apply trimSuffix_none. unfold FullName. by rewrite hasSuffix_segment.
Qed.

(** ** Lemmas: the layout *)

Lemma digit_char (n : N) : (n < 10)%N → ascii_of_N (48 + n) = pretty_N_char n.
Proof.
  intros Hn. destruct n as [|p]; [done|]. do 4 (destruct p as [p|p|]; try reflexivity; try lia).
Qed.

Lemma itoa_from_pretty fuel : ∀ n s, (n < 10 ^ N.of_nat fuel)%N → itoa_from fuel n s = pretty_N_go n s.
Proof.
  induction fuel as [|fuel IH]; intros n s Hn.
  { assert (n = 0%N) as -> by (simpl in Hn; lia). by rewrite pretty_N_go_0. }
  cbn [itoa_from]. destruct (N.ltb_spec 0 n) as [Hpos|Hz].
  - rewrite pretty_N_go_step by done. rewrite digit_char by (by apply N.mod_lt).
    apply IH. rewrite Nat2N.inj_succ, N.pow_succ_r' in Hn. by apply N.Div0.div_lt_upper_bound.
  - assert (n = 0%N) as -> by lia. by rewrite pretty_N_go_0.
Qed.

(** The hand-written loop prints what the standard printer does. *)
Lemma itoa_pretty n : (n < 10 ^ 20)%N → itoa n = pretty n.
Proof.
  intros Hn. unfold itoa, pretty, pretty_N. destruct (N.eqb_spec n 0) as [->|Hne]; [done|].
  rewrite decide_False by done. by apply itoa_from_pretty.
Qed.

Lemma itoa_chars n : (n < 10 ^ 20)%N → all_bytes slug_byte (itoa n) = true.
Proof.
  intros Hn. rewrite itoa_pretty by done. destruct n as [|p]; [done|].
  eapply all_bytes_weaken; [|exact (proj1 (fmt_d_chars (Z.pos p)))].
  intros c. unfold number_char, slug_byte. destruct (in_range 48 57 c); [by rewrite orb_true_r|].
  simpl. intros ->. by rewrite !orb_true_r.
Qed.

Definition numbered (base : string) (n : N) : string := base ^^ "-" ^^ itoa n.

Lemma numbered_inj base n m :
  (n < 10 ^ 20)%N → (m < 10 ^ 20)%N → numbered base n = numbered base m → n = m.
Proof.
  intros Hn Hm. unfold numbered. intros H%(inj (String.append base))%(inj (String.append "-")).
  rewrite !itoa_pretty in H by done. by apply (inj pretty) in H.
Qed.

Lemma numbered_base base n : base ≠ numbered base n.
Proof.
  intros H%(f_equal String.length). unfold numbered in H. rewrite !string_app_length in H.
  simpl in H. lia.
Qed.

(** The names tried, one more than the fuel. *)
Fixpoint tried (fuel : nat) (base : string) (n : N) (candidate : string) : list string :=
  match fuel with
  | O => [candidate]
  | S fuel' => candidate :: tried fuel' base (n + 1) (numbered base n)
  end.

Lemma tried_length fuel base : ∀ n c, length (tried fuel base n c) = S fuel.
Proof. induction fuel as [|f IH]; intros n c; [done|]. simpl. by rewrite IH. Qed.

Lemma tried_elem fuel base : ∀ n c x,
  x ∈ tried fuel base n c → x = c ∨ ∃ k, (n <= k < n + N.of_nat fuel)%N ∧ x = numbered base k.
Proof.
  induction fuel as [|f IH]; intros n c x; simpl.
  { intros ->%list_elem_of_singleton. by left. }
  intros [->|Hx]%elem_of_cons; [by left|right].
  destruct (IH _ _ _ Hx) as [->|(k & Hk & ->)]; [exists n|exists k]; split; (lia || done).
Qed.

Lemma tried_NoDup fuel base : ∀ n c,
  (n + N.of_nat fuel < 10 ^ 20)%N → (∀ k, (n <= k < n + N.of_nat fuel)%N → c ≠ numbered base k) →
  NoDup (tried fuel base n c).
Proof.
  induction fuel as [|f IH]; intros n c Hn Hc; simpl; [apply NoDup_singleton|].
  apply NoDup_cons. split.
  - intros [->|(k & Hk & ->)]%tried_elem; [by apply (Hc n); [lia|]|by apply (Hc k); [lia|]].
  - apply IH; [lia|]. intros k Hk H%numbered_inj; lia.
Qed.

Lemma free_name_used fuel used base : ∀ n c,
  free_name fuel used base n c ∈ used → ∀ x, x ∈ tried fuel base n c → x ∈ used.
Proof.
  induction fuel as [|f IH]; intros n c Hin x; simpl in *.
  { by intros ->%list_elem_of_singleton. }
  case_bool_decide as Hc; [|done]. intros [->|Hx]%elem_of_cons; [done|]. by eapply IH.
Qed.

Lemma free_name_tried fuel used base : ∀ n c, free_name fuel used base n c ∈ tried fuel base n c.
Proof.
  induction fuel as [|f IH]; intros n c; simpl; [by left|].
  case_bool_decide; [right; apply IH|by left].
Qed.

(** The search ends: with as much fuel as there are names in use, it finds one
    that is not. *)
Lemma free_name_fresh used base :
  (N.of_nat (length used) + 2 < 10 ^ 20)%N → free_name (length used) used base 2 base ∉ used.
Proof.
  intros Hn Hin. pose proof (free_name_used _ _ _ _ _ Hin) as Hall.
  assert (NoDup (tried (length used) base 2 base)) as Hnd
    by (apply tried_NoDup; [lia|]; intros k _; apply numbered_base).
  apply (NoDup_submseteq _ used) in Hnd; [|done].
  apply submseteq_length in Hnd. rewrite tried_length in Hnd. lia.
Qed.

(** A directory name that stays in its directory and is no option. *)
Record safe_dir (d : string) : Prop := {
  sd_bytes : all_bytes slug_byte d = true;
  sd_first : ∃ c rest, d = String c rest ∧ edge_byte c = false;
}.

Lemma drop_while_bytes p q s : all_bytes q s = true → all_bytes q (drop_while p s) = true.
Proof.
  induction s as [|c s IH]; [done|]. intros H. cbn [drop_while]. destruct (p c); [|done].
  apply andb_true_iff in H as [_ ?]. by apply IH.
Qed.

Lemma drop_while_snoc p s c :
  p c = false → drop_while p (s ^^ String c "") = drop_while p s ^^ String c "".
Proof.
  intros Hc. induction s as [|d s IH].
  - change (drop_while p (String c "") = String c ""). cbn [drop_while]. by rewrite Hc.
  - rewrite app_cons. cbn [drop_while]. destruct (p d); [apply IH|by rewrite app_cons].
Qed.

Lemma drop_while_first p s : drop_while p s = "" ∨ ∃ c r, drop_while p s = String c r ∧ p c = false.
Proof.
  induction s as [|c s IH]; [by left|]. cbn [drop_while]. destruct (p c) eqn:E; [done|right].
  by exists c, s.
Qed.

Lemma trim_set_first p s :
  trim_set p s = "" ∨ ∃ c rest, trim_set p s = String c rest ∧ p c = false.
Proof.
  unfold trim_set, trim_right. destruct (drop_while_first p s) as [->|(c & r & -> & Hc)]; [by left|right].
  rewrite rev_string_cons, drop_while_snoc, rev_string_snoc by done. by eexists _, _.
Qed.

Lemma keep_safe_bytes s : all_bytes slug_byte (keep_safe s) = true.
Proof.
  induction s as [|c s IH]; [done|]. cbn [keep_safe]. destruct (slug_byte c) eqn:E.
  - cbn [all_bytes]. by rewrite E.
  - by destruct (is_space c).
Qed.

Lemma RepoSlug_safe raw : safe_dir (RepoSlug raw).
Proof.
  unfold RepoSlug. cbv zeta. match goal with |- context [sanitizeSegment ?x] => generalize x end.
  intros value. unfold sanitizeSegment.
  set (kept := keep_safe _). destruct (trim_set_first edge_byte kept) as [->|(c & r & Hc & He)].
  { split; [done|]. by eexists _, _. }
  rewrite bool_decide_eq_false_2 by (by rewrite Hc). split; [|by exists c, r].
  unfold trim_set, trim_right. apply all_bytes_rev, drop_while_bytes, all_bytes_rev, drop_while_bytes.
  apply keep_safe_bytes.
Qed.

Lemma free_name_safe used base :
  (N.of_nat (length used) + 2 < 10 ^ 20)%N → safe_dir base →
  safe_dir (free_name (length used) used base 2 base).
Proof.
  intros Hn [Hb (c & r & -> & He)].
  destruct (tried_elem _ _ _ _ _ (free_name_tried (length used) used (String c r) 2 (String c r)))
    as [->|(k & Hk & ->)]; [by split; [|exists c, r]|].
  split; [|by eexists c, _]. unfold numbered. rewrite !all_bytes_app, Hb. by rewrite itoa_chars by lia.
Qed.

Lemma subdirs_from_app used urls more : ∃ used',
  subdirs_from used (urls ++ more) = subdirs_from used urls ++ subdirs_from used' more.
Proof.
  revert used. induction urls as [|raw urls IH]; intros used; [by exists used|]. simpl.
  destruct (IH (free_name (length used) used (RepoSlug raw) 2 (RepoSlug raw) :: used)) as [used' ->].
  by exists used'.
Qed.

Definition in_repos (c : string) : string := ReposSubdir ^^ "/" ^^ c.

(** The directories under [repos/]: safe, distinct and new. *)
Lemma subdirs_from_spec urls : ∀ used,
  (N.of_nat (length used + length urls) + 2 < 10 ^ 20)%N →
  ∃ names, subdirs_from used urls = in_repos <$> names ∧ length names = length urls ∧ NoDup names ∧
    (∀ c, c ∈ names → safe_dir c ∧ c ∉ used) ∧
    (NoDup (map RepoSlug urls) → (∀ u, u ∈ urls → RepoSlug u ∉ used) → names = map RepoSlug urls).
Proof.
  induction urls as [|raw urls IH]; intros used Hn.
  { exists []. split; [done|]. split; [done|]. split; [constructor|]. split; [|done].
    intros c Hc. by apply elem_of_nil in Hc. }
  cbn [length] in Hn. set (c0 := free_name (length used) used (RepoSlug raw) 2 (RepoSlug raw)).
  assert (c0 ∉ used) as Hfresh by (apply free_name_fresh; lia).
  assert (safe_dir c0) as Hsafe by (apply free_name_safe; [lia|apply RepoSlug_safe]).
  destruct (IH (c0 :: used)) as (names & Heq & Hlen & Hnd & Hall & Hplain); [cbn [length]; lia|].
  exists (c0 :: names). cbn [subdirs_from]. fold c0. rewrite Heq.
  split; [done|]. split; [cbn [length]; lia|]. split; [|split].
  - apply NoDup_cons. split; [|done]. intros Hc. apply (proj2 (Hall _ Hc)). left.
  - intros c [->|Hc]%elem_of_cons; [done|]. destruct (Hall _ Hc) as [Hs Hu]. split; [done|].
    intros Hin. apply Hu. by right.
  - intros [Hr Hnd']%NoDup_cons Hout.
    assert (c0 = RepoSlug raw) as Hc0.
    { unfold c0. assert (RepoSlug raw ∉ used) as Hru by (apply Hout; left).
      destruct (length used); [done|]. cbn [free_name]. by rewrite bool_decide_eq_false_2. }
    cbn [map]. f_equal; [done|]. apply Hplain; [done|]. intros u Hu [Hin|Hin]%elem_of_cons.
    + apply Hr. rewrite <- Hc0, <- Hin. by apply list_elem_of_In, in_map, list_elem_of_In.
    + by apply (Hout u); [right|].
Qed.

(** The layout of a workspace: the directories of a task's secondary
    repositories are as many as the repositories, pairwise different - the
    search for a free name ends - and each is one safe segment under repos/,
    never empty, hidden, an option or a step upwards. They depend only on the
    repositories before them, so one more repository moves no checkout, and no
    number is added to names that are different anyway. *)
Theorem SecondarySubdirs_spec urls :
  Z.of_nat (length urls) < 2 ^ 63 →
  length (SecondarySubdirs urls) = length urls ∧ NoDup (SecondarySubdirs urls) ∧
  (∀ d, d ∈ SecondarySubdirs urls → ∃ c, d = "repos/" ^^ c ∧ safe_dir c) ∧
  (∀ more, ∃ rest, SecondarySubdirs (urls ++ more) = SecondarySubdirs urls ++ rest) ∧
  (NoDup (map RepoSlug urls) → SecondarySubdirs urls = map (λ u, "repos/" ^^ RepoSlug u) urls).
Proof.
  intros Hn. unfold SecondarySubdirs.
  destruct (subdirs_from_spec urls []) as (names & Heq & Hlen & Hnd & Hall & Hplain).
  { cbn [length plus]. lia. }
  rewrite Heq. split; [by rewrite length_fmap|]. split; [|split; [|split]].
  - apply NoDup_fmap_2; [|done]. intros x y H. unfold in_repos in H.
    by apply (inj (String.append ReposSubdir)), (inj (String.append "/")) in H.
  - intros d (c & -> & Hc)%list_elem_of_fmap. exists c. split; [done|]. by apply Hall.
  - intros more. destruct (subdirs_from_app [] urls more) as [used' ->]. rewrite Heq. by eexists.
  - intros Hslugs. rewrite Hplain; [|done|]; [exact (map_map RepoSlug in_repos urls)|].
    intros u _ H. by apply elem_of_nil in H.
Qed.

(** ** Witnesses *)

Definition no_url (_ : string) : option URL := None.

Lemma Parse_roundtrip_witness :
  valid_repository (mkRepository "acme" "tools") ∧
  Parse no_url "acme/tools" = Some (mkRepository "acme" "tools").
Proof.
  assert (valid_repository (mkRepository "acme" "tools")) as Hv
    by (constructor; [reflexivity|reflexivity|reflexivity|split; discriminate]).
  split; [exact Hv|].
  exact (proj2 (proj2 (proj2 (proj2 (Parse_roundtrip no_url (mkRepository "acme" "tools")) Hv)))
    eq_refl).
Defined.

Lemma SecondarySubdirs_spec_witness :
  NoDup (SecondarySubdirs ["https://github.com/a/lib"; "https://github.com/b/lib"; "c/lib-2"]).
Proof.
  apply (SecondarySubdirs_spec ["https://github.com/a/lib"; "https://github.com/b/lib"; "c/lib-2"]).
  vm_compute. reflexivity.
Defined.
