(* ===== verification/GithubEvents.v ===== *)
(** * GitHub events, triggers and the tasks they ask for

    The data of [internal/webhook]: the payloads of [events.go], the triggers
    and review contexts of [handler.go], the task requests of [submitter.go] and
    how a review or an issue becomes one. *)
From S2P Require Import Prelude GoStrings.

(** ** Payloads ([events.go]) *)

Definition PullRequestActionOpened : string := "opened".
Definition PullRequestActionSynchronize : string := "synchronize".
Definition PullRequestActionReopened : string := "reopened".
Definition PullRequestActionLabeled : string := "labeled".

Definition EventTypePullRequest : string := "pull_request".
Definition EventTypeIssueComment : string := "issue_comment".
Definition EventTypeIssues : string := "issues".
Definition EventTypePullRequestReview : string := "pull_request_review".
Definition EventTypePullRequestReviewComment : string := "pull_request_review_comment".

Definition ChetterReviewLabel : string := "chetter-review".
Definition ReviewTriggerCommand : string := "/chetter-review".

Definition TriggerEventOpened : string := "opened".
Definition TriggerEventLabeled : string := "labeled".
Definition TriggerEventFork : string := "fork".

Record Label := mkLabel { lb_Name : string }.

Record PRBranch := mkPRBranch {
  br_Ref : string;
  br_SHA : string;
  br_Repo_FullName : string;
  br_Repo_CloneURL : string;
}.

Record PullRequest := mkPullRequest {
  pr_Number : Z;
  pr_State : string;
  pr_Title : string;
  pr_Body : string;
  pr_Head : PRBranch;
  pr_Base : PRBranch;
  pr_User_Login : string;
  pr_Labels : list Label;
}.

Record EventRepository := mkEventRepository {
  er_FullName : string;
  er_Name : string;
  er_Owner_Login : string;
}.

Record PullRequestEvent := mkPullRequestEvent {
  pe_Action : string;
  pe_Number : Z;
  pe_PullRequest : PullRequest;
  pe_Label : option Label;
  pe_Repository : EventRepository;
  pe_Installation : Z;
  pe_Sender_Login : string;
}.

Record PullRequestReviewEvent := mkPullRequestReviewEvent {
  re_Action : string;
  re_PullRequest : PullRequest;
  re_Review_User_Login : string;
  re_Repository : EventRepository;
  re_Installation : Z;
}.

Record Comment := mkComment { cm_Body : string; cm_User_Login : string }.

Record PullRequestReviewCommentEvent := mkPullRequestReviewCommentEvent {
  rce_Action : string;
  rce_PullRequest : PullRequest;
  rce_Comment : Comment;
  rce_Repository : EventRepository;
  rce_Installation : Z;
}.

(** [is_PullRequest] holds the URL of the [pull_request] field. *)
Record Issue := mkIssue {
  is_Number : Z;
  is_Title : string;
  is_Body : string;
  is_HTMLURL : string;
  is_PullRequest : option string;
  is_Labels : list Label;
}.

Record IssueCommentEvent := mkIssueCommentEvent {
  ice_Action : string;
  ice_Comment : Comment;
  ice_Issue : Issue;
  ice_Repository : EventRepository;
  ice_Installation : Z;
}.

Definition IsPullRequest (e : IssueCommentEvent) : bool :=
  match is_PullRequest (ice_Issue e) with Some _ => true | None => false end.

Record IssueData := mkIssueData {
  id_Number : Z;
  id_Title : string;
  id_State : string;
  id_Body : string;
  id_HTMLURL : string;
  id_User_Login : string;
  id_Labels : list Label;
}.

Record IssueEvent := mkIssueEvent {
  ie_Action : string;
  ie_Issue : IssueData;
  ie_Label : option Label;
  ie_Repository : EventRepository;
  ie_Installation : Z;
}.

(** ** Triggers and reviews ([handler.go]) *)

Record ReviewTrigger := mkReviewTrigger {
  rt_TeamID : string;
  rt_Name : string;
  rt_TriggerType : string;
  rt_Prompt : string;
  rt_AgentImage : string;
  rt_Agent : string;
  rt_ProviderID : string;
  rt_ModelID : string;
  rt_VariantID : string;
  rt_TimeoutSec : Z;
  rt_GitURL : string;
  rt_GitRef : string;
  rt_Skills : list string;
  rt_Event : string;
  rt_MatchLabels : list string;
  rt_SessionMode : string;
  rt_PauseReason : string;
  rt_TTLHours : Z;
  rt_Isolation : string;
}.

Record ReviewContext := mkReviewContext {
  rc_TeamID : string;
  rc_TriggerName : string;
  rc_TriggerType : string;
  rc_Trigger : string;
  rc_Repo : string;
  rc_PRNumber : Z;
  rc_BaseRef : string;
  rc_HeadRef : string;
  rc_HeadCloneURL : string;
  rc_CommentAuthor : string;
  rc_GitHubInstallationID : Z;
  rc_Prompt : string;
  rc_AgentImage : string;
  rc_Agent : string;
  rc_ProviderID : string;
  rc_ModelID : string;
  rc_VariantID : string;
  rc_Skills : list string;
  rc_TimeoutSec : Z;
  rc_SessionMode : string;
  rc_PauseReason : string;
  rc_TTLHours : Z;
  rc_Isolation : string;
}.

(** ** Task requests ([submitter.go]) *)

(** The package's own [SubmitTaskRequest]. *)
Record WebhookTaskRequest := mkWebhookTaskRequest {
  wr_TeamID : string;
  wr_Prompt : string;
  wr_GitURL : string;
  wr_GitRef : string;
  wr_GitHubRepo : string;
  wr_GitHubInstallationID : Z;
  wr_AgentImage : string;
  wr_Agent : string;
  wr_ProviderID : string;
  wr_ModelID : string;
  wr_VariantID : string;
  wr_Skills : list string;
  wr_Env : gmap string string;
  wr_TimeoutSec : Z;
  wr_TriggerName : string;
  wr_TriggerType : string;
  wr_SessionMode : string;
  wr_PauseReason : string;
  wr_TTLHours : Z;
  wr_Isolation : string;
}.

Definition defaultReviewAgentImage : string := "ghcr.io/flatout-works/chetter-agent-base:main".

Definition dquote : string := String (ascii_of_nat 34) EmptyString.

Definition reviewPromptTemplate : string :=
  "You are performing a deep code review on a pull request.

## Context

- Repository: {{REPO}}
- PR number: {{PR_NUMBER}}
- Base ref: {{BASE_REF}}
- Head ref: {{HEAD_REF}}
- Trigger: {{TRIGGER}}

Environment variables available to you:
- PR_NUMBER — the PR to review
- GITHUB_REPO — repository (e.g., my-org/my-repo)
- COMMENT_AUTHOR — set when the trigger was a comment (the user who requested review)
- CHETTER_AGENT_NAME — agent definition name (e.g., " ^^
  dquote ^^
  "pr-reviewer" ^^
  dquote ^^
  ")
- CHETTER_MODEL_ID — model identifier (e.g., " ^^
  dquote ^^
  "opencode/minimax-m3" ^^
  dquote ^^
  ")
- CHETTER_TASK_ID — Chetter task identifier

## Procedure

### 1. Understand the PR

Read the PR description, linked issues, and commit messages:
```bash
gh pr view $PR_NUMBER --json title,body,baseRefName,headRefName,files,commits
```

Understand the intent before reviewing details.

### 2. Review Changed Files

List the changed files:
```bash
gh pr diff $PR_NUMBER --name-only
```

For each changed file:
- Read the full file (not just the diff) to understand surrounding context
- Check for:
  - Correctness — logic errors, off-by-one, nil pointer dereferences, missing error checks
  - Security — SQL injection, path traversal, secret leaks, unsafe deserialization
  - Performance — unnecessary allocations, N+1 queries, missing indexes, blocking calls
  - Error handling — swallowed errors, missing context in wrapping, panic instead of error
  - Naming — unclear names, stuttering, inconsistent conventions
  - Concurrency — race conditions, missing locks, goroutine leaks
  - Dead code — unreachable branches, unused imports, commented-out code
  - Tests — missing coverage for new logic, test isolation issues

### 3. Verify Compilation and Tests

```bash
if [ " ^^
  dquote ^^
  "$GITHUB_REPO" ^^
  dquote ^^
  " = " ^^
  dquote ^^
  "chetter/chetter" ^^
  dquote ^^
  " ]; then
  make -C server check
  make -C runner check
  make -C builder check
elif [ " ^^
  dquote ^^
  "$GITHUB_REPO" ^^
  dquote ^^
  " = " ^^
  dquote ^^
  "my-org/chetter" ^^
  dquote ^^
  " ]; then
  make check
else
  go test ./...
fi
```

If tests fail, include the failures in the review output.

### 4. Post Review

Post a structured review using `chetter_pr_review` with `task_id=$CHETTER_TASK_ID`, `repo=$GITHUB_REPO`, and `pr_number=$PR_NUMBER`. Do not use `gh pr review` and do not manually add the Chetter footer; the tool adds the canonical footer and records audit/artifact metadata.

The review body must include:
- Overall assessment (approve / request-changes / comment)
- Summary of findings grouped by category
- Specific line-level suggestions where applicable
- Test results
Do not push directly to main. Do not merge PRs. Only review and post comments.
".

Definition prReviewContextBlock (review : ReviewContext) : string :=
  "## PR Context

- Repository: " ^^ rc_Repo review ^^
  "
- PR number: " ^^ fmt_d (rc_PRNumber review) ^^
  "
- Base ref: " ^^ rc_BaseRef review ^^
  "
- Head ref: " ^^ rc_HeadRef review ^^
  "
- Trigger: " ^^ rc_Trigger review ^^
  "

Environment variables available to you:
- PR_NUMBER — the PR to review
- GITHUB_REPO — repository (e.g., my-org/my-repo)
- CHETTER_TASK_ID — Chetter task identifier

## Procedure

### 1. Understand the PR

Read the PR description, linked issues, and commit messages:
```bash
gh pr view $PR_NUMBER --json title,body,baseRefName,headRefName,files,commits
```

Understand the intent before reviewing details.

### 2. Review Changed Files

List the changed files:
```bash
gh pr diff $PR_NUMBER --name-only
```

For each changed file:
- Read the full file (not just the diff) to understand surrounding context
- Check for correctness, security, performance, error handling, naming, concurrency, dead code, and test coverage

### 3. Post Review

Post a structured review using `chetter_pr_review` with `task_id=$CHETTER_TASK_ID`, `repo=$GITHUB_REPO`, and `pr_number=$PR_NUMBER`. Do not use `gh pr review` and do not manually add the Chetter footer; the tool adds the canonical footer and records audit/artifact metadata.

The review body must include:
- Overall assessment (approve / request-changes / comment)
- Summary of findings grouped by category
- Specific line-level suggestions where applicable
Do not push directly to main. Do not merge PRs. Only review and post comments.
".

Definition LF2 : string := String (ascii_of_nat 10) (String (ascii_of_nat 10) EmptyString).

(** The prompt of a review: the variables are substituted one after the other,
    and a custom prompt is followed by the context block. *)
Definition review_prompt (review : ReviewContext) : string :=
  let prompt := if rc_Prompt review == "" then reviewPromptTemplate else rc_Prompt review in
  let prompt := replaceAll prompt "{{REPO}}" (rc_Repo review) in
  let prompt := replaceAll prompt "{{PR_NUMBER}}" (fmt_d (rc_PRNumber review)) in
  let prompt := replaceAll prompt "{{BASE_REF}}" (rc_BaseRef review) in
  let prompt := replaceAll prompt "{{HEAD_REF}}" (rc_HeadRef review) in
  let prompt := replaceAll prompt "{{TRIGGER}}" (rc_Trigger review) in
  if negb (rc_Prompt review == "") && negb (rc_Prompt review == reviewPromptTemplate)
  then prompt ^^ LF2 ^^ prReviewContextBlock review
  else prompt.

Definition review_env (review : ReviewContext) : gmap string string :=
  let env := {[ "PR_NUMBER" := fmt_d (rc_PRNumber review); "GITHUB_REPO" := rc_Repo review ]} in
  if negb (rc_CommentAuthor review == "")
  then <["COMMENT_AUTHOR" := rc_CommentAuthor review]> env else env.

Definition buildReviewTaskRequest (review : ReviewContext) : WebhookTaskRequest :=
  {| wr_TeamID := rc_TeamID review;
     wr_Prompt := review_prompt review;
     wr_GitURL := rc_HeadCloneURL review;
     wr_GitRef := rc_HeadRef review;
     wr_GitHubRepo := rc_Repo review;
     wr_GitHubInstallationID := rc_GitHubInstallationID review;
     wr_AgentImage := if rc_AgentImage review == "" then defaultReviewAgentImage
                      else rc_AgentImage review;
     wr_Agent := rc_Agent review;
     wr_ProviderID := rc_ProviderID review;
     wr_ModelID := rc_ModelID review;
     wr_VariantID := rc_VariantID review;
     wr_Skills := rc_Skills review;
     wr_Env := review_env review;
     wr_TimeoutSec := rc_TimeoutSec review;
     wr_TriggerName := rc_TriggerName review;
     wr_TriggerType := rc_TriggerType review;
     wr_SessionMode := rc_SessionMode review;
     wr_PauseReason := rc_PauseReason review;
     wr_TTLHours := rc_TTLHours review;
     wr_Isolation := rc_Isolation review |}.

(** The composite literal of the source names no [Isolation]: the field is
    empty. *)
Definition BuildIssueTaskRequest (t : ReviewTrigger) (repo : string) (installationID : Z)
    (prompt : string) (env : gmap string string) : WebhookTaskRequest :=
  {| wr_TeamID := rt_TeamID t;
     wr_Prompt := prompt;
     wr_GitURL := rt_GitURL t;
     wr_GitRef := rt_GitRef t;
     wr_GitHubRepo := repo;
     wr_GitHubInstallationID := installationID;
     wr_AgentImage := rt_AgentImage t;
     wr_Agent := rt_Agent t;
     wr_ProviderID := rt_ProviderID t;
     wr_ModelID := rt_ModelID t;
     wr_VariantID := rt_VariantID t;
     wr_Skills := rt_Skills t;
     wr_Env := env;
     wr_TimeoutSec := rt_TimeoutSec t;
     wr_TriggerName := rt_Name t;
     wr_TriggerType := rt_TriggerType t;
     wr_SessionMode := rt_SessionMode t;
     wr_PauseReason := rt_PauseReason t;
     wr_TTLHours := rt_TTLHours t;
     wr_Isolation := "" |}.

(** The review of one trigger: what the trigger configures replaces what the
    event gave, except the branch of a pull request under review. *)
Definition review_of_trigger (ctx : ReviewContext) (t : ReviewTrigger) : ReviewContext :=
  {| rc_TeamID := rt_TeamID t;
     rc_TriggerName := rt_Name t;
     rc_TriggerType := rt_TriggerType t;
     rc_Trigger := rc_Trigger ctx;
     rc_Repo := rc_Repo ctx;
     rc_PRNumber := rc_PRNumber ctx;
     rc_BaseRef := rc_BaseRef ctx;
     rc_HeadRef := if negb (rt_GitRef t == "") && negb (rt_TriggerType t == "pr_review")
                   then rt_GitRef t else rc_HeadRef ctx;
     rc_HeadCloneURL := if negb (rt_GitURL t == "") && negb (rt_TriggerType t == "pr_review")
                        then rt_GitURL t else rc_HeadCloneURL ctx;
     rc_CommentAuthor := rc_CommentAuthor ctx;
     rc_GitHubInstallationID := rc_GitHubInstallationID ctx;
     rc_Prompt := if negb (rt_Prompt t == "") then rt_Prompt t else rc_Prompt ctx;
     rc_AgentImage := if negb (rt_AgentImage t == "") then rt_AgentImage t else rc_AgentImage ctx;
     rc_Agent := rt_Agent t;
     rc_ProviderID := rt_ProviderID t;
     rc_ModelID := rt_ModelID t;
     rc_VariantID := rt_VariantID t;
     rc_Skills := if (0 <? length (rt_Skills t))%nat then rt_Skills t else rc_Skills ctx;
     rc_TimeoutSec := rt_TimeoutSec t;
     rc_SessionMode := rt_SessionMode t;
     rc_PauseReason := rt_PauseReason t;
     rc_TTLHours := rt_TTLHours t;
     rc_Isolation := rt_Isolation t |}.

(** ** Matching *)

Definition TriggerMatchesLabels (triggerLabels issueLabels : list string) : bool :=
  (length triggerLabels =? 0)%nat ||
  existsb (λ req, existsb (equalFold req) issueLabels) triggerLabels.

Definition triggerAllowsBotComments (t : ReviewTrigger) : bool :=
  contains (rt_Event t) "bot_comments:true".

Definition triggerActionFromPR (ev : PullRequestEvent) (repo : string) : string :=
  if pe_Action ev == PullRequestActionLabeled then TriggerEventLabeled
  else
    let head := br_Repo_FullName (pr_Head (pe_PullRequest ev)) in
    if negb (head == "") && negb (head == repo) then TriggerEventFork
    else if (pe_Action ev == PullRequestActionOpened) || (pe_Action ev == PullRequestActionSynchronize)
            || (pe_Action ev == PullRequestActionReopened) then pe_Action ev
    else "".

(** ** Footers ([discoverArtifacts]) *)

(** [\s] of Go's regular expressions. *)
Definition re_space (c : ascii) : bool :=
  let n := N_of_ascii c in ((n =? 9) || (n =? 10) || (n =? 12) || (n =? 13) || (n =? 32))%N.

Fixpoint skip_while (p : ascii → bool) (s : string) : string :=
  match s with EmptyString => s | String c s' => if p c then skip_while p s' else s end.
Fixpoint take_while (p : ascii → bool) (s : string) : string :=
  match s with EmptyString => s | String c s' => if p c then String c (take_while p s') else EmptyString end.

Definition hex_lower (c : ascii) : bool := in_range 48 57 c || in_range 97 102 c.

Definition strip (pre s : string) : option string :=
  if String.prefix pre s
  then Some (String.substring (String.length pre) (String.length s - String.length pre) s) else None.

(** [label\s*bracket?(kind[a-f0-9]+)] at the start of [s]; the group. *)
Definition footer_at (label : string) (bracket : bool) (kind s : string) : option string :=
  match strip label s with
  | None => None
  | Some s1 =>
    let s2 := skip_while re_space s1 in
    let s3 := if bracket then default s2 (strip "[" s2) else s2 in
    match strip kind s3 with
    | None => None
    | Some s4 => let hex := take_while hex_lower s4 in
                 if hex == "" then None else Some (kind ^^ hex)
    end
  end.

(** The leftmost match. *)
Fixpoint footer (label : string) (bracket : bool) (kind s : string) : option string :=
  match footer_at label bracket kind s with
  | Some id => Some id
  | None => match s with EmptyString => None | String _ s' => footer label bracket kind s' end
  end.

Definition taskIDFooterRe : string → option string := footer "Task:" true "task_".
Definition agentSessionIDFooterRe : string → option string := footer "Session:" false "sess_".
Definition userPromptIDFooterRe : string → option string := footer "Prompt:" false "prompt_".
Definition executionAttemptIDFooterRe : string → option string := footer "Attempt:" false "exec_".

Record RecordArtifactParams := mkRecordArtifactParams {
  ra_TaskID : string;
  ra_AgentSessionID : string;
  ra_UserPromptID : string;
  ra_ExecutionAttemptID : string;
  ra_ArtifactType : string;
  ra_Repo : string;
  ra_Number : Z;
  ra_URL : string;
  ra_Ref : string;
  ra_SHA : string;
  ra_DiscoverySource : string;
}.

(** What a text with a Chetter footer records, if it has one. *)
Definition footer_artifact (text repo : string) (number : Z) (url artifactType : string)
    : option RecordArtifactParams :=
  match taskIDFooterRe text with
  | None => None
  | Some taskID =>
    Some (mkRecordArtifactParams taskID (default "" (agentSessionIDFooterRe text))
            (default "" (userPromptIDFooterRe text)) (default "" (executionAttemptIDFooterRe text))
            artifactType repo number url "" "" "webhook")
  end.
