(* ===== verification/GithubWebhook.v ===== *)
(** * GitHub webhooks: from an event to reviews, tasks and resumed sessions

    The event handlers of [internal/webhook/handler.go]. What they call, GitHub
    and the service behind them, is the class [Services]; the decoding of a
    payload is a parameter. The trace of a handler lists the calls that matter:
    the access checks with their verdicts, and everything done for the event. *)
From S2P Require Import Prelude Effects GoStrings GithubEvents.

Record AuditEventParams := mkAuditEventParams {
  ae_EventType : string;
  ae_SourceType : string;
  ae_SourceID : string;
  ae_TargetType : string;
  ae_TargetID : string;
  ae_Repo : string;
  ae_GitHubEvent : string;
  ae_GitHubAction : string;
  ae_GitHubDeliveryID : string;
  ae_Detail : string;
  ae_Payload : string;
}.

(** What the handlers call: the GitHub client of an installation, the service's
    triggers, submissions and resumptions, and its records. *)
Class Services (W : Type) := {
  AppLogin : W → (err + string) * W;
  CheckUserHasWriteAccess : Z → string → string → W → (err + bool) * W;
  GetPullRequest : Z → string → Z → W → (err + string * string * string) * W;
  CreateIssueComment : Z → string → Z → string → W → (err + unit) * W;
  HasLabel : Z → string → Z → string → W → (err + bool) * W;
  AddIssueLabel : Z → string → Z → string → W → (err + unit) * W;
  ListEnabledPRReviewTriggersByRepo : string → W → (err + list ReviewTrigger) * W;
  ListEnabledIssueTriggersByRepo : string → W → (err + list ReviewTrigger) * W;
  SubmitTask : WebhookTaskRequest → W → (err + unit) * W;
  ResumeSessionForPR : string → Z → W → (err + unit) * W;
  LogAuditEvent : AuditEventParams → W → (err + unit) * W;
  RecordArtifact : RecordArtifactParams → W → (err + unit) * W;
}.

(** The events of a trace. *)
Inductive effect :=
| ELogin (answer : err + string)
| EAccess (repo user : string) (granted : bool)
| EResume (repo : string) (prNumber : Z) (answer : err + unit)
| EReview (review : ReviewContext) (answer : err + unit)
| ETask (req : WebhookTaskRequest) (answer : err + unit)
| EComment (repo : string) (number : Z) (body : string)
| ELabel (repo : string) (number : Z) (label : string)
| EArtifact (params : RecordArtifactParams)
| EAudit (params : AuditEventParams).

(** Which of its optional parts a handler has. *)
Record Handler := mkHandler {
  h_github : bool;
  h_audit : bool;
  h_artifacts : bool;
  h_resumer : bool;
}.

(** How the payloads decode. *)
Record Decoders := mkDecoders {
  decode_pull_request : string → err + PullRequestEvent;
  decode_issue_comment : string → err + IssueCommentEvent;
  decode_issues : string → err + IssueEvent;
  decode_review : string → err + PullRequestReviewEvent;
  decode_review_comment : string → err + PullRequestReviewCommentEvent;
}.

Definition CommentReviewFailed : string :=
  "🤖 Chetter review could not start. Please check the chetter service logs.".

Section handlers.
Context {W : Type} `{SV : Services W}.
Variable h : Handler.
Variable D : Decoders.
(** [err.Error()], for the audit records. *)
Variable errText : err → string.

Notation M := (eff W effect).

(** ** Calls and their answers *)

Definition ok_of {A} (r : err + A) : bool := match r with inl _ => false | inr _ => true end.

Definition clientForEvent (installation : Z) (event : string) : err + Z :=
  if negb (h_github h) then inl (EMsg "github manager is not configured")
  else if installation <=? 0 then inl (EFmt "%s webhook is missing installation.id" [event])
  else inr installation.

Definition logAudit (params : AuditEventParams) : M unit :=
  when (h_audit h) (call (LogAuditEvent params) (λ _, EAudit params) ≫= λ _, mret tt).

Definition isOwnBotLogin (username : string) : M bool :=
  if negb (h_github h) then mret false
  else call AppLogin ELogin ≫= λ r,
       mret (match r with inl _ => false | inr login => negb (login == "") && (username == login) end).

Definition target (repo : string) (number : Z) : string := repo ^^ "#" ^^ fmt_d number.

Definition installationAuditPayload (id : Z) : string :=
  "{" ^^ dquote ^^ "github_installation_id" ^^ dquote ^^ ":" ^^ fmt_d id ^^ "}".

Definition checkAuthorWriteAccess (gh : Z) (repo username deliveryID : string) : M bool :=
  call (CheckUserHasWriteAccess gh repo username)
       (λ r, EAccess repo username (match r with inr b => b | inl _ => false end)) ≫= λ r,
  match r with
  | inl _ => mret false
  | inr true => mret true
  | inr false =>
    logAudit (mkAuditEventParams "webhook_author_gate_denied" "webhook" deliveryID "repo" repo repo
                "author_gate" "" deliveryID
                ("user " ^^ username ^^ " lacks write access to " ^^ repo) "") ≫= λ _,
    mret false
  end.

Definition discoverArtifacts (text repo : string) (number : Z) (url artifactType : string) : M unit :=
  if negb (h_artifacts h) then mret tt
  else match footer_artifact text repo number url artifactType with
  | None => mret tt
  | Some params => call (RecordArtifact params) (λ _, EArtifact params) ≫= λ _, mret tt
  end.

(** [serviceSubmitter.SubmitReviewTask]. *)
Definition SubmitReviewTask (review : ReviewContext) : M (err + unit) :=
  call (SubmitTask (buildReviewTaskRequest review)) (EReview review).

Definition submit_task (req : WebhookTaskRequest) : M (err + unit) := call (SubmitTask req) (ETask req).

Definition resume_session (repo : string) (number : Z) : M (err + unit) :=
  call (ResumeSessionForPR repo number) (EResume repo number).

Definition postCommentOnFailure (gh : Z) (ctx : ReviewContext) (body : string) : M unit :=
  call (CreateIssueComment gh (rc_Repo ctx) (rc_PRNumber ctx) body)
       (λ _, EComment (rc_Repo ctx) (rc_PRNumber ctx) body) ≫= λ _, mret tt.

Definition received_audit (deliveryID targetType repo : string) (number : Z) (event action : string)
    (installation : Z) : M unit :=
  logAudit (mkAuditEventParams "webhook_received" "webhook" deliveryID targetType
              (target repo number) repo event action deliveryID
              (event ^^ "/" ^^ action ^^ " for " ^^ target repo number)
              (installationAuditPayload installation)).

(** ** Reviews *)

Definition review_label (gh : Z) (ctx : ReviewContext) : M unit :=
  if rc_Trigger ctx == "label" then mret tt
  else ask (HasLabel gh (rc_Repo ctx) (rc_PRNumber ctx) ChetterReviewLabel) ≫= λ has,
       match has with
       | inr false =>
           call (AddIssueLabel gh (rc_Repo ctx) (rc_PRNumber ctx) ChetterReviewLabel)
                (λ _, ELabel (rc_Repo ctx) (rc_PRNumber ctx) ChetterReviewLabel) ≫= λ _, mret tt
       | _ => mret tt
       end.

Definition review_one (gh : Z) (ctx : ReviewContext) (t : ReviewTrigger) : M (err + unit) :=
  let rc := review_of_trigger ctx t in
  SubmitReviewTask rc ≫= λ r,
  when (negb (ok_of r)) (postCommentOnFailure gh rc CommentReviewFailed) ≫= λ _, mret r.

Definition review_matches (event : string) (t : ReviewTrigger) : bool :=
  (rt_Event t == "") || (rt_Event t == event).

Definition review_all (gh : Z) (ctx : ReviewContext) (event : string) (l : list ReviewTrigger)
    : M (err + unit) :=
  match List.filter (review_matches event) l with
  | [] => mret (inr tt)
  | matching => review_label gh ctx ≫= λ _,
                each (review_one gh ctx) matching ≫= λ rs, mret (first_err rs)
  end.

(** [triggers = None] is the nil slice, which is resolved here. *)
Definition submitReviewForTrigger (ctx : ReviewContext) (gh : Z)
    (triggers : option (list ReviewTrigger)) (event : string) : M (err + unit) :=
  match triggers with
  | Some l => review_all gh ctx event l
  | None =>
    ask (ListEnabledPRReviewTriggersByRepo (rc_Repo ctx)) ≫= λ r,
    match r with
    | inl e => postCommentOnFailure gh ctx CommentReviewFailed ≫= λ _, mret (inl e)
    | inr l => review_all gh ctx event l
    end
  end.

(** A review context with only what an event gives. *)
Definition event_review (trigger repo : string) (number : Z) (base head clone author : string)
    (installation : Z) : ReviewContext :=
  {| rc_TeamID := ""; rc_TriggerName := ""; rc_TriggerType := ""; rc_Trigger := trigger;
     rc_Repo := repo; rc_PRNumber := number; rc_BaseRef := base; rc_HeadRef := head;
     rc_HeadCloneURL := clone; rc_CommentAuthor := author; rc_GitHubInstallationID := installation;
     rc_Prompt := ""; rc_AgentImage := ""; rc_Agent := ""; rc_ProviderID := ""; rc_ModelID := "";
     rc_VariantID := ""; rc_Skills := []; rc_TimeoutSec := 0; rc_SessionMode := "";
     rc_PauseReason := ""; rc_TTLHours := 0; rc_Isolation := "" |}.

(** ** pull_request *)

(** The triggers resolved by [handlePullRequest]; an empty slice of the resolver
    is not nil, for it is made with [make]. *)
Definition handlePullRequest (body deliveryID : string) : M (err + unit) :=
  match decode_pull_request D body with
  | inl e => mret (inl (EFmt "parse pull_request: %w" []))
  | inr ev =>
    match clientForEvent (pe_Installation ev) EventTypePullRequest with
    | inl e => mret (inl e)
    | inr gh =>
      let action := pe_Action ev in
      if negb ((action == PullRequestActionOpened) || (action == PullRequestActionSynchronize) ||
               (action == PullRequestActionReopened) || (action == PullRequestActionLabeled))
      then mret (inr tt)
      else if (action == PullRequestActionLabeled) &&
              negb (match pe_Label ev with Some l => lb_Name l == ChetterReviewLabel | None => false end)
      then mret (inr tt)
      else
        (if action == PullRequestActionLabeled then isOwnBotLogin (pe_Sender_Login ev)
         else mret false) ≫= λ own_label,
        if (own_label : bool) then mret (inr tt)
        else
          let repo := er_FullName (pe_Repository ev) in
          received_audit deliveryID "pull_request" repo (pe_Number ev) EventTypePullRequest action
            (pe_Installation ev) ≫= λ _,
          let triggerAction := triggerActionFromPR ev repo in
          if triggerAction == "" then mret (inr tt)
          else
            let author := pr_User_Login (pe_PullRequest ev) in
            (if (triggerAction == TriggerEventFork) || (triggerAction == TriggerEventOpened)
             then isOwnBotLogin author ≫= λ own,
                  if (own : bool) then mret true
                  else checkAuthorWriteAccess gh repo author deliveryID
             else mret true) ≫= λ pass,
            if negb pass then mret (inr tt)
            else
              ask (ListEnabledPRReviewTriggersByRepo repo) ≫= λ r,
              match r with
              | inl e => mret (inl (EFmt "list pr review triggers: %w" []))
              | inr triggers =>
                let pr := pe_PullRequest ev in
                submitReviewForTrigger
                  (event_review triggerAction repo (pe_Number ev) (br_Ref (pr_Base pr))
                     (br_Ref (pr_Head pr)) (br_Repo_CloneURL (pr_Head pr)) "" (pe_Installation ev))
                  gh (Some triggers) triggerAction
              end
    end
  end.

(** ** pull_request_review and pull_request_review_comment *)

Definition resumeSessionForPRFeedback (gh : Z) (repo : string) (prNumber : Z)
    (author deliveryID eventType action : string) (installation : Z) : M (err + unit) :=
  if negb (h_resumer h) || (repo == "") || (prNumber <=? 0) then mret (inr tt)
  else
    (if negb (author == "")
     then call AppLogin ELogin ≫= λ r,
          let appLogin := match r with inl _ => "" | inr l => l end in
          mret (negb (appLogin == "") && (author == appLogin))
     else mret false) ≫= λ own,
    if (own : bool) then mret (inr tt)
    else
      checkAuthorWriteAccess gh repo author deliveryID ≫= λ pass,
      if negb pass then mret (inr tt)
      else received_audit deliveryID "pull_request" repo prNumber eventType action installation ≫= λ _,
           resume_session repo prNumber.

Definition handlePullRequestReview (body deliveryID : string) : M (err + unit) :=
  match decode_review D body with
  | inl e => mret (inl (EFmt "parse pull_request_review: %w" []))
  | inr ev =>
    match clientForEvent (re_Installation ev) EventTypePullRequestReview with
    | inl e => mret (inl e)
    | inr gh =>
      if negb (re_Action ev == "submitted") then mret (inr tt)
      else resumeSessionForPRFeedback gh (er_FullName (re_Repository ev))
             (pr_Number (re_PullRequest ev)) (re_Review_User_Login ev) deliveryID
             EventTypePullRequestReview (re_Action ev) (re_Installation ev)
    end
  end.

Definition handlePullRequestReviewComment (body deliveryID : string) : M (err + unit) :=
  match decode_review_comment D body with
  | inl e => mret (inl (EFmt "parse pull_request_review_comment: %w" []))
  | inr ev =>
    match clientForEvent (rce_Installation ev) EventTypePullRequestReviewComment with
    | inl e => mret (inl e)
    | inr gh =>
      if negb (rce_Action ev == "created") then mret (inr tt)
      else resumeSessionForPRFeedback gh (er_FullName (rce_Repository ev))
             (pr_Number (rce_PullRequest ev)) (cm_User_Login (rce_Comment ev)) deliveryID
             EventTypePullRequestReviewComment (rce_Action ev) (rce_Installation ev)
    end
  end.

(** ** issues and issue_comment *)

Definition LF : string := String (ascii_of_nat 10) EmptyString.

Definition issue_audit (eventType deliveryID repo : string) (number : Z) (t : ReviewTrigger)
    (detail : string) : M unit :=
  logAudit (mkAuditEventParams eventType "trigger" (rt_Name t) "issue" (target repo number) repo
              "" "" deliveryID detail "").

(** One trigger of an issue event: the submission and its audit record. *)
Definition issue_one (deliveryID repo : string) (number installation : Z)
    (prompt_default tail : string) (env : gmap string string) (t : ReviewTrigger) : M (err + unit) :=
  let prompt := if rt_Prompt t == "" then prompt_default else rt_Prompt t in
  submit_task (BuildIssueTaskRequest t repo installation prompt env) ≫= λ r,
  (if ok_of r
   then issue_audit "task_submitted" deliveryID repo number t
          ("task submitted for issue #" ^^ fmt_d number ^^ " via trigger " ^^ rt_Name t ^^ tail)
   else issue_audit "task_submit_failed" deliveryID repo number t
          ("failed to submit task for issue #" ^^ fmt_d number ^^ " via trigger " ^^ rt_Name t ^^
           ": " ^^ match r with inl e => errText e | inr _ => "" end)) ≫= λ _,
  mret r.

Definition issue_event_labels (ev : IssueEvent) : list string :=
  match ie_Label ev with
  | Some l => if ie_Action ev == "labeled" then [lb_Name l] else map lb_Name (id_Labels (ie_Issue ev))
  | None => map lb_Name (id_Labels (ie_Issue ev))
  end.

Definition issue_matches (event : string) (labels : list string) (t : ReviewTrigger) : bool :=
  ((rt_Event t == "") || (rt_Event t == event)) && TriggerMatchesLabels (rt_MatchLabels t) labels.

Definition handleIssues (body deliveryID : string) : M (err + unit) :=
  match decode_issues D body with
  | inl e => mret (inl (EFmt "parse issues: %w" []))
  | inr ev =>
    match clientForEvent (ie_Installation ev) EventTypeIssues with
    | inl e => mret (inl e)
    | inr gh =>
      let action := ie_Action ev in
      if negb ((action == "opened") || (action == "labeled") || (action == "reopened"))
      then mret (inr tt)
      else
        let repo := er_FullName (ie_Repository ev) in
        let issue := ie_Issue ev in
        received_audit deliveryID "issue" repo (id_Number issue) EventTypeIssues action
          (ie_Installation ev) ≫= λ _,
        when (action == "opened")
          (discoverArtifacts (id_Body issue) repo (id_Number issue) (id_HTMLURL issue) "issue") ≫= λ _,
        ask (ListEnabledIssueTriggersByRepo repo) ≫= λ r,
        match r with
        | inl e => mret (inl (EFmt "list issue triggers: %w" []))
        | inr triggers =>
          match List.filter (issue_matches action (issue_event_labels ev)) triggers with
          | [] => mret (inr tt)
          | matching =>
            let env := {[ "GITHUB_REPO" := repo; "ISSUE_NUMBER" := fmt_d (id_Number issue);
                          "ISSUE_TITLE" := id_Title issue; "ISSUE_URL" := id_HTMLURL issue;
                          "ISSUE_BODY" := id_Body issue; "ISSUE_ACTION" := action ]} in
            let prompt := "A GitHub issue was " ^^ action ^^ " in " ^^ repo ^^ "." ^^ LF ^^ LF ^^
              "Title: " ^^ id_Title issue ^^ LF ^^ "URL: " ^^ id_HTMLURL issue ^^ LF ^^ LF ^^
              "Body:" ^^ LF ^^ id_Body issue in
            each (issue_one deliveryID repo (id_Number issue) (ie_Installation ev) prompt
                    (" on action " ^^ action) env) matching ≫= λ _,
            mret (inr tt)
          end
        end
    end
  end.

Definition comment_env (repo : string) (ev : IssueCommentEvent) : gmap string string :=
  let issue := ice_Issue ev in
  {[ "GITHUB_REPO" := repo; "ISSUE_NUMBER" := fmt_d (is_Number issue);
     "ISSUE_TITLE" := is_Title issue; "ISSUE_URL" := is_HTMLURL issue;
     "ISSUE_BODY" := is_Body issue; "COMMENT_BODY" := cm_Body (ice_Comment ev);
     "COMMENT_USER" := cm_User_Login (ice_Comment ev) ]}.

Definition comment_prompt (repo : string) (ev : IssueCommentEvent) : string :=
  let issue := ice_Issue ev in
  "A comment was added to issue #" ^^ fmt_d (is_Number issue) ^^ " in " ^^ repo ^^ "." ^^ LF ^^ LF ^^
  "Title: " ^^ is_Title issue ^^ LF ^^ "URL: " ^^ is_HTMLURL issue ^^ LF ^^ LF ^^
  "Comment by " ^^ cm_User_Login (ice_Comment ev) ^^ ":" ^^ LF ^^ cm_Body (ice_Comment ev).

(** The branch of a comment on a pull request. *)
Definition pr_comment (gh : Z) (repo deliveryID : string) (ev : IssueCommentEvent) : M (err + unit) :=
  let author := cm_User_Login (ice_Comment ev) in
  let number := is_Number (ice_Issue ev) in
  isOwnBotLogin author ≫= λ own,
  if (own : bool) then mret (inr tt)
  else
    checkAuthorWriteAccess gh repo author deliveryID ≫= λ pass,
    if negb pass then mret (inr tt)
    else
      or_fail (if h_resumer h then resume_session repo number
               else mret (inr tt) : M (err + unit)) (λ _ : unit,
      if negb (trimSpace (cm_Body (ice_Comment ev)) == ReviewTriggerCommand) then mret (inr tt)
      else
        ask (GetPullRequest gh repo number) ≫= λ r,
        match r with
        | inl e => mret (inl (EFmt "fetch pull request: %w" []))
        | inr (head, base, cloneURL) =>
          let ack := "@" ^^ author ^^ " requested a review — Chetter is on it." in
          call (CreateIssueComment gh repo number ack) (λ _, EComment repo number ack) ≫= λ _,
          submitReviewForTrigger
            (event_review "comment" repo number base head cloneURL author (ice_Installation ev))
            gh None "comment"
        end).

(** The branch of a comment on an issue. *)
Definition issue_comment (gh : Z) (repo deliveryID : string) (ev : IssueCommentEvent) : M (err + unit) :=
  let author := cm_User_Login (ice_Comment ev) in
  let number := is_Number (ice_Issue ev) in
  ask (ListEnabledIssueTriggersByRepo repo) ≫= λ r,
  match r with
  | inl e => mret (inl (EFmt "list issue triggers for comment: %w" []))
  | inr triggers =>
    match List.filter (issue_matches "comment" (map lb_Name (is_Labels (ice_Issue ev)))) triggers with
    | [] => mret (inr tt)
    | matching =>
      isOwnBotLogin author ≫= λ isBotComment : bool,
      (if isBotComment then mret (List.filter triggerAllowsBotComments matching)
       else checkAuthorWriteAccess gh repo author deliveryID ≫= λ pass,
            mret (if (pass : bool) then matching else [])) ≫= λ chosen,
      each (issue_one deliveryID repo number (ice_Installation ev)
              (comment_prompt repo ev)
              (" (bot_comment=" ^^ (if isBotComment then "true" else "false") ^^ ")")
              (comment_env repo ev)) chosen ≫= λ rs,
      mret (first_err rs)
    end
  end.

Definition handleIssueComment (body deliveryID : string) : M (err + unit) :=
  match decode_issue_comment D body with
  | inl e => mret (inl (EFmt "parse issue_comment: %w" []))
  | inr ev =>
    match clientForEvent (ice_Installation ev) EventTypeIssueComment with
    | inl e => mret (inl e)
    | inr gh =>
      if negb (ice_Action ev == "created") then mret (inr tt)
      else
        let repo := er_FullName (ice_Repository ev) in
        let issue := ice_Issue ev in
        received_audit deliveryID "issue" repo (is_Number issue) EventTypeIssueComment
          (ice_Action ev) (ice_Installation ev) ≫= λ _,
        discoverArtifacts (cm_Body (ice_Comment ev)) repo (is_Number issue) (is_HTMLURL issue)
          "issue_comment" ≫= λ _,
        if IsPullRequest ev then pr_comment gh repo deliveryID ev
        else issue_comment gh repo deliveryID ev
    end
  end.

(** ** Dispatch *)

Definition handle (event body deliveryID : string) : M (err + unit) :=
  if event == EventTypePullRequest then handlePullRequest body deliveryID
  else if event == EventTypeIssueComment then handleIssueComment body deliveryID
  else if event == EventTypeIssues then handleIssues body deliveryID
  else if event == EventTypePullRequestReview then handlePullRequestReview body deliveryID
  else if event == EventTypePullRequestReviewComment then handlePullRequestReviewComment body deliveryID
  else mret (inr tt).
End handlers.

(** ** Lemmas *)

(** Who is behind an event: the author of the pull request, of the comment or of
    the review. *)
Definition event_author (D : Decoders) (event body : string) : string :=
  if event == EventTypePullRequest
  then match decode_pull_request D body with inr ev => pr_User_Login (pe_PullRequest ev) | inl _ => "" end
  else if event == EventTypeIssueComment
  then match decode_issue_comment D body with inr ev => cm_User_Login (ice_Comment ev) | inl _ => "" end
  else if event == EventTypeIssues
  then match decode_issues D body with inr ev => id_User_Login (ie_Issue ev) | inl _ => "" end
  else if event == EventTypePullRequestReview
  then match decode_review D body with inr ev => re_Review_User_Login ev | inl _ => "" end
  else match decode_review_comment D body with inr ev => cm_User_Login (rce_Comment ev) | inl _ => "" end.

(** What may be done for [author] on the event type [event]: write access to the
    repository comes before a resumption, before a review a comment asks for and
    before the task of an issue comment; before the review of an opened or a
    forked pull request, write access or being the App itself. *)
Definition gated (event author : string) (past : list effect) (e : effect) : Prop :=
  match e with
  | EResume repo _ _ => EAccess repo author true ∈ past
  | EReview rc _ =>
      (rc_Trigger rc = "comment" →
         EAccess (rc_Repo rc) author true ∈ past ∧ rc_CommentAuthor rc = author) ∧
      (rc_Trigger rc = TriggerEventFork ∨ rc_Trigger rc = TriggerEventOpened →
         EAccess (rc_Repo rc) author true ∈ past ∨ ELogin (inr author) ∈ past)
  | ETask q _ => event = EventTypeIssueComment → EAccess (wr_GitHubRepo q) author true ∈ past
  | _ => True
  end.

Section gate.
Context {W : Type} `{SV : Services W}.
Variable h : Handler.
Variable D : Decoders.
Variable errText : err → string.
Variables event author : string.

Notation M := (eff W effect).
Notation keeps := (under (gated event author)).
Notation triple := (triple (gated event author)).

Lemma keeps_call {A} P `{!Stable P} (f : W → A * W) (ev : A → effect) :
  (∀ a past, gated event author past (ev a)) → keeps P (call f ev).
Proof. intros H. apply under_call; [done|]. auto. Qed.

Ltac keeps_tac :=
  repeat (under_step || (apply keeps_call; [exact _|intros ? ?; exact I])); try done.

Lemma keeps_logAudit P `{!Stable P} params : keeps P (logAudit h params).
Proof. unfold logAudit. keeps_tac. Qed.

Lemma keeps_received P `{!Stable P} d tt' repo n ev a i :
  keeps P (received_audit h d tt' repo n ev a i).
Proof. unfold received_audit. by apply keeps_logAudit. Qed.

Lemma keeps_discover P `{!Stable P} text repo n url ty : keeps P (discoverArtifacts h text repo n url ty).
Proof.
  unfold discoverArtifacts. destruct (h_artifacts h), (footer_artifact text repo n url ty); cbn; keeps_tac.
Qed.

Lemma keeps_comment P `{!Stable P} gh ctx body : keeps P (postCommentOnFailure gh ctx body).
Proof. unfold postCommentOnFailure. keeps_tac. Qed.

Lemma keeps_label P `{!Stable P} gh ctx : keeps P (review_label gh ctx).
Proof.
  unfold review_label. destruct (rc_Trigger ctx == "label"); [apply under_ret|].
  apply under_bind; [apply under_ask|]. intros [e|[]]; keeps_tac.
Qed.

(** The verdict of the access check. *)
Lemma access_triple P `{!Stable P} gh repo user d :
  triple P (checkAuthorWriteAccess h gh repo user d)
    (λ b past, P past ∧ (b = true → EAccess repo user true ∈ past)).
Proof.
  unfold checkAuthorWriteAccess. eapply (triple_bind _ _ (λ r past, P past ∧ (r = inr true → EAccess repo user true ∈ past))).
  - apply triple_call. intros r past Hp. split; [exact I|]. split; [by apply stable|].
    intros ->. set_solver.
  - intros [e|[|]].
    + apply triple_ret. by intros past [? ?].
    + apply triple_ret. intros past [? H]. split; [done|]. intros _. by apply H.
    + apply (triple_conseq _ _ P _ _ (λ b past, b = false ∧ P past)).
      * eapply triple_bind; [by apply keeps_logAudit|]. intros ?. by apply triple_ret.
      * by intros past [? _].
      * by intros b past [-> ?].
Qed.

Lemma login_triple P `{!Stable P} user :
  triple P (isOwnBotLogin h user) (λ b past, P past ∧ (b = true → ELogin (inr user) ∈ past)).
Proof.
  unfold isOwnBotLogin. destruct (h_github h); cbn.
  - eapply (triple_bind _ _ (λ r past, P past ∧ ELogin r ∈ past)).
    + apply triple_call. intros r past Hp. split; [exact I|]. split; [by apply stable|set_solver].
    + intros r. apply triple_ret. intros past [? Hr]. split; [done|]. destruct r as [e|login]; [done|].
      intros [_ <-%bool_decide_eq_true]%andb_prop. done.
  - by apply triple_ret.
Qed.

(** A review of the event may be submitted wherever one with its trigger, its
    repository and its comment author may. *)
Lemma keeps_submit_review P `{!Stable P} ctx gh triggers ev :
  (∀ past, P past → gated event author past (EReview ctx (inr tt))) →
  keeps P (submitReviewForTrigger ctx gh triggers ev).
Proof.
  intros HP. unfold submitReviewForTrigger.
  assert (∀ l, keeps P (review_all gh ctx ev l)) as Hgo.
  { intros l. unfold review_all. destruct (List.filter _ l) as [|t ts]; [apply under_ret|].
    apply under_bind; [by apply keeps_label|]. intros _.
    apply under_bind; [|intros rs; apply under_ret]. apply under_each. intros t'.
    unfold review_one. apply under_bind.
    - apply under_call; [done|]. intros r past Hp. exact (HP past Hp).
    - intros r. apply under_bind; [|intros ?; apply under_ret].
      apply under_when. by apply keeps_comment. }
  destruct triggers as [l|]; [apply Hgo|]. apply under_bind; [apply under_ask|].
  intros [e|l]; [|apply Hgo]. apply under_bind; [by apply keeps_comment|]. intros ?. apply under_ret.
Qed.

Lemma keeps_issue_one P `{!Stable P} d repo n i prompt tail env t :
  (∀ past, P past → event = EventTypeIssueComment → EAccess repo author true ∈ past) →
  keeps P (issue_one h errText d repo n i prompt tail env t).
Proof.
  intros HP. unfold issue_one. apply under_bind.
  - apply under_call; [done|]. intros r past Hp. exact (HP past Hp).
  - intros r. apply under_bind; [|intros ?; apply under_ret].
    destruct (ok_of r); unfold issue_audit; by apply keeps_logAudit.
Qed.

Lemma gated_resume repo n P : (∀ past, P past → EAccess repo author true ∈ past) → Stable P →
  keeps P (resume_session repo n).
Proof. intros H ?. apply under_call; [done|]. intros r past Hp. exact (H past Hp). Qed.

(** Continues after the access check, and after the question whether the user
    is the App. *)
Lemma after_access {A} P `{!Stable P} gh repo user d (k : bool → M A) :
  keeps P (k false) → keeps (λ past, P past ∧ EAccess repo user true ∈ past) (k true) →
  keeps P (checkAuthorWriteAccess h gh repo user d ≫= k).
Proof.
  intros Hf Ht. eapply triple_bind; [by apply access_triple|]. intros [|].
  - eapply triple_conseq; [exact Ht| |].
    + intros past [? H]. split; [done|by apply H].
    + by intros ? past [? _].
  - eapply triple_conseq; [exact Hf| |done]. by intros past [? _].
Qed.

Lemma after_login {A} P `{!Stable P} user (k : bool → M A) :
  keeps P (k false) → keeps (λ past, P past ∧ ELogin (inr user) ∈ past) (k true) →
  keeps P (isOwnBotLogin h user ≫= k).
Proof.
  intros Hf Ht. eapply triple_bind; [by apply login_triple|]. intros [|].
  - eapply triple_conseq; [exact Ht| |].
    + intros past [? H]. split; [done|by apply H].
    + by intros ? past [? _].
  - eapply triple_conseq; [exact Hf| |done]. by intros past [? _].
Qed.
End gate.

Lemma triggerActionFromPR_values ev repo :
  triggerActionFromPR ev repo ∈
    [""; TriggerEventLabeled; TriggerEventFork; PullRequestActionOpened;
     PullRequestActionSynchronize; PullRequestActionReopened].
Proof.
  unfold triggerActionFromPR. case_bool_decide; [set_solver|].
  destruct (_ && _); [set_solver|].
  repeat case_bool_decide; cbn [orb]; set_solver.
Qed.

Ltac harmless := apply keeps_call; [exact _|intros ? ?; exact I].

Section gate_handlers.
Context {W : Type} `{SV : Services W}.
Variable h : Handler.
Variable D : Decoders.
Variable errText : err → string.

Notation keeps ev author := (under (W := W) (gated ev author) (λ _, True)).

(** The gate of [handlePullRequest] before its triggers. *)
Lemma gate_pull_request_pass ev author gh repo d ta :
  triple (W := W) (gated ev author) (λ _, True)
    (if (ta == TriggerEventFork) || (ta == TriggerEventOpened)
     then isOwnBotLogin h author ≫= λ own,
          if (own : bool) then mret true else checkAuthorWriteAccess h gh repo author d
     else mret true)
    (λ pass past, pass = true → ta = TriggerEventFork ∨ ta = TriggerEventOpened →
       EAccess repo author true ∈ past ∨ ELogin (inr author) ∈ past).
Proof.
  destruct ((ta == TriggerEventFork) || (ta == TriggerEventOpened)) eqn:E.
  - eapply triple_bind; [by apply (login_triple h _ author _)|]. intros [|].
    + apply triple_ret. intros past [_ H] _ _. right. by apply H.
    + eapply triple_conseq; [by apply (access_triple h _ author (λ _, True))|done|].
      intros b past [_ H] -> _. left. by apply H.
  - apply triple_ret. intros past _ _ Hta. apply orb_false_iff in E as [E1 E2].
    apply bool_decide_eq_false in E1, E2. by destruct Hta.
Qed.

Lemma gate_pull_request ev body d author :
  author = match decode_pull_request D body with
           | inr ev => pr_User_Login (pe_PullRequest ev) | inl _ => "" end →
  keeps ev author (handlePullRequest h D body d).
Proof.
  unfold handlePullRequest.
  destruct (decode_pull_request D body) as [e|pe]; [intros; apply under_ret|]. intros ->.
  set (author := pr_User_Login (pe_PullRequest pe)).
  destruct (clientForEvent h (pe_Installation pe) EventTypePullRequest) as [e|gh]; [apply under_ret|].
  apply under_if; [apply under_ret|]. apply under_if; [apply under_ret|].
  apply under_bind.
  { apply under_if; [|apply under_ret].
    eapply triple_conseq; [by apply (login_triple h _ author (λ _, True))|done|done]. }
  intros own. apply under_if; [apply under_ret|].
  apply under_bind; [by apply keeps_received|]. intros _.
  apply under_if; [apply under_ret|].
  eapply triple_bind; [apply gate_pull_request_pass|]. intros [|]; cbn [negb]; [|by apply triple_ret].
  set (repo := er_FullName (pe_Repository pe)).
  set (P := λ past : list effect, triggerActionFromPR pe repo = TriggerEventFork ∨
                    triggerActionFromPR pe repo = TriggerEventOpened →
              EAccess repo author true ∈ past ∨ ELogin (inr author) ∈ past).
  assert (Stable P) as HP. { apply stable_imp. apply _. }
  eapply (triple_conseq _ _ P); [|intros past H; exact (H eq_refl)|done].
  apply under_bind; [apply under_ask|]. intros [e|l]; [apply under_ret|].
  apply keeps_submit_review; [exact _|]. intros past Hp. split; [|exact Hp].
  cbn. intros Hc. pose proof (triggerActionFromPR_values pe repo) as Hv. rewrite Hc in Hv.
  apply (bool_decide_eq_true_2 (_ ∈ _)) in Hv. discriminate Hv.
Qed.

Lemma gate_feedback ev author gh repo n d et action i :
  keeps ev author (resumeSessionForPRFeedback h gh repo n author d et action i).
Proof.
  unfold resumeSessionForPRFeedback. apply under_if; [apply under_ret|].
  apply under_bind.
  { apply under_if; [|apply under_ret]. apply under_bind; [harmless|].
    intros r. apply under_ret. }
  intros own. apply under_if; [apply under_ret|].
  apply after_access; [exact _|apply under_ret|]. cbn [negb].
  apply under_bind; [apply keeps_received; exact _|]. intros ?.
  apply gated_resume; [by intros past [_ ?]|exact _].
Qed.

Lemma gate_review ev body d author :
  author = match decode_review D body with
           | inr ev => re_Review_User_Login ev | inl _ => "" end →
  keeps ev author (handlePullRequestReview h D body d).
Proof.
  unfold handlePullRequestReview.
  destruct (decode_review D body) as [e|re]; [intros; apply under_ret|]. intros ->.
  destruct (clientForEvent h _ _) as [e|gh]; [apply under_ret|].
  apply under_if; [apply under_ret|]. apply gate_feedback.
Qed.

Lemma gate_review_comment ev body d author :
  author = match decode_review_comment D body with
           | inr ev => cm_User_Login (rce_Comment ev) | inl _ => "" end →
  keeps ev author (handlePullRequestReviewComment h D body d).
Proof.
  unfold handlePullRequestReviewComment.
  destruct (decode_review_comment D body) as [e|re]; [intros; apply under_ret|]. intros ->.
  destruct (clientForEvent h _ _) as [e|gh]; [apply under_ret|].
  apply under_if; [apply under_ret|]. apply gate_feedback.
Qed.

Lemma gate_issues body d author : keeps EventTypeIssues author (handleIssues h D errText body d).
Proof.
  unfold handleIssues. destruct (decode_issues D body) as [e|ie]; [apply under_ret|].
  destruct (clientForEvent h _ _) as [e|gh]; [apply under_ret|].
  apply under_if; [apply under_ret|].
  apply under_bind; [by apply keeps_received|]. intros _.
  apply under_bind; [apply under_when; by apply keeps_discover|]. intros _.
  apply under_bind; [apply under_ask|]. intros [e|l]; [apply under_ret|].
  destruct (List.filter _ l) as [|t ts]; [apply under_ret|].
  apply under_bind; [|intros ?; apply under_ret]. apply under_each. intros t'.
  by apply keeps_issue_one.
Qed.

(** A trigger that comments reach has the event [comment] or none, so it never
    says that it allows comments of bots. *)
Lemma bot_comments_never labels l :
  List.filter triggerAllowsBotComments (List.filter (issue_matches "comment" labels) l) = [].
Proof.
  induction l as [|t l IH]; [done|]. cbn [List.filter].
  destruct (issue_matches "comment" labels t) eqn:E; [|done]. cbn [List.filter].
  assert (triggerAllowsBotComments t = false) as ->; [|done].
  unfold issue_matches in E. apply andb_prop in E as [[E|E]%orb_prop _];
    apply bool_decide_eq_true in E; unfold triggerAllowsBotComments; by rewrite E.
Qed.

Lemma gate_issue_comment_branch author gh repo d ev :
  author = cm_User_Login (ice_Comment ev) →
  keeps EventTypeIssueComment author (issue_comment h errText gh repo d ev).
Proof.
  intros Ha. unfold issue_comment. rewrite <- Ha.
  apply under_bind; [apply under_ask|]. intros [e|l]; [apply under_ret|].
  destruct (List.filter (issue_matches _ _) l) as [|t ts] eqn:El; [apply under_ret|].
  apply (triple_bind _ _ (λ _ _, True)).
  { eapply triple_conseq; [by apply (login_triple h _ author (λ _, True))|done|done]. }
  intros [|].
  - rewrite <- El, bot_comments_never.
    eapply (triple_bind _ _ (λ chosen _, chosen = [])); [by apply triple_ret|].
    intros [|c cs]; [by apply triple_ret|]. by intros w past [=].
  - eapply (triple_bind _ _ (λ chosen past, chosen = [] ∨ EAccess repo author true ∈ past)).
    + eapply triple_bind; [by apply (access_triple h _ author (λ _, True))|].
      intros [|]; apply triple_ret; [intros past [_ H]; right; by apply H|by left].
    + intros [|c cs]; [by apply triple_ret|].
      eapply (triple_conseq _ _ (λ past, EAccess repo author true ∈ past));
        [|by intros past [?|?]|done].
      apply under_bind; [|intros ?; apply under_ret]. apply under_each. intros t'.
      apply keeps_issue_one; [exact _|]. by intros past Hp _.
Qed.

Lemma gate_pr_comment author gh repo d ev :
  author = cm_User_Login (ice_Comment ev) →
  keeps EventTypeIssueComment author (pr_comment h gh repo d ev).
Proof.
  intros Ha. unfold pr_comment. rewrite <- Ha.
  apply after_login; [exact _| |apply under_ret].
  apply after_access; cbn [negb]; [exact _|apply under_ret|].
  assert (∀ past : list effect, True ∧ EAccess repo author true ∈ past → EAccess repo author true ∈ past)
    as Hacc by tauto.
  apply under_or_fail.
  { apply under_if; [|apply under_ret]. apply gated_resume; [exact Hacc|exact _]. }
  intros _. apply under_if; [apply under_ret|].
  apply under_bind; [apply under_ask|]. intros [e|[[head base] clone]]; [apply under_ret|].
  apply under_bind; [harmless|]. intros _.
  apply keeps_submit_review; [exact _|]. intros past Hp. cbn. split; [|by intros [?|?]].
  intros _. split; [by apply Hacc|done].
Qed.

Lemma gate_issue_comment body d author :
  author = match decode_issue_comment D body with
           | inr ev => cm_User_Login (ice_Comment ev) | inl _ => "" end →
  keeps EventTypeIssueComment author (handleIssueComment h D errText body d).
Proof.
  unfold handleIssueComment. destruct (decode_issue_comment D body) as [e|ev]; [intros; apply under_ret|].
  intros Ha. destruct (clientForEvent h _ _) as [e|gh]; [apply under_ret|].
  apply under_if; [apply under_ret|].
  apply under_bind; [by apply keeps_received|]. intros _.
  apply under_bind; [by apply keeps_discover|]. intros _.
  apply under_if; [by apply gate_pr_comment|by apply gate_issue_comment_branch].
Qed.
End gate_handlers.

(** C21. Nothing is resumed, no review a comment asks for is started and no task of an
    issue comment is submitted unless GitHub said before that the author of the
    event may write to that repository; and the review of an opened or a forked
    pull request also needs that, or the author to be the App itself. This holds
    for every payload and whatever GitHub and the service answer. *)
Theorem write_access_gates {W} `{SV : Services W} h D errText event body deliveryID (w : W) i e :
  trace_of (handle h D errText event body deliveryID) w !! i = Some e →
  gated event (event_author D event body)
    (take i (trace_of (handle h D errText event body deliveryID) w)) e.
Proof.
  intros Hi.
  assert (under (W := W) (gated event (event_author D event body)) (λ _, True)
            (handle h D errText event body deliveryID)) as Hu.
  { unfold handle, event_author. repeat case_bool_decide; subst; try discriminate.
    - by apply gate_pull_request.
    - by apply gate_issue_comment.
    - by apply gate_issues.
    - by apply gate_review.
    - by apply gate_review_comment.
    - apply under_ret. }
  destruct (Hu w [] I) as [Hl _]. exact (lawful_at _ _ _ _ _ Hl Hi).
Qed.

(** ** Reviews *)

Definition review_of (e : effect) : option (ReviewContext * (err + unit)) :=
  match e with EReview rc r => Some (rc, r) | _ => None end.

Section reviews.
Context {W : Type} `{SV : Services W}.

Lemma reviews_label gh ctx w : omap review_of (trace_of (review_label (W := W) gh ctx) w) = [].
Proof.
  unfold review_label. destruct (rc_Trigger ctx == "label"); [done|].
  rewrite trace_bind, omap_app, trace_ask.
  destruct (result_of _ w) as [e|[]]; [done..|]. rewrite trace_bind, trace_call. reflexivity.
Qed.

Lemma reviews_one gh ctx t w :
  omap review_of (trace_of (review_one (W := W) gh ctx t) w) =
    [(review_of_trigger ctx t, result_of (review_one (W := W) gh ctx t) w)].
Proof.
  unfold review_one, SubmitReviewTask. rewrite trace_bind, result_bind, trace_call, result_call.
  destruct (SubmitTask _ w).1 as [e|u]; cbn [ok_of negb when]; unfold postCommentOnFailure;
    rewrite !result_bind, !trace_bind, !omap_app, ?trace_call; reflexivity.
Qed.

Lemma reviews_each gh ctx l w :
  map fst (omap review_of (trace_of (each (review_one (W := W) gh ctx) l) w)) =
    map (review_of_trigger ctx) l ∧
  map snd (omap review_of (trace_of (each (review_one gh ctx) l) w)) =
    result_of (each (review_one gh ctx) l) w.
Proof.
  revert w. induction l as [|t l IH]; intros w; [done|]. cbn [each].
  rewrite !trace_bind, !result_bind, !omap_app.
  rewrite reviews_one, !app_nil_r. cbn [map app fst snd].
  destruct (IH (world_of (review_one gh ctx t) w)) as [IH1 IH2].
  split; [by rewrite IH1|by rewrite IH2].
Qed.
End reviews.

(** For the triggers of a repository, each one whose event is empty or the event
    at hand gets exactly one review, in their order, and no other does; the review
    carries the trigger's settings, keeps the repository, the number and the
    installation of the event, and for a [pr_review] trigger also the branch of
    the pull request. The result is the first error of a submission: an error
    does not keep the later triggers from theirs. *)
Theorem submitReviewForTrigger_exact {W} `{SV : Services W} ctx gh l event (w : W) :
  let m := submitReviewForTrigger ctx gh (Some l) event in
  let seen := omap review_of (trace_of m w) in
  map fst seen = map (review_of_trigger ctx) (List.filter (review_matches event) l) ∧
  result_of m w = first_err (map snd seen) ∧
  (∀ t, rt_TriggerType t = "pr_review" →
     rc_HeadRef (review_of_trigger ctx t) = rc_HeadRef ctx ∧
     rc_HeadCloneURL (review_of_trigger ctx t) = rc_HeadCloneURL ctx).
Proof.
  cbn zeta. split_and!.
  - unfold submitReviewForTrigger, review_all.
    destruct (List.filter (review_matches event) l) as [|t ts]; [done|].
    rewrite trace_bind, omap_app, reviews_label, trace_bind, omap_app.
    cbn [app]. rewrite map_app, (proj1 (reviews_each _ _ _ _)). by rewrite app_nil_r.
  - unfold submitReviewForTrigger, review_all.
    destruct (List.filter (review_matches event) l) as [|t ts]; [done|].
    rewrite trace_bind, omap_app, reviews_label, trace_bind, omap_app, result_bind, result_bind.
    cbn [app]. rewrite map_app, (proj2 (reviews_each _ _ _ _)). cbn. by rewrite app_nil_r.
  - intros t Ht. cbn. by rewrite Ht, !(bool_decide_eq_true_2 _ eq_refl), !andb_false_r.
Qed.

(** ** The App's own events *)

Definition is_work (e : effect) : bool :=
  match e with EResume _ _ _ | EReview _ _ | ETask _ _ => true | _ => false end.

Section own.
Context {W : Type} `{SV : Services W}.
Variable h : Handler.
Variable D : Decoders.
Variable errText : err → string.
Variable login : string.
Hypothesis login_known : ∀ w : W, (AppLogin w).1 = inr login.
Hypothesis login_nonempty : login ≠ "".

Notation idle := (under (W := W) (λ _ e, is_work e = false) (λ _, True)).
Notation triple := (triple (W := W) (λ (_ : list effect) e, is_work e = false)).

Lemma own_login : h_github h = true →
  triple (λ _, True) (isOwnBotLogin h login) (λ b _, b = true).
Proof.
  intros Hg. unfold isOwnBotLogin. rewrite Hg. cbn [negb].
  eapply (triple_bind _ _ (λ r _, r = inr login)).
  - apply triple_call_from. intros w past _. by rewrite login_known.
  - intros r. apply triple_ret. intros _ ->. cbn.
    by rewrite (bool_decide_eq_false_2 _ login_nonempty), (bool_decide_eq_true_2 _ eq_refl).
Qed.

Ltac quiet := apply under_call; [exact _|by intros ? ? _].
Ltac idle_tac := repeat (under_step || quiet); try done.

Lemma idle_audit params : idle (logAudit h params).
Proof. unfold logAudit. idle_tac. Qed.

Lemma idle_discover text repo n url ty : idle (discoverArtifacts h text repo n url ty).
Proof. unfold discoverArtifacts. destruct (h_artifacts h), (footer_artifact text repo n url ty); idle_tac. Qed.

Lemma idle_feedback gh repo n d et action i :
  idle (resumeSessionForPRFeedback h gh repo n login d et action i).
Proof.
  unfold resumeSessionForPRFeedback. apply under_if; [apply under_ret|].
  rewrite (bool_decide_eq_false_2 _ login_nonempty). cbn [negb].
  eapply (triple_bind _ _ (λ b _, b = true)).
  - eapply (triple_bind _ _ (λ r _, r = inr login)).
    + apply triple_call_from. intros w past _. by rewrite login_known.
    + intros r. apply triple_ret. intros _ ->. cbn.
      by rewrite (bool_decide_eq_false_2 _ login_nonempty), (bool_decide_eq_true_2 _ eq_refl).
  - intros [|]; [by apply triple_ret|by intros w past [=]].
Qed.

Lemma client_github i ev gh : clientForEvent h i ev = inr gh → h_github h = true.
Proof. unfold clientForEvent. by destruct (h_github h). Qed.

Lemma idle_comment body d ev :
  decode_issue_comment D body = inr ev → cm_User_Login (ice_Comment ev) = login →
  idle (handleIssueComment h D errText body d).
Proof.
  intros Hd Hl. unfold handleIssueComment. rewrite Hd.
  destruct (clientForEvent h _ _) as [e|gh] eqn:Hc; [apply under_ret|].
  apply client_github in Hc. apply under_if; [apply under_ret|].
  apply under_bind; [apply idle_audit|]. intros _.
  apply under_bind; [apply idle_discover|]. intros _. apply under_if.
  - unfold pr_comment. rewrite Hl. eapply triple_bind; [by apply own_login|].
    intros [|]; [by apply triple_ret|by intros w past [=]].
  - unfold issue_comment. rewrite Hl. apply under_bind; [apply under_ask|].
    intros [e|l]; [apply under_ret|].
    destruct (List.filter (issue_matches _ _) l) as [|t ts] eqn:El; [apply under_ret|].
    eapply triple_bind; [by apply own_login|].
    intros [|]; [|by intros w past [=]]. rewrite <- El, bot_comments_never.
    eapply (triple_bind _ _ (λ chosen _, chosen = [])); [by apply triple_ret|].
    intros [|c cs]; [by apply triple_ret|by intros w past [=]].
Qed.

Lemma idle_labeled body d ev :
  decode_pull_request D body = inr ev → pe_Action ev = PullRequestActionLabeled →
  pe_Sender_Login ev = login → idle (handlePullRequest h D body d).
Proof.
  intros Hd Ha Hl. unfold handlePullRequest. rewrite Hd, Ha, Hl.
  destruct (clientForEvent h _ _) as [e|gh] eqn:Hc; [apply under_ret|].
  apply client_github in Hc. apply under_if; [apply under_ret|]. apply under_if; [apply under_ret|].
  eapply triple_bind; [by apply own_login|].
  intros [|]; [by apply triple_ret|by intros w past [=]].
Qed.

(** The App does not answer itself: where GitHub names its login, a comment on an
    issue or a pull request, a review or a review comment of its own resumes
    nothing and starts neither a review nor a task, and neither does the label it
    puts on the pull requests it reviews. *)
Theorem own_events_start_nothing event body deliveryID (w : W) :
  (event ∈ [EventTypeIssueComment; EventTypePullRequestReview; EventTypePullRequestReviewComment] ∧
   event_author D event body = login) ∨
  (event = EventTypePullRequest ∧
   ∃ ev, decode_pull_request D body = inr ev ∧ pe_Action ev = PullRequestActionLabeled ∧
         pe_Sender_Login ev = login) →
  Forall (λ e, is_work e = false) (trace_of (handle h D errText event body deliveryID) w).
Proof.
  intros Hev.
  assert (idle (handle h D errText event body deliveryID)) as Hidle.
  { destruct Hev as [[Hin Hauth]|(-> & ev & Hd & Ha & Hs)]; [|exact (idle_labeled body deliveryID ev Hd Ha Hs)].
    apply list_elem_of_In in Hin. destruct Hin as [<-|[<-|[<-|[]]]].
    - change (idle (handleIssueComment h D errText body deliveryID)).
      change (match decode_issue_comment D body with
              | inr ev => cm_User_Login (ice_Comment ev) | inl _ => "" end = login) in Hauth.
      destruct (decode_issue_comment D body) as [e|ev] eqn:Hd; [by subst|by eapply idle_comment].
    - change (idle (handlePullRequestReview h D body deliveryID)).
      change (match decode_review D body with
              | inr ev => re_Review_User_Login ev | inl _ => "" end = login) in Hauth.
      unfold handlePullRequestReview. destruct (decode_review D body) as [e|ev]; [by subst|].
      destruct (clientForEvent h _ _); [apply under_ret|]. apply under_if; [apply under_ret|].
      rewrite Hauth. apply idle_feedback.
    - change (idle (handlePullRequestReviewComment h D body deliveryID)).
      change (match decode_review_comment D body with
              | inr ev => cm_User_Login (rce_Comment ev) | inl _ => "" end = login) in Hauth.
      unfold handlePullRequestReviewComment. destruct (decode_review_comment D body) as [e|ev]; [by subst|].
      destruct (clientForEvent h _ _); [apply under_ret|]. apply under_if; [apply under_ret|].
      rewrite Hauth. apply idle_feedback. }
  destruct (Hidle w [] I) as [Hl _]. by eapply lawful_Forall; [|exact Hl].
Qed.
End own.

(** ** Witnesses *)

(** A world that does not change: who may write, what the triggers are, whose
    submissions fail. *)
Record Static := mkStatic {
  sw_login : string;
  sw_writers : list (string * string);
  sw_review_triggers : list ReviewTrigger;
  sw_issue_triggers : list ReviewTrigger;
  sw_failing : list string;
}.

Definition static_submit (s : Static) (q : WebhookTaskRequest) : err + unit :=
  if existsb (λ n, n == wr_TriggerName q) (sw_failing s) then inl (EMsg "database is down") else inr tt.

Definition static_services (s : Static) : Services unit := {|
  AppLogin w := (inr (sw_login s), w);
  CheckUserHasWriteAccess _ repo user w :=
    (inr (existsb (λ ru, (ru.1 == repo) && (ru.2 == user)) (sw_writers s)), w);
  GetPullRequest _ _ _ w := (inr ("fix", "main", "https://github.com/org/app.git"), w);
  CreateIssueComment _ _ _ _ w := (inr tt, w);
  HasLabel _ _ _ _ w := (inr false, w);
  AddIssueLabel _ _ _ _ w := (inr tt, w);
  ListEnabledPRReviewTriggersByRepo _ w := (inr (sw_review_triggers s), w);
  ListEnabledIssueTriggersByRepo _ w := (inr (sw_issue_triggers s), w);
  SubmitTask q w := (static_submit s q, w);
  ResumeSessionForPR _ _ w := (inr tt, w);
  LogAuditEvent _ w := (inr tt, w);
  RecordArtifact _ w := (inr tt, w);
|}.

Definition sample_trigger (name event : string) : ReviewTrigger :=
  mkReviewTrigger "team1" name "pr_review" "" "" "reviewer" "" "" "" 600 "" "" [] event [] "" "" 0 "".

Definition sample_static : Static :=
  mkStatic "chetter[bot]" [("org/app", "alice")]
    [sample_trigger "on-comment" "comment"; sample_trigger "on-open" "opened"]
    [sample_trigger "triage" ""; sample_trigger "notify" ""] [].

Definition sample_comment (user body : string) (pr : option string) : IssueCommentEvent :=
  mkIssueCommentEvent "created" (mkComment body user) (mkIssue 7 "t" "b" "u" pr [])
    (mkEventRepository "org/app" "app" "org") 42.

Definition decode_fail {A} (_ : string) : err + A := inl (EMsg "bad payload").

(** The body says who comments. *)
Definition sample_decoders : Decoders :=
  mkDecoders decode_fail (λ body, inr (sample_comment body "/chetter-review" (Some "pull")))
    decode_fail decode_fail decode_fail.

Definition sample_handler : Handler := mkHandler true true true true.

Definition sample_run (author : string) : eff unit effect (err + unit) :=
  handle (SV := static_services sample_static) sample_handler sample_decoders (λ _, "")
    EventTypeIssueComment author "d1".

Lemma write_access_gates_witness :
  let es := trace_of (sample_run "alice") tt in
  (∃ rc r, es !! 6%nat = Some (EReview rc r)) ∧ EAccess "org/app" "alice" true ∈ take 6 es.
Proof.
  assert (∃ rc r, trace_of (sample_run "alice") tt !! 6%nat = Some (EReview rc r) ∧
            rc_Trigger rc = "comment" ∧ rc_Repo rc = "org/app") as (rc & r & Hi & Ht & Hrepo).
  { eexists _, _. split; [vm_compute; reflexivity|]. split; reflexivity. }
  split; [by exists rc, r|].
  pose proof (write_access_gates (SV := static_services sample_static) sample_handler sample_decoders
    (λ _, "") EventTypeIssueComment "alice" "d1" tt 6 (EReview rc r) Hi) as [Hg _].
  destruct (Hg Ht) as [Hin _]. rewrite Hrepo in Hin. exact Hin.
Defined.

Lemma own_events_start_nothing_witness :
  Forall (λ e, is_work e = false) (trace_of (sample_run "chetter[bot]") tt).
Proof.
  apply (own_events_start_nothing (SV := static_services sample_static) sample_handler sample_decoders
    (λ _, "") "chetter[bot]" (λ _, eq_refl) ltac:(done) EventTypeIssueComment "chetter[bot]" "d1" tt).
  left. split; [set_solver|reflexivity].
Defined.
