(* ===== verification/Redact.v ===== *)
(** * Redaction

    [internal/redact/redact.go]: the set of secret values of an environment and
    its application to runner output, and the in-process cache of sets of
    [internal/service/runner_rpc.go], keyed by agent session. An environment is
    the list of its entries in the order one Go map iteration visits them. *)
From S2P Require Import Prelude GoStrings.

(** [*Set]; [None] is the nil pointer. *)
Definition Set_ := list string.

Definition sensitive_key (key : string) : bool :=
  let upper := toUpper key in
  contains upper "SECRET" || contains upper "TOKEN" || contains upper "KEY" ||
  contains upper "PASSWORD".

Fixpoint collect (seen : list string) (env : list (string * string)) : list string :=
  match env with
  | [] => []
  | (key, value) :: rest =>
      if value == "" then collect seen rest
      else if negb (sensitive_key key) then collect seen rest
      else if existsb (String.eqb value) seen then collect seen rest
      else value :: collect (value :: seen) rest
  end.

Definition NewSet (env : list (string * string)) : Set_ := collect [] env.

Definition marker : string := "[REDACTED]".

Fixpoint apply_values (values : list string) (text : string) : string :=
  match values with
  | [] => text
  | v :: rest =>
      apply_values rest (if (String.length v <? 4)%nat then text else replaceAll text v marker)
  end.

Definition Apply (s : option Set_) (text : string) : string :=
  match s with
  | None => text
  | Some [] => text
  | Some values => if text == "" then text else apply_values values text
  end.

Definition Empty (s : option Set_) : bool :=
  match s with None | Some [] => true | _ => false end.

(** ** The cache *)

Definition redactSets := gmap string Set_.

Definition RegisterRedactSet (sessionID : string) (set : option Set_) (c : redactSets) : redactSets :=
  match set with None => c | Some s => <[sessionID := s]> c end.

Definition cachedRedactSet (sessionID : string) (c : redactSets) : option Set_ :=
  if sessionID == "" then None else c !! sessionID.

Definition evictRedactSet (sessionID : string) (c : redactSets) : redactSets :=
  if sessionID == "" then c else delete sessionID c.

(** ** Lemmas *)

Fixpoint has_byte (c : ascii) (s : string) : bool :=
  match s with EmptyString => false | String d s' => Ascii.eqb c d || has_byte c s' end.

(** A secret the replacement marker cannot be confused with. *)
Definition distinct_secret (w : string) : Prop :=
  w ≠ "" ∧ has_byte "[" w = false ∧ has_byte "]" w = false ∧ contains "REDACTED" w = false.

Lemma prefix_cons c w d s :
  String.prefix (String c w) (String d s) = (if ascii_dec c d then String.prefix w s else false).
Proof. done. Qed.

Lemma prefix_stop w u t :
  has_byte "]" w = false → String.prefix w (u ^^ String "]" t) = true → String.prefix w u = true.
Proof.
  revert u. induction w as [|c w IH]; intros u Hb Hp; [by destruct u|].
  cbn [has_byte] in Hb. apply orb_false_iff in Hb as [Hc Hb].
  destruct u as [|d u].
  - exfalso. revert Hp. change ("" ^^ String "]" t) with (String "]" t).
    rewrite prefix_cons. destruct (ascii_dec c "]") as [->|]; done.
  - revert Hp. rewrite app_cons, !prefix_cons. destruct (ascii_dec c d); [apply IH, Hb|done].
Qed.

Lemma prefix_first w d s :
  w ≠ "" → has_byte d w = false → String.prefix w (String d s) = false.
Proof.
  destruct w as [|c w]; [done|]. intros _. cbn [has_byte].
  intros [Hc _]%orb_false_iff. rewrite prefix_cons.
  destruct (ascii_dec c d) as [->|]; [|done]. by rewrite Ascii.eqb_refl in Hc.
Qed.

(** An occurrence of a distinct secret after a marker starts after it. *)
Lemma contains_after_marker w t :
  distinct_secret w → contains (marker ^^ t) w = true → contains t w = true.
Proof.
  intros (Hne & Ho & Hc & Hin). unfold marker. rewrite !app_cons.
  change ("" ^^ t) with t. cbn [contains].
  rewrite (prefix_first _ _ _ Hne Ho). cbn [orb].
  assert (∀ u, contains "REDACTED" w = false → (∃ x, "REDACTED" = x ^^ u) →
               String.prefix w (u ^^ String "]" t) = false) as Hpre.
  { intros u Hn [x Hx]. destruct (String.prefix w (u ^^ String "]" t)) eqn:E; [|done].
    apply prefix_stop, prefix_app in E as [v ->]; [|done].
    rewrite <- not_true_iff_false in Hn. exfalso. apply Hn, contains_spec. by exists x, v. }
  pose proof (Hpre "REDACTED" Hin (ex_intro _ "" eq_refl)) as H1.
  pose proof (Hpre "EDACTED" Hin (ex_intro _ "R" eq_refl)) as H2.
  pose proof (Hpre "DACTED" Hin (ex_intro _ "RE" eq_refl)) as H3.
  pose proof (Hpre "ACTED" Hin (ex_intro _ "RED" eq_refl)) as H4.
  pose proof (Hpre "CTED" Hin (ex_intro _ "REDA" eq_refl)) as H5.
  pose proof (Hpre "TED" Hin (ex_intro _ "REDAC" eq_refl)) as H6.
  pose proof (Hpre "ED" Hin (ex_intro _ "REDACT" eq_refl)) as H7.
  pose proof (Hpre "D" Hin (ex_intro _ "REDACTE" eq_refl)) as H8.
  rewrite !app_cons in *. change ("" ^^ String "]" t) with (String "]" t) in *.
  rewrite H1, H2, H3, H4, H5, H6, H7, H8, (prefix_first _ _ _ Hne Hc). by cbn [orb].
Qed.


(** Replacing does not create an occurrence of a distinct secret. *)
Lemma prefix_of_replaced v w s :
  has_byte "[" w = false →
  String.prefix w (replace_from v marker 0 s) = true → String.prefix w s = true.
Proof.
  revert w. induction s as [|d s IH]; intros w Ho; [done|]. cbn [replace_from].
  destruct w as [|c w]; [done|]. destruct (String.prefix v (String d s)).
  - unfold marker. rewrite app_cons, prefix_first by done. done.
  - rewrite !prefix_cons. destruct (ascii_dec c d); [|done].
    cbn [has_byte] in Ho. apply orb_false_iff in Ho as [_ Ho]. by apply IH.
Qed.

Lemma contains_tail c s w : contains s w = true → contains (String c s) w = true.
Proof. intros Hc. cbn [contains]. by rewrite Hc, orb_true_r. Qed.

Lemma replaced_contains v w s : ∀ k,
  distinct_secret w → contains (replace_from v marker k s) w = true → contains s w = true.
Proof.
  induction s as [|d s IH]; intros k Hw; cbn [replace_from]; [done|].
  destruct k as [|k]; [|intros Hc; apply contains_tail; by eapply IH].
  destruct (String.prefix v (String d s)) eqn:Ep.
  - intros Hc%contains_after_marker%IH; [|done|done]. by apply contains_tail.
  - cbn [contains]. rewrite !orb_true_iff. intros [Hp|Hc]; [left|right; by eapply IH].
    destruct Hw as (Hne & Ho & _). destruct w as [|c w]; [done|].
    rewrite prefix_cons in *. destruct (ascii_dec c d); [|done].
    cbn [has_byte] in Ho. apply orb_false_iff in Ho as [_ Ho]. by apply prefix_of_replaced in Hp.
Qed.

(** The value that was replaced is gone. *)
Lemma replaced_gone v s : ∀ k,
  distinct_secret v → contains (replace_from v marker k s) v = false.
Proof.
  induction s as [|d s IH]; intros k Hv; cbn [replace_from].
  - destruct v; [by destruct Hv|done].
  - destruct k as [|k]; [|by apply IH].
    destruct (String.prefix v (String d s)) eqn:Ep.
    + apply not_true_iff_false. intros Hc%contains_after_marker; [|done].
      by rewrite IH in Hc.
    + cbn [contains]. rewrite IH, orb_false_r by done.
      apply not_true_iff_false. intros Hp. destruct Hv as (Hne & Ho & _).
      destruct v as [|c v]; [done|]. rewrite prefix_cons in *.
      destruct (ascii_dec c d); [|done].
      cbn [has_byte] in Ho. apply orb_false_iff in Ho as [_ Ho].
      apply prefix_of_replaced in Hp; [|done]. by rewrite Hp in Ep.
Qed.

Lemma apply_values_contains values w : ∀ text,
  distinct_secret w → contains (apply_values values text) w = true → contains text w = true.
Proof.
  induction values as [|v values IH]; intros text Hw; cbn [apply_values]; [done|].
  intros Hc%IH; [|done]. destruct (String.length v <? 4)%nat; [done|].
  by apply replaced_contains in Hc.
Qed.

Lemma collect_spec env v : ∀ seen,
  v ∈ collect seen env ↔
  v ∉ seen ∧ v ≠ "" ∧ ∃ key, (key, v) ∈ env ∧ sensitive_key key = true.
Proof.
  induction env as [|[key value] env IH]; intros seen; cbn [collect].
  { set_solver. }
  destruct (decide (value = "")) as [->|Hne]; [rewrite bool_decide_eq_true_2 by done|
    rewrite bool_decide_eq_false_2 by done].
  { rewrite IH. setoid_rewrite elem_of_cons. naive_solver. }
  destruct (sensitive_key key) eqn:Ek; cbn [negb].
  2: { rewrite IH. setoid_rewrite elem_of_cons. split; [naive_solver|].
       intros (? & ? & k & [[= -> ->]|?] & ?); [congruence|eauto 10]. }
  destruct (existsb (String.eqb value) seen) eqn:Es.
  - assert (value ∈ seen).
    { apply existsb_exists in Es as (x & Hx & ->%String.eqb_eq). by apply list_elem_of_In. }
    rewrite IH. setoid_rewrite elem_of_cons. split; [naive_solver|].
    intros (? & ? & k & [[= -> ->]|?] & ?); [done|eauto 10].
  - assert (value ∉ seen).
    { intros Hin. apply not_true_iff_false in Es. apply Es, existsb_exists.
      exists value. split; [by apply list_elem_of_In|by apply String.eqb_eq]. }
    rewrite elem_of_cons, IH, not_elem_of_cons. setoid_rewrite elem_of_cons. split.
    + intros [->|(? & ? & k & ? & ?)]; [eauto 10|naive_solver].
    + intros (? & ? & k & [[= -> ->]|?] & ?); [by left|].
      destruct (decide (v = value)) as [->|]; [by left|right]. eauto 10.
Qed.

(** ** Properties *)

(** Redacting with the set of an environment leaves no occurrence of any
    value of at least four bytes whose key names a secret, as long as the
    value cannot be confused with the marker "[REDACTED]" itself (no bracket,
    not a part of the word); whatever the order of the entries, and an output
    without sensitive values is left as it was. *)
Theorem Apply_removes_secrets env text :
  (∀ key v, (key, v) ∈ env → sensitive_key key = true → (4 <= String.length v)%nat →
            distinct_secret v → contains (Apply (Some (NewSet env)) text) v = false) ∧
  ((∀ v, v ∈ NewSet env → contains text v = false) → Apply (Some (NewSet env)) text = text).
Proof.
  assert (∀ values, Apply (Some values) text = apply_values values text ∨ text = "") as Happ.
  { intros [|v values]; [by left|]. unfold Apply.
    destruct (decide (text = "")); [by right|left]. by rewrite bool_decide_eq_false_2. }
  split.
  - intros key v Hin Hk Hlen Hd.
    destruct (Happ (NewSet env)) as [->| ->].
    2: { replace (Apply (Some (NewSet env)) "") with "" by (by destruct (NewSet env)).
         destruct Hd as (Hne & _). by destruct v. }
    assert (v ∈ NewSet env) as Hv.
    { apply collect_spec. destruct Hd as (Hne & _). split; [set_solver|]. eauto. }
    apply not_true_iff_false. generalize dependent text.
    induction (NewSet env) as [|x values IH]; intros text _; [by apply not_elem_of_nil in Hv|].
    cbn [apply_values]. apply elem_of_cons in Hv as [<-|Hv].
    + intros Hc%apply_values_contains; [|done]. revert Hc.
      destruct (Nat.ltb_spec (String.length v) 4); [lia|].
      unfold replaceAll. by rewrite replaced_gone.
    + apply IH; [done|]. intros [|y l]; [by left|]. unfold Apply.
      case_match; [right|by left]. by apply bool_decide_eq_true in H.
  - intros Hno. destruct (Happ (NewSet env)) as [->| ->]; [|by destruct (NewSet env)].
    induction (NewSet env) as [|x values IH]; [done|]. cbn [apply_values].
    rewrite replaceAll_id by (apply Hno; left).
    destruct (String.length x <? 4)%nat; apply IH; intros v Hv; apply Hno; by right.
Qed.

(** The order of the set matters when one value begins with another: the
    shorter one, applied first, hides the longer and leaves its last bytes in
    the clear, though the whole longer value was in the set. *)
Theorem redact_prefix_leak :
  let short := ("API_TOKEN", "hunter2x") in
  let long := ("DB_PASSWORD", "hunter2x-and-more") in
  Apply (Some (NewSet [short; long])) "pw=hunter2x-and-more" = "pw=[REDACTED]-and-more" ∧
  Apply (Some (NewSet [long; short])) "pw=hunter2x-and-more" = "pw=[REDACTED]".
Proof. by vm_compute. Qed.

Lemma Apply_removes_secrets_witness :
  contains (Apply (Some (NewSet [("API_TOKEN", "s3cr3t-value"); ("HOME", "/root")]))
              "got s3cr3t-value in /root") "s3cr3t-value" = false.
Proof.
  apply (proj1 (Apply_removes_secrets _ _) "API_TOKEN"); [left|done|simpl; lia|].
  split_and!; by vm_compute.
Defined.
