(* ===== verification/Db.v ===== *)
(** * The database

    The tables the control plane keeps, as one state record of finite maps
    keyed by primary key. A row is a record of the columns of
    [internal/repository/models.go]; its [id] column is the key. JSON columns
    hold the value they decode to. *)
From S2P Require Import Prelude GoStrings Status Repos.

(** ** Rows *)

Record Task := mkTask {
  t_status : string;
  t_prompt : string;
  t_git_url : option string;
  t_git_ref : option string;
  t_summary : option string;
  t_error : option string;
  t_created_at : time;
  t_updated_at : time;
  t_ended_at : option time;
  t_team_id : option string;
  t_trigger_name : option string;
  t_trigger_type : option string;
  t_max_attempts : Z;
  t_search_text : option string;
  t_error_category : option string;
  t_submission_source : string;
  t_failure_category : option string;
  t_failure_message : option string;
  t_github_repo : option string;
  t_github_installation_id : option Z;
  t_self_test_run_id : option string;
  t_self_test_profile : option string;
  t_self_test_check : option string;
  t_self_test_nonce : option string;
  t_callback_parent_task_id : option string;
  t_callback_depth : Z;
  t_repos : option (list RepoRef);
}.

Record AgentSession := mkAgentSession {
  s_team_id : option string;
  s_status : string;
  s_resume_mode : string;
  s_pinned_runner_id : option string;
  s_pinned_runner_name : option string;
  s_checkpoint_id : option string;
  s_workspace_path : option string;
  s_container_name : option string;
  s_harness_session_id : option string;
  s_git_url : option string;
  s_git_ref : option string;
  s_agent_image : option string;
  s_agent : option string;
  s_provider_id : option string;
  s_model_id : option string;
  s_variant_id : option string;
  s_created_at : time;
  s_updated_at : time;
  s_paused_at : option time;
  s_expires_at : option time;
  s_pause_reason : option string;
  s_error : option string;
  s_search_text : option string;
  s_sequence : Z;
  s_task_id : string;
  s_harness : option string;
  s_mcp_endpoints : option (list string);
  s_commit_author_name : option string;
  s_commit_author_email : option string;
  s_git_identity_id : option string;
  s_skills : list string;
  s_env : gmap string string;
  s_summary : option string;
  s_started_at : option time;
  s_ended_at : option time;
  s_isolation_required : bool;
  s_repos : option (list RepoRef);
}.

Record UserPrompt := mkUserPrompt {
  p_agent_session_id : string;
  p_task_id : string;
  p_status : string;
  p_prompt : string;
  p_summary : option string;
  p_error : option string;
  p_session_export : option string;
  p_created_at : time;
  p_updated_at : time;
  p_started_at : option time;
  p_ended_at : option time;
  p_sequence : Z;
  p_source_user_prompt_id : option string;
}.

Record ExecutionAttempt := mkExecutionAttempt {
  a_user_prompt_id : string;
  a_sequence : Z;
  a_status : string;
  a_runner_id : option string;
  a_required_runner_id : option string;
  a_claimed_at : option time;
  a_lease_expires_at : option time;
  a_started_at : option time;
  a_ended_at : option time;
  a_workspace_path : option string;
  a_container_name : option string;
  a_harness_execution_id : option string;
  a_summary : option string;
  a_error : option string;
  a_error_category : option string;
  a_session_export : option string;
  a_total_input_tokens : Z;
  a_total_output_tokens : Z;
  a_total_cache_read_tokens : Z;
  a_total_cache_write_tokens : Z;
  a_total_reasoning_tokens : Z;
  a_cost_cents : Z;
  a_created_at : time;
  a_updated_at : time;
  a_timeout_sec : Z;
  a_last_event_at : option time;
  a_runner_image_digest : option string;
  a_claim_id : string;
}.

Record Runner := mkRunner {
  r_status : string;
  r_image_ref : option string;
  r_image_digest : option string;
  r_version : option string;
  r_max_concurrent : Z;
  r_running_tasks : Z;
  r_available_slots : Z;
  r_total_started : Z;
  r_total_completed : Z;
  r_total_errors : Z;
  r_started_at : option time;
  r_first_seen_at : time;
  r_last_seen_at : time;
  r_updated_at : time;
  r_metadata : gmap string Z;     (* the integer members read back *)
  r_isolation_enabled : bool;
}.

Record AgentSessionCheckpoint := mkCheckpoint {
  c_agent_session_id : string;
  c_runner_id : string;
  c_checkpoint_path : string;
  c_workspace_path : string;
  c_container_name : option string;
  c_status : string;
  c_created_at : time;
  c_updated_at : time;
}.

(** The event a runner reports ([runnerv1.TaskEvent]). *)
Record RunnerTaskEvent := mkRunnerTaskEvent {
  re_TaskId : string;
  re_ExecutionId : string;
  re_AgentSessionId : string;
  re_UserPromptId : string;
  re_ClaimId : string;
  re_Status : string;
  re_Summary : string;
  re_Error : string;
  re_ErrorCategory : string;
  re_SessionExport : string;
  re_PayloadJson : string;
  re_StartedAt : option time;
  re_EndedAt : option time;
  re_WorkspacePath : string;
  re_OpencodeSessionId : string;
  re_RunnerImageDigest : string;
  re_ProviderId : string;
  re_ModelId : string;
  re_VariantId : string;
  re_CheckpointPath : string;
  re_TokenUsage : option TokenUsage;
}.

(** The payload of an event: an object the server builds, the text a runner
    sent when it is valid JSON, or the encoding of the whole runner event. *)
Inductive JVal := JStr (s : string) | JInt (n : Z).

Inductive Payload :=
| PObject (members : list (string * JVal))
| PRaw (text : string)
| PMarshalled (event : RunnerTaskEvent).

Record TaskEventRow := mkTaskEvent {
  e_task_id : string;
  e_agent_session_id : option string;
  e_user_prompt_id : option string;
  e_execution_attempt_id : option string;
  e_subject : string;
  e_status : string;
  e_event_type : string;
  e_payload : Payload;
  e_created_at : time;
}.

Record TriggerRun := mkTriggerRun {
  tr_task_id : option string;
  tr_status : string;
}.

Record CallbackDelivery := mkCallbackDelivery {
  d_callback_id : string;
  d_event_id : string;
  d_task_id : option string;
  d_team_id : option string;
  d_event_type : string;
  d_endpoint_url : string;
  d_method : string;
  d_headers : option string;
  d_payload : string;
  d_status : string;
  d_attempts : Z;
  d_max_attempts : Z;
  d_error : option string;
  d_lease_expires_at : option time;
  d_next_attempt_at : option time;
  d_processed_at : option time;
  d_created_at : time;
  d_updated_at : time;
  d_action_type : string;
  d_child_task_id : option string;
}.

(** The tables. *)
Record DB := mkDB {
  tasks : gmap string Task;
  agent_sessions : gmap string AgentSession;
  user_prompts : gmap string UserPrompt;
  execution_attempts : gmap string ExecutionAttempt;
  runners : gmap string Runner;
  runner_drain_requests : gmap string time;
  task_events : gmap string TaskEventRow;
  agent_session_checkpoints : gmap string AgentSessionCheckpoint;
  trigger_runs : gmap string TriggerRun;
  callback_deliveries : gmap string CallbackDelivery;
}.

Definition empty_db : DB := mkDB ∅ ∅ ∅ ∅ ∅ ∅ ∅ ∅ ∅ ∅.
