(* ===== verification/Queries.v ===== *)
(** * Statements

    The SQL statements of [internal/repository/*.sql.go], one definition per
    query, over the state of [Db]. A statement that changes rows returns the
    number of rows its WHERE clause selects, as [:execrows] does; a [:one]
    query returns an option, which [tx_one] turns into [sql.ErrNoRows].

    [now()] of the database server is the argument [dbnow]. Where a multi-table
    UPDATE joins a target row with several rows and copies a column from them,
    the model copies from the first in key order; the code leaves the choice to
    the database. *)
From S2P Require Import Prelude GoStrings Status Repos Db.

(** ** Lifting a statement on one table to the database *)

Definition on_tasks (u : gmap string Task → Z * gmap string Task) (db : DB) : Z * DB :=
  let r := u (tasks db) in (r.1, db{{ tasks := r.2 }}).
Definition on_sessions (u : gmap string AgentSession → Z * gmap string AgentSession) (db : DB)
    : Z * DB :=
  let r := u (agent_sessions db) in (r.1, db{{ agent_sessions := r.2 }}).
Definition on_prompts (u : gmap string UserPrompt → Z * gmap string UserPrompt) (db : DB)
    : Z * DB :=
  let r := u (user_prompts db) in (r.1, db{{ user_prompts := r.2 }}).
Definition on_attempts (u : gmap string ExecutionAttempt → Z * gmap string ExecutionAttempt)
    (db : DB) : Z * DB :=
  let r := u (execution_attempts db) in (r.1, db{{ execution_attempts := r.2 }}).

(** ** Joins *)

Definition prompt_of (db : DB) (a : ExecutionAttempt) : option UserPrompt :=
  user_prompts db !! a_user_prompt_id a.

Definition session_of (db : DB) (p : UserPrompt) : option AgentSession :=
  agent_sessions db !! p_agent_session_id p.

(** [attempt JOIN prompt ON prompt.id = attempt.user_prompt_id], the task of
    the joined row. *)
Definition task_of (db : DB) (a : ExecutionAttempt) : option string :=
  p_task_id <$> prompt_of db a.

Definition exists_row {V} (m : gmap string V) (p : string → V → bool) : bool :=
  existsb (λ kv, p kv.1 kv.2) (map_to_list m).

(** The attempts joined with the task [taskID], with their keys. *)
Definition attempts_of_task (db : DB) (taskID : string) : list (string * ExecutionAttempt) :=
  List.filter (λ kv, task_of db kv.2 == Some taskID) (map_to_list (execution_attempts db)).

(** ** tasks *)

Definition GetTaskByID (id : string) (db : DB) : option Task := tasks db !! id.

Definition InsertTask (id : string) (t : Task) : tx DB unit := λ db,
  match insert_pk "tasks" id t (tasks db) with
  | inl e => inl e
  | inr m => inr (tt, db{{ tasks := m }})
  end.

Definition task_ended (st : string) : bool := one_of ["done"; "error"; "cancelled"] st.

Definition RequeueTaskForPrompt (updatedAt : time) (id : string) : DB → Z * DB :=
  on_tasks (update_pk id (λ t, task_ended (t_status t))
    (λ t, t{{ t_status := "pending"; t_summary := None; t_error := None;
              t_error_category := None; t_failure_category := None;
              t_failure_message := None; t_ended_at := None; t_updated_at := updatedAt }})).

Definition MarkTaskRunning (updatedAt : time) (id : string) : DB → Z * DB :=
  on_tasks (update_pk id (λ t, t_status t == "pending")
    (λ t, t{{ t_status := "running"; t_updated_at := updatedAt }})).

Record UpdateTaskAggregateParams := {
  ut_Status : string;
  ut_Summary : option string;
  ut_Error : option string;
  ut_ErrorCategory : string;
  ut_FailureCategory : string;
  ut_FailureMessage : option string;
  ut_EndedAt : option time;
  ut_UpdatedAt : time;
  ut_ID : string;
}.

Definition task_from_event (p : UpdateTaskAggregateParams) (t : Task) : Task :=
  t{{ t_status := ut_Status p;
      t_summary := ut_Summary p;
      t_error := ut_Error p;
      t_error_category := coalesce (nullif_empty (ut_ErrorCategory p)) (t_error_category t);
      t_failure_category := coalesce (nullif_empty (ut_FailureCategory p)) (t_failure_category t);
      t_failure_message := coalesce (ut_FailureMessage p) (t_failure_message t);
      t_ended_at := coalesce (ut_EndedAt p) (t_ended_at t);
      t_updated_at := ut_UpdatedAt p }}.

Definition UpdateTaskAggregateFromRunnerEvent (p : UpdateTaskAggregateParams) : DB → Z * DB :=
  on_tasks (update_pk (ut_ID p)
    (λ t, (t_status t == "running") || (t_status t == ut_Status p)) (task_from_event p)).

Definition RequeueTaskAfterExecutionAttemptLost (updatedAt : time) (taskID : string)
    : DB → Z * DB :=
  on_tasks (update_pk taskID (λ t, t_status t == "running")
    (λ t, t{{ t_status := "pending"; t_summary := None; t_error := None;
              t_error_category := None; t_ended_at := None; t_updated_at := updatedAt }})).

(** The first attempt, in key order, that a task row joins with and that
    satisfies [p]. *)
Definition joined_attempt (db : DB) (taskID : string) (p : ExecutionAttempt → bool)
    : option ExecutionAttempt :=
  snd <$> head (List.filter (λ kv, p kv.2) (attempts_of_task db taskID)).

Definition expired_timeout (before : time) (a : ExecutionAttempt) : bool :=
  (a_status a == "error") && (a_error_category a == Some "timeout") &&
  sql_lt (a_lease_expires_at a) (Some before).

Definition FailExpiredLeases (endedAt updatedAt before : time) (db : DB) : Z * DB :=
  on_tasks (update_where
    (λ id t, (t_status t == "running") &&
             bool_decide (is_Some (joined_attempt db id (expired_timeout before))))
    (λ id t, match joined_attempt db id (expired_timeout before) with
             | None => t
             | Some a =>
               t{{ t_status := "error"; t_error := a_error a;
                   t_error_category := Some "timeout"; t_failure_category := Some "timeout";
                   t_failure_message :=
                     Some ("Task timed out after " ^^ default "lease expiry" (a_error a));
                   t_ended_at := Some endedAt; t_updated_at := updatedAt }}
             end)) db.

Definition failed_with (category : string) (a : ExecutionAttempt) : bool :=
  (a_status a == "error") && (a_error_category a == Some category).

Definition FailPendingResumeTasksForMissingRunner (endedAt updatedAt : time) (db : DB) : Z * DB :=
  on_tasks (update_where
    (λ id t, (t_status t == "pending") &&
             bool_decide (is_Some (joined_attempt db id (failed_with "runner_unavailable"))))
    (λ id t, match joined_attempt db id (failed_with "runner_unavailable") with
             | None => t
             | Some a =>
               t{{ t_status := "error"; t_error := a_error a;
                   t_error_category := Some "runner_unavailable";
                   t_failure_category := Some "runner_lost";
                   t_failure_message :=
                     Some ("Runner unavailable: " ^^ default "unknown" (a_error a));
                   t_ended_at := Some endedAt; t_updated_at := updatedAt }}
             end)) db.

Definition isolation_error : string :=
  "no active runner enforces isolation (gVisor) for this task".

Definition FailPendingIsolationTasks (endedAt updatedAt : time) (db : DB) : Z * DB :=
  on_tasks (update_where
    (λ id t, (t_status t == "pending") &&
             bool_decide (is_Some (joined_attempt db id (failed_with "isolation_unavailable"))))
    (λ _ t, t{{ t_status := "error"; t_error := Some isolation_error;
                t_error_category := Some "isolation_unavailable";
                t_failure_category := Some "harness_error";
                t_failure_message := Some
                  "No active runner enforces isolation (gVisor) for this task; it cannot run unsandboxed.";
                t_ended_at := Some endedAt; t_updated_at := updatedAt }})) db.

Definition cancel_task_row (reason : string) (endedAt updatedAt : time) (t : Task) : Task :=
  t{{ t_status := "cancelled"; t_error := Some reason;
      t_error_category := Some "cancelled"; t_failure_category := Some "user_cancelled";
      t_failure_message := Some reason;
      t_ended_at := coalesce (t_ended_at t) (Some endedAt); t_updated_at := updatedAt }}.

Definition SetCancelTask (reason : string) (endedAt updatedAt : time) (id : string) : DB → Z * DB :=
  on_tasks (update_pk id (λ t, one_of ["pending"; "running"] (t_status t))
    (cancel_task_row reason endedAt updatedAt)).

Definition ClearPendingTasks (reason : string) (endedAt updatedAt : time) : DB → Z * DB :=
  on_tasks (update_where (λ _ t, t_status t == "pending")
    (λ _, cancel_task_row reason endedAt updatedAt)).

Definition CountPendingTasks (db : DB) : Z :=
  Z.of_nat (length (List.filter (λ kv, t_status kv.2 == "pending") (map_to_list (tasks db)))).

(** ** agent_sessions *)

(** Insert into a table with a composite unique key besides the primary key. *)
Definition insert_unique {V} (tbl : string) (same : V → V → bool) (k : string) (v : V)
    (m : gmap string V) : err + gmap string V :=
  if exists_row m (λ _ v', same v v') then inl (EDuplicateKey tbl) else insert_pk tbl k v m.

Definition same_session_key (s s' : AgentSession) : bool :=
  (s_task_id s == s_task_id s') && (s_sequence s =? s_sequence s').

Definition InsertAgentSession (id : string) (s : AgentSession) : tx DB unit := λ db,
  match insert_unique "agent_sessions" same_session_key id s (agent_sessions db) with
  | inl e => inl e
  | inr m => inr (tt, db{{ agent_sessions := m }})
  end.

Definition GetAgentSessionByID (id : string) (db : DB) : option AgentSession :=
  agent_sessions db !! id.

Definition sessions_of_task (db : DB) (taskID : string) : list (string * AgentSession) :=
  List.filter (λ kv, s_task_id kv.2 == taskID) (map_to_list (agent_sessions db)).

(** [ORDER BY sequence DESC LIMIT 1] *)
Definition GetAgentSessionByTaskID (taskID : string) (db : DB) : option (string * AgentSession) :=
  best (λ x y, s_sequence y.2 <? s_sequence x.2) (sessions_of_task db taskID).

Definition GetNextAgentSessionSequence (taskID : string) (db : DB) : Z :=
  sql_max (map (λ kv, s_sequence kv.2) (sessions_of_task db taskID)) + 1.

Definition session_live (st : string) : bool := one_of ["running"; "resuming"] st.
Definition session_paused (st : string) : bool :=
  one_of ["paused"; "recoverable"; "paused_waiting_review"] st.

(** Update the latest session of a task, if it is live. *)
Definition update_latest_session (taskID : string) (f : AgentSession → AgentSession) (db : DB)
    : Z * DB :=
  match GetAgentSessionByTaskID taskID db with
  | None => (0, db)
  | Some (id, _) => on_sessions (update_pk id (λ s, session_live (s_status s)) f) db
  end.

Definition MarkAgentSessionTerminalByTask (status harnessSessionID : string)
    (summary error : option string) (endedAt updatedAt : time) (taskID : string) : DB → Z * DB :=
  update_latest_session taskID (λ s,
    s{{ s_status := status;
        s_harness_session_id :=
          coalesce (nullif_empty harnessSessionID) (s_harness_session_id s);
        s_summary := summary; s_error := error; s_ended_at := Some endedAt;
        s_updated_at := updatedAt }}).

Definition UpdateAgentSessionFromRunnerEvent
    (providerID modelID variantID harnessSessionID : string) (updatedAt : time) (taskID : string)
    : DB → Z * DB :=
  update_latest_session taskID (λ s,
    s{{ s_provider_id := coalesce (nullif_empty providerID) (s_provider_id s);
        s_model_id := coalesce (nullif_empty modelID) (s_model_id s);
        s_variant_id := coalesce (nullif_empty variantID) (s_variant_id s);
        s_harness_session_id :=
          coalesce (nullif_empty harnessSessionID) (s_harness_session_id s);
        s_updated_at := updatedAt }}).

(** [NULLIF(x, '')] of a nullable argument. *)
Definition nullif_null (o : option string) : option string :=
  match o with None => None | Some s => nullif_empty s end.

Definition PauseAgentSessionByTaskID (status : string)
    (pinnedRunnerID checkpointID workspacePath containerName harnessSessionID : option string)
    (pausedAt updatedAt : time) (taskID : string) : DB → Z * DB :=
  update_latest_session taskID (λ s,
    s{{ s_status := status;
        s_pinned_runner_id := coalesce (nullif_null pinnedRunnerID) (s_pinned_runner_id s);
        s_checkpoint_id := coalesce (nullif_null checkpointID) (s_checkpoint_id s);
        s_workspace_path := coalesce (nullif_null workspacePath) (s_workspace_path s);
        s_container_name := coalesce (nullif_null containerName) (s_container_name s);
        s_harness_session_id := coalesce (nullif_null harnessSessionID) (s_harness_session_id s);
        s_paused_at := Some pausedAt; s_updated_at := updatedAt }}).

Definition MarkAgentSessionResuming (status : string) (updatedAt : time) (id : string)
    : DB → Z * DB :=
  on_sessions (update_pk id (λ s, session_paused (s_status s))
    (λ s, s{{ s_status := status; s_updated_at := updatedAt }})).

Definition AbandonAgentSession (error : option string) (endedAt updatedAt : time) (id : string)
    : DB → Z * DB :=
  on_sessions (update_pk id (λ s, session_live (s_status s))
    (λ s, s{{ s_status := "abandoned"; s_error := error; s_ended_at := Some endedAt;
              s_updated_at := updatedAt }})).

Definition stale_before (dbnow : time) (staleSeconds : Z) : time := dbnow - seconds staleSeconds.

Definition IsRunnerAlive (dbnow : time) (runnerID : string) (staleSeconds : Z) (db : DB) : bool :=
  match runners db !! runnerID with
  | None => false
  | Some r => (r_status r == "active") &&
              (stale_before dbnow staleSeconds <? r_last_seen_at r)
  end.

Definition prompt_in_flight (st : string) : bool := one_of ["pending"; "claimed"; "running"] st.
Definition attempt_active (st : string) : bool := one_of ["pending"; "running"] st.

Definition ExpirePausedSessions (endedAt updatedAt expiresAt : time) (db : DB) : Z * DB :=
  on_sessions (update_where
    (λ id s,
      session_paused (s_status s) && sql_lt (s_expires_at s) (Some expiresAt) &&
      negb (exists_row (user_prompts db)
        (λ _ p, (p_agent_session_id p == id) && prompt_in_flight (p_status p))) &&
      negb (exists_row (execution_attempts db)
        (λ _ a, match prompt_of db a with
                | None => false
                | Some p => (p_agent_session_id p == id) && attempt_active (a_status a)
                end)))
    (λ _ s, s{{ s_status := "expired"; s_ended_at := Some endedAt;
                s_updated_at := updatedAt }})) db.

(** ** user_prompts *)

Definition same_prompt_key (p p' : UserPrompt) : bool :=
  (p_agent_session_id p == p_agent_session_id p') && (p_sequence p =? p_sequence p').

Definition InsertUserPrompt (id : string) (p : UserPrompt) : tx DB unit := λ db,
  match insert_unique "user_prompts" same_prompt_key id p (user_prompts db) with
  | inl e => inl e
  | inr m => inr (tt, db{{ user_prompts := m }})
  end.

Definition GetUserPromptByID (id : string) (db : DB) : option UserPrompt := user_prompts db !! id.

(** The prompts of a task joined with their sessions. *)
Definition prompts_of_task (db : DB) (taskID : string)
    : list (string * UserPrompt * AgentSession) :=
  omap (λ kv, if p_task_id kv.2 == taskID
              then pair kv <$> session_of db kv.2 else None)
       (map_to_list (user_prompts db)).

(** [ORDER BY session.sequence DESC, prompt.sequence DESC LIMIT 1] *)
Definition later_prompt (x y : string * UserPrompt * AgentSession) : bool :=
  (s_sequence y.2 <? s_sequence x.2) ||
  (s_sequence y.2 =? s_sequence x.2) && (p_sequence y.1.2 <? p_sequence x.1.2).

Definition GetUserPromptByTaskID (taskID : string) (db : DB) : option (string * UserPrompt) :=
  fst <$> best later_prompt (prompts_of_task db taskID).

Definition AbandonUserPrompt (error : option string) (endedAt updatedAt : time) (id : string)
    : DB → Z * DB :=
  on_prompts (update_pk id (λ p, prompt_in_flight (p_status p))
    (λ p, p{{ p_status := "failed"; p_error := error; p_ended_at := Some endedAt;
              p_updated_at := updatedAt }})).

Definition GetNextUserPromptSequence (sessionID : string) (db : DB) : Z :=
  sql_max
    (map (λ kv, p_sequence kv.2)
      (List.filter (λ kv, p_agent_session_id kv.2 == sessionID) (map_to_list (user_prompts db))))
  + 1.

Definition update_latest_prompt (taskID : string) (p : UserPrompt → bool)
    (f : UserPrompt → UserPrompt) (db : DB) : Z * DB :=
  match GetUserPromptByTaskID taskID db with
  | None => (0, db)
  | Some (id, _) => on_prompts (update_pk id p f) db
  end.

Definition MarkUserPromptRunningByTask (startedAt updatedAt : time) (taskID : string)
    : DB → Z * DB :=
  update_latest_prompt taskID (λ p, one_of ["pending"; "claimed"] (p_status p))
    (λ p, p{{ p_status := "running";
              p_started_at := coalesce (p_started_at p) (Some startedAt);
              p_updated_at := updatedAt }}).

Definition MarkUserPromptTerminalByTask (status : string)
    (summary error sessionExport : option string) (startedAt endedAt : option time)
    (updatedAt : time) (taskID : string) : DB → Z * DB :=
  update_latest_prompt taskID (λ _, true)
    (λ p, p{{ p_status := status; p_summary := summary; p_error := error;
              p_session_export := coalesce sessionExport (p_session_export p);
              p_started_at := coalesce (p_started_at p) startedAt;
              p_ended_at := coalesce endedAt (p_ended_at p);
              p_updated_at := updatedAt }}).

(** ** execution_attempts *)

Definition same_attempt_key (a a' : ExecutionAttempt) : bool :=
  (a_user_prompt_id a == a_user_prompt_id a') && (a_sequence a =? a_sequence a').

(** The columns the INSERT leaves to their defaults. *)
Definition pending_attempt (promptID : string) (sequence : Z) (required : option string)
    (timeoutSec : Z) (createdAt updatedAt : time) : ExecutionAttempt :=
  mkExecutionAttempt promptID sequence "pending" None required None None None None None None None
    None None None None 0 0 0 0 0 0 createdAt updatedAt timeoutSec None None "".

Definition InsertPendingExecutionAttempt (id promptID : string) (sequence : Z)
    (required : option string) (timeoutSec : Z) (createdAt updatedAt : time) : tx DB unit := λ db,
  match insert_unique "execution_attempts" same_attempt_key id
          (pending_attempt promptID sequence required timeoutSec createdAt updatedAt)
          (execution_attempts db) with
  | inl e => inl e
  | inr m => inr (tt, db{{ execution_attempts := m }})
  end.

Record Claimable := mkClaimable { cl_attempt : string; cl_prompt : string; cl_task : string }.

(** The WHERE clause of the claim query, for an attempt that is not locked by
    another transaction. *)
Definition claimable (runnerID : string) (isolationEnabled : bool) (db : DB)
    (a : ExecutionAttempt) : bool :=
  match prompt_of db a with
  | None => false
  | Some p =>
    match tasks db !! p_task_id p with
    | None => false
    | Some t =>
      (a_status a == "pending") && (t_status t == "pending") &&
      match a_required_runner_id a with
      | None => true
      | Some r => (r == "") || (r == runnerID)
      end &&
      (negb (match session_of db p with
             | None => false
             | Some s => s_isolation_required s
             end) || isolationEnabled)
    end
  end.

(** [skip] says which attempts SKIP LOCKED passes over. *)
Definition GetClaimableExecutionAttemptForUpdate (skip : string → bool)
    (runnerID : string) (isolationEnabled : bool) (db : DB) : option Claimable :=
  match best (λ x y, a_created_at x.2 <? a_created_at y.2)
          (List.filter (λ kv, negb (skip kv.1) && claimable runnerID isolationEnabled db kv.2)
             (map_to_list (execution_attempts db))) with
  | None => None
  | Some (id, a) => mkClaimable id (a_user_prompt_id a) <$> task_of db a
  end.

Record MarkClaimedParams := {
  mc_RunnerID : option string;
  mc_ClaimID : string;
  mc_ClaimedAt : option time;
  mc_LeaseExpiresAt : option time;
  mc_StartedAt : option time;
  mc_LastEventAt : option time;
  mc_UpdatedAt : time;
}.

Definition MarkExecutionAttemptClaimed (p : MarkClaimedParams) (id : string) : DB → Z * DB :=
  on_attempts (update_pk id (λ a, a_status a == "pending")
    (λ a, a{{ a_status := "running"; a_runner_id := mc_RunnerID p; a_claim_id := mc_ClaimID p;
              a_claimed_at := mc_ClaimedAt p; a_lease_expires_at := mc_LeaseExpiresAt p;
              a_started_at := mc_StartedAt p; a_last_event_at := mc_LastEventAt p;
              a_updated_at := mc_UpdatedAt p }})).

Definition GetExecutionAttemptByID (id : string) (db : DB) : option ExecutionAttempt :=
  execution_attempts db !! id.

Record AttemptContext := { cx_UserPromptID : string; cx_AgentSessionID : string; cx_TaskID : string }.

Definition GetExecutionAttemptContext (id : string) (db : DB) : option AttemptContext :=
  match execution_attempts db !! id with
  | None => None
  | Some a =>
    match prompt_of db a with
    | None => None
    | Some p => Some {| cx_UserPromptID := a_user_prompt_id a;
                        cx_AgentSessionID := p_agent_session_id p; cx_TaskID := p_task_id p |}
    end
  end.

(** Whether the attempt row [a] is held by this runner under this claim, with
    a lease that has not run out. *)
Definition live_claim (dbnow : time) (runnerID claimID : string) (a : ExecutionAttempt) : bool :=
  (a_runner_id a == Some runnerID) && (a_claim_id a == claimID) &&
  (a_status a == "running") && sql_lt (Some dbnow) (a_lease_expires_at a).

Definition ValidateRunnerExecutionClaim (dbnow : time) (executionID taskID runnerID claimID : string)
    (db : DB) : option (ExecutionAttempt * UserPrompt) :=
  match execution_attempts db !! executionID with
  | None => None
  | Some a =>
    match prompt_of db a with
    | None => None
    | Some p => if (p_task_id p == taskID) && live_claim dbnow runnerID claimID a
                then Some (a, p) else None
    end
  end.

Definition CountExecutionAttemptsByTask (taskID : string) (db : DB) : Z :=
  Z.of_nat (length (attempts_of_task db taskID)).

Definition GetNextExecutionAttemptSequence (promptID : string) (db : DB) : Z :=
  sql_max (map (λ kv, a_sequence kv.2)
    (List.filter (λ kv, a_user_prompt_id kv.2 == promptID) (map_to_list (execution_attempts db))))
  + 1.

(** The renewal gate: status, runner and claim, but not the lease itself. *)
Definition RenewExecutionAttemptLease (leaseExpiresAt lastEventAt : option time)
    (updatedAt : time) (id : string) (runnerID : option string) (claimID : string)
    : DB → Z * DB :=
  on_attempts (update_pk id
    (λ a, match runnerID with Some r => a_runner_id a == Some r | None => false end &&
          (a_claim_id a == claimID) && (a_status a == "running"))
    (λ a, a{{ a_lease_expires_at := leaseExpiresAt; a_last_event_at := lastEventAt;
              a_updated_at := updatedAt }})).

(** The range of an INT column. *)
Definition int32_ok (z : Z) : bool := (- 2 ^ 31 <=? z) && (z <? 2 ^ 31).

(** The statement fails when a sum does not fit the column. *)
Definition ExtendActiveExecutionAttemptTimeout (extensionSec : Z) (updatedAt : time)
    (taskID : string) : tx DB Z := λ db,
  let selected a := (task_of db a == Some taskID) && attempt_active (a_status a) in
  if exists_row (execution_attempts db)
       (λ _ a, selected a && negb (int32_ok (a_timeout_sec a + extensionSec)))
  then inl EOutOfRange
  else inr (on_attempts (update_where (λ _ a, selected a)
         (λ _ a, a{{ a_timeout_sec := a_timeout_sec a + extensionSec;
                     a_updated_at := updatedAt }})) db).

Record HeartbeatRow := mkHeartbeatRow {
  hb_ExecutionAttemptID : string;
  hb_ClaimID : string;
  hb_Status : string;
  hb_Error : option string;
  hb_TaskID : string;
  hb_AgentSessionID : string;
  hb_UserPromptID : string;
}.

Definition ListExecutionAttemptsForHeartbeat (ids : list string) (runnerID : string) (db : DB)
    : list HeartbeatRow :=
  omap (λ kv,
    if one_of ids kv.1 && (a_runner_id kv.2 == Some runnerID) then
      match prompt_of db kv.2 with
      | None => None
      | Some p => Some (mkHeartbeatRow kv.1 (a_claim_id kv.2) (a_status kv.2) (a_error kv.2)
                          (p_task_id p) (p_agent_session_id p) (a_user_prompt_id kv.2))
      end
    else None) (map_to_list (execution_attempts db)).

Definition MarkExecutionAttemptLost (error : option string) (endedAt updatedAt : time)
    (id : string) : DB → Z * DB :=
  on_attempts (update_pk id (λ a, a_status a == "running")
    (λ a, a{{ a_status := "lost"; a_error := error; a_ended_at := Some endedAt;
              a_updated_at := updatedAt }})).

(** A running attempt whose lease ran out before [before]. *)
Definition lease_expired (before : time) (a : ExecutionAttempt) : bool :=
  (a_status a == "running") && sql_lt (a_lease_expires_at a) (Some before).

(** The task row an attempt joins with. *)
Definition task_row_of (db : DB) (a : ExecutionAttempt) : option (string * Task) :=
  match task_of db a with None => None | Some tid => pair tid <$> tasks db !! tid end.

Definition fail_attempt (error category : string) (endedAt updatedAt : time)
    (a : ExecutionAttempt) : ExecutionAttempt :=
  a{{ a_status := "error"; a_error := Some error; a_error_category := Some category;
      a_ended_at := Some endedAt; a_updated_at := updatedAt }}.

Definition FailExpiredExecutionAttempts (endedAt updatedAt before : time) (db : DB) : Z * DB :=
  on_attempts (update_where
    (λ _ a, lease_expired before a &&
            match task_row_of db a with
            | None => false
            | Some (tid, t) => t_max_attempts t <=? CountExecutionAttemptsByTask tid db
            end)
    (λ _ a, match task_row_of db a with
            | None => a
            | Some (tid, _) =>
              fail_attempt ("runner lease expired after " ^^
                            fmt_d (CountExecutionAttemptsByTask tid db) ^^ " attempts")
                "timeout" endedAt updatedAt a
            end)) db.

Definition FailAllExpiredExecutionAttempts (endedAt updatedAt before : time) : DB → Z * DB :=
  on_attempts (update_where (λ _ a, lease_expired before a)
    (λ _, fail_attempt "runner lease expired; auto-recovery disabled" "timeout" endedAt updatedAt)).

Definition cancel_attempt (error : string) (endedAt updatedAt : time) (a : ExecutionAttempt)
    : ExecutionAttempt :=
  a{{ a_status := "cancelled"; a_error := Some error; a_error_category := Some "cancelled";
      a_lease_expires_at := None; a_ended_at := coalesce (a_ended_at a) (Some endedAt);
      a_updated_at := updatedAt }}.

Definition CancelExecutionAttemptsByTask (error : string) (endedAt updatedAt : time)
    (taskID : string) (db : DB) : Z * DB :=
  on_attempts (update_where
    (λ _ a, (task_of db a == Some taskID) && attempt_active (a_status a))
    (λ _, cancel_attempt error endedAt updatedAt)) db.

Definition CancelPendingExecutionAttempts (error : string) (endedAt updatedAt : time)
    : DB → Z * DB :=
  on_attempts (update_where (λ _ a, a_status a == "pending")
    (λ _, cancel_attempt error endedAt updatedAt)).

(** A runner row that counts as gone: absent, not active, or stale. *)
Definition runner_missing (dbnow : time) (staleSeconds : Z) (db : DB) (runnerID : string) : bool :=
  match runners db !! runnerID with
  | None => true
  | Some r => negb (r_status r == "active") ||
              (r_last_seen_at r <=? stale_before dbnow staleSeconds)
  end.

Definition FailPendingExecutionAttemptsForMissingRunner (dbnow endedAt updatedAt : time)
    (staleSeconds : Z) (db : DB) : Z * DB :=
  on_attempts (update_where
    (λ _ a, (a_status a == "pending") &&
            match p ← prompt_of db a; session_of db p with
            | None => false
            | Some s => s_status s == "resuming"
            end &&
            match a_required_runner_id a with
            | None => false
            | Some r => negb (r == "") && runner_missing dbnow staleSeconds db r
            end)
    (λ _ a, fail_attempt ("pinned runner " ^^ str_of (a_required_runner_id a) ^^ " is not alive")
              "runner_unavailable" endedAt updatedAt a)) db.

(** A live runner that enforces isolation, draining ones included. *)
Definition capable_runner (dbnow : time) (staleSeconds : Z) (r : Runner) : bool :=
  r_isolation_enabled r && one_of ["active"; "draining"; "stopping"] (r_status r) &&
  (stale_before dbnow staleSeconds <? r_last_seen_at r).

Definition FailPendingIsolationAttemptsWithoutCapableRunner (dbnow endedAt updatedAt : time)
    (staleSeconds : Z) (db : DB) : Z * DB :=
  on_attempts (update_where
    (λ _ a, (a_status a == "pending") &&
            match p ← prompt_of db a; session_of db p with
            | None => false
            | Some s => s_isolation_required s
            end &&
            negb (exists_row (runners db) (λ _ r, capable_runner dbnow staleSeconds r)))
    (λ _, fail_attempt isolation_error "isolation_unavailable" endedAt updatedAt)) db.

Record Reclaimable := mkReclaimable {
  rc_ExecutionAttemptID : string;
  rc_TaskID : string;
  rc_TeamID : option string;
  rc_RunnerID : option string;
  rc_MaxAttempts : Z;
  rc_TimeoutSec : Z;
  rc_LeaseExpiresAt : option time;
}.

Definition reclaimable_row (before : time) (db : DB) (kv : string * ExecutionAttempt)
    : option Reclaimable :=
  if lease_expired before kv.2 then
    match task_row_of db kv.2 with
    | None => None
    | Some (tid, t) =>
      Some (mkReclaimable kv.1 tid (t_team_id t) (a_runner_id kv.2) (t_max_attempts t)
              (a_timeout_sec kv.2) (a_lease_expires_at kv.2))
    end
  else None.

(** [ORDER BY attempt.lease_expires_at ASC] *)
Definition ListReclaimableExecutionAttemptsForUpdate (before : time) (db : DB)
    : list Reclaimable :=
  sort_by (λ r, default 0 (rc_LeaseExpiresAt r))
    (omap (reclaimable_row before db) (map_to_list (execution_attempts db))).

Record UpdateAttemptParams := {
  ua_Status : string;
  ua_Summary : option string;
  ua_Error : option string;
  ua_ErrorCategory : string;
  ua_SessionExport : option string;
  ua_LeaseExpiresAt : option time;
  ua_StartedAt : option time;
  ua_EndedAt : option time;
  ua_WorkspacePath : string;
  ua_HarnessExecutionID : string;
  ua_RunnerImageDigest : string;
  ua_TotalInputTokens : Z;
  ua_TotalOutputTokens : Z;
  ua_TotalCacheReadTokens : Z;
  ua_TotalCacheWriteTokens : Z;
  ua_TotalReasoningTokens : Z;
  ua_CostCents : Z;
  ua_LastEventAt : option time;
  ua_UpdatedAt : time;
  ua_ID : string;
  ua_RunnerID : string;
  ua_ClaimID : string;
}.

Definition attempt_from_event (p : UpdateAttemptParams) (a : ExecutionAttempt) : ExecutionAttempt :=
  a{{ a_status := ua_Status p;
      a_summary := ua_Summary p;
      a_error := ua_Error p;
      a_error_category := coalesce (nullif_empty (ua_ErrorCategory p)) (a_error_category a);
      a_session_export := coalesce (ua_SessionExport p) (a_session_export a);
      a_lease_expires_at := ua_LeaseExpiresAt p;
      a_started_at := coalesce (ua_StartedAt p) (a_started_at a);
      a_ended_at := coalesce (ua_EndedAt p) (a_ended_at a);
      a_workspace_path := coalesce (nullif_empty (ua_WorkspacePath p)) (a_workspace_path a);
      a_harness_execution_id :=
        coalesce (nullif_empty (ua_HarnessExecutionID p)) (a_harness_execution_id a);
      a_runner_image_digest :=
        coalesce (nullif_empty (ua_RunnerImageDigest p)) (a_runner_image_digest a);
      a_total_input_tokens := a_total_input_tokens a + ua_TotalInputTokens p;
      a_total_output_tokens := a_total_output_tokens a + ua_TotalOutputTokens p;
      a_total_cache_read_tokens := a_total_cache_read_tokens a + ua_TotalCacheReadTokens p;
      a_total_cache_write_tokens := a_total_cache_write_tokens a + ua_TotalCacheWriteTokens p;
      a_total_reasoning_tokens := a_total_reasoning_tokens a + ua_TotalReasoningTokens p;
      a_cost_cents := a_cost_cents a + ua_CostCents p;
      a_last_event_at := ua_LastEventAt p;
      a_updated_at := ua_UpdatedAt p }}.

Definition totals_ok (a : ExecutionAttempt) : bool :=
  forallb int64_ok
    [a_total_input_tokens a; a_total_output_tokens a; a_total_cache_read_tokens a;
     a_total_cache_write_tokens a; a_total_reasoning_tokens a; a_cost_cents a].

(** The sums are BIGINT arithmetic: out of range, the statement fails. *)
Definition UpdateExecutionAttemptFromRunnerEvent (dbnow : time) (p : UpdateAttemptParams)
    : tx DB Z := λ db,
  match execution_attempts db !! ua_ID p with
  | None => inr (0, db)
  | Some a =>
    if live_claim dbnow (ua_RunnerID p) (ua_ClaimID p) a then
      if totals_ok (attempt_from_event p a)
      then inr (1, db{{ execution_attempts :=
                          <[ua_ID p := attempt_from_event p a]> (execution_attempts db) }})
      else inl EOutOfRange
    else inr (0, db)
  end.

(** ** task_events, trigger_runs, checkpoints *)

Definition InsertTaskEvent (id : string) (e : TaskEventRow) : tx DB unit := λ db,
  match insert_pk "task_events" id e (task_events db) with
  | inl err => inl err
  | inr m => inr (tt, db{{ task_events := m }})
  end.

Definition UpdateTriggerRunStatusByTask (status taskID : string) (db : DB) : DB :=
  db{{ trigger_runs :=
         (update_where (λ _ r, tr_task_id r == Some taskID)
            (λ _ r, r{{ tr_status := status }}) (trigger_runs db)).2 }}.

(** [CONCAT_WS(' ', ...)] of the task's texts and its latest session's agent
    and model. *)
Definition UpdateTaskSearchText (taskID : string) (db : DB) : DB :=
  let latest := snd <$> GetAgentSessionByTaskID taskID db in
  (on_tasks (update_pk taskID (λ _, true) (λ t,
     t{{ t_search_text := Some (join " "
           [t_prompt t; str_of (t_summary t); str_of (t_error t);
            str_of (s ← latest; s_agent s); str_of (s ← latest; s_model_id s);
            str_of (t_trigger_name t); str_of (t_git_url t); str_of (t_github_repo t)]) }})) db).2.

Definition InsertAgentSessionCheckpoint (id : string) (c : AgentSessionCheckpoint) : tx DB unit :=
  λ db,
  match insert_pk "agent_session_checkpoints" id c (agent_session_checkpoints db) with
  | inl e => inl e
  | inr m => inr (tt, db{{ agent_session_checkpoints := m }})
  end.

(** [ORDER BY created_at DESC LIMIT 1] *)
Definition GetLatestAgentSessionCheckpoint (sessionID : string) (db : DB)
    : option AgentSessionCheckpoint :=
  snd <$> best (λ x y, c_created_at y.2 <? c_created_at x.2)
    (List.filter (λ kv, c_agent_session_id kv.2 == sessionID)
       (map_to_list (agent_session_checkpoints db))).

(** ** runners *)

Definition GetRunnerIsolationEnabled (id : string) (db : DB) : option bool :=
  r_isolation_enabled <$> runners db !! id.

Definition GetRunnerHeartbeatMetadata (id : string) (db : DB) : option (gmap string Z) :=
  r_metadata <$> runners db !! id.

Definition UpsertRunnerHeartbeat (id : string) (v : Runner) (db : DB) : DB :=
  db{{ runners := <[id := match runners db !! id with
                          | None => v
                          | Some old => v{{ r_started_at := coalesce (r_started_at v) (r_started_at old);
                                            r_first_seen_at := r_first_seen_at old }}
                          end]> (runners db) }}.

(** ** Reaper statements over joins *)

(** The task of a prompt, when it satisfies [p]. *)
Definition prompt_task (db : DB) (p : UserPrompt) : option Task := tasks db !! p_task_id p.

Definition FailPendingUserPromptsForUnavailableRunner (endedAt updatedAt : time) (db : DB)
    : Z * DB :=
  on_prompts (update_where
    (λ _ p, (p_status p == "pending") &&
            match prompt_task db p with
            | None => false
            | Some t => (t_status t == "error") && (t_error_category t == Some "runner_unavailable")
            end)
    (λ _ p, p{{ p_status := "failed"; p_error := (t ← prompt_task db p; t_error t);
                p_ended_at := coalesce (p_ended_at p) (Some endedAt);
                p_updated_at := updatedAt }})) db.

(** The first prompt of a session, in key order, that satisfies [q] together
    with its task. *)
Definition joined_prompt (db : DB) (sessionID : string) (q : UserPrompt → Task → bool)
    : option (UserPrompt * Task) :=
  head (omap (λ kv, match prompt_task db kv.2 with
                    | None => None
                    | Some t => if (p_agent_session_id kv.2 == sessionID) && q kv.2 t
                                then Some (kv.2, t) else None
                    end) (map_to_list (user_prompts db))).

Definition unavailable_prompt (p : UserPrompt) (t : Task) : bool :=
  (p_status p == "failed") && (t_status t == "error") &&
  (t_error_category t == Some "runner_unavailable").

Definition MarkResumingSessionsFailedForUnavailableRunner (endedAt updatedAt : time) (db : DB)
    : Z * DB :=
  on_sessions (update_where
    (λ id s, (s_status s == "resuming") &&
             bool_decide (is_Some (joined_prompt db id unavailable_prompt)))
    (λ id s, match joined_prompt db id unavailable_prompt with
             | None => s
             | Some (p, t) =>
               s{{ s_status := "error"; s_error := coalesce (p_error p) (t_error t);
                   s_ended_at := Some endedAt; s_updated_at := updatedAt }}
             end)) db.

(** [NULLIF(x, '')] of a column. *)
Definition nonempty_or (a b c : option string) : option string :=
  coalesce (nullif_null a) (coalesce b c).

Definition terminal_prompt_status (taskStatus : string) : string :=
  if taskStatus == "done" then "completed"
  else if taskStatus == "cancelled" then "cancelled" else "failed".

Definition ReapStaleUserPrompts (dbnow : time) (db : DB) : Z * DB :=
  on_prompts (update_where
    (λ _ p, (p_status p == "running") &&
            match prompt_task db p with None => false | Some t => task_ended (t_status t) end)
    (λ _ p, match prompt_task db p with
            | None => p
            | Some t =>
              p{{ p_status := terminal_prompt_status (t_status t);
                  p_error := nonempty_or (p_error p) (t_error t) (p_error p);
                  p_ended_at := coalesce (coalesce (p_ended_at p) (t_ended_at t)) (Some dbnow);
                  p_updated_at := dbnow }}
            end)) db.

Definition ended_run (p : UserPrompt) (t : Task) : bool :=
  one_of ["failed"; "completed"; "cancelled"] (p_status p) && task_ended (t_status t).

Definition ReapStaleSessionsForTerminalRuns (dbnow : time) (db : DB) : Z * DB :=
  on_sessions (update_where
    (λ id s, (s_status s == "running") &&
             bool_decide (is_Some (joined_prompt db id ended_run)))
    (λ id s, match joined_prompt db id ended_run with
             | None => s
             | Some (_, t) =>
               s{{ s_status := if t_status t == "done" then "completed" else "error";
                   s_error := nonempty_or (s_error s) (t_error t) (s_error s);
                   s_summary := nonempty_or (s_summary s) (t_summary t) (s_summary s);
                   s_ended_at := coalesce (coalesce (s_ended_at s) (t_ended_at t)) (Some dbnow);
                   s_updated_at := dbnow }}
             end)) db.

Definition RevertOrphanedRunningUserPrompts (dbnow : time) (db : DB) : Z * DB :=
  on_prompts (update_where
    (λ _ p, (p_status p == "running") &&
            match prompt_task db p with None => false | Some t => t_status t == "pending" end)
    (λ _ p, p{{ p_status := "pending"; p_started_at := None; p_updated_at := dbnow }})) db.

(** Sessions whose artifacts are past their time to live. *)
Definition artifact_expired (dbnow : time) (ttlSeconds : Z) (db : DB) (sessionID : string) : bool :=
  match agent_sessions db !! sessionID with
  | None => false
  | Some s => one_of ["completed"; "failed"; "cancelled"; "timed_out"; "expired"; "abandoned";
                      "error"] (s_status s) &&
              (s_updated_at s <? stale_before dbnow ttlSeconds)
  end.

Definition ClearExpiredSessionCheckpoints (dbnow : time) (ttlSeconds : Z) (db : DB) : Z * DB :=
  let r := update_where
    (λ _ c, artifact_expired dbnow ttlSeconds db (c_agent_session_id c) &&
            negb (c_checkpoint_path c == ""))
    (λ _ c, c{{ c_checkpoint_path := ""; c_updated_at := dbnow }})
    (agent_session_checkpoints db) in
  (r.1, db{{ agent_session_checkpoints := r.2 }}).

Definition ClearExpiredUserPromptExports (dbnow : time) (ttlSeconds : Z) (db : DB) : Z * DB :=
  on_prompts (update_where
    (λ _ p, artifact_expired dbnow ttlSeconds db (p_agent_session_id p) &&
            bool_decide (is_Some (p_session_export p)))
    (λ _ p, p{{ p_session_export := None; p_updated_at := dbnow }})) db.

Definition ClearExpiredExecutionAttemptExports (dbnow : time) (ttlSeconds : Z) (db : DB) : Z * DB :=
  on_attempts (update_where
    (λ _ a, match prompt_of db a with
            | None => false
            | Some p => artifact_expired dbnow ttlSeconds db (p_agent_session_id p)
            end && bool_decide (is_Some (a_session_export a)))
    (λ _ a, a{{ a_session_export := None; a_updated_at := dbnow }})) db.

(** ** Lemmas on the statements *)

Lemma attempts_of_task_elem db taskID k a :
  (k, a) ∈ attempts_of_task db taskID ↔
  execution_attempts db !! k = Some a ∧ task_of db a = Some taskID.
Proof.
  unfold attempts_of_task. rewrite list_elem_of_In, filter_In, <- list_elem_of_In.
  rewrite elem_of_map_to_list, bool_decide_eq_true. done.
Qed.

Lemma exists_row_spec {V} (m : gmap string V) p :
  exists_row m p = true ↔ ∃ k v, m !! k = Some v ∧ p k v = true.
Proof.
  unfold exists_row. rewrite existsb_exists. split.
  - intros ([k v] & Hin%list_elem_of_In%elem_of_map_to_list & Hp). by exists k, v.
  - intros (k & v & Hk & Hp). exists (k, v).
    split; [by apply list_elem_of_In, elem_of_map_to_list|done].
Qed.

Lemma exists_row_false {V} (m : gmap string V) p :
  exists_row m p = false ↔ ∀ k v, m !! k = Some v → p k v = false.
Proof.
  rewrite <- not_true_iff_false, exists_row_spec. split.
  - intros Hn k v Hk. destruct (p k v) eqn:E; [|done]. exfalso. eauto.
  - intros Hall (k & v & Hk & Hp). by rewrite (Hall k v Hk) in Hp.
Qed.

Lemma insert_unique_inr {V} tbl (same : V → V → bool) k v m m' :
  insert_unique tbl same k v m = inr m' ↔
  m !! k = None ∧ (∀ j w, m !! j = Some w → same v w = false) ∧ m' = <[k := v]> m.
Proof.
  unfold insert_unique. destruct (exists_row m _) eqn:E.
  - apply exists_row_spec in E as (j & w & Hj & Hs).
    split; [done|]. intros (_ & Hn & _). by rewrite (Hn j w Hj) in Hs.
  - rewrite exists_row_false in E. rewrite insert_pk_inr. naive_solver.
Qed.

(** A row selected by a keyed update that reports one row. *)
Lemma update_pk_nonzero {V} k p f (m : gmap string V) n m' :
  update_pk k p f m = (n, m') → (n =? 0) = false →
  ∃ v, m !! k = Some v ∧ p v = true ∧ m' = <[k := f v]> m.
Proof.
  intros Hu Hn. destruct (update_pk_rows k p f m) as [(H1 & v & Hv & Hp & H2)|(H1 & _ & _)];
    rewrite Hu in *; simpl in *; subst; [by exists v|done].
Qed.

Lemma update_pk_hit {V} k p f (m : gmap string V) v :
  m !! k = Some v → p v = true → update_pk k p f m = (1, <[k := f v]> m).
Proof. intros Hk Hp. unfold update_pk. by rewrite Hk, Hp. Qed.

Lemma task_of_Some db a tid :
  task_of db a = Some tid ↔
  ∃ p, user_prompts db !! a_user_prompt_id a = Some p ∧ p_task_id p = tid.
Proof. unfold task_of, prompt_of. rewrite fmap_Some. naive_solver. Qed.

(** The claim query returns the oldest attempt that qualifies. *)
Lemma claimable_spec skip runnerID iso db q :
  GetClaimableExecutionAttemptForUpdate skip runnerID iso db = Some q ↔
  ∃ a, best (λ x y, a_created_at x.2 <? a_created_at y.2)
          (List.filter (λ kv, negb (skip kv.1) && claimable runnerID iso db kv.2)
             (map_to_list (execution_attempts db))) = Some (cl_attempt q, a) ∧
       cl_prompt q = a_user_prompt_id a ∧ task_of db a = Some (cl_task q).
Proof.
  unfold GetClaimableExecutionAttemptForUpdate.
  destruct (best _ _) as [[id a]|]; [|naive_solver].
  rewrite fmap_Some. destruct q. simpl. naive_solver.
Qed.

Lemma claimable_candidate skip runnerID iso db id a :
  (id, a) ∈ List.filter (λ kv, negb (skip kv.1) && claimable runnerID iso db kv.2)
              (map_to_list (execution_attempts db)) ↔
  execution_attempts db !! id = Some a ∧ skip id = false ∧ claimable runnerID iso db a = true.
Proof.
  rewrite list_elem_of_In, filter_In, <- list_elem_of_In, elem_of_map_to_list.
  rewrite andb_true_iff, negb_true_iff. done.
Qed.

(** What qualifies an attempt, as a proposition. *)
Lemma claimable_true runnerID iso db a :
  claimable runnerID iso db a = true →
  ∃ p t, user_prompts db !! a_user_prompt_id a = Some p ∧ tasks db !! p_task_id p = Some t ∧
         a_status a = "pending" ∧ t_status t = "pending" ∧
         a_required_runner_id a ∈ [None; Some ""; Some runnerID] ∧
         (∀ s, agent_sessions db !! p_agent_session_id p = Some s →
               s_isolation_required s = true → iso = true).
Proof.
  unfold claimable, prompt_of, session_of.
  destruct (user_prompts db !! a_user_prompt_id a) as [p|]; [|done].
  destruct (tasks db !! p_task_id p) as [t|] eqn:Et; [|done].
  rewrite !andb_true_iff, !bool_decide_eq_true, orb_true_iff, negb_true_iff.
  intros [[[Ha Ht] Hr] Hi]. exists p, t. do 4 (split; [done|]). split.
  - destruct (a_required_runner_id a) as [r|]; [|set_solver].
    rewrite orb_true_iff, !bool_decide_eq_true in Hr. set_solver.
  - intros s Hs. rewrite Hs in Hi. intros Hiso. rewrite Hiso in Hi. by destruct Hi.
Qed.

(** *** The current prompt of a task *)

Lemma prompts_of_task_elem db taskID id p s :
  (id, p, s) ∈ prompts_of_task db taskID ↔
  user_prompts db !! id = Some p ∧ p_task_id p = taskID ∧
  agent_sessions db !! p_agent_session_id p = Some s.
Proof.
  unfold prompts_of_task. rewrite list_elem_of_omap. split.
  - intros ([k q] & Hin%elem_of_map_to_list & Hf). simpl in Hf.
    case_bool_decide; [|done]. unfold session_of in Hf.
    destruct (agent_sessions db !! p_agent_session_id q) eqn:E; [|done].
    injection Hf as -> -> ->. done.
  - intros (Hp & Ht & Hs). exists (id, p). split; [by apply elem_of_map_to_list|]. simpl.
    rewrite bool_decide_eq_true_2 by done. unfold session_of. by rewrite Hs.
Qed.

Lemma later_prompt_true x y :
  later_prompt x y = true ↔
  s_sequence y.2 < s_sequence x.2 ∨
  s_sequence y.2 = s_sequence x.2 ∧ p_sequence y.1.2 < p_sequence x.1.2.
Proof. unfold later_prompt. rewrite orb_true_iff, andb_true_iff. lia. Qed.

Lemma later_prompt_asym x y : later_prompt x y = true → later_prompt y x = false.
Proof. rewrite <- not_true_iff_false, !later_prompt_true. lia. Qed.

(** A prompt that comes after all others of its task is the current one. *)
Lemma current_prompt_intro db taskID id p s :
  user_prompts db !! id = Some p → p_task_id p = taskID →
  agent_sessions db !! p_agent_session_id p = Some s →
  (∀ id' p' s', user_prompts db !! id' = Some p' → id' ≠ id → p_task_id p' = taskID →
     agent_sessions db !! p_agent_session_id p' = Some s' →
     s_sequence s' < s_sequence s ∨ s_sequence s' = s_sequence s ∧ p_sequence p' < p_sequence p) →
  GetUserPromptByTaskID taskID db = Some (id, p).
Proof.
  intros Hp Ht Hs Hmax. unfold GetUserPromptByTaskID.
  rewrite (best_unique later_prompt (id, p, s)); [done|apply later_prompt_asym| |].
  - by apply prompts_of_task_elem.
  - intros [[id' p'] s'] (Hp' & Ht' & Hs')%prompts_of_task_elem.
    destruct (decide (id' = id)) as [->|Hne].
    + left. congruence.
    + right. apply later_prompt_true. simpl. by eapply Hmax.
Qed.

(** The current prompt is after every other prompt of its task. *)
Lemma current_prompt_latest db taskID id p :
  GetUserPromptByTaskID taskID db = Some (id, p) →
  user_prompts db !! id = Some p ∧ p_task_id p = taskID ∧
  ∃ s, agent_sessions db !! p_agent_session_id p = Some s ∧
    ∀ id' p' s', user_prompts db !! id' = Some p' → p_task_id p' = taskID →
      agent_sessions db !! p_agent_session_id p' = Some s' → s_sequence s' <= s_sequence s.
Proof.
  unfold GetUserPromptByTaskID. intros ([[i q] s] & Hb & [= <- <-])%fmap_Some.
  pose proof (best_elem _ _ _ Hb) as (Hp & Ht & Hs)%prompts_of_task_elem.
  do 2 (split; [done|]). exists s. split; [done|]. intros id' p' s' Hp' Ht' Hs'.
  destruct (prompts_of_task db taskID) as [|x l] eqn:El; [done|]. injection Hb as Hb.
  assert (later_prompt (id', p', s') (id, p, s) = false) as Hf.
  { rewrite <- Hb. apply best_from_least.
    - intros a b c. rewrite !later_prompt_true. lia.
    - intros a b c. rewrite !later_prompt_true. lia.
    - intros a. rewrite <- not_true_iff_false, later_prompt_true. lia.
    - rewrite <- El. by apply prompts_of_task_elem. }
  apply not_true_iff_false in Hf. rewrite later_prompt_true in Hf. simpl in Hf. lia.
Qed.

(** Every prompt belongs to a session, and both to the same task. *)
Definition linked (db : DB) : Prop :=
  ∀ id p, user_prompts db !! id = Some p →
    ∃ s, agent_sessions db !! p_agent_session_id p = Some s ∧ s_task_id s = p_task_id p.

(** What the shared update forms leave alone. *)
Lemma update_latest_prompt_frame taskID p f db n db' :
  update_latest_prompt taskID p f db = (n, db') → ∃ m, db' = db{{ user_prompts := m }}.
Proof.
  unfold update_latest_prompt. destruct (GetUserPromptByTaskID taskID db) as [[id q]|].
  - unfold on_prompts. intros [= _ <-]. by eexists.
  - intros [= _ <-]. exists (user_prompts db). by destruct db.
Qed.

Lemma update_latest_session_frame taskID f db n db' :
  update_latest_session taskID f db = (n, db') →
  ∃ m, db' = db{{ agent_sessions := m }}.
Proof.
  unfold update_latest_session. destruct (GetAgentSessionByTaskID taskID db) as [[id q]|].
  - unfold on_sessions. intros [= _ <-]. by eexists.
  - intros [= _ <-]. exists (agent_sessions db). by destruct db.
Qed.

Lemma update_latest_session_lookup taskID f db id s :
  GetAgentSessionByTaskID taskID db = Some (id, s) → agent_sessions db !! id = Some s →
  agent_sessions (update_latest_session taskID f db).2 =
  if session_live (s_status s) then <[id := f s]> (agent_sessions db) else agent_sessions db.
Proof.
  intros Hg Hs. unfold update_latest_session. rewrite Hg. unfold on_sessions, update_pk. simpl.
  rewrite Hs. by destruct (session_live (s_status s)).
Qed.

Lemma latest_session_elem taskID db id s :
  GetAgentSessionByTaskID taskID db = Some (id, s) →
  agent_sessions db !! id = Some s ∧ s_task_id s = taskID ∧
  ∀ id' s', agent_sessions db !! id' = Some s' → s_task_id s' = taskID →
            s_sequence s' <= s_sequence s.
Proof.
  unfold GetAgentSessionByTaskID, sessions_of_task. intros Hb.
  assert (∀ i r, (i, r) ∈ List.filter (λ kv, s_task_id kv.2 == taskID)
                   (map_to_list (agent_sessions db)) ↔
                 agent_sessions db !! i = Some r ∧ s_task_id r = taskID) as Hin.
  { intros i r. rewrite list_elem_of_In, filter_In, <- list_elem_of_In.
    by rewrite elem_of_map_to_list, bool_decide_eq_true. }
  pose proof (best_elem _ _ _ Hb) as [H1 H2]%Hin. do 2 (split; [done|]).
  intros id' s' H3 H4.
  assert (- s_sequence s <= - s_sequence s') as ?; [|lia].
  apply (best_min _ (λ kv, - s_sequence kv.2) _ _) with (x := (id', s')) in Hb; [done| |].
  - intros x y. destruct (Z.ltb_spec (s_sequence y.2) (s_sequence x.2)),
      (Z.ltb_spec (- s_sequence x.2) (- s_sequence y.2)); lia.
  - by apply Hin.
Qed.

Lemma update_attempt_inr dbnow p db n db' :
  UpdateExecutionAttemptFromRunnerEvent dbnow p db = inr (n, db') → (n =? 0) = false →
  ∃ a, execution_attempts db !! ua_ID p = Some a ∧
       live_claim dbnow (ua_RunnerID p) (ua_ClaimID p) a = true ∧
       totals_ok (attempt_from_event p a) = true ∧
       db' = db{{ execution_attempts :=
                    <[ua_ID p := attempt_from_event p a]> (execution_attempts db) }}.
Proof.
  unfold UpdateExecutionAttemptFromRunnerEvent.
  destruct (execution_attempts db !! ua_ID p) as [a|] eqn:Ea; [|by intros [= <- _]].
  destruct (live_claim _ _ _ _) eqn:El; [|by intros [= <- _]].
  destruct (totals_ok _) eqn:Et; [|done]. intros [= <- <-] _. by exists a.
Qed.

Lemma update_search_text_frame taskID db t :
  tasks db !! taskID = Some t →
  ∃ m, UpdateTaskSearchText taskID db = db{{ tasks := m }} ∧
       (∀ k, k ≠ taskID → m !! k = tasks db !! k) ∧
       ∃ text, m !! taskID = Some (t{{ t_search_text := text }}).
Proof.
  intros Ht. unfold UpdateTaskSearchText, on_tasks. simpl. eexists. split; [done|]. split.
  - intros k Hk. rewrite update_pk_lookup, bool_decide_eq_false_2 by done.
    by destruct (tasks db !! k).
  - rewrite update_pk_lookup, Ht, bool_decide_eq_true_2 by done. simpl. by eexists.
Qed.

(** A keyed update that reports a row. *)
Lemma on_tasks_pk_inr k p f db n db' :
  on_tasks (update_pk k p f) db = (n, db') → (n =? 0) = false →
  ∃ v, tasks db !! k = Some v ∧ p v = true ∧ db' = db{{ tasks := <[k := f v]> (tasks db) }}.
Proof.
  unfold on_tasks. destruct (update_pk k p f (tasks db)) as [n' m] eqn:E. intros [= -> <-] Hn.
  destruct (update_pk_nonzero _ _ _ _ _ _ E Hn) as (v & Hv & Hp & ->). by exists v.
Qed.

Lemma on_sessions_pk_inr k p f db n db' :
  on_sessions (update_pk k p f) db = (n, db') → (n =? 0) = false →
  ∃ v, agent_sessions db !! k = Some v ∧ p v = true ∧ db' = db{{ agent_sessions := <[k := f v]> (agent_sessions db) }}.
Proof.
  unfold on_sessions. destruct (update_pk k p f (agent_sessions db)) as [n' m] eqn:E. intros [= -> <-] Hn.
  destruct (update_pk_nonzero _ _ _ _ _ _ E Hn) as (v & Hv & Hp & ->). by exists v.
Qed.

Lemma on_prompts_pk_inr k p f db n db' :
  on_prompts (update_pk k p f) db = (n, db') → (n =? 0) = false →
  ∃ v, user_prompts db !! k = Some v ∧ p v = true ∧ db' = db{{ user_prompts := <[k := f v]> (user_prompts db) }}.
Proof.
  unfold on_prompts. destruct (update_pk k p f (user_prompts db)) as [n' m] eqn:E. intros [= -> <-] Hn.
  destruct (update_pk_nonzero _ _ _ _ _ _ E Hn) as (v & Hv & Hp & ->). by exists v.
Qed.

Lemma on_attempts_pk_inr k p f db n db' :
  on_attempts (update_pk k p f) db = (n, db') → (n =? 0) = false →
  ∃ v, execution_attempts db !! k = Some v ∧ p v = true ∧ db' = db{{ execution_attempts := <[k := f v]> (execution_attempts db) }}.
Proof.
  unfold on_attempts. destruct (update_pk k p f (execution_attempts db)) as [n' m] eqn:E. intros [= -> <-] Hn.
  destruct (update_pk_nonzero _ _ _ _ _ _ E Hn) as (v & Hv & Hp & ->). by exists v.
Qed.

(** An update by predicate, row by row. *)
Lemma on_tasks_where_inr p f db n db' :
  on_tasks (update_where p f) db = (n, db') →
  (∃ m, db' = db{{ tasks := m }}) ∧
  ∀ id, tasks db' !! id = (λ v, if p id v then f id v else v) <$> tasks db !! id.
Proof.
  unfold on_tasks. intros [= _ <-]. split; [by eexists|]. intros id.
  apply (update_where_lookup p f (tasks db) id).
Qed.

Lemma on_sessions_where_inr p f db n db' :
  on_sessions (update_where p f) db = (n, db') →
  (∃ m, db' = db{{ agent_sessions := m }}) ∧
  ∀ id, agent_sessions db' !! id = (λ v, if p id v then f id v else v) <$> agent_sessions db !! id.
Proof.
  unfold on_sessions. intros [= _ <-]. split; [by eexists|]. intros id.
  apply (update_where_lookup p f (agent_sessions db) id).
Qed.

Lemma on_prompts_where_inr p f db n db' :
  on_prompts (update_where p f) db = (n, db') →
  (∃ m, db' = db{{ user_prompts := m }}) ∧
  ∀ id, user_prompts db' !! id = (λ v, if p id v then f id v else v) <$> user_prompts db !! id.
Proof.
  unfold on_prompts. intros [= _ <-]. split; [by eexists|]. intros id.
  apply (update_where_lookup p f (user_prompts db) id).
Qed.

Lemma on_attempts_where_inr p f db n db' :
  on_attempts (update_where p f) db = (n, db') →
  (∃ m, db' = db{{ execution_attempts := m }}) ∧
  ∀ id, execution_attempts db' !! id = (λ v, if p id v then f id v else v) <$> execution_attempts db !! id.
Proof.
  unfold on_attempts. intros [= _ <-]. split; [by eexists|]. intros id.
  apply (update_where_lookup p f (execution_attempts db) id).
Qed.

(** A row inserted next to others. *)
Lemma insert_attempt_inr id pid sq req ts c u db x db' :
  InsertPendingExecutionAttempt id pid sq req ts c u db = inr (x, db') →
  execution_attempts db !! id = None ∧
  (∀ j b, execution_attempts db !! j = Some b →
     same_attempt_key (pending_attempt pid sq req ts c u) b = false) ∧
  db' = db{{ execution_attempts :=
               <[id := pending_attempt pid sq req ts c u]> (execution_attempts db) }}.
Proof.
  unfold InsertPendingExecutionAttempt. destruct (insert_unique _ _ _ _ _) as [?|m] eqn:E; [done|].
  intros [= _ <-]. apply insert_unique_inr in E as (? & ? & ->). done.
Qed.

Lemma insert_session_inr id s db x db' :
  InsertAgentSession id s db = inr (x, db') →
  agent_sessions db !! id = None ∧
  (∀ j b, agent_sessions db !! j = Some b → same_session_key s b = false) ∧
  db' = db{{ agent_sessions := <[id := s]> (agent_sessions db) }}.
Proof.
  unfold InsertAgentSession. destruct (insert_unique _ _ _ _ _) as [?|m] eqn:E; [done|].
  intros [= _ <-]. apply insert_unique_inr in E as (? & ? & ->). done.
Qed.

Lemma insert_prompt_inr id s db x db' :
  InsertUserPrompt id s db = inr (x, db') →
  user_prompts db !! id = None ∧
  (∀ j b, user_prompts db !! j = Some b → same_prompt_key s b = false) ∧
  db' = db{{ user_prompts := <[id := s]> (user_prompts db) }}.
Proof.
  unfold InsertUserPrompt. destruct (insert_unique _ _ _ _ _) as [?|m] eqn:E; [done|].
  intros [= _ <-]. apply insert_unique_inr in E as (? & ? & ->). done.
Qed.

#[global] Arguments on_tasks : simpl never.
#[global] Arguments on_sessions : simpl never.
#[global] Arguments on_prompts : simpl never.
#[global] Arguments on_attempts : simpl never.
