(* ===== verification/Sample.v ===== *)
(** * A small database for the witnesses

    One submitted task ("t1", with its session, prompt and pending attempt)
    and two registered runners, of which "r2" enforces isolation. *)
From S2P Require Import Prelude GoStrings Status Repos Db Queries.

Definition sample_task : Task :=
  mkTask "pending" "do it" (Some "https://h/a") None None None 0 0 None (Some "team1") None None
    3 None None "api" None None None None None None None None None 0 None.

Definition sample_session (taskID : string) : AgentSession :=
  mkAgentSession (Some "team1") "running" "harness_session" None None None None None None None None
    None None None None None 0 0 None None None None None 1 taskID None None None None None
    [] ∅ None None None false None.

Definition sample_prompt (sessionID taskID : string) : UserPrompt :=
  mkUserPrompt sessionID taskID "pending" "do it" None None None 0 0 None None 1 None.

Definition sample_runner (isolation : bool) (lastSeen : time) : Runner :=
  mkRunner "active" None None None 1 0 1 0 0 0 None 0 lastSeen lastSeen ∅ isolation.

Definition sample_db : DB :=
  mkDB {[ "t1" := sample_task ]} {[ "s1" := sample_session "t1" ]}
    {[ "p1" := sample_prompt "s1" "t1" ]} {[ "a1" := pending_attempt "p1" 1 None 600 0 0 ]}
    {[ "r1" := sample_runner false 0; "r2" := sample_runner true 0 ]} ∅ ∅ ∅ ∅ ∅.

Definition sample_ids (n : nat) : string := "id" ^^ fmt_d (Z.of_nat n).

Definition no_skip (_ : string) : bool := false.
