(* ===== verification/Outbox.v ===== *)
(** * The outbox interface

    [TaskEventCallbackDispatcher]: what the claim, the event and the reaper
    transactions promise each other about callback deliveries. They call it
    inside their own transaction; it may add delivery rows and nothing else.
    [CallbackDelivery] gives the instance. *)
From S2P Require Import Prelude GoStrings Status Repos Db.

Record TaskEventCallbackContext := mkEventContext {
  ev_ID : string;
  ev_TaskID : string;
  ev_TeamID : string;
  ev_Subject : string;
  ev_Status : string;
  ev_EventType : string;
  ev_Summary : string;
  ev_Error : string;
  ev_ErrorCategory : string;
  ev_Payload : Payload;
  ev_CreatedAt : time;
}.

(** What one database may differ from another in after deliveries were added. *)
Definition only_deliveries_added (db db' : DB) : Prop :=
  db' = db{{ callback_deliveries := callback_deliveries db' }} ∧
  callback_deliveries db ⊆ callback_deliveries db'.

(** [enqueue ids now event] runs in the caller's transaction; [ids] are the
    random identifiers it draws. [None] is a service without callbacks. *)
Class Outbox := {
  dispatcher : option ((nat → string) → time → TaskEventCallbackContext → tx DB unit);
  dispatcher_frame : ∀ f ids now ev db u db',
    dispatcher = Some f → f ids now ev db = inr (u, db') → only_deliveries_added db db';
}.

Definition enqueue `{Outbox} (ids : nat → string) (now : time) (ev : TaskEventCallbackContext)
    : tx DB unit :=
  match dispatcher with None => mret tt | Some f => f ids now ev end.

Lemma enqueue_frame `{Outbox} ids now ev db u db' :
  enqueue ids now ev db = inr (u, db') → only_deliveries_added db db'.
Proof.
  unfold enqueue. destruct dispatcher as [f|] eqn:E.
  - intros Hf. by eapply dispatcher_frame.
  - intros [-> ->]%tx_ret_inr. split; [by destruct db|done].
Qed.

(** A service without callbacks. *)
Definition no_outbox : Outbox.
Proof. by refine {| dispatcher := None |}. Defined.

Definition runnerEventSubject : string := "connect.runner".

(** [fmt.Sprintf] of "%s.%s.%s". *)
Definition runner_subject (runnerID taskID : string) : string :=
  runnerEventSubject ^^ "." ^^ runnerID ^^ "." ^^ taskID.

(** The [task_events] row of an event. *)
Definition event_row (ev : TaskEventCallbackContext)
    (sessionID promptID attemptID : option string) : TaskEventRow :=
  mkTaskEvent (ev_TaskID ev) sessionID promptID attemptID (ev_Subject ev) (ev_Status ev)
    (ev_EventType ev) (ev_Payload ev) (ev_CreatedAt ev).
