(* ===== verification/Evolution.v ===== *)
(** * How rows may change

    Two preorders on states that every transaction of the control plane
    follows, proved statement by statement and lifted to transactions by the
    instances of [Follows]: [evolves], what never changes about a row and the
    automaton of an execution attempt; and [quiet], a change that moves no
    task and no attempt to another status. *)
From S2P Require Import Prelude GoStrings Status Repos Db Queries Outbox.

(** ** The automaton of an attempt

    pending, then running under one claim, then ended for good. *)
Definition attempt_done (st : string) : bool := negb (attempt_active st).

Definition same_claim (a a' : ExecutionAttempt) : Prop :=
  a_claim_id a' = a_claim_id a ∧ a_runner_id a' = a_runner_id a.

Inductive attempt_le (a a' : ExecutionAttempt) : Prop :=
| le_same : a_status a' = a_status a → same_claim a a' →
            a_user_prompt_id a' = a_user_prompt_id a → attempt_le a a'
| le_pending : a_status a = "pending" → a_user_prompt_id a' = a_user_prompt_id a → attempt_le a a'
| le_running : a_status a = "running" → a_status a' ≠ "pending" → same_claim a a' →
               a_user_prompt_id a' = a_user_prompt_id a → attempt_le a a'.

#[export] Instance same_claim_preorder : PreOrder same_claim.
Proof.
  split; [by intros a|]. intros a b c [H1 H2] [H3 H4]. split; congruence.
Qed.

#[export] Instance attempt_le_preorder : PreOrder attempt_le.
Proof.
  split; [intros a; by apply le_same|].
  intros a b c H1 H2.
  assert (a_user_prompt_id c = a_user_prompt_id a) as Hp
    by (etrans; [destruct H2; eassumption|destruct H1; assumption]).
  destruct H1 as [Hs Hc _|Hs _|Hs Hn Hc _]; [|by apply le_pending|].
  - destruct H2 as [Hs' Hc' _|Hs' _|Hs' Hn' Hc' _].
    + apply le_same; [congruence|by etrans|done].
    + apply le_pending; [congruence|done].
    + apply le_running; [congruence|done|by etrans|done].
  - destruct H2 as [Hs' Hc' _|Hs' _|Hs' Hn' Hc' _]; [|congruence|].
    + apply le_running; [done|congruence|by etrans|done].
    + apply le_running; [done|done|by etrans|done].
Qed.

Lemma attempt_le_done a a' :
  attempt_le a a' → attempt_done (a_status a) = true →
  a_status a' = a_status a ∧ same_claim a a'.
Proof.
  intros [] Hd; [done|exfalso..]; unfold attempt_done in Hd;
    match goal with H : a_status a = _ |- _ => by rewrite H in Hd end.
Qed.

(** ** Evolution of the tables *)

Record evolves (db db' : DB) : Prop := {
  ev_attempts : ∀ id a, execution_attempts db !! id = Some a →
    ∃ a', execution_attempts db' !! id = Some a' ∧ attempt_le a a';
  ev_prompts : ∀ id p, user_prompts db !! id = Some p →
    ∃ p', user_prompts db' !! id = Some p' ∧ p_task_id p' = p_task_id p ∧
          p_agent_session_id p' = p_agent_session_id p;
  ev_sessions : ∀ id s, agent_sessions db !! id = Some s →
    ∃ s', agent_sessions db' !! id = Some s' ∧ s_task_id s' = s_task_id s ∧
          s_isolation_required s' = s_isolation_required s;
  ev_tasks : ∀ id t, tasks db !! id = Some t →
    ∃ t', tasks db' !! id = Some t' ∧ t_max_attempts t' = t_max_attempts t;
}.

#[export] Instance evolves_preorder : PreOrder evolves.
Proof.
  split.
  - intros db. constructor; eauto. intros id a Ha. exists a. split; [done|reflexivity].
  - intros d1 d2 d3 [A1 P1 S1 T1] [A2 P2 S2 T2]. constructor.
    + intros id a Ha. destruct (A1 _ _ Ha) as (b & Hb & ?). destruct (A2 _ _ Hb) as (c & Hc & ?).
      exists c. split; [done|by etrans].
    + intros id p Hp. destruct (P1 _ _ Hp) as (q & Hq & ? & ?).
      destruct (P2 _ _ Hq) as (r & Hr & ? & ?). exists r. split; [done|]. split; congruence.
    + intros id s Hs. destruct (S1 _ _ Hs) as (t & Ht & ? & ?).
      destruct (S2 _ _ Ht) as (u & Hu & ? & ?). exists u. split; [done|]. split; congruence.
    + intros id s Hs. destruct (T1 _ _ Hs) as (t & Ht & ?).
      destruct (T2 _ _ Ht) as (u & Hu & ?). exists u. split; [done|]. congruence.
Qed.

(** The parts of a state that matter to [evolves]. *)
Lemma evolves_tables db db' :
  execution_attempts db' = execution_attempts db → user_prompts db' = user_prompts db →
  agent_sessions db' = agent_sessions db → tasks db' = tasks db → evolves db db'.
Proof.
  intros E1 E2 E3 E4. destruct (reflexivity db : evolves db db) as [A P S T].
  constructor; rewrite ?E1, ?E2, ?E3, ?E4; done.
Qed.

Lemma evolves_attempts db m :
  (∀ id a, execution_attempts db !! id = Some a → ∃ a', m !! id = Some a' ∧ attempt_le a a') →
  evolves db (db{{ execution_attempts := m }}).
Proof. intros Hm. constructor; eauto. Qed.

Lemma evolves_prompts db m :
  (∀ id p, user_prompts db !! id = Some p → ∃ p', m !! id = Some p' ∧
     p_task_id p' = p_task_id p ∧ p_agent_session_id p' = p_agent_session_id p) →
  evolves db (db{{ user_prompts := m }}).
Proof. intros Hm. constructor; eauto. intros id a Ha. exists a. split; [done|reflexivity]. Qed.

Lemma evolves_sessions db m :
  (∀ id s, agent_sessions db !! id = Some s → ∃ s', m !! id = Some s' ∧
     s_task_id s' = s_task_id s ∧ s_isolation_required s' = s_isolation_required s) →
  evolves db (db{{ agent_sessions := m }}).
Proof. intros Hm. constructor; eauto. intros id a Ha. exists a. split; [done|reflexivity]. Qed.

Lemma evolves_task_rows db m :
  (∀ id t, tasks db !! id = Some t → ∃ t', m !! id = Some t' ∧
     t_max_attempts t' = t_max_attempts t) → evolves db (db{{ tasks := m }}).
Proof. intros Hm. constructor; eauto. intros id a Ha. exists a. split; [done|reflexivity]. Qed.

(** *** Updates *)

Lemma pk_row {V} (R : V → V → Prop) `{!Reflexive R} k p f (m : gmap string V) :
  (∀ v, m !! k = Some v → p v = true → R v (f v)) →
  ∀ id v, m !! id = Some v → ∃ v', (update_pk k p f m).2 !! id = Some v' ∧ R v v'.
Proof.
  intros Hf id v Hv. rewrite update_pk_lookup, Hv. eexists. split; [reflexivity|].
  destruct (decide (id = k)) as [->|Hne].
  - rewrite bool_decide_eq_true_2 by done. simpl. destruct (p v) eqn:E; [by apply Hf|reflexivity].
  - rewrite bool_decide_eq_false_2 by done. reflexivity.
Qed.

Lemma where_row {V} (R : V → V → Prop) `{!Reflexive R} p f (m : gmap string V) :
  (∀ id v, m !! id = Some v → p id v = true → R v (f id v)) →
  ∀ id v, m !! id = Some v → ∃ v', (update_where p f m).2 !! id = Some v' ∧ R v v'.
Proof.
  intros Hf id v Hv. rewrite update_where_lookup, Hv. eexists. split; [reflexivity|].
  destruct (p id v) eqn:E; [by apply Hf|reflexivity].
Qed.

Definition prompt_link (p p' : UserPrompt) : Prop :=
  p_task_id p' = p_task_id p ∧ p_agent_session_id p' = p_agent_session_id p.
Definition same_limit (t t' : Task) : Prop := t_max_attempts t' = t_max_attempts t.
Definition session_link (s s' : AgentSession) : Prop :=
  s_task_id s' = s_task_id s ∧ s_isolation_required s' = s_isolation_required s.

#[export] Instance prompt_link_refl : Reflexive prompt_link.
Proof. by intros p. Qed.
#[export] Instance same_limit_refl : Reflexive same_limit.
Proof. by intros p. Qed.
#[export] Instance session_link_refl : Reflexive session_link.
Proof. by intros p. Qed.

Lemma evolves_attempts_pk k p f db :
  (∀ a, execution_attempts db !! k = Some a → p a = true → attempt_le a (f a)) →
  evolves db (on_attempts (update_pk k p f) db).2.
Proof. intros Hf. apply evolves_attempts. by apply (pk_row attempt_le). Qed.

Lemma evolves_attempts_where p f db :
  (∀ id a, execution_attempts db !! id = Some a → p id a = true → attempt_le a (f id a)) →
  evolves db (on_attempts (update_where p f) db).2.
Proof. intros Hf. apply evolves_attempts. by apply (where_row attempt_le). Qed.

Lemma evolves_prompts_pk k p f db :
  (∀ q, prompt_link q (f q)) → evolves db (on_prompts (update_pk k p f) db).2.
Proof. intros Hf. apply evolves_prompts. by apply (pk_row prompt_link). Qed.

Lemma evolves_prompts_where p f db :
  (∀ id q, prompt_link q (f id q)) → evolves db (on_prompts (update_where p f) db).2.
Proof. intros Hf. apply evolves_prompts. by apply (where_row prompt_link). Qed.

Lemma evolves_sessions_pk k p f db :
  (∀ s, session_link s (f s)) → evolves db (on_sessions (update_pk k p f) db).2.
Proof. intros Hf. apply evolves_sessions. by apply (pk_row session_link). Qed.

Lemma evolves_sessions_where p f db :
  (∀ id s, session_link s (f id s)) → evolves db (on_sessions (update_where p f) db).2.
Proof. intros Hf. apply evolves_sessions. by apply (where_row session_link). Qed.

Lemma evolves_tasks_pk k p f db :
  (∀ t, same_limit t (f t)) → evolves db (on_tasks (update_pk k p f) db).2.
Proof. intros Hf. apply evolves_task_rows. by apply (pk_row same_limit). Qed.

Lemma evolves_tasks_where p f db :
  (∀ id t, same_limit t (f id t)) → evolves db (on_tasks (update_where p f) db).2.
Proof. intros Hf. apply evolves_task_rows. by apply (where_row same_limit). Qed.

Lemma evolves_latest_prompt tid p f db :
  (∀ q, prompt_link q (f q)) → evolves db (update_latest_prompt tid p f db).2.
Proof.
  intros Hf. unfold update_latest_prompt.
  destruct (GetUserPromptByTaskID tid db) as [[id q]|]; [by apply evolves_prompts_pk|reflexivity].
Qed.

Lemma evolves_latest_session tid f db :
  (∀ s, session_link s (f s)) → evolves db (update_latest_session tid f db).2.
Proof.
  intros Hf. unfold update_latest_session.
  destruct (GetAgentSessionByTaskID tid db) as [[id q]|]; [by apply evolves_sessions_pk|reflexivity].
Qed.

(** *** Insertions *)

Lemma insert_row {V} (R : V → V → Prop) `{!Reflexive R} k v (m : gmap string V) :
  m !! k = None → ∀ id w, m !! id = Some w → ∃ w', <[k := v]> m !! id = Some w' ∧ R w w'.
Proof.
  intros Hk id w Hw. exists w. split; [|reflexivity].
  rewrite lookup_insert_ne; [done|]. intros <-. congruence.
Qed.

(** ** The statements follow [evolves] *)

Create HintDb evolve.
#[export] Hint Resolve evolves_tasks_pk evolves_tasks_where evolves_sessions_pk
  evolves_sessions_where evolves_prompts_pk evolves_prompts_where evolves_latest_prompt
  evolves_latest_session evolves_attempts_pk evolves_attempts_where : evolve.

(** Closes the goal of a statement that copies links and claims. *)
Ltac evolve_stmt := intros db; first [
  solve [eauto with evolve] |
  apply evolves_tasks_pk; done | apply evolves_tasks_where; intros ? ?; by repeat case_match |
  apply evolves_sessions_pk; done | apply evolves_sessions_where; done |
  apply evolves_latest_session; done | apply evolves_latest_prompt; done |
  apply evolves_prompts_pk; done | apply evolves_prompts_where; done ].

Section statements.
Implicit Types (now : time) (id : string).

#[export] Instance ev_RequeueTaskForPrompt now id : StmtFollows evolves (RequeueTaskForPrompt now id).
Proof. evolve_stmt. Qed.
#[export] Instance ev_MarkTaskRunning now id : StmtFollows evolves (MarkTaskRunning now id).
Proof. evolve_stmt. Qed.
#[export] Instance ev_UpdateTaskAggregate p : StmtFollows evolves (UpdateTaskAggregateFromRunnerEvent p).
Proof. evolve_stmt. Qed.
#[export] Instance ev_RequeueTaskAfterLost now id :
  StmtFollows evolves (RequeueTaskAfterExecutionAttemptLost now id).
Proof. evolve_stmt. Qed.
#[export] Instance ev_FailExpiredLeases e u b : StmtFollows evolves (FailExpiredLeases e u b).
Proof. evolve_stmt. Qed.
#[export] Instance ev_FailPendingResumeTasks e u :
  StmtFollows evolves (FailPendingResumeTasksForMissingRunner e u).
Proof. evolve_stmt. Qed.
#[export] Instance ev_FailPendingIsolationTasks e u :
  StmtFollows evolves (FailPendingIsolationTasks e u).
Proof. evolve_stmt. Qed.
#[export] Instance ev_SetCancelTask r e u id : StmtFollows evolves (SetCancelTask r e u id).
Proof. evolve_stmt. Qed.
#[export] Instance ev_ClearPendingTasks r e u : StmtFollows evolves (ClearPendingTasks r e u).
Proof. evolve_stmt. Qed.

#[export] Instance ev_MarkAgentSessionTerminal st h s e en up id :
  StmtFollows evolves (MarkAgentSessionTerminalByTask st h s e en up id).
Proof. evolve_stmt. Qed.
#[export] Instance ev_UpdateAgentSession a b c d up id :
  StmtFollows evolves (UpdateAgentSessionFromRunnerEvent a b c d up id).
Proof. evolve_stmt. Qed.
#[export] Instance ev_PauseAgentSession st a b c d e p up id :
  StmtFollows evolves (PauseAgentSessionByTaskID st a b c d e p up id).
Proof. evolve_stmt. Qed.
#[export] Instance ev_MarkAgentSessionResuming st up id :
  StmtFollows evolves (MarkAgentSessionResuming st up id).
Proof. evolve_stmt. Qed.
#[export] Instance ev_AbandonAgentSession e en up id :
  StmtFollows evolves (AbandonAgentSession e en up id).
Proof. evolve_stmt. Qed.
#[export] Instance ev_ExpirePausedSessions e u x : StmtFollows evolves (ExpirePausedSessions e u x).
Proof. evolve_stmt. Qed.
#[export] Instance ev_MarkResumingSessionsFailed e u :
  StmtFollows evolves (MarkResumingSessionsFailedForUnavailableRunner e u).
Proof.
  intros db. apply evolves_sessions_where. intros id s.
  destruct (joined_prompt db id unavailable_prompt) as [[p t]|]; done.
Qed.
#[export] Instance ev_ReapStaleSessions now : StmtFollows evolves (ReapStaleSessionsForTerminalRuns now).
Proof.
  intros db. apply evolves_sessions_where. intros id s.
  destruct (joined_prompt db id ended_run) as [[p t]|]; done.
Qed.

#[export] Instance ev_AbandonUserPrompt e en up id : StmtFollows evolves (AbandonUserPrompt e en up id).
Proof. evolve_stmt. Qed.
#[export] Instance ev_MarkUserPromptRunning s up id :
  StmtFollows evolves (MarkUserPromptRunningByTask s up id).
Proof. evolve_stmt. Qed.
#[export] Instance ev_MarkUserPromptTerminal st a b c d e up id :
  StmtFollows evolves (MarkUserPromptTerminalByTask st a b c d e up id).
Proof. evolve_stmt. Qed.
#[export] Instance ev_FailPendingUserPrompts e u :
  StmtFollows evolves (FailPendingUserPromptsForUnavailableRunner e u).
Proof. evolve_stmt. Qed.
#[export] Instance ev_ReapStaleUserPrompts now : StmtFollows evolves (ReapStaleUserPrompts now).
Proof. intros db. apply evolves_prompts_where. intros id p. by destruct (prompt_task db p). Qed.
#[export] Instance ev_RevertOrphaned now : StmtFollows evolves (RevertOrphanedRunningUserPrompts now).
Proof. evolve_stmt. Qed.
#[export] Instance ev_ClearPromptExports now ttl : StmtFollows evolves (ClearExpiredUserPromptExports now ttl).
Proof. evolve_stmt. Qed.
#[export] Instance ev_ClearCheckpoints now ttl : StmtFollows evolves (ClearExpiredSessionCheckpoints now ttl).
Proof. intros db. by apply evolves_tables. Qed.

#[export] Instance ev_MarkExecutionAttemptClaimed p id :
  StmtFollows evolves (MarkExecutionAttemptClaimed p id).
Proof.
  intros db. apply evolves_attempts_pk. intros a _ Hp%bool_decide_eq_true. by apply le_pending.
Qed.
#[export] Instance ev_RenewLease l le up id r c :
  StmtFollows evolves (RenewExecutionAttemptLease l le up id r c).
Proof. intros db. apply evolves_attempts_pk. intros a _ _. by apply le_same. Qed.
#[export] Instance ev_MarkExecutionAttemptLost e en up id :
  StmtFollows evolves (MarkExecutionAttemptLost e en up id).
Proof.
  intros db. apply evolves_attempts_pk. intros a _ Hp%bool_decide_eq_true. by apply le_running.
Qed.
Lemma lease_expired_running before a : lease_expired before a = true → a_status a = "running".
Proof. unfold lease_expired. by intros [?%bool_decide_eq_true _]%andb_true_iff. Qed.
#[export] Instance ev_FailExpired e u b : StmtFollows evolves (FailExpiredExecutionAttempts e u b).
Proof.
  intros db. apply evolves_attempts_where. intros id a _ [Hp%lease_expired_running _]%andb_true_iff.
  destruct (task_row_of db a) as [[tid t]|]; [by apply le_running|by apply le_same].
Qed.
#[export] Instance ev_FailAllExpired e u b : StmtFollows evolves (FailAllExpiredExecutionAttempts e u b).
Proof.
  intros db. apply evolves_attempts_where. intros id a _ Hp%lease_expired_running. by apply le_running.
Qed.
Lemma attempt_le_active a a' :
  attempt_active (a_status a) = true → a_status a' ≠ "pending" → same_claim a a' →
  a_user_prompt_id a' = a_user_prompt_id a → attempt_le a a'.
Proof.
  intros Ha Hn Hc Hp. apply one_of_spec, list_elem_of_In in Ha. simpl in Ha.
  destruct Ha as [Ha|[Ha|[]]]; [by apply le_pending|by apply le_running].
Qed.
#[export] Instance ev_CancelByTask e en up id : StmtFollows evolves (CancelExecutionAttemptsByTask e en up id).
Proof.
  intros db. apply evolves_attempts_where. intros k a _ [_ Ha]%andb_true_iff. by apply attempt_le_active.
Qed.
#[export] Instance ev_CancelPending e en up : StmtFollows evolves (CancelPendingExecutionAttempts e en up).
Proof.
  intros db. apply evolves_attempts_where. intros k a _ Ha%bool_decide_eq_true. by apply le_pending.
Qed.
#[export] Instance ev_FailPendingMissing n e u s :
  StmtFollows evolves (FailPendingExecutionAttemptsForMissingRunner n e u s).
Proof.
  intros db. apply evolves_attempts_where.
  intros k a _ [[Ha%bool_decide_eq_true _]%andb_true_iff _]%andb_true_iff. by apply le_pending.
Qed.
#[export] Instance ev_FailPendingIsolation n e u s :
  StmtFollows evolves (FailPendingIsolationAttemptsWithoutCapableRunner n e u s).
Proof.
  intros db. apply evolves_attempts_where.
  intros k a _ [[Ha%bool_decide_eq_true _]%andb_true_iff _]%andb_true_iff. by apply le_pending.
Qed.
#[export] Instance ev_ClearAttemptExports now ttl :
  StmtFollows evolves (ClearExpiredExecutionAttemptExports now ttl).
Proof. intros db. apply evolves_attempts_where. intros k a _ _. by apply le_same. Qed.

#[export] Instance ev_Extend x up id : Follows evolves (ExtendActiveExecutionAttemptTimeout x up id).
Proof.
  intros db n db'. unfold ExtendActiveExecutionAttemptTimeout. cbv zeta.
  destruct (exists_row _ _); [done|]. intros [= _ <-].
  refine (evolves_attempts_where _ _ db _). intros k a _ _. by apply le_same.
Qed.

(** An event does not take an attempt back to pending. *)
Lemma ev_UpdateAttempt dbnow p :
  ua_Status p ≠ "pending" → Follows evolves (UpdateExecutionAttemptFromRunnerEvent dbnow p).
Proof.
  intros Hst db n db'. unfold UpdateExecutionAttemptFromRunnerEvent.
  destruct (execution_attempts db !! ua_ID p) as [a|] eqn:Ea; [|by intros [= _ <-]].
  destruct (live_claim _ _ _ _) eqn:El; [|by intros [= _ <-]].
  destruct (totals_ok _); [|done]. intros [= _ <-]. apply evolves_attempts.
  unfold live_claim in El. rewrite !andb_true_iff, !bool_decide_eq_true in El.
  destruct El as [[_ Hrun] _]. intros k b Hb. destruct (decide (k = ua_ID p)) as [->|Hne].
  - exists (attempt_from_event p a). split; [exact (lookup_insert_eq (execution_attempts db) _ _)|].
    assert (b = a) as -> by congruence. by apply le_running.
  - exists b. split; [|reflexivity].
    refine (eq_trans (lookup_insert_ne (execution_attempts db) _ _ _ _) Hb). congruence.
Qed.

#[export] Instance ev_InsertTask id t : Follows evolves (InsertTask id t).
Proof.
  intros db u db'. unfold InsertTask. destruct (insert_pk _ _ _ _) as [|m] eqn:E; [done|].
  apply insert_pk_inr in E as [Hn ->]. intros [= _ <-]. apply evolves_task_rows.
  by apply (insert_row same_limit).
Qed.
#[export] Instance ev_InsertAgentSession id s : Follows evolves (InsertAgentSession id s).
Proof.
  intros db u db' (Hn & _ & ->)%insert_session_inr. apply evolves_sessions.
  by apply (insert_row session_link).
Qed.
#[export] Instance ev_InsertUserPrompt id p : Follows evolves (InsertUserPrompt id p).
Proof.
  intros db u db' (Hn & _ & ->)%insert_prompt_inr. apply evolves_prompts. by apply (insert_row prompt_link).
Qed.
#[export] Instance ev_InsertAttempt id pid sq req ts c up :
  Follows evolves (InsertPendingExecutionAttempt id pid sq req ts c up).
Proof.
  intros db u db' (Hn & _ & ->)%insert_attempt_inr. apply evolves_attempts.
  apply (insert_row attempt_le); done.
Qed.
End statements.

(** What touches none of the four tables. *)
Lemma ev_event_row id e : Follows evolves (InsertTaskEvent id e).
Proof.
  intros db u db'. unfold InsertTaskEvent. destruct (insert_pk _ _ _ _); [done|].
  intros [= _ <-]. by apply evolves_tables.
Qed.
Lemma ev_checkpoint id c : Follows evolves (InsertAgentSessionCheckpoint id c).
Proof.
  intros db u db'. unfold InsertAgentSessionCheckpoint. destruct (insert_pk _ _ _ _); [done|].
  intros [= _ <-]. by apply evolves_tables.
Qed.
Lemma ev_enqueue `{Outbox} ids now ev : Follows evolves (enqueue ids now ev).
Proof. intros db u db' [-> _]%enqueue_frame. by apply evolves_tables. Qed.
#[export] Existing Instances ev_event_row ev_checkpoint ev_enqueue.

#[export] Instance ev_trigger_run st id : Follows evolves (tx_write (UpdateTriggerRunStatusByTask st id)).
Proof. apply follows_write. intros db. by apply evolves_tables. Qed.
#[export] Instance ev_search_text id : Follows evolves (tx_write (UpdateTaskSearchText id)).
Proof. apply follows_write. intros db. by apply evolves_tasks_pk. Qed.
#[export] Instance ev_write_none : Follows evolves (tx_write (λ db : DB, db)).
Proof. apply follows_write. reflexivity. Qed.

(** The statements are opaque to the search for their instances. *)
#[global] Typeclasses Opaque RequeueTaskForPrompt MarkTaskRunning UpdateTaskAggregateFromRunnerEvent RequeueTaskAfterExecutionAttemptLost
  FailExpiredLeases FailPendingResumeTasksForMissingRunner FailPendingIsolationTasks SetCancelTask
  ClearPendingTasks MarkAgentSessionTerminalByTask UpdateAgentSessionFromRunnerEvent PauseAgentSessionByTaskID
  MarkAgentSessionResuming AbandonAgentSession ExpirePausedSessions MarkResumingSessionsFailedForUnavailableRunner
  ReapStaleSessionsForTerminalRuns AbandonUserPrompt MarkUserPromptRunningByTask MarkUserPromptTerminalByTask
  FailPendingUserPromptsForUnavailableRunner ReapStaleUserPrompts RevertOrphanedRunningUserPrompts ClearExpiredUserPromptExports
  ClearExpiredSessionCheckpoints MarkExecutionAttemptClaimed RenewExecutionAttemptLease MarkExecutionAttemptLost
  FailExpiredExecutionAttempts FailAllExpiredExecutionAttempts CancelExecutionAttemptsByTask CancelPendingExecutionAttempts
  FailPendingExecutionAttemptsForMissingRunner FailPendingIsolationAttemptsWithoutCapableRunner ClearExpiredExecutionAttemptExports ExtendActiveExecutionAttemptTimeout
  UpdateExecutionAttemptFromRunnerEvent InsertTask InsertAgentSession InsertUserPrompt
  InsertPendingExecutionAttempt InsertTaskEvent InsertAgentSessionCheckpoint enqueue
  UpdateTriggerRunStatusByTask UpdateTaskSearchText update_latest_prompt update_latest_session
  tx_rows tx_read tx_one tx_guard
  tx_fail tx_write tx_iter.

(** ** Quiet changes *)

Record quiet (db db' : DB) : Prop := {
  qt_tasks : ∀ id, t_status <$> tasks db' !! id = t_status <$> tasks db !! id;
  qt_attempts : ∀ id, a_status <$> execution_attempts db' !! id = a_status <$> execution_attempts db !! id;
}.

#[export] Instance quiet_preorder : PreOrder quiet.
Proof.
  split; [by intros db|]. intros d1 d2 d3 [T1 A1] [T2 A2].
  split; intros id; [by rewrite T2|by rewrite A2].
Qed.

Lemma quiet_tables db db' :
  tasks db' = tasks db → execution_attempts db' = execution_attempts db → quiet db db'.
Proof. intros E1 E2. by constructor; rewrite ?E1, ?E2. Qed.

Lemma quiet_attempts_where p f db :
  (∀ id a, a_status (f id a) = a_status a) → quiet db (on_attempts (update_where p f) db).2.
Proof.
  intros Hf. constructor; [done|]. intros id.
  assert ((update_where p f (execution_attempts db)).2 !! id = _) as Hl by apply update_where_lookup.
  refine (eq_trans (f_equal (fmap a_status) Hl) _).
  destruct (execution_attempts db !! id) as [a|]; [|done]. simpl. by destruct (p id a); rewrite ?Hf.
Qed.

Lemma quiet_attempts_pk k p f db :
  (∀ a, a_status (f a) = a_status a) → quiet db (on_attempts (update_pk k p f) db).2.
Proof.
  intros Hf. constructor; [done|]. intros id.
  assert ((update_pk k p f (execution_attempts db)).2 !! id = _) as Hl by apply update_pk_lookup.
  refine (eq_trans (f_equal (fmap a_status) Hl) _).
  destruct (execution_attempts db !! id) as [a|]; [|done]. simpl. by destruct (_ && _); rewrite ?Hf.
Qed.

Lemma quiet_tasks_pk k p f db :
  (∀ t, t_status (f t) = t_status t) → quiet db (on_tasks (update_pk k p f) db).2.
Proof.
  intros Hf. constructor; [|done]. intros id.
  assert ((update_pk k p f (tasks db)).2 !! id = _) as Hl by apply update_pk_lookup.
  refine (eq_trans (f_equal (fmap t_status) Hl) _).
  destruct (tasks db !! id) as [a|]; [|done]. simpl. by destruct (_ && _); rewrite ?Hf.
Qed.

#[export] Instance quiet_prompts u : StmtFollows quiet (on_prompts u).
Proof. intros db. by apply quiet_tables. Qed.
#[export] Instance quiet_sessions u : StmtFollows quiet (on_sessions u).
Proof. intros db. by apply quiet_tables. Qed.

Lemma quiet_latest_prompt tid p f : StmtFollows quiet (update_latest_prompt tid p f).
Proof.
  intros db. unfold update_latest_prompt.
  destruct (GetUserPromptByTaskID tid db) as [[id q]|]; [apply quiet_prompts|reflexivity].
Qed.
Lemma quiet_latest_session tid f : StmtFollows quiet (update_latest_session tid f).
Proof.
  intros db. unfold update_latest_session.
  destruct (GetAgentSessionByTaskID tid db) as [[id q]|]; [apply quiet_sessions|reflexivity].
Qed.
#[export] Hint Resolve quiet_latest_prompt quiet_latest_session : typeclass_instances.


(** A statement on prompts or sessions is quiet by its definition. *)
Ltac quiet_stmt := first [exact (quiet_latest_prompt _ _ _) | exact (quiet_latest_session _ _)
                         | intros ?; by apply quiet_tables].
#[export] Hint Extern 3 (StmtFollows quiet _) => quiet_stmt : typeclass_instances.

#[export] Instance quiet_renew l le up id r c : StmtFollows quiet (RenewExecutionAttemptLease l le up id r c).
Proof. intros db. by apply quiet_attempts_pk. Qed.
#[export] Instance quiet_exports now ttl : StmtFollows quiet (ClearExpiredExecutionAttemptExports now ttl).
Proof. intros db. by apply quiet_attempts_where. Qed.
#[export] Instance quiet_checkpoints now ttl : StmtFollows quiet (ClearExpiredSessionCheckpoints now ttl).
Proof. intros db. by apply quiet_tables. Qed.
#[export] Instance quiet_extend x up id : Follows quiet (ExtendActiveExecutionAttemptTimeout x up id).
Proof.
  intros db n db'. unfold ExtendActiveExecutionAttemptTimeout. cbv zeta.
  destruct (exists_row _ _); [done|]. intros [= _ <-]. by refine (quiet_attempts_where _ _ db _).
Qed.
#[export] Instance quiet_event_row id e : Follows quiet (InsertTaskEvent id e).
Proof.
  intros db u db'. unfold InsertTaskEvent. destruct (insert_pk _ _ _ _); [done|].
  intros [= _ <-]. by apply quiet_tables.
Qed.

(** A calm change does both: rows evolve and no status moves. *)
Definition calm (db db' : DB) : Prop := evolves db db' ∧ quiet db db'.

#[export] Instance calm_preorder : PreOrder calm.
Proof.
  split; [by intros db; split|]. intros d1 d2 d3 [? ?] [? ?]. by split; etrans.
Qed.

#[export] Instance calm_stmt u : StmtFollows evolves u → StmtFollows quiet u → StmtFollows calm u.
Proof. by split. Qed.

(** A change outside the four tables that carry the work. *)
Lemma calm_tables db db' :
  execution_attempts db' = execution_attempts db → user_prompts db' = user_prompts db →
  agent_sessions db' = agent_sessions db → tasks db' = tasks db → calm db db'.
Proof. intros. split; [by apply evolves_tables|by apply quiet_tables]. Qed.

(** ** Live work

    [working st db tid]: the task [tid] has an attempt in status [st]. *)
Definition working (st : string) (db : DB) (tid : string) : Prop :=
  ∃ id a, execution_attempts db !! id = Some a ∧ a_status a = st ∧ task_of db a = Some tid.

Definition live (st : string) : Prop := st = "pending" ∨ st = "running".

(** A task that waits or runs has an attempt that waits or runs. *)
Definition coherent (db : DB) : Prop :=
  ∀ st tid t, live st → tasks db !! tid = Some t → t_status t = st → working st db tid.

Lemma evolves_task_of db db' a a' tid :
  evolves db db' → task_of db a = Some tid → a_user_prompt_id a' = a_user_prompt_id a →
  task_of db' a' = Some tid.
Proof.
  intros He (p & Hp & Ht)%task_of_Some Hu. apply task_of_Some.
  destruct (ev_prompts _ _ He _ _ Hp) as (p' & Hp' & Ht' & _). exists p'.
  rewrite Hu, Ht'. done.
Qed.

Lemma attempt_le_prompt a a' : attempt_le a a' → a_user_prompt_id a' = a_user_prompt_id a.
Proof. by intros []. Qed.

(** Either new work is there, or the old task and its work kept their status. *)
Lemma coherent_step db db' :
  evolves db db' → coherent db →
  (∀ st tid t', live st → tasks db' !! tid = Some t' → t_status t' = st →
     working st db' tid ∨
     ∃ t, tasks db !! tid = Some t ∧ t_status t = st ∧
       ∀ id a, execution_attempts db !! id = Some a → task_of db a = Some tid → a_status a = st →
         ∃ a', execution_attempts db' !! id = Some a' ∧ a_status a' = st) →
  coherent db'.
Proof.
  intros He Hc Hstep st tid t' Hl Ht' Hst.
  destruct (Hstep _ _ _ Hl Ht' Hst) as [?|(t & Ht & Hts & Hkeep)]; [done|].
  destruct (Hc _ _ _ Hl Ht Hts) as (id & a & Ha & Has & Hat).
  destruct (Hkeep _ _ Ha Hat Has) as (a' & Ha' & Has'). exists id, a'. do 2 (split; [done|]).
  eapply evolves_task_of; [exact He|exact Hat|].
  destruct (ev_attempts _ _ He _ _ Ha) as (a2 & Ha2 & Hle).
  assert (a2 = a') as -> by congruence. by apply attempt_le_prompt.
Qed.

Lemma coherent_quiet db db' : evolves db db' → quiet db db' → coherent db → coherent db'.
Proof.
  intros He [Qt Qa] Hc. apply (coherent_step db); [done..|].
  intros st tid t' Hl Ht' Hst. right. specialize (Qt tid). rewrite Ht' in Qt. simpl in Qt.
  symmetry in Qt. apply fmap_Some in Qt as (t & Ht & Hts). exists t. split; [done|].
  split; [congruence|]. intros id a Ha _ Has. specialize (Qa id). rewrite Ha in Qa.
  apply fmap_Some in Qa as (a' & Ha' & Has'). exists a'. split; [done|]. congruence.
Qed.

(** Only the task [tid] and the attempts of it moved. *)
Lemma coherent_one tid db db' :
  evolves db db' → coherent db →
  (∀ k, k ≠ tid → t_status <$> tasks db' !! k = t_status <$> tasks db !! k) →
  (∀ id a, execution_attempts db !! id = Some a → task_of db a ≠ Some tid →
     a_status <$> execution_attempts db' !! id = Some (a_status a)) →
  (∀ t', tasks db' !! tid = Some t' → live (t_status t') → working (t_status t') db' tid) →
  coherent db'.
Proof.
  intros He Hc Hother Hkeep Hone. apply (coherent_step db); [done..|].
  intros st k t' Hl Ht' Hst. destruct (decide (k = tid)) as [->|Hne].
  - left. subst st. by apply Hone.
  - right. specialize (Hother k Hne). rewrite Ht' in Hother. symmetry in Hother.
    apply fmap_Some in Hother as (t & Ht & Hts). exists t. split; [done|].
    split; [congruence|]. intros id a Ha Hk Has.
    assert (task_of db a ≠ Some tid) as Hn by congruence.
    apply (Hkeep _ _ Ha), fmap_Some in Hn as (a' & Ha' & Has'). exists a'. split; [done|]. congruence.
Qed.

(** One insertion into the tasks settles what [coherent_one] asks of the others. *)
Lemma other_tasks tid t m k :
  k ≠ tid → t_status <$> <[tid := t]> m !! k = t_status <$> (m : gmap string Task) !! k.
Proof. intros Hne. by rewrite lookup_insert_ne. Qed.

(** Work that an attempt row provides. *)
Lemma working_intro st id a pid p db :
  execution_attempts db !! id = Some a → a_status a = st → a_user_prompt_id a = pid →
  user_prompts db !! pid = Some p → working st db (p_task_id p).
Proof.
  intros Ha Hst Hp Hpr. exists id, a. do 2 (split; [done|]). apply task_of_Some.
  exists p. by rewrite Hp.
Qed.

(** A sweep: attempts in status [st] end, and with them every task in that
    status that had one. *)
Lemma coherent_sweep st p f q g db :
  let db1 := (on_attempts (update_where p f) db).2 in
  let db2 := (on_tasks (update_where q g) db1).2 in
  evolves db db1 → coherent db →
  (∀ id a, p id a = true → a_status a = st) →
  (∀ tid t, same_limit t (g tid t)) →
  (∀ tid t, q tid t = true → ¬ live (t_status (g tid t))) →
  (∀ id a tid t, execution_attempts db !! id = Some a → p id a = true →
     task_of db a = Some tid → tasks db !! tid = Some t → t_status t = st → q tid t = true) →
  coherent db2.
Proof.
  intros db1 db2 He1 Hc Hp Hlim Hq Hcatch.
  assert (evolves db db2) as He by (etransitivity; [exact He1|by apply evolves_tasks_where]).
  apply (coherent_step db); [done..|].
  intros st' tid t' Hl Ht' Hst. right.
  assert (tasks db2 !! tid = (λ v, if q tid v then g tid v else v) <$> tasks db !! tid) as Hlk
    by apply (update_where_lookup q g (tasks db) tid).
  rewrite Hlk in Ht'. apply fmap_Some in Ht' as (t & Ht & ->).
  destruct (q tid t) eqn:Eq; [destruct (Hq _ _ Eq); by rewrite Hst|].
  exists t. do 2 (split; [done|]). intros id a Ha Hat Has.
  assert (execution_attempts db2 !! id = (λ v, if p id v then f id v else v) <$>
            execution_attempts db !! id) as Hla
    by apply (update_where_lookup p f (execution_attempts db) id).
  rewrite Ha in Hla. exists (if p id a then f id a else a). split; [done|].
  destruct (p id a) eqn:Ep; [|done]. pose proof (Hp _ _ Ep).
  rewrite (Hcatch id a tid t Ha Ep Hat Ht) in Eq by congruence. done.
Qed.

Lemma joined_attempt_is_Some db tid pr id a :
  execution_attempts db !! id = Some a → task_of db a = Some tid → pr a = true →
  bool_decide (is_Some (joined_attempt db tid pr)) = true.
Proof.
  intros Ha Ht Hpr. apply bool_decide_eq_true_2. unfold joined_attempt.
  assert ((id, a) ∈ List.filter (λ kv, pr kv.2) (attempts_of_task db tid)) as Hin.
  { rewrite list_elem_of_In, filter_In, <- list_elem_of_In. split; [|done].
    by apply attempts_of_task_elem. }
  destruct (List.filter _ _); [by apply elem_of_nil in Hin|]. by eexists.
Qed.

(** The row that an update selects. *)
Lemma where_hit_attempt p f db id a :
  execution_attempts db !! id = Some a → p id a = true →
  execution_attempts (on_attempts (update_where p f) db).2 !! id = Some (f id a).
Proof.
  intros Ha Hp. refine (eq_trans (update_where_lookup p f (execution_attempts db) id) _).
  rewrite Ha. simpl. by rewrite Hp.
Qed.

Lemma where_hit_task p f db id t :
  tasks db !! id = Some t → p id t = true →
  tasks (on_tasks (update_where p f) db).2 !! id = Some (f id t).
Proof.
  intros Ha Hp. refine (eq_trans (update_where_lookup p f (tasks db) id) _).
  rewrite Ha. simpl. by rewrite Hp.
Qed.

Lemma failed_with_fail e u a err cat : failed_with cat (fail_attempt err cat e u a) = true.
Proof. unfold failed_with. simpl. by rewrite bool_decide_eq_true_2. Qed.

(** The attempt that a sweep ended, where the next statement looks for it. *)
Lemma swept_joined p f db tid pr id a :
  let db1 := (on_attempts (update_where p f) db).2 in
  execution_attempts db !! id = Some a → p id a = true → task_of db a = Some tid →
  a_user_prompt_id (f id a) = a_user_prompt_id a → pr (f id a) = true →
  bool_decide (is_Some (joined_attempt db1 tid pr)) = true.
Proof.
  intros db1 Ha Hp Ht Hu Hpr. apply (joined_attempt_is_Some _ _ _ id (f id a)); [| |done].
  - by apply where_hit_attempt.
  - apply task_of_Some in Ht as (pt & Hpt & Htid). apply task_of_Some. exists pt. by rewrite Hu.
Qed.
