(* ===== verification/Claim.v ===== *)
(** * Claiming

    [ClaimTask] and [claimOnce] of [internal/service/runner_rpc.go]: how a
    runner takes the oldest execution attempt it may run. The transaction is
    [claim_tx]; [claimOnce] wraps it with the checks made before it and
    publishes to the event bus after commit. *)
From S2P Require Import Prelude GoStrings Status Repos Db Queries Sample Outbox.

Definition defaultTaskLeaseSec : Z := 120.
Definition defaultClaimWaitSec : Z := 30.

Record claimedExecution := mkClaimed {
  ce_TaskID : string;
  ce_Task : Task;
  ce_SessionID : string;
  ce_Session : AgentSession;
  ce_PromptID : string;
  ce_Prompt : UserPrompt;
  ce_AttemptID : string;
  ce_Attempt : ExecutionAttempt;
  ce_AttemptNumber : Z;
}.

Definition claim_summary (attemptNumber : Z) : string :=
  "Task claimed by runner for attempt " ^^ fmt_d attemptNumber.

(** The members of the payload in the order [json.Marshal] writes a map. *)
Definition claim_event (runnerID eventID claimID : string) (c : claimedExecution) (now : time)
    : TaskEventCallbackContext :=
  mkEventContext eventID (ce_TaskID c) (str_of (t_team_id (ce_Task c)))
    (runner_subject runnerID (ce_TaskID c)) "running" "task.claimed"
    (claim_summary (ce_AttemptNumber c)) "" ""
    (PObject [("attempt", JInt (ce_AttemptNumber c)); ("claim_id", JStr claimID);
              ("execution_id", JStr (ce_AttemptID c)); ("runner_id", JStr runnerID);
              ("status", JStr "running"); ("summary", JStr (claim_summary (ce_AttemptNumber c)));
              ("task_id", JStr (ce_TaskID c))])
    now.

(** The reads of the transaction: the attempt the query picks and the rows
    around it. *)
Definition claim_select (skip : string → bool) (runnerID : string) (isolationEnabled : bool)
    : tx DB claimedExecution :=
  queued ← tx_read (GetClaimableExecutionAttemptForUpdate skip runnerID isolationEnabled);
  match queued with
  | None => tx_fail ENoClaimableTask
  | Some q =>
    task ← tx_one (GetTaskByID (cl_task q));
    attemptNumber ← tx_read (CountExecutionAttemptsByTask (cl_task q));
    _ ← tx_guard (t_max_attempts task <? attemptNumber)
          (EMsg ("task " ^^ cl_task q ^^ " exceeded its execution attempt limit"));
    attempt ← tx_one (GetExecutionAttemptByID (cl_attempt q));
    prompt ← tx_one (GetUserPromptByID (a_user_prompt_id attempt));
    session ← tx_one (GetAgentSessionByID (p_agent_session_id prompt));
    mret (mkClaimed (cl_task q) task (p_agent_session_id prompt) session
            (a_user_prompt_id attempt) prompt (cl_attempt q) attempt attemptNumber)
  end.

(** The writes: attempt, task and prompt become running, each guarded. *)
Definition claim_mark (runnerID claimID : string) (lease now : Z) (c : claimedExecution)
    : tx DB unit :=
  attemptRows ← tx_rows (MarkExecutionAttemptClaimed
    {| mc_RunnerID := nullString runnerID; mc_ClaimID := claimID; mc_ClaimedAt := Some now;
       mc_LeaseExpiresAt := Some (now + lease); mc_StartedAt := Some now;
       mc_LastEventAt := Some now; mc_UpdatedAt := now |} (ce_AttemptID c));
  _ ← tx_guard (attemptRows =? 0) ENoClaimableTask;
  rows ← tx_rows (MarkTaskRunning now (ce_TaskID c));
  _ ← tx_guard (rows =? 0) ENoClaimableTask;
  _ ← tx_rows (MarkUserPromptRunningByTask now now (ce_TaskID c));
  mret tt.

(** The rows as the code patches them in memory before returning them. *)
Definition claimed_view (runnerID claimID : string) (lease now : Z) (c : claimedExecution)
    : claimedExecution :=
  mkClaimed (ce_TaskID c) ((ce_Task c){{ t_status := "running"; t_updated_at := now }})
    (ce_SessionID c) (ce_Session c) (ce_PromptID c) (ce_Prompt c) (ce_AttemptID c)
    ((ce_Attempt c){{ a_status := "running"; a_runner_id := nullString runnerID;
                      a_claim_id := claimID; a_claimed_at := Some now;
                      a_lease_expires_at := Some (now + lease); a_started_at := Some now;
                      a_updated_at := now }})
    (ce_AttemptNumber c).

Definition claim_tx `{Outbox} (skip : string → bool) (runnerID : string) (isolationEnabled : bool)
    (lease now : Z) (eventID claimID : string) (ids : nat → string) : tx DB claimedExecution :=
  c ← claim_select skip runnerID isolationEnabled;
  _ ← claim_mark runnerID claimID lease now c;
  let ev := claim_event runnerID eventID claimID c now in
  _ ← InsertTaskEvent eventID
        (event_row ev (nullString (ce_SessionID c)) (nullString (ce_PromptID c))
           (nullString (ce_AttemptID c)));
  _ ← enqueue ids now ev;
  mret (claimed_view runnerID claimID lease now c).

(** [peekRunnerDrainDB]: is a drain request pending for the runner? *)
Definition peekRunnerDrainDB (runnerID : string) (db : DB) : bool :=
  bool_decide (is_Some (runner_drain_requests db !! runnerID)).

(** [claimOnce]; [peekFails] is a database error of the drain check, which lets
    the claim proceed. The third result is what is published on the bus. *)
Definition claimOnce `{Outbox} (peekFails : bool) (skip : string → bool) (runnerID : string)
    (lease now : Z) (eventID claimID : string) (ids : nat → string) (db : DB)
    : (err + claimedExecution) * DB * list (string * string) :=
  if runnerID == "" then (inl (EInvalidArgument "runner_id is required"), db, [])
  else if negb peekFails && peekRunnerDrainDB runnerID db then (inl ENoClaimableTask, db, [])
  else
    let isolationEnabled := default false (GetRunnerIsolationEnabled runnerID db) in
    match run_tx (claim_tx skip runnerID isolationEnabled lease now eventID claimID ids) db with
    | (inl e, db') => (inl e, db', [])
    | (inr c, db') => (inr c, db', [(ce_TaskID c, eventID)])
    end.

(** ** The RPC around it *)

(** [wait_seconds] and [lease_seconds]: a default for zero, an error for a
    negative value, a cap. *)
Definition claimWaitSec (waitSec : Z) : err + Z :=
  let waitSec := if waitSec =? 0 then defaultClaimWaitSec else waitSec in
  if waitSec <? 0 then inl (EInvalidArgument "wait_seconds must be non-negative")
  else inr (if defaultClaimWaitSec <? waitSec then defaultClaimWaitSec else waitSec).

Definition claimLeaseSec (leaseSec : Z) : err + Z :=
  let leaseSec := if leaseSec =? 0 then defaultTaskLeaseSec else leaseSec in
  if leaseSec <? 0 then inl (EInvalidArgument "lease_seconds must be non-negative")
  else inr (if 3600 <? leaseSec then 3600 else leaseSec).

(** The long poll: one entry per poll, with the time after it. The response
    is empty when the deadline passes; [None] is a request still waiting. *)
Fixpoint claim_poll (waitSec deadline : Z) (polls : list ((err + claimedExecution) * time))
    : option (err + option claimedExecution) :=
  match polls with
  | [] => None
  | (inr c, _) :: _ => Some (inr (Some c))
  | (inl ENoClaimableTask, now) :: rest =>
      if (waitSec =? 0) || (deadline <? now) then Some (inr None)
      else claim_poll waitSec deadline rest
  | (inl e, _) :: _ => Some (inl e)
  end.

(** [ClaimTask] over the polls of one request that arrived at [now]. *)
Definition ClaimTask (waitSeconds leaseSeconds now : Z)
    (poll : Z → list ((err + claimedExecution) * time)) : option (err + option claimedExecution) :=
  match claimWaitSec waitSeconds with
  | inl e => Some (inl e)
  | inr waitSec =>
    match claimLeaseSec leaseSeconds with
    | inl e => Some (inl e)
    | inr leaseSec => claim_poll waitSec (now + seconds waitSec) (poll (seconds leaseSec))
    end
  end.

(** What a pinned attempt resumes from: checkpoint path, workspace path and
    harness session of the task's latest session. *)
Definition claim_resume (c : claimedExecution) (db : DB) : string * string * string :=
  match a_required_runner_id (ce_Attempt c) with
  | None => ("", "", "")
  | Some _ =>
    match GetAgentSessionByTaskID (ce_TaskID c) db with
    | None => ("", "", "")
    | Some (sid, sess) =>
      let workspace := str_of (s_workspace_path sess) in
      let harness := str_of (s_harness_session_id sess) in
      if (s_resume_mode sess == "gvisor_checkpoint") && bool_decide (is_Some (s_checkpoint_id sess))
      then match GetLatestAgentSessionCheckpoint sid db with
           | Some chk =>
             if c_status chk == "ready"
             then (c_checkpoint_path chk,
                   if workspace == "" then c_workspace_path chk else workspace, harness)
             else ("", workspace, harness)
           | None => ("", workspace, harness)
           end
      else ("", workspace, harness)
    end
  end.

(** ** Lemmas *)

(** Nothing precedes the chosen attempt. *)
Definition oldest (skip : string → bool) (runnerID : string) (iso : bool) (db : DB)
    (a : ExecutionAttempt) : Prop :=
  ∀ id b, execution_attempts db !! id = Some b → skip id = false →
          claimable runnerID iso db b = true → a_created_at a <= a_created_at b.

Record selected (skip : string → bool) (runnerID : string) (iso : bool) (db : DB)
    (c : claimedExecution) : Prop := {
  sel_attempt : execution_attempts db !! ce_AttemptID c = Some (ce_Attempt c);
  sel_task : tasks db !! ce_TaskID c = Some (ce_Task c);
  sel_prompt : user_prompts db !! ce_PromptID c = Some (ce_Prompt c);
  sel_session : agent_sessions db !! ce_SessionID c = Some (ce_Session c);
  sel_links : a_user_prompt_id (ce_Attempt c) = ce_PromptID c ∧
              p_task_id (ce_Prompt c) = ce_TaskID c ∧
              p_agent_session_id (ce_Prompt c) = ce_SessionID c;
  sel_pending : a_status (ce_Attempt c) = "pending" ∧ t_status (ce_Task c) = "pending";
  sel_pin : a_required_runner_id (ce_Attempt c) ∈ [None; Some ""; Some runnerID];
  sel_isolation : s_isolation_required (ce_Session c) = true → iso = true;
  sel_number : ce_AttemptNumber c = CountExecutionAttemptsByTask (ce_TaskID c) db;
  sel_limit : ce_AttemptNumber c <= t_max_attempts (ce_Task c);
  sel_skip : skip (ce_AttemptID c) = false;
  sel_oldest : oldest skip runnerID iso db (ce_Attempt c);
}.

Lemma claim_query_oldest skip runnerID iso db q :
  GetClaimableExecutionAttemptForUpdate skip runnerID iso db = Some q →
  ∃ a, execution_attempts db !! cl_attempt q = Some a ∧ task_of db a = Some (cl_task q) ∧
       skip (cl_attempt q) = false ∧ claimable runnerID iso db a = true ∧
       oldest skip runnerID iso db a.
Proof.
  rewrite claimable_spec. intros (a & Hb & _ & Ht). exists a.
  pose proof (best_elem _ _ _ Hb) as (Ha & Hs & Hc)%claimable_candidate.
  do 4 (split; [done|]). intros id b Hid Hskip Hcl.
  apply (best_min _ (λ kv, a_created_at kv.2) _ _ ltac:(done) Hb (id, b)).
  by apply claimable_candidate.
Qed.

Lemma claim_select_inr skip runnerID iso db c db' :
  claim_select skip runnerID iso db = inr (c, db') →
  db' = db ∧ selected skip runnerID iso db c.
Proof.
  unfold claim_select. intros H. apply tx_bind_inr in H as (q & s & Hq & H).
  apply tx_read_inr in Hq as [-> ->].
  destruct (GetClaimableExecutionAttemptForUpdate skip runnerID iso db) as [q|] eqn:Eq; [|done].
  apply claim_query_oldest in Eq as (a & Ha & Ht & Hs & Hc & Ho). tx_inv.
  split; [done|]. unfold GetExecutionAttemptByID, GetTaskByID, GetUserPromptByID,
    GetAgentSessionByID in *. simplify_eq.
  apply claimable_true in Hc as (p & t & Hp & Htp & Hpa & Hpt & Hr & Hi).
  apply task_of_Some in Ht as (p' & Hp' & Htid). simplify_eq.
  match goal with H : (_ <? _) = false |- _ => apply Z.ltb_ge in H end.
  constructor; simpl; auto; try congruence; [split; congruence|eauto].
Qed.

(** The rows a claim writes. *)
Definition claimed_attempt (runnerID claimID : string) (lease now : Z) (a : ExecutionAttempt)
    : ExecutionAttempt :=
  a{{ a_status := "running"; a_runner_id := nullString runnerID; a_claim_id := claimID;
      a_claimed_at := Some now; a_lease_expires_at := Some (now + lease);
      a_started_at := Some now; a_last_event_at := Some now; a_updated_at := now }}.

Definition claimed_task (now : time) (t : Task) : Task :=
  t{{ t_status := "running"; t_updated_at := now }}.

Lemma claim_mark_inr skip runnerID iso claimID lease now c db u db' :
  selected skip runnerID iso db c →
  claim_mark runnerID claimID lease now c db = inr (u, db') →
  execution_attempts db' = <[ce_AttemptID c := claimed_attempt runnerID claimID lease now (ce_Attempt c)]>
                             (execution_attempts db) ∧
  tasks db' = <[ce_TaskID c := claimed_task now (ce_Task c)]> (tasks db) ∧
  db' = db{{ execution_attempts := execution_attempts db'; tasks := tasks db';
             user_prompts := user_prompts db' }}.
Proof.
  intros [Ha Ht _ _ _ [Hpa Hpt] _ _ _ _ _ _] H. unfold claim_mark in H. tx_inv.
  repeat match goal with H : _ = (_, _) |- _ => revert H end.
  unfold MarkExecutionAttemptClaimed, MarkTaskRunning, on_attempts, on_tasks.
  rewrite (update_pk_hit _ _ _ _ _ Ha) by (by rewrite Hpa). intros [= <- <-].
  cbn [tasks]. simpl. rewrite (update_pk_hit _ _ _ _ _ Ht) by (by rewrite Hpt).
  intros [= <- <-] Hp. simpl in Hp. apply update_latest_prompt_frame in Hp as [m ->]. done.
Qed.

Lemma only_deliveries_frame db db' :
  only_deliveries_added db db' → db' = db{{ callback_deliveries := callback_deliveries db' }}.
Proof. by intros [? _]. Qed.

(** The state a claim commits. *)
Record claim_effect (skip : string → bool) (runnerID claimID eventID : string) (iso : bool)
    (lease now : Z) (db db' : DB) (c : claimedExecution) : Prop := {
  ef_selected : selected skip runnerID iso db c;
  ef_attempts : execution_attempts db' =
    <[ce_AttemptID c := claimed_attempt runnerID claimID lease now (ce_Attempt c)]>
      (execution_attempts db);
  ef_tasks : tasks db' = <[ce_TaskID c := claimed_task now (ce_Task c)]> (tasks db);
  ef_events : task_events db !! eventID = None ∧ ∃ row,
    task_events db' = <[eventID := row]> (task_events db) ∧
    e_task_id row = ce_TaskID c ∧ e_event_type row = "task.claimed" ∧
    e_status row = "running" ∧ e_execution_attempt_id row = nullString (ce_AttemptID c);
  ef_frame : db' = db{{ execution_attempts := execution_attempts db'; tasks := tasks db';
                        user_prompts := user_prompts db'; task_events := task_events db';
                        callback_deliveries := callback_deliveries db' }};
}.

Lemma insert_event_inr id e db u db' :
  InsertTaskEvent id e db = inr (u, db') →
  task_events db !! id = None ∧ db' = db{{ task_events := <[id := e]> (task_events db) }}.
Proof.
  unfold InsertTaskEvent. destruct (insert_pk _ _ _ _) as [?|m] eqn:E; [done|].
  intros [= _ <-]. apply insert_pk_inr in E as [? ->]. done.
Qed.

Lemma claim_tx_inr `{Outbox} skip runnerID iso lease now eventID claimID ids db v db' :
  claim_tx skip runnerID iso lease now eventID claimID ids db = inr (v, db') →
  ∃ c, v = claimed_view runnerID claimID lease now c ∧
       claim_effect skip runnerID claimID eventID iso lease now db db' c.
Proof.
  intros Htx. unfold claim_tx in Htx. tx_inv.
  match goal with Hs : claim_select _ _ _ _ = inr (?c, _) |- _ =>
    apply claim_select_inr in Hs as [-> Hsel]; exists c end.
  split; [done|].
  match goal with Hm : claim_mark _ _ _ _ _ _ = _ |- _ =>
    apply (claim_mark_inr _ _ _ _ _ _ _ _ _ _ Hsel) in Hm as (Ha & Ht & Hf) end.
  match goal with Hi : InsertTaskEvent _ _ _ = _ |- _ =>
    apply insert_event_inr in Hi as [Hfresh ->] end.
  match goal with He : enqueue _ _ _ _ = _ |- _ =>
    apply enqueue_frame, only_deliveries_frame in He; rewrite He end.
  rewrite Hf in Hfresh |- *. constructor; try done.
  split; [exact Hfresh|]. eexists. split; [reflexivity|done].
Qed.

Lemma claimOnce_ok_inv `{Outbox} peekFails skip runnerID lease now eventID claimID ids db v db' pub :
  claimOnce peekFails skip runnerID lease now eventID claimID ids db = (inr v, db', pub) →
  runnerID ≠ "" ∧ (peekFails = true ∨ runner_drain_requests db !! runnerID = None) ∧
  pub = [(ce_TaskID v, eventID)] ∧
  claim_tx skip runnerID (default false (GetRunnerIsolationEnabled runnerID db)) lease now
    eventID claimID ids db = inr (v, db').
Proof.
  unfold claimOnce. destruct (decide (runnerID = "")) as [->|Hr]; [done|].
  rewrite (bool_decide_eq_false_2 _ Hr).
  destruct (negb peekFails && peekRunnerDrainDB runnerID db) eqn:Ed; [done|].
  destruct (run_tx _ db) as [[e|c] db1] eqn:E; [done|]. intros [= -> -> <-].
  apply run_tx_ok in E. split; [done|]. split; [|done].
  apply andb_false_iff in Ed as [Hp|Hp].
  - left. by apply negb_false_iff.
  - right. unfold peekRunnerDrainDB in Hp. apply bool_decide_eq_false in Hp.
    by apply eq_None_not_Some.
Qed.

(** ** Properties *)



(** The conditions under which only the attempt limit can stop a claim: rows
    that are referred to exist, the event identifier is new and the outbox
    accepts the event. *)
Definition refs_ok (db : DB) : Prop :=
  ∀ k p, user_prompts db !! k = Some p → is_Some (agent_sessions db !! p_agent_session_id p).

Definition outbox_accepts `{Outbox} (ids : nat → string) (now : time) : Prop :=
  ∀ ev s, ∃ s', enqueue ids now ev s = inr (tt, s').

Lemma claim_query_some skip runnerID iso db id b :
  execution_attempts db !! id = Some b → skip id = false → claimable runnerID iso db b = true →
  ∃ q, GetClaimableExecutionAttemptForUpdate skip runnerID iso db = Some q.
Proof.
  intros Hb Hs Hc. unfold GetClaimableExecutionAttemptForUpdate.
  destruct (best _ _) as [[k a]|] eqn:E.
  - pose proof (best_elem _ _ _ E) as (Ha & _ & Hca)%claimable_candidate.
    apply claimable_true in Hca as (p & t & Hp & _).
    assert (task_of db a = Some (p_task_id p)) as -> by (apply task_of_Some; by exists p).
    simpl. eauto.
  - apply best_None in E.
    assert ((id, b) ∈ ([] : list (string * ExecutionAttempt))) as Hin
      by (rewrite <- E; by apply claimable_candidate).
    by apply not_elem_of_nil in Hin.
Qed.

Lemma claim_mark_ok skip runnerID iso claimID lease now c db :
  selected skip runnerID iso db c → ∃ db', claim_mark runnerID claimID lease now c db = inr (tt, db').
Proof.
  intros Hsel. destruct Hsel as [Ha Ht _ _ _ [Hpa Hpt] _ _ _ _ _ _].
  unfold claim_mark, MarkExecutionAttemptClaimed, MarkTaskRunning, mbind, tx_bind, tx_rows,
    on_attempts, on_tasks.
  rewrite (update_pk_hit _ _ _ _ _ Ha) by (by rewrite Hpa). simpl.
  rewrite (update_pk_hit _ _ _ _ _ Ht) by (by rewrite Hpt). simpl.
  destruct (MarkUserPromptRunningByTask _ _ _ _) as [n db']. by exists db'.
Qed.

(** A transaction that finds its attempt within the limit goes through. *)
Lemma claim_tx_ok `{Outbox} skip runnerID iso lease now eventID claimID ids db c :
  task_events db !! eventID = None → outbox_accepts ids now →
  claim_select skip runnerID iso db = inr (c, db) →
  ∃ db', claim_tx skip runnerID iso lease now eventID claimID ids db
         = inr (claimed_view runnerID claimID lease now c, db').
Proof.
  intros Hev Hout Hsel. pose proof (claim_select_inr _ _ _ _ _ _ Hsel) as [_ Hs].
  destruct (claim_mark_ok _ _ _ claimID lease now _ _ Hs) as [db1 Hm].
  pose proof (claim_mark_inr _ _ _ _ _ _ _ _ _ _ Hs Hm) as (_ & _ & Hf).
  assert (task_events db1 !! eventID = None) as Hev1 by (by rewrite Hf).
  unfold claim_tx, mbind, tx_bind. rewrite Hsel, Hm.
  unfold InsertTaskEvent, insert_pk. rewrite Hev1.
  destruct (Hout (claim_event runnerID eventID claimID c now)
    (db1{{ task_events := <[eventID := event_row (claim_event runnerID eventID claimID c now)
             (nullString (ce_SessionID c)) (nullString (ce_PromptID c))
             (nullString (ce_AttemptID c))]> (task_events db1) }})) as [db2 ->].
  by exists db2.
Qed.

Definition over_limit (tid : string) : err :=
  EMsg ("task " ^^ tid ^^ " exceeded its execution attempt limit").

Lemma claim_select_cases skip runnerID iso db id b :
  refs_ok db → execution_attempts db !! id = Some b → skip id = false →
  claimable runnerID iso db b = true →
  ∃ k a tid t, execution_attempts db !! k = Some a ∧ oldest skip runnerID iso db a ∧
    task_of db a = Some tid ∧ tasks db !! tid = Some t ∧
    if t_max_attempts t <? CountExecutionAttemptsByTask tid db
    then claim_select skip runnerID iso db = inl (over_limit tid)
    else ∃ c, claim_select skip runnerID iso db = inr (c, db) ∧ ce_AttemptID c = k.
Proof.
  intros Href Hb Hs Hc. destruct (claim_query_some _ _ _ _ _ _ Hb Hs Hc) as [q Hq].
  pose proof (claim_query_oldest _ _ _ _ _ Hq) as (a & Ha & Ht & _ & Hca & Ho).
  apply claimable_true in Hca as (p & t & Hp & Htp & _).
  assert (p_task_id p = cl_task q) as Htid.
  { apply task_of_Some in Ht as (p' & Hp' & <-). congruence. }
  destruct (Href _ _ Hp) as [s Hse].
  exists (cl_attempt q), a, (cl_task q), t. rewrite Htid in Htp. do 4 (split; [done|]).
  unfold claim_select, mbind, tx_bind, tx_read, tx_one. rewrite Hq. unfold GetTaskByID. rewrite Htp.
  destruct (t_max_attempts t <? _); simpl; [done|].
  unfold GetExecutionAttemptByID, GetUserPromptByID, GetAgentSessionByID, mret, tx_ret.
  rewrite Ha, Hp, Hse. eauto.
Qed.

Lemma claim_tx_not_idle `{Outbox} skip runnerID iso lease now eventID claimID ids db id b :
  refs_ok db → task_events db !! eventID = None → outbox_accepts ids now →
  execution_attempts db !! id = Some b → skip id = false → claimable runnerID iso db b = true →
  claim_tx skip runnerID iso lease now eventID claimID ids db ≠ inl ENoClaimableTask.
Proof.
  intros Href Hev Hout Hb Hs Hc.
  destruct (claim_select_cases _ _ _ _ _ _ Href Hb Hs Hc) as (k & a & tid & t & _ & _ & _ & _ & Hcase).
  destruct (t_max_attempts t <? _).
  - unfold claim_tx, mbind at 1, tx_bind at 1. by rewrite Hcase.
  - destruct Hcase as (c & Hsel & _).
    by destruct (claim_tx_ok _ _ _ lease now eventID claimID ids _ _ Hev Hout Hsel) as [db' ->].
Qed.

Lemma sample_refs : refs_ok sample_db.
Proof.
  intros k p Hk. unfold sample_db in Hk. cbn in Hk.
  apply lookup_singleton_Some in Hk as [<- <-]. by eexists.
Qed.

(** When some unlocked attempt qualifies for a runner that may claim, the
    outcome depends on the oldest such attempt alone: within its task's limit
    it is the one claimed; over the limit the claim fails with an error (not
    with "no claimable task") and nothing changes, so that attempt keeps every
    younger one from being claimed. *)
Theorem claimOnce_oldest_decides `{Outbox} peekFails skip runnerID lease now eventID claimID ids
    db id b :
  runnerID ≠ "" → (peekFails = true ∨ runner_drain_requests db !! runnerID = None) →
  refs_ok db → task_events db !! eventID = None → outbox_accepts ids now →
  execution_attempts db !! id = Some b → skip id = false →
  claimable runnerID (default false (GetRunnerIsolationEnabled runnerID db)) db b = true →
  ∃ k a tid t, execution_attempts db !! k = Some a ∧
    oldest skip runnerID (default false (GetRunnerIsolationEnabled runnerID db)) db a ∧
    task_of db a = Some tid ∧ tasks db !! tid = Some t ∧
    if t_max_attempts t <? CountExecutionAttemptsByTask tid db
    then claimOnce peekFails skip runnerID lease now eventID claimID ids db
         = (inl (over_limit tid), db, [])
    else ∃ v db', claimOnce peekFails skip runnerID lease now eventID claimID ids db
                  = (inr v, db', [(tid, eventID)]) ∧ ce_AttemptID v = k ∧ ce_TaskID v = tid.
Proof.
  intros Hr Hd Href Hev Hout Hb Hs Hc.
  destruct (claim_select_cases _ _ _ _ _ _ Href Hb Hs Hc) as (k & a & tid & t & Ha & Ho & Ht & Htt & Hcase).
  exists k, a, tid, t. do 4 (split; [done|]). unfold claimOnce.
  rewrite (bool_decide_eq_false_2 _ Hr).
  replace (negb peekFails && peekRunnerDrainDB runnerID db) with false.
  2: { destruct Hd as [->|Hd]; [done|]. unfold peekRunnerDrainDB. rewrite Hd.
       by rewrite andb_false_r. }
  destruct (t_max_attempts t <? _).
  - unfold run_tx, claim_tx, mbind at 1, tx_bind at 1. by rewrite Hcase.
  - destruct Hcase as (c & Hsel & Hk).
    destruct (claim_tx_ok _ _ _ lease now eventID claimID ids _ _ Hev Hout Hsel) as [db' Htx].
    exists (claimed_view runnerID claimID lease now c), db'.
    unfold run_tx. rewrite Htx. simpl.
    apply claim_select_inr in Hsel as [_ [Hca _ Hcp _ (Hl1 & Hl2 & _) _ _ _ _ _ _ _]].
    assert (ce_TaskID c = tid) as ->; [|done].
    apply task_of_Some in Ht as (p & Hp & <-). congruence.
Qed.

Lemma claimOnce_oldest_decides_witness :
  ∃ k a tid t, execution_attempts sample_db !! k = Some a ∧
    oldest no_skip "r1" false sample_db a ∧
    task_of sample_db a = Some tid ∧ tasks sample_db !! tid = Some t ∧
    if t_max_attempts t <? CountExecutionAttemptsByTask tid sample_db
    then @claimOnce no_outbox false no_skip "r1" (seconds 120) 5 "evt_1" "clm_1" sample_ids sample_db
         = (inl (over_limit tid), sample_db, [])
    else ∃ v db', @claimOnce no_outbox false no_skip "r1" (seconds 120) 5 "evt_1" "clm_1" sample_ids
                    sample_db = (inr v, db', [(tid, "evt_1")]) ∧ ce_AttemptID v = k ∧ ce_TaskID v = tid.
Proof.
  apply (@claimOnce_oldest_decides no_outbox false no_skip "r1" (seconds 120) 5 "evt_1" "clm_1"
           sample_ids sample_db "a1" (pending_attempt "p1" 1 None 600 0 0)).
  - done.
  - by left + right.
  - exact sample_refs.
  - done.
  - intros ev s. by exists s.
  - done.
  - done.
  - by vm_compute.
Defined.

(** A claim that does not succeed changes nothing and publishes nothing;
    and it reports "no claimable task" only for a draining runner or when no
    unlocked attempt qualifies. *)
Theorem claimOnce_error `{Outbox} peekFails skip runnerID lease now eventID claimID ids
    db e db' pub :
  refs_ok db →
  claimOnce peekFails skip runnerID lease now eventID claimID ids db = (inl e, db', pub) →
  db' = db ∧ pub = [] ∧
  (e = ENoClaimableTask → outbox_accepts ids now → task_events db !! eventID = None →
   runner_drain_requests db !! runnerID ≠ None ∨
   ∀ id b, execution_attempts db !! id = Some b → skip id = false →
     claimable runnerID (default false (GetRunnerIsolationEnabled runnerID db)) db b = false).
Proof.
  intros Href Hcl. assert (db' = db ∧ pub = []) as [-> ->].
  { revert Hcl. unfold claimOnce. destruct (_ == _); [by intros [= _ -> <-]|].
    destruct (_ && _); [by intros [= _ -> <-]|].
    destruct (run_tx _ db) as [[e'|c] db1] eqn:E; [|done].
    intros [= -> -> <-]. by apply run_tx_error in E as ->. }
  do 2 (split; [done|]). intros -> Hout Hev.
  destruct (decide (runner_drain_requests db !! runnerID = None)) as [Hd|Hd]; [right|by left].
  intros id b Hb Hs. destruct (claimable _ _ _ _) eqn:Hc; [|done]. exfalso.
  pose proof (claim_tx_not_idle _ _ _ lease now eventID claimID ids _ _ _ Href Hev Hout Hb Hs Hc) as Hne.
  revert Hcl. unfold claimOnce. destruct (_ == _); [done|].
  replace (peekRunnerDrainDB runnerID db) with false by (unfold peekRunnerDrainDB; by rewrite Hd).
  rewrite andb_false_r. unfold run_tx.
  destruct (claim_tx _ _ _ _ _ _ _ _ db) as [e|[c db1]]; congruence.
Qed.

Lemma claimOnce_error_witness :
  ∃ e, @claimOnce no_outbox false (λ _, true) "r1" (seconds 120) 5 "evt_1" "clm_1" sample_ids sample_db
       = (inl e, sample_db, []).
Proof.
  destruct (@claimOnce no_outbox false (λ _, true) "r1" (seconds 120) 5 "evt_1" "clm_1" sample_ids
              sample_db) as [[[e|v] db'] pub] eqn:E; [|vm_compute in E; discriminate].
  destruct (@claimOnce_error no_outbox _ _ _ _ _ _ _ _ _ _ _ _ sample_refs E) as (-> & -> & _).
  by exists e.
Defined.

(** The sample database after "r1" claimed the task under "clm_1". *)
Definition claimed_db : DB :=
  (@claimOnce no_outbox false no_skip "r1" (seconds 120) 5 "evt_1" "clm_1" sample_ids sample_db).1.2.
