(* ===== verification/RunnerEvent.v ===== *)
(** * Runner events

    [ReportTaskEvents] and [recordTaskEvent] of
    [internal/service/runner_rpc.go]: what a runner reports about an execution
    attempt it holds, fenced by its claim. [record_tx] is the transaction;
    [recordTaskEvent] derives its parameters before it and publishes, evicts
    and translates errors after it. The wire times of an event are the values
    they parse to ([parseOptionalTime]: [None] for an empty or malformed text). *)
From S2P Require Import Prelude GoStrings GoJson Status Redact Repos Db Queries Sample Outbox Claim.

Definition leaseSeconds : Z := 120.
Definition heartbeatEventMinInterval : Z := seconds 60.

(** ** Heartbeat throttle *)

Definition heartbeatSeen := gmap string time.

(** The answer and the map after the call. *)
Definition shouldStoreHeartbeat (now : time) (taskID : string) (seen : heartbeatSeen)
    : bool * heartbeatSeen :=
  match seen !! taskID with
  | Some last => if now - last <? heartbeatEventMinInterval then (false, seen)
                 else (true, <[taskID := now]> seen)
  | None => (true, <[taskID := now]> seen)
  end.

Definition cleanupHeartbeatSeen (now : time) (seen : heartbeatSeen) : heartbeatSeen :=
  filter (λ kv, Is_true (negb (kv.2 <? now - 2 * heartbeatEventMinInterval))) seen.

(** ** The event *)

Definition redact_event (set : option Set_) (e : RunnerTaskEvent) : RunnerTaskEvent :=
  e{{ re_Summary := Apply set (re_Summary e); re_Error := Apply set (re_Error e);
      re_SessionExport := Apply set (re_SessionExport e);
      re_PayloadJson := Apply set (re_PayloadJson e) }}.

(** The payload column: the runner's JSON when it is valid, else the encoding
    of the event. *)
Definition event_payload (e : RunnerTaskEvent) : Payload :=
  if (re_PayloadJson e == "") || negb (Valid (re_PayloadJson e))
  then PMarshalled e else PRaw (re_PayloadJson e).

Definition event_status (e : RunnerTaskEvent) : string :=
  if re_Status e == "" then "running" else re_Status e.

Definition event_category (e : RunnerTaskEvent) : string :=
  let c := normalizeErrorCategory (re_ErrorCategory e) in
  if (c == "") && statusIsErrorCategoryCandidate (event_status e)
  then classifyTaskErrorCategory (event_status e) (re_Error e) else c.

Definition event_is_heartbeat (e : RunnerTaskEvent) : bool :=
  (event_status e == "running") && isHeartbeatSummary (re_Summary e).

Definition event_type (e : RunnerTaskEvent) : string :=
  taskEventType (event_status e) (event_category e) (event_is_heartbeat e).

Definition event_context (runnerID eventID : string) (now : time) (teamID : string)
    (e : RunnerTaskEvent) : TaskEventCallbackContext :=
  mkEventContext eventID (re_TaskId e) teamID (runner_subject runnerID (re_TaskId e))
    (event_status e) (event_type e) (re_Summary e) (re_Error e) (event_category e)
    (event_payload e) now.

(** ** Statement parameters *)

Definition attempt_params (runnerID : string) (now : time) (e : RunnerTaskEvent)
    : UpdateAttemptParams :=
  let status := executionAttemptStatus (event_status e) in
  {| ua_Status := status;
     ua_Summary := nullString (re_Summary e);
     ua_Error := nullString (re_Error e);
     ua_ErrorCategory := event_category e;
     ua_SessionExport := nullString (re_SessionExport e);
     ua_LeaseExpiresAt :=
       if event_status e == "running" then Some (now + seconds leaseSeconds) else None;
     ua_StartedAt := re_StartedAt e;
     ua_EndedAt := if negb (status == "running") then coalesce (re_EndedAt e) (Some now)
                   else re_EndedAt e;
     ua_WorkspacePath := re_WorkspacePath e;
     ua_HarnessExecutionID := re_OpencodeSessionId e;
     ua_RunnerImageDigest := re_RunnerImageDigest e;
     ua_TotalInputTokens := tokenUsageInputTokens (re_TokenUsage e);
     ua_TotalOutputTokens := tokenUsageOutputTokens (re_TokenUsage e);
     ua_TotalCacheReadTokens := tokenUsageCacheReadTokens (re_TokenUsage e);
     ua_TotalCacheWriteTokens := tokenUsageCacheWriteTokens (re_TokenUsage e);
     ua_TotalReasoningTokens := tokenUsageReasoningTokens (re_TokenUsage e);
     ua_CostCents := tokenUsageCostCents (re_TokenUsage e);
     ua_LastEventAt := Some now;
     ua_UpdatedAt := now;
     ua_ID := re_ExecutionId e;
     ua_RunnerID := runnerID;
     ua_ClaimID := re_ClaimId e |}.

Definition task_params (now : time) (e : RunnerTaskEvent) : UpdateTaskAggregateParams :=
  let failed := statusIsErrorCategoryCandidate (event_status e) in
  {| ut_Status := event_status e;
     ut_Summary := nullString (re_Summary e);
     ut_Error := nullString (re_Error e);
     ut_ErrorCategory := event_category e;
     ut_FailureCategory := if failed then classifyFailureCategory (event_category e) else "";
     ut_FailureMessage := if failed && negb (re_Error e == "")
                          then Some (truncateTo500 (re_Error e)) else None;
     ut_EndedAt := re_EndedAt e;
     ut_UpdatedAt := now;
     ut_ID := re_TaskId e |}.

(** ** The transaction *)

(** Which way a terminal event takes the session. *)
Inductive session_outcome :=
| SessionRecoverable          (* pause as "recoverable" after a prompt failure *)
| SessionCheckpointed         (* record a checkpoint and pause *)
| SessionPaused               (* pause for resume *)
| SessionTerminal.            (* end the session *)

Definition session_decision (terminalSessionStatus : string) (session : option AgentSession)
    (e : RunnerTaskEvent) : session_outcome :=
  if re_WorkspacePath e == "" then SessionTerminal else
  match session with
  | None => SessionTerminal
  | Some s =>
    if (terminalSessionStatus == "error") && isRecoverablePromptError (event_category e) &&
       (s_resume_mode s == "harness_session") && negb (re_OpencodeSessionId e == "")
    then SessionRecoverable
    else if (terminalSessionStatus == "completed") && (s_resume_mode s == "gvisor_checkpoint") &&
            negb (re_CheckpointPath e == "")
    then SessionCheckpointed
    else if (terminalSessionStatus == "completed") &&
            one_of ["harness_session"; "gvisor_checkpoint"] (s_resume_mode s)
    then SessionPaused
    else SessionTerminal
  end.

Definition pause_session (status : string) (runnerID : string)
    (checkpointID containerName : option string) (now : time) (e : RunnerTaskEvent)
    : tx DB unit :=
  _ ← tx_rows (PauseAgentSessionByTaskID status (nullString runnerID) checkpointID
        (nullString (re_WorkspacePath e)) containerName (nullString (re_OpencodeSessionId e))
        now now (re_TaskId e));
  mret tt.

(** The prompt and the session of a terminal event; the result tells whether
    the session itself ended. *)
Definition finish_run (runnerID chkID : string) (now : time) (e : RunnerTaskEvent)
    (terminalRunStatus terminalSessionStatus : string) : tx DB bool :=
  _ ← tx_rows (MarkUserPromptTerminalByTask terminalRunStatus (nullString (re_Summary e))
        (nullString (re_Error e)) (nullString (re_SessionExport e)) (re_StartedAt e)
        (coalesce (re_EndedAt e) (Some now)) now (re_TaskId e));
  session ← tx_read (GetAgentSessionByTaskID (re_TaskId e));
  match session_decision terminalSessionStatus (snd <$> session) e with
  | SessionRecoverable =>
      _ ← pause_session "recoverable" runnerID None None now e; mret false
  | SessionCheckpointed =>
      let container := "chetter-task-" ^^ re_TaskId e ^^ "-" ^^ re_ExecutionId e in
      _ ← InsertAgentSessionCheckpoint chkID
            (mkCheckpoint (default "" (fst <$> session)) runnerID (re_CheckpointPath e)
               (re_WorkspacePath e) (nullString container) "ready" now now);
      _ ← pause_session "paused" runnerID (nullString chkID) (nullString container) now e;
      mret false
  | SessionPaused => _ ← pause_session "paused" runnerID None None now e; mret false
  | SessionTerminal =>
      _ ← tx_rows (MarkAgentSessionTerminalByTask terminalSessionStatus (re_OpencodeSessionId e)
            (nullString (re_Summary e)) (nullString (re_Error e)) now now (re_TaskId e));
      mret true
  end.

(** The reporter owns the attempt it names, and the attempt the hierarchy. *)
Definition check_owner (e : RunnerTaskEvent) : tx DB unit :=
  cx ← tx_read (GetExecutionAttemptContext (re_ExecutionId e));
  match cx with
  | None => tx_fail ETaskNotClaimed
  | Some c => tx_guard (negb ((cx_TaskID c == re_TaskId e) &&
                              (cx_AgentSessionID c == re_AgentSessionId e) &&
                              (cx_UserPromptID c == re_UserPromptId e))) ETaskNotClaimed
  end.

(** The event row and its callback deliveries. *)
Definition store_event `{Outbox} (runnerID eventID : string) (now : time) (ids : nat → string)
    (e : RunnerTaskEvent) : tx DB unit :=
  let ev := event_context runnerID eventID now "" e in
  _ ← InsertTaskEvent eventID
        (event_row ev (nullString (re_AgentSessionId e)) (nullString (re_UserPromptId e))
           (nullString (re_ExecutionId e)));
  match dispatcher with
  | None => mret tt
  | Some _ =>
    task ← tx_one (GetTaskByID (re_TaskId e));
    enqueue ids now (event_context runnerID eventID now (str_of (t_team_id task)) e)
  end.

Definition record_tx `{Outbox} (runnerID eventID chkID : string) (now dbnow : time)
    (ids : nat → string) (skipEventRow : bool) (e : RunnerTaskEvent) : tx DB bool :=
  _ ← check_owner e;
  attemptRows ← UpdateExecutionAttemptFromRunnerEvent dbnow (attempt_params runnerID now e);
  _ ← tx_guard (attemptRows =? 0) ETaskNotClaimed;
  rows ← tx_rows (UpdateTaskAggregateFromRunnerEvent (task_params now e));
  _ ← tx_guard (rows =? 0) ETaskNotClaimed;
  _ ← tx_rows (UpdateAgentSessionFromRunnerEvent (re_ProviderId e) (re_ModelId e)
        (re_VariantId e) (re_OpencodeSessionId e) now (re_TaskId e));
  _ ← tx_write (UpdateTaskSearchText (re_TaskId e));
  _ ← tx_write (if one_of ["running"; "pending"] (event_status e) then λ db, db
                else UpdateTriggerRunStatusByTask (event_status e) (re_TaskId e));
  sessionTerminal ←
    match sessionTerminalStatuses (event_status e) with
    | None => mret false
    | Some (runStatus, sessionStatus) => finish_run runnerID chkID now e runStatus sessionStatus
    end;
  _ ← (if (skipEventRow : bool) then mret tt else store_event runnerID eventID now ids e);
  mret sessionTerminal.

(** ** The handler *)

(** What the server process keeps in memory. *)
Record Proc := mkProc { pr_seen : heartbeatSeen; pr_redact : redactSets }.

(** The error, the database, the process state and what is published. *)
Definition recordTaskEvent `{Outbox} (runnerID eventID chkID : string) (now dbnow : time)
    (ids : nat → string) (event : RunnerTaskEvent) (db : DB) (p : Proc)
    : option err * DB * Proc * list (string * string) :=
  if runnerID == "" then (Some (EInvalidArgument "runner_id is required"), db, p, [])
  else if re_TaskId event == "" then (Some (EInvalidArgument "task_id is required"), db, p, [])
  else if re_ExecutionId event == "" then
    (Some (EInvalidArgument "execution_id is required"), db, p, [])
  else
    let set := cachedRedactSet (re_AgentSessionId event) (pr_redact p) in
    let e := match set with None => event | Some _ => redact_event set event end in
    let '(skipEventRow, seen) :=
      if event_is_heartbeat e
      then let r := shouldStoreHeartbeat now (re_TaskId e) (pr_seen p) in (negb r.1, r.2)
      else (false, pr_seen p) in
    let p := p{{ pr_seen := seen }} in
    match run_tx (record_tx runnerID eventID chkID now dbnow ids skipEventRow e) db with
    | (inl ETaskNotClaimed, db') =>
        (Some (EFailedPrecondition ("task is not running for runner " ^^ runnerID)), db', p, [])
    | (inl e, db') => (Some e, db', p, [])
    | (inr sessionTerminal, db') =>
        (None, db',
         (if (sessionTerminal : bool)
          then p{{ pr_redact := evictRedactSet (re_AgentSessionId e) (pr_redact p) }} else p),
         (if (skipEventRow : bool) then [] else [(re_TaskId e, eventID)]))
    end.

(** [ReportTaskEvents]: the events in order, up to the first error. Each call
    comes with the identifiers and clocks it draws. *)
Record Draw := mkDraw {
  dr_eventID : string;
  dr_chkID : string;
  dr_now : time;
  dr_dbnow : time;
  dr_ids : nat → string;
}.

Fixpoint record_events `{Outbox} (runnerID : string) (events : list (RunnerTaskEvent * Draw))
    (db : DB) (p : Proc) : option err * DB * Proc * list (string * string) :=
  match events with
  | [] => (None, db, p, [])
  | (e, d) :: rest =>
      match recordTaskEvent runnerID (dr_eventID d) (dr_chkID d) (dr_now d) (dr_dbnow d)
              (dr_ids d) e db p with
      | (Some err, db', p', pub) => (Some err, db', p', pub)
      | (None, db', p', pub) =>
          let '(r, db'', p'', pub') := record_events runnerID rest db' p' in
          (r, db'', p'', pub ++ pub')
      end
  end.

Definition ReportTaskEvents `{Outbox} (runnerID : string)
    (events : list (RunnerTaskEvent * Draw)) (db : DB) (p : Proc)
    : option err * DB * Proc * list (string * string) :=
  if runnerID == "" then (Some (EInvalidArgument "runner_id is required"), db, p, [])
  else match events with
       | [] => (Some (EInvalidArgument "events are required"), db, p, [])
       | _ => record_events runnerID events db p
       end.

(** ** Lemmas *)

(** A database that differs only in what the end of a run may touch. *)
Definition run_frame (db db' : DB) : Prop :=
  db' = db{{ user_prompts := user_prompts db'; agent_sessions := agent_sessions db';
             agent_session_checkpoints := agent_session_checkpoints db' }}.

Lemma run_frame_trans db1 db2 db3 : run_frame db1 db2 → run_frame db2 db3 → run_frame db1 db3.
Proof. unfold run_frame. intros -> ->. done. Qed.

Lemma latest_prompt_run_frame taskID p f db n db' :
  update_latest_prompt taskID p f db = (n, db') → run_frame db db'.
Proof. intros [m ->]%update_latest_prompt_frame. done. Qed.

Lemma latest_session_run_frame taskID f db n db' :
  update_latest_session taskID f db = (n, db') → run_frame db db'.
Proof. intros [m ->]%update_latest_session_frame. done. Qed.

Lemma checkpoint_run_frame id c db u db' :
  InsertAgentSessionCheckpoint id c db = inr (u, db') → run_frame db db'.
Proof.
  unfold InsertAgentSessionCheckpoint. destruct (insert_pk _ _ _ _); [done|].
  intros [= _ <-]. done.
Qed.

Lemma pause_session_frame status runnerID ck cn now e db u db' :
  pause_session status runnerID ck cn now e db = inr (u, db') →
  ∃ m, db' = db{{ agent_sessions := m }}.
Proof.
  unfold pause_session. intros H. tx_inv. by eapply update_latest_session_frame.
Qed.

Lemma pause_session_run_frame status runnerID ck cn now e db u db' :
  pause_session status runnerID ck cn now e db = inr (u, db') → run_frame db db'.
Proof. by intros [m ->]%pause_session_frame. Qed.

Lemma finish_run_frame runnerID chkID now e rs ss db b db' :
  finish_run runnerID chkID now e rs ss db = inr (b, db') → run_frame db db'.
Proof.
  unfold finish_run. intros H. apply tx_bind_inr in H as (n & db1 & H1 & H).
  apply tx_rows_inr, latest_prompt_run_frame in H1. apply tx_bind_inr in H as (s & db2 & H2 & H).
  apply tx_read_inr in H2 as [-> ->]. eapply run_frame_trans; [exact H1|].
  destruct (session_decision _ _ _); tx_inv.
  - by eapply pause_session_run_frame.
  - eapply run_frame_trans; [by eapply checkpoint_run_frame|by eapply pause_session_run_frame].
  - by eapply pause_session_run_frame.
  - by eapply latest_session_run_frame.
Qed.

Lemma store_event_inr `{Outbox} runnerID eventID now ids e db u db' :
  store_event runnerID eventID now ids e db = inr (u, db') →
  task_events db !! eventID = None ∧
  ∃ row, e_task_id row = re_TaskId e ∧ e_event_type row = event_type e ∧
         e_status row = event_status e ∧
         db' = db{{ task_events := <[eventID := row]> (task_events db);
                    callback_deliveries := callback_deliveries db' }}.
Proof.
  unfold store_event. intros Hst.
  apply tx_bind_inr in Hst as ([] & db1 & H1 & Hst).
  unfold InsertTaskEvent in H1. destruct (insert_pk _ _ _ _) as [?|m] eqn:Ei; [done|].
  injection H1 as <-. apply insert_pk_inr in Ei as [Hfresh ->]. split; [done|].
  eexists. split; [|split; [|split]]; cycle 3.
  - destruct dispatcher as [f|]; tx_inv.
    + match goal with He : enqueue _ _ _ _ = _ |- _ =>
        apply enqueue_frame in He as [He _]; rewrite He end. reflexivity.
    + reflexivity.
  - done.
  - done.
  - done.
Qed.

(** The rows an accepted event finds. *)
Record accepted (runnerID : string) (dbnow : time) (e : RunnerTaskEvent) (db : DB)
    (a : ExecutionAttempt) (pr : UserPrompt) (t : Task) : Prop := {
  ac_attempt : execution_attempts db !! re_ExecutionId e = Some a;
  ac_prompt : user_prompts db !! a_user_prompt_id a = Some pr;
  ac_links : p_task_id pr = re_TaskId e ∧ p_agent_session_id pr = re_AgentSessionId e ∧
             a_user_prompt_id a = re_UserPromptId e;
  ac_claim : live_claim dbnow runnerID (re_ClaimId e) a = true;
  ac_task : tasks db !! re_TaskId e = Some t;
  ac_status : t_status t = "running" ∨ t_status t = event_status e;
}.

Lemma check_owner_inr e db u db' :
  check_owner e db = inr (u, db') →
  db' = db ∧ ∃ a pr, execution_attempts db !! re_ExecutionId e = Some a ∧
    user_prompts db !! a_user_prompt_id a = Some pr ∧ p_task_id pr = re_TaskId e ∧
    p_agent_session_id pr = re_AgentSessionId e ∧ a_user_prompt_id a = re_UserPromptId e.
Proof.
  unfold check_owner. intros H. apply tx_bind_inr in H as (cx & s & H1 & H).
  apply tx_read_inr in H1 as [-> ->]. unfold GetExecutionAttemptContext, prompt_of in H.
  destruct (execution_attempts db !! re_ExecutionId e) as [a|]; [|done].
  destruct (user_prompts db !! a_user_prompt_id a) as [pr|] eqn:Ep; [|done].
  apply tx_guard_inr in H as [Hg ->]. split; [done|]. exists a, pr.
  apply negb_false_iff in Hg. rewrite !andb_true_iff, !bool_decide_eq_true in Hg.
  simpl in Hg. naive_solver.
Qed.

Record record_effect (runnerID : string) (now dbnow : time) (skipEventRow : bool)
    (eventID : string) (e : RunnerTaskEvent) (db db' : DB) (a : ExecutionAttempt) (t : Task)
    : Prop := {
  rf_attempts : execution_attempts db' =
    <[re_ExecutionId e := attempt_from_event (attempt_params runnerID now e) a]>
      (execution_attempts db);
  rf_totals : totals_ok (attempt_from_event (attempt_params runnerID now e) a) = true;
  rf_task : ∃ t', tasks db' !! re_TaskId e = Some t' ∧
    t' = (task_from_event (task_params now e) t){{ t_search_text := t_search_text t' }};
  rf_other_tasks : ∀ k, k ≠ re_TaskId e → tasks db' !! k = tasks db !! k;
  rf_events : if skipEventRow then task_events db' = task_events db
              else ∃ row, task_events db' = <[eventID := row]> (task_events db) ∧
                          e_task_id row = re_TaskId e ∧ e_event_type row = event_type e;
  rf_frame : runners db' = runners db ∧ runner_drain_requests db' = runner_drain_requests db;
}.

Lemma trigger_run_frame status taskID db :
  UpdateTriggerRunStatusByTask status taskID db =
  db{{ trigger_runs := trigger_runs (UpdateTriggerRunStatusByTask status taskID db) }}.
Proof. by destruct db. Qed.

(** The tail of the transaction, after the attempt and the task: it leaves
    those two tables alone but for the task's search text. *)
Lemma record_tail_tables `{Outbox} runnerID eventID chkID now ids (skip : bool) e db b db' :
  (match sessionTerminalStatuses (event_status e) with
   | None => mret false
   | Some (rs, ss) => finish_run runnerID chkID now e rs ss
   end ≫= λ st : bool,
     (if skip then mret tt else store_event runnerID eventID now ids e) ≫= λ _, mret st)
    db = inr (b, db') →
  execution_attempts db' = execution_attempts db ∧ tasks db' = tasks db ∧
  runners db' = runners db ∧ runner_drain_requests db' = runner_drain_requests db ∧
  if skip then task_events db' = task_events db
  else task_events db !! eventID = None ∧
       ∃ row, task_events db' = <[eventID := row]> (task_events db) ∧
              e_task_id row = re_TaskId e ∧ e_event_type row = event_type e.
Proof.
  intros Htx. apply tx_bind_inr in Htx as (st & db1 & H1 & Htx).
  assert (run_frame db db1) as Hf.
  { destruct (sessionTerminalStatuses _) as [[rs ss]|]; [by eapply finish_run_frame|].
    apply tx_ret_inr in H1 as [_ ->]. by destruct db. }
  assert (execution_attempts db1 = execution_attempts db ∧ tasks db1 = tasks db ∧
          runners db1 = runners db ∧ runner_drain_requests db1 = runner_drain_requests db ∧
          task_events db1 = task_events db) as (E1 & E2 & E3 & E4 & E5) by (by rewrite Hf).
  apply tx_bind_inr in Htx as ([] & db2 & H2 & Htx). apply tx_ret_inr in Htx as [-> ->].
  destruct skip.
  - by apply tx_ret_inr in H2 as [_ ->].
  - apply store_event_inr in H2 as (Hfresh & row & R1 & R2 & _ & Hd). rewrite Hd. simpl.
    do 4 (split; [done|]). rewrite <- E5. split; [done|]. by exists row.
Qed.

Lemma record_tx_inr `{Outbox} runnerID eventID chkID now dbnow ids skip e db b db' :
  record_tx runnerID eventID chkID now dbnow ids skip e db = inr (b, db') →
  ∃ a pr t, accepted runnerID dbnow e db a pr t ∧
            record_effect runnerID now dbnow skip eventID e db db' a t.
Proof.
  unfold record_tx. intros Htx.
  apply tx_bind_inr in Htx as ([] & s & H1 & Htx).
  apply check_owner_inr in H1 as (-> & a & pr & Ha & Hp & Hl1 & Hl2 & Hl3).
  apply tx_bind_inr in Htx as (n & db1 & H1 & Htx).
  apply tx_bind_inr in Htx as ([] & s & Hg & Htx). apply tx_guard_inr in Hg as [Hn ->].
  apply update_attempt_inr in H1 as (a' & Ha' & Hlive & Htot & ->); [|done].
  simpl in Ha', Hlive. rewrite Ha in Ha'. injection Ha' as <-.
  apply tx_bind_inr in Htx as (n2 & db2 & H2 & Htx). apply tx_rows_inr in H2.
  apply tx_bind_inr in Htx as ([] & s & Hg & Htx). apply tx_guard_inr in Hg as [Hn2 ->].
  apply on_tasks_pk_inr in H2 as (t & Ht & Hst & ->); [|done]. simpl in Ht, Hst.
  apply tx_bind_inr in Htx as (n3 & db3 & H3 & Htx).
  apply tx_rows_inr, update_latest_session_frame in H3 as [ms ->].
  apply tx_bind_inr in Htx as ([] & s & H4 & Htx). apply tx_write_inr in H4 as ->.
  apply tx_bind_inr in Htx as ([] & db4 & H5 & Htx). apply tx_write_inr in H5.
  match type of H5 with _ = _ (UpdateTaskSearchText ?k ?d) =>
    destruct (update_search_text_frame k d (task_from_event (task_params now e) t))
      as (m & Em & Hm1 & text & Hm2); [apply lookup_insert_eq|]; rewrite Em in H5; clear Em end.
  apply record_tail_tables in Htx as (Te & Tt & Tr & Td & Tev).
  assert (execution_attempts db4 = <[re_ExecutionId e := attempt_from_event
            (attempt_params runnerID now e) a]> (execution_attempts db) ∧
          tasks db4 = m ∧ runners db4 = runners db ∧
          runner_drain_requests db4 = runner_drain_requests db ∧
          task_events db4 = task_events db) as (E1 & E2 & E3 & E4 & E5).
  { destruct (one_of _ _); rewrite H5; done. }
  exists a, pr, t. split.
  - split; try done. apply orb_true_iff in Hst. by rewrite !bool_decide_eq_true in Hst.
  - split; try congruence.
    + rewrite Tt, E2, Hm2. eexists. split; [done|]. by simpl.
    + intros k Hk. rewrite Tt, E2. etransitivity; [by apply Hm1|]. by apply lookup_insert_ne.
    + destruct skip; [congruence|]. destruct Tev as (_ & row & Hr & ?). exists row.
      rewrite Hr, E5. done.
    + split; congruence.
Qed.

(** The event as it is stored: redacted with the set of its session. *)
Definition redacted (p : Proc) (e : RunnerTaskEvent) : RunnerTaskEvent :=
  match cachedRedactSet (re_AgentSessionId e) (pr_redact p) with
  | None => e
  | Some s => redact_event (Some s) e
  end.

Definition event_ids (e : RunnerTaskEvent) : string * string * string * string * string :=
  (re_TaskId e, re_ExecutionId e, re_AgentSessionId e, re_UserPromptId e, re_ClaimId e).

Lemma redacted_ids p e : event_ids (redacted p e) = event_ids e.
Proof. unfold redacted. by destruct (cachedRedactSet _ _). Qed.

(** The two ways a call that passes the argument checks can end. *)
Lemma recordTaskEvent_cases `{Outbox} runnerID eventID chkID now dbnow ids e db p r db' p' pub :
  recordTaskEvent runnerID eventID chkID now dbnow ids e db p = (r, db', p', pub) →
  (is_Some r ∧ db' = db ∧ pub = []) ∨
  (r = None ∧ runnerID ≠ "" ∧ ∃ skip b,
     record_tx runnerID eventID chkID now dbnow ids skip (redacted p e) db = inr (b, db') ∧
     pub = if skip then [] else [(re_TaskId e, eventID)]).
Proof.
  unfold recordTaskEvent.
  destruct (decide (runnerID = "")) as [->|Hr].
  { rewrite bool_decide_eq_true_2 by done. intros [= <- <- _ <-]. left. eauto. }
  rewrite bool_decide_eq_false_2 by done.
  destruct (re_TaskId e == ""); [intros [= <- <- _ <-]; left; eauto|].
  destruct (re_ExecutionId e == ""); [intros [= <- <- _ <-]; left; eauto|].
  change (match cachedRedactSet (re_AgentSessionId e) (pr_redact p) with
          | None => e | Some _ => redact_event (cachedRedactSet (re_AgentSessionId e) (pr_redact p)) e
          end) with (match cachedRedactSet (re_AgentSessionId e) (pr_redact p) with
          | None => e | Some _ => redact_event (cachedRedactSet (re_AgentSessionId e) (pr_redact p)) e
          end).
  assert (match cachedRedactSet (re_AgentSessionId e) (pr_redact p) with
          | None => e | Some _ => redact_event (cachedRedactSet (re_AgentSessionId e) (pr_redact p)) e
          end = redacted p e) as Hred.
  { unfold redacted. by destruct (cachedRedactSet _ _). }
  cbv zeta. rewrite Hred.
  assert (re_TaskId (redacted p e) = re_TaskId e) as Hid
    by (pose proof (redacted_ids p e) as [=]; done).
  destruct (if event_is_heartbeat _ then _ else _) as [skip seen].
  destruct (run_tx _ db) as [[er|b] db1] eqn:Etx.
  - pose proof (run_tx_error _ _ _ _ Etx) as ->.
    destruct er; intros [= <- <- _ <-]; left; eauto.
  - intros [= <- <- _ <-]. right. apply run_tx_ok in Etx. rewrite Hid. split; [done|].
    split; [done|]. by exists skip, b.
Qed.

(** Why an event is refused: nobody holds the attempt under this claim. *)
Definition not_owned (runnerID : string) (dbnow : time) (e : RunnerTaskEvent) (db : DB) : Prop :=
  match execution_attempts db !! re_ExecutionId e with
  | None => True
  | Some a =>
    live_claim dbnow runnerID (re_ClaimId e) a = false ∨
    match user_prompts db !! a_user_prompt_id a with
    | None => True
    | Some pr => (p_task_id pr, p_agent_session_id pr, a_user_prompt_id a)
                 ≠ (re_TaskId e, re_AgentSessionId e, re_UserPromptId e)
    end
  end.

Lemma record_tx_not_owned `{Outbox} runnerID eventID chkID now dbnow ids skip e db :
  not_owned runnerID dbnow e db →
  record_tx runnerID eventID chkID now dbnow ids skip e db = inl ETaskNotClaimed.
Proof.
  unfold not_owned, record_tx, check_owner. intros Hno.
  unfold mbind, tx_bind, tx_read, GetExecutionAttemptContext, prompt_of.
  destruct (execution_attempts db !! re_ExecutionId e) as [a|] eqn:Ea; [|done].
  destruct (user_prompts db !! a_user_prompt_id a) as [pr|] eqn:Ep; [|done].
  unfold tx_guard. simpl.
  destruct (_ && _ && _) eqn:El; simpl; [|done].
  rewrite !andb_true_iff, !bool_decide_eq_true in El. destruct El as [[E1 E2] E3].
  destruct Hno as [Hno|Hno]; [|congruence].
  unfold UpdateExecutionAttemptFromRunnerEvent, mret, tx_ret. simpl. rewrite Ea, Hno. done.
Qed.

(** ** Properties *)

(** C5. Fencing: an event of a runner that does not hold the attempt - another
    runner, another claim of the same runner, a lease that ran out, an attempt
    that is not running, or identifiers that do not match the attempt's prompt,
    session and task - is refused as a failed precondition and changes nothing
    in the database. *)
Theorem recordTaskEvent_fenced `{Outbox} runnerID eventID chkID now dbnow ids e db p :
  runnerID ≠ "" → re_TaskId e ≠ "" → re_ExecutionId e ≠ "" →
  not_owned runnerID dbnow e db →
  ∃ p', recordTaskEvent runnerID eventID chkID now dbnow ids e db p =
        (Some (EFailedPrecondition ("task is not running for runner " ^^ runnerID)), db, p', []).
Proof.
  intros Hr Ht Hx Hno. unfold recordTaskEvent.
  rewrite (bool_decide_eq_false_2 _ Hr), (bool_decide_eq_false_2 _ Ht),
    (bool_decide_eq_false_2 _ Hx). cbv zeta.
  set (e' := match cachedRedactSet _ _ with None => e | _ => _ end).
  assert (not_owned runnerID dbnow e' db) as Hno'.
  { unfold e'. by destruct (cachedRedactSet _ _). }
  destruct (if event_is_heartbeat _ then _ else _) as [skip seen].
  unfold run_tx. rewrite (record_tx_not_owned _ _ _ _ _ _ _ _ _ Hno'). by eexists.
Qed.


(** The session a paused run leaves behind. *)
Definition paused_as (status : string) (runnerID : string) (checkpointID : option string)
    (now : time) (e : RunnerTaskEvent) (s s' : AgentSession) : Prop :=
  s_status s' = status ∧ s_pinned_runner_id s' = Some runnerID ∧
  s_workspace_path s' = Some (re_WorkspacePath e) ∧
  s_checkpoint_id s' = coalesce checkpointID (s_checkpoint_id s) ∧
  s_harness_session_id s' =
    coalesce (nullString (re_OpencodeSessionId e)) (s_harness_session_id s) ∧
  s_paused_at s' = Some now.

Lemma nullif_null_nullString s : nullif_null (nullString s) = nullString s.
Proof. unfold nullString, nullif_empty. by case_match eqn:E; [|simpl; unfold nullif_empty; rewrite E]. Qed.

Lemma nullString_nonempty s : s ≠ "" → nullString s = Some s.
Proof. intros Hs. unfold nullString, nullif_empty. by rewrite bool_decide_eq_false_2. Qed.

Lemma pause_session_spec status runnerID ck cn now e db u db' sid s :
  pause_session status runnerID ck cn now e db = inr (u, db') →
  runnerID ≠ "" → re_WorkspacePath e ≠ "" → nullif_null ck = ck →
  GetAgentSessionByTaskID (re_TaskId e) db = Some (sid, s) → session_live (s_status s) = true →
  ∃ s', agent_sessions db' = <[sid := s']> (agent_sessions db) ∧
        paused_as status runnerID ck now e s s'.
Proof.
  unfold pause_session. intros Htx Hr Hw Hck Hg Hl. tx_inv.
  match goal with H : PauseAgentSessionByTaskID _ _ _ _ _ _ _ _ _ _ = _ |- _ =>
    unfold PauseAgentSessionByTaskID in H;
    apply (f_equal (λ r, agent_sessions r.2)) in H; simpl in H; rewrite <- H end.
  pose proof (latest_session_elem _ _ _ _ Hg) as (Hs & _).
  rewrite (update_latest_session_lookup _ _ _ _ _ Hg Hs), Hl.
  eexists. split; [done|]. unfold paused_as. simpl.
  rewrite !nullif_null_nullString, Hck, (nullString_nonempty _ Hr), (nullString_nonempty _ Hw). done.
Qed.

(** Latest session and its row survive the prompt update. *)
Lemma prompt_terminal_sessions st a b c d e f taskID db n db' :
  MarkUserPromptTerminalByTask st a b c d e f taskID db = (n, db') →
  GetAgentSessionByTaskID taskID db' = GetAgentSessionByTaskID taskID db ∧
  agent_sessions db' = agent_sessions db ∧
  agent_session_checkpoints db' = agent_session_checkpoints db.
Proof. intros [m ->]%update_latest_prompt_frame. done. Qed.

(** What the decision to keep a session rests on. *)
Lemma session_decision_kept ss s e :
  match session_decision ss s e with
  | SessionTerminal => True
  | SessionRecoverable => re_WorkspacePath e ≠ "" ∧ re_OpencodeSessionId e ≠ ""
  | _ => re_WorkspacePath e ≠ ""
  end.
Proof.
  unfold session_decision. destruct (re_WorkspacePath e == "") eqn:Ew; [done|].
  apply bool_decide_eq_false in Ew. destruct s as [s|]; [|done].
  destruct (re_OpencodeSessionId e == "") eqn:Eo.
  - rewrite andb_false_r. by repeat case_match.
  - apply bool_decide_eq_false in Eo. by repeat case_match.
Qed.

(** Where a terminal event takes the session of its run (the task's latest
    session, still live): a failure with a recoverable category keeps a
    harness session recoverable; a success checkpoints a gVisor session that
    sent a checkpoint, or pauses a resumable session; a kept session is pinned
    to the reporting runner with the reported workspace, a checkpointed one
    refers to a stored ready checkpoint; in every other case, and whenever no
    workspace was reported, the session ends with the given status. *)
Theorem finish_run_session runnerID chkID now e runStatus sessionStatus db b db' sid s :
  finish_run runnerID chkID now e runStatus sessionStatus db = inr (b, db') →
  runnerID ≠ "" → chkID ≠ "" →
  GetAgentSessionByTaskID (re_TaskId e) db = Some (sid, s) → session_live (s_status s) = true →
  ∃ s', agent_sessions db' = <[sid := s']> (agent_sessions db) ∧
  match session_decision sessionStatus (Some s) e with
  | SessionRecoverable =>
      b = false ∧ re_OpencodeSessionId e ≠ "" ∧ paused_as "recoverable" runnerID None now e s s'
  | SessionCheckpointed =>
      b = false ∧ paused_as "paused" runnerID (Some chkID) now e s s' ∧
      ∃ c, agent_session_checkpoints db' !! chkID = Some c ∧ c_status c = "ready" ∧
           c_agent_session_id c = sid ∧ c_checkpoint_path c = re_CheckpointPath e
  | SessionPaused => b = false ∧ paused_as "paused" runnerID None now e s s'
  | SessionTerminal => b = true ∧ s_status s' = sessionStatus ∧ s_ended_at s' = Some now
  end.
Proof.
  intros Htx Hr Hck Hg Hl. unfold finish_run in Htx.
  apply tx_bind_inr in Htx as (n & db1 & H1 & Htx). apply tx_rows_inr in H1.
  apply prompt_terminal_sessions in H1 as (Hg1 & Hs1 & Hc1).
  apply tx_bind_inr in Htx as (o & s2 & H2 & Htx). apply tx_read_inr in H2 as [-> ->].
  rewrite Hg1, Hg in Htx. change (snd <$> Some (sid, s)) with (Some s) in Htx.
  rewrite <- Hs1. rewrite <- Hg1 in Hg.
  pose proof (session_decision_kept sessionStatus (Some s) e) as Hk.
  destruct (session_decision sessionStatus (Some s) e).
  - tx_inv. destruct Hk as [Hw Ho].
    match goal with H : pause_session _ _ _ _ _ _ _ = _ |- _ =>
      eapply pause_session_spec in H as (s' & Hs' & Hp); [|done..] end. by exists s'.
  - tx_inv. match goal with H : InsertAgentSessionCheckpoint _ _ _ = _ |- _ =>
      unfold InsertAgentSessionCheckpoint in H; destruct (insert_pk _ _ _ _) as [?|mc] eqn:Ei;
      [done|injection H as <-; apply insert_pk_inr in Ei as [_ ->]] end.
    match goal with H : pause_session _ _ _ _ _ _ _ = _ |- _ =>
      pose proof (pause_session_frame _ _ _ _ _ _ _ _ _ H) as [mf ->];
      eapply pause_session_spec in H as (s' & Hs' & Hp);
      [|done|done|apply nullif_null_nullString|exact Hg|done] end.
    rewrite (nullString_nonempty _ Hck) in Hp.
    exists s'. split; [exact Hs'|]. split; [done|]. split; [exact Hp|].
    eexists. split; [apply lookup_insert_eq|done].
  - tx_inv. match goal with H : pause_session _ _ _ _ _ _ _ = _ |- _ =>
      eapply pause_session_spec in H as (s' & Hs' & Hp); [|done..] end. by exists s'.
  - tx_inv. match goal with H : MarkAgentSessionTerminalByTask _ _ _ _ _ _ _ _ = _ |- _ =>
      unfold MarkAgentSessionTerminalByTask in H;
      apply (f_equal (λ r, agent_sessions r.2)) in H; simpl in H; rewrite <- H end.
    pose proof (latest_session_elem _ _ _ _ Hg) as (Hs & _).
    rewrite (update_latest_session_lookup _ _ _ _ _ Hg Hs), Hl.
    eexists. split; [done|]. done.
Qed.

(** ** The heartbeat throttle over a run of the server *)

Inductive hb_op := HbStore (now : time) (taskID : string) | HbCleanup (now : time).

Definition hb_time (op : hb_op) : time := match op with HbStore t _ | HbCleanup t => t end.

(** The heartbeats that are stored, in order. *)
Fixpoint hb_run (ops : list hb_op) (seen : heartbeatSeen) : list (string * time) :=
  match ops with
  | [] => []
  | HbStore now taskID :: rest =>
      let r := shouldStoreHeartbeat now taskID seen in
      (if r.1 then [(taskID, now)] else []) ++ hb_run rest r.2
  | HbCleanup now :: rest => hb_run rest (cleanupHeartbeatSeen now seen)
  end.

Definition spaced (x y : string * time) : Prop :=
  x.1 = y.1 → heartbeatEventMinInterval <= y.2 - x.2.

(** The map remembers every stored heartbeat that is not yet a minute old. *)
Definition remembers (seen : heartbeatSeen) (now : time) (hist : list (string * time)) : Prop :=
  ∀ k t, (k, t) ∈ hist →
    (∃ last, seen !! k = Some last ∧ t <= last) ∨ t + heartbeatEventMinInterval <= now.

Lemma StronglySorted_snoc {A} (R : A → A → Prop) l x :
  StronglySorted R l → Forall (λ y, R y x) l → StronglySorted R (l ++ [x]).
Proof.
  induction 1 as [|y l Hl IH Hy]; simpl; intros Hx; [repeat constructor|].
  apply Forall_cons in Hx as [H1 H2]. constructor; [by apply IH|].
  apply Forall_app. split; [done|by repeat constructor].
Qed.

Lemma hb_store_remembers now0 now taskID seen hist :
  now0 <= now → remembers seen now0 hist → StronglySorted spaced hist →
  let r := shouldStoreHeartbeat now taskID seen in
  let hist' := hist ++ (if r.1 then [(taskID, now)] else []) in
  remembers r.2 now hist' ∧ StronglySorted spaced hist'.
Proof.
  intros Hle Hrem Hs. unfold shouldStoreHeartbeat.
  assert (remembers seen now hist) as Hrem'.
  { intros k t Hin. destruct (Hrem k t Hin) as [?|?]; [by left|right; lia]. }
  assert (∀ seen', (∀ k, k ≠ taskID → seen' !! k = seen !! k) → seen' !! taskID = Some now →
    (∀ last, seen !! taskID = Some last → last <= now - heartbeatEventMinInterval) →
    remembers seen' now (hist ++ [(taskID, now)]) ∧
    StronglySorted spaced (hist ++ [(taskID, now)])) as Hstore.
  { intros seen' Hne Heq Hlast. split.
    - intros k t [Hin|Hin]%elem_of_app.
      + destruct (decide (k = taskID)) as [->|Hk]; [|rewrite Hne by done; by apply Hrem'].
        right. destruct (Hrem' _ _ Hin) as [(last & Hl & ?)|?]; [|done].
        apply Hlast in Hl. lia.
      + apply list_elem_of_singleton in Hin as [= -> ->]. left. exists now. by split.
    - apply StronglySorted_snoc; [done|]. apply Forall_forall. intros [k t] Hin. unfold spaced.
      simpl. intros ->. destruct (Hrem' _ _ Hin) as [(last & Hl & ?)|?]; [|lia].
      apply Hlast in Hl. lia. }
  destruct (seen !! taskID) as [last|] eqn:El.
  - destruct (Z.ltb_spec (now - last) heartbeatEventMinInterval); simpl.
    + by rewrite app_nil_r.
    + apply Hstore; [intros; by apply lookup_insert_ne|apply lookup_insert_eq|].
      intros ? [= <-]. lia.
  - simpl. apply Hstore; [intros; by apply lookup_insert_ne|apply lookup_insert_eq|done].
Qed.

Lemma hb_cleanup_remembers now0 now seen hist :
  now0 <= now → remembers seen now0 hist → remembers (cleanupHeartbeatSeen now seen) now hist.
Proof.
  intros Hle Hrem k t Hin. destruct (Hrem k t Hin) as [(last & Hl & Ht)|?]; [|right; lia].
  destruct (Z.ltb_spec last (now - 2 * heartbeatEventMinInterval)).
  - right. unfold heartbeatEventMinInterval, seconds in *. lia.
  - left. exists last. split; [|done]. apply map_lookup_filter_Some. split; [done|]. simpl.
    by rewrite (proj2 (Z.ltb_ge _ _)).
Qed.

Lemma hb_run_spaced ops : ∀ now0 seen hist,
  StronglySorted Z.le (now0 :: map hb_time ops) → remembers seen now0 hist →
  StronglySorted spaced hist → StronglySorted spaced (hist ++ hb_run ops seen).
Proof.
  induction ops as [|op ops IH]; intros now0 seen hist Hs Hrem Hh; simpl; [by rewrite app_nil_r|].
  apply StronglySorted_inv in Hs as [Hs Hle]. simpl in Hle. apply Forall_cons in Hle as [Hle _].
  destruct op as [now taskID|now]; simpl in *.
  - destruct (hb_store_remembers _ now taskID seen hist Hle Hrem Hh) as [H1 H2].
    rewrite app_assoc. by eapply IH.
  - eapply IH; [done|by eapply hb_cleanup_remembers|done].
Qed.

(** However the server interleaves heartbeat reports and cleanups of its
    throttle map, as long as its clock does not go back the stored heartbeats
    of one task are at least a minute apart: dropping old entries never lets an
    extra one through. *)
Theorem heartbeat_throttle ops :
  StronglySorted Z.le (map hb_time ops) → StronglySorted spaced (hb_run ops ∅).
Proof.
  intros Hs. destruct ops as [|op ops]; [constructor|].
  apply (hb_run_spaced (op :: ops) (hb_time op) ∅ []); [|intros k t Hin; by apply not_elem_of_nil in Hin|constructor].
  constructor; [done|]. apply StronglySorted_inv in Hs as [_ Hf]. constructor; [lia|done].
Qed.

Lemma heartbeat_throttle_witness :
  StronglySorted spaced (hb_run [HbStore 0 "t"; HbStore (seconds 30) "t"; HbCleanup (seconds 200);
                                 HbStore (seconds 200) "t"] ∅).
Proof.
  apply heartbeat_throttle. repeat (constructor; [|repeat constructor; unfold seconds; simpl; lia]).
  constructor.
Defined.

(** ** Witnesses *)

Definition sample_event (status claimID : string) : RunnerTaskEvent :=
  mkRunnerTaskEvent "t1" "a1" "s1" "p1" claimID status "ok" "" "" "" "" None None "/ws" "oc1" ""
    "" "" "" "" None.

Definition empty_proc : Proc := mkProc ∅ ∅.

Lemma recordTaskEvent_fenced_witness :
  ∃ p', @recordTaskEvent no_outbox "r1" "evt_2" "chk_1" 10 10 sample_ids
          (sample_event "done" "clm_0") claimed_db empty_proc =
        (Some (EFailedPrecondition "task is not running for runner r1"), claimed_db, p', []).
Proof.
  apply (@recordTaskEvent_fenced no_outbox "r1"); [done|done|done|].
  unfold not_owned. vm_compute (execution_attempts claimed_db !! _). by left.
Defined.


Lemma finish_run_session_witness :
  ∃ b db' s', finish_run "r1" "chk_1" 10 (sample_event "done" "clm_1") "completed" "completed"
                claimed_db = inr (b, db') ∧
    agent_sessions db' = <["s1" := s']> (agent_sessions claimed_db) ∧
    b = false ∧ paused_as "paused" "r1" None 10 (sample_event "done" "clm_1") (sample_session "t1") s'.
Proof.
  destruct (finish_run "r1" "chk_1" 10 (sample_event "done" "clm_1") "completed" "completed"
              claimed_db) as [e|[b db']] eqn:E; [vm_compute in E; discriminate|].
  destruct (finish_run_session "r1" "chk_1" 10 (sample_event "done" "clm_1") "completed" "completed"
    claimed_db b db' "s1" (sample_session "t1") E) as (s' & H1 & H2);
    [done|done|by vm_compute|by vm_compute|].
  assert (session_decision "completed" (Some (sample_session "t1")) (sample_event "done" "clm_1")
          = SessionPaused) as Hd by (by vm_compute).
  rewrite Hd in H2. exists b, db', s'. split; [reflexivity|]. split; [exact H1|exact H2].
Defined.
