(* ===== verification/Heartbeat.v ===== *)
(** * Runner registration, heartbeats and drains

    [RegisterRunner], [Heartbeat], [upsertRunner], [auditMCPRelayRejections] and
    [runnerCommands] of [internal/service/runner_rpc.go], with the drain request
    table of [internal/service/coordination.go]. A heartbeat renews the leases
    of the attempts its runner still owns and tells the runner to stop the
    others; a drain request is delivered until the runner reports draining. *)
From S2P Require Import Prelude GoStrings Status Repos Db Queries Sample Outbox Claim.

Record RunningExecution := mkRunning {
  x_TaskId : string;
  x_AgentSessionId : string;
  x_UserPromptId : string;
  x_ExecutionId : string;
  x_ClaimId : string;
}.

Record RunnerInfo := mkRunnerInfo {
  i_RunnerId : string;
  i_Status : string;
  i_ImageRef : string;
  i_ImageDigest : string;
  i_Version : string;
  i_MaxConcurrent : Z;
  i_RunningTasks : Z;
  i_AvailableSlots : Z;
  i_EnforcedIsolation : bool;
  i_TotalStarted : Z;
  i_TotalCompleted : Z;
  i_TotalErrors : Z;
  i_StartedAt : option time;
  i_McpRelayRejectedRequests : Z;
  i_CurrentExecutions : list RunningExecution;
}.

Inductive RunnerCommand :=
| CmdDrain
| CmdCancel (taskID sessionID promptID executionID reason : string).

(** ** Drain requests *)

(** [INSERT IGNORE] *)
Definition requestRunnerDrainDB (now : time) (runnerID : string) (db : DB) : DB :=
  match runner_drain_requests db !! runnerID with
  | Some _ => db
  | None => db{{ runner_drain_requests := <[runnerID := now]> (runner_drain_requests db) }}
  end.

Definition RequestDrain := requestRunnerDrainDB.

Definition ackRunnerDrainDB (runnerID : string) (db : DB) : DB :=
  db{{ runner_drain_requests := delete runnerID (runner_drain_requests db) }}.

Definition drainRequestDeadRunnerGrace : Z := hours 24.

(** The two DELETE statements: requests of unknown runners, then of runners
    silent for longer than [grace]. *)
Definition reapStaleRunnerDrains (now grace : Z) (db : DB) : Z * DB :=
  let known := filter (λ kv, Is_true (bool_decide (is_Some (runners db !! kv.1))))
                 (runner_drain_requests db) in
  let live := filter (λ kv, Is_true (match runners db !! kv.1 with
                                     | Some r => negb (r_last_seen_at r <? now - grace)
                                     | None => true
                                     end)) known in
  (Z.of_nat (size (runner_drain_requests db)) - Z.of_nat (size live),
   db{{ runner_drain_requests := live }}).

(** ** Registration *)

Definition relay_key : string := "mcp_relay_rejected_requests".

(** The member of the heartbeat metadata that is read back. *)
Definition mcpRelayRejectedRequests (metadata : option (gmap string Z)) : Z :=
  match metadata with None => 0 | Some m => default 0 (m !! relay_key) end.

(** The number of newly rejected requests to audit, if any; [auditing] is
    whether a security audit logger is configured. *)
Definition auditMCPRelayRejections (auditing : bool) (info : RunnerInfo) (db : DB) : option Z :=
  if negb auditing || (i_McpRelayRejectedRequests info <=? 0) then None else
  let previous := mcpRelayRejectedRequests (GetRunnerHeartbeatMetadata (i_RunnerId info) db) in
  if i_McpRelayRejectedRequests info <=? previous then None
  else Some (i_McpRelayRejectedRequests info - previous).

Definition runner_row (now : time) (info : RunnerInfo) : Runner :=
  mkRunner (if i_Status info == "" then "active" else i_Status info)
    (nullString (i_ImageRef info)) (nullString (i_ImageDigest info)) (nullString (i_Version info))
    (i_MaxConcurrent info) (i_RunningTasks info) (i_AvailableSlots info) (i_TotalStarted info)
    (i_TotalCompleted info) (i_TotalErrors info) (i_StartedAt info) now now now
    {[ relay_key := i_McpRelayRejectedRequests info ]} (i_EnforcedIsolation info).

(** The error or the audited increment, and the database. *)
Definition upsertRunner (auditing : bool) (now : time) (info : RunnerInfo) (db : DB)
    : (err + option Z) * DB :=
  if i_RunnerId info == "" then (inl (EInvalidArgument "runner_id is required"), db)
  else (inr (auditMCPRelayRejections auditing info db),
        UpsertRunnerHeartbeat (i_RunnerId info) (runner_row now info) db).

Definition RegisterRunner := upsertRunner.

(** ** Commands *)

Definition runningExecutionAttemptIDs (values : list RunningExecution) : list string :=
  map x_ExecutionId (List.filter (λ v, negb (x_ExecutionId v == "")) values).

Definition executionCancelCommand (x : RunningExecution) (reason : string) : RunnerCommand :=
  CmdCancel (x_TaskId x) (x_AgentSessionId x) (x_UserPromptId x) (x_ExecutionId x) reason.

Definition executionAttemptCancelCommand (row : HeartbeatRow) (reason : string) : RunnerCommand :=
  CmdCancel (hb_TaskID row) (hb_AgentSessionID row) (hb_UserPromptID row)
    (hb_ExecutionAttemptID row) reason.

(** The drain part: acknowledge, or look for a pending request. [dbFails] is a
    database error of that step, which is logged and skipped. *)
Definition drain_commands (dbFails : bool) (info : RunnerInfo) (db : DB)
    : list RunnerCommand * DB :=
  if i_RunnerId info == "" then ([], db)
  else if one_of ["draining"; "drained"] (i_Status info)
  then ([], if dbFails then db else ackRunnerDrainDB (i_RunnerId info) db)
  else (if negb dbFails && peekRunnerDrainDB (i_RunnerId info) db then [CmdDrain] else [], db).

(** The execution names the hierarchy and claim of its attempt row. *)
Definition execution_matches (x : RunningExecution) (row : HeartbeatRow) : bool :=
  (hb_TaskID row == x_TaskId x) && (hb_AgentSessionID row == x_AgentSessionId x) &&
  (hb_UserPromptID row == x_UserPromptId x) && (hb_ClaimID row == x_ClaimId x).

(** The reason to stop an execution whose row is no longer running. *)
Definition stop_reason (row : HeartbeatRow) : option string :=
  if one_of ["cancelled"] (hb_Status row) then
    let reason := str_of (hb_Error row) in
    Some (if reason == "" then "cancelled by operator" else reason)
  else if one_of ["lost"] (hb_Status row) then Some "lease reclaimed; please stop"
  else if one_of ["running"] (hb_Status row) then None
  else Some "execution attempt is no longer running".

(** One iteration: at most one command, and the database after it. *)
Definition execution_command (runnerID : string) (now : time) (rows : list HeartbeatRow)
    (x : RunningExecution) (db : DB) : list RunnerCommand * DB :=
  match List.find (λ r, hb_ExecutionAttemptID r == x_ExecutionId x) rows with
  | None => ([executionCancelCommand x "execution attempt is no longer owned by this runner"], db)
  | Some row =>
    if negb (execution_matches x row) then
      ([executionCancelCommand x "execution hierarchy or claim does not match the claimed attempt"],
       db)
    else match stop_reason row with
    | Some reason => ([executionAttemptCancelCommand row reason], db)
    | None =>
      let '(renewed, db') :=
        RenewExecutionAttemptLease (Some (now + seconds defaultTaskLeaseSec)) (Some now) now
          (x_ExecutionId x) (nullString runnerID) (x_ClaimId x) db in
      (if renewed =? 0
       then [executionAttemptCancelCommand row "execution attempt is no longer running"] else [],
       db')
    end
  end.

Fixpoint execution_commands (runnerID : string) (now : time) (rows : list HeartbeatRow)
    (xs : list RunningExecution) (db : DB) : list RunnerCommand * DB :=
  match xs with
  | [] => ([], db)
  | x :: rest =>
      let '(cmds, db') := execution_command runnerID now rows x db in
      let '(cmds', db'') := execution_commands runnerID now rows rest db' in
      (cmds ++ cmds', db'')
  end.

Definition runnerCommands (dbFails : bool) (now : time) (info : RunnerInfo) (db : DB)
    : list RunnerCommand * DB :=
  let '(cmds, db) := drain_commands dbFails info db in
  match i_CurrentExecutions info with
  | [] => (cmds, db)
  | xs =>
    let rows := ListExecutionAttemptsForHeartbeat (runningExecutionAttemptIDs xs)
                  (i_RunnerId info) db in
    let '(cmds', db') := execution_commands (i_RunnerId info) now rows xs db in
    (cmds ++ cmds', db')
  end.

Definition Heartbeat (auditing dbFails : bool) (now : time) (info : RunnerInfo) (db : DB)
    : (err + list RunnerCommand) * DB :=
  match upsertRunner auditing now info db with
  | (inl e, db') => (inl e, db')
  | (inr _, db') => let '(cmds, db'') := runnerCommands dbFails now info db' in (inr cmds, db'')
  end.

(** ** Lemmas *)

Definition renew (now : time) (a : ExecutionAttempt) : ExecutionAttempt :=
  a{{ a_lease_expires_at := Some (now + seconds defaultTaskLeaseSec);
      a_last_event_at := Some now; a_updated_at := now }}.

(** The runner holds the attempt the execution names, under the claim and in
    the hierarchy it names. The lease is not asked about. *)
Definition holds (runnerID : string) (db : DB) (x : RunningExecution) (a : ExecutionAttempt) : Prop :=
  execution_attempts db !! x_ExecutionId x = Some a ∧ a_runner_id a = Some runnerID ∧
  a_status a = "running" ∧ a_claim_id a = x_ClaimId x ∧
  a_user_prompt_id a = x_UserPromptId x ∧
  ∃ p, user_prompts db !! a_user_prompt_id a = Some p ∧
       p_task_id p = x_TaskId x ∧ p_agent_session_id p = x_AgentSessionId x.

(** [db'] is [db] with some attempts of the runner renewed. *)
Definition renewal (runnerID : string) (now : time) (xs : list RunningExecution) (db db' : DB) : Prop :=
  ∃ m, db' = db{{ execution_attempts := m }} ∧
  ∀ id, m !! id = execution_attempts db !! id ∨
        ∃ x a, x ∈ xs ∧ x_ExecutionId x = id ∧ holds runnerID db x a ∧ m !! id = Some (renew now a).

Lemma renewal_refl runnerID now xs db : renewal runnerID now xs db db.
Proof. exists (execution_attempts db). split; [by destruct db|by left]. Qed.

Lemma heartbeat_row_spec ids runnerID db row :
  row ∈ ListExecutionAttemptsForHeartbeat ids runnerID db ↔
  ∃ id a p, execution_attempts db !! id = Some a ∧ id ∈ ids ∧ a_runner_id a = Some runnerID ∧
    user_prompts db !! a_user_prompt_id a = Some p ∧
    row = mkHeartbeatRow id (a_claim_id a) (a_status a) (a_error a) (p_task_id p)
            (p_agent_session_id p) (a_user_prompt_id a).
Proof.
  unfold ListExecutionAttemptsForHeartbeat, prompt_of. rewrite list_elem_of_omap. split.
  - intros ([id a] & Hin%elem_of_map_to_list & Hr). simpl in Hr.
    destruct (one_of ids id && _) eqn:E; [|done].
    apply andb_true_iff in E as [E1%one_of_spec E2%bool_decide_eq_true].
    destruct (user_prompts db !! a_user_prompt_id a) as [p|] eqn:Ep; [|done].
    injection Hr as <-. by exists id, a, p.
  - intros (id & a & p & Ha & Hid & Hr & Hp & ->). exists (id, a).
    split; [by apply elem_of_map_to_list|]. simpl.
    by rewrite (proj2 (one_of_spec _ _) Hid), Hr, bool_decide_eq_true_2, Hp.
Qed.

(** The row found for an execution, or why there is none. *)
Lemma find_row ids runnerID db x :
  x_ExecutionId x ∈ ids →
  match List.find (λ r, hb_ExecutionAttemptID r == x_ExecutionId x)
          (ListExecutionAttemptsForHeartbeat ids runnerID db) with
  | None => ∀ a, ¬ holds runnerID db x a
  | Some row => ∃ a p, execution_attempts db !! x_ExecutionId x = Some a ∧
      a_runner_id a = Some runnerID ∧ user_prompts db !! a_user_prompt_id a = Some p ∧
      row = mkHeartbeatRow (x_ExecutionId x) (a_claim_id a) (a_status a) (a_error a) (p_task_id p)
              (p_agent_session_id p) (a_user_prompt_id a)
  end.
Proof.
  intros Hid. destruct (List.find _ _) as [row|] eqn:E.
  - apply List.find_some in E as [Hin%list_elem_of_In Heq%bool_decide_eq_true].
    apply heartbeat_row_spec in Hin as (id & a & p & Ha & _ & Hr & Hp & ->).
    simpl in Heq. subst id. by exists a, p.
  - intros a (Ha & Hr & Hs & Hc & Hp & p & Hpp & _).
    assert (mkHeartbeatRow (x_ExecutionId x) (a_claim_id a) (a_status a) (a_error a) (p_task_id p)
              (p_agent_session_id p) (a_user_prompt_id a)
            ∈ ListExecutionAttemptsForHeartbeat ids runnerID db) as Hin
      by (apply heartbeat_row_spec; by exists (x_ExecutionId x), a, p).
    apply list_elem_of_In in Hin. eapply List.find_none in E; [|exact Hin].
    by apply bool_decide_eq_false in E.
Qed.

Definition cancels (x : RunningExecution) (cmds : list RunnerCommand) : Prop :=
  ∃ reason, executionCancelCommand x reason ∈ cmds.

(** The command asks for the end of the execution. *)
Definition cancelled_by (id : string) (cmds : list RunnerCommand) : Prop :=
  ∃ t s p reason, CmdCancel t s p id reason ∈ cmds.

Lemma cancelled_by_app id c1 c2 : cancelled_by id (c1 ++ c2) ↔ cancelled_by id c1 ∨ cancelled_by id c2.
Proof. unfold cancelled_by. setoid_rewrite elem_of_app. naive_solver. Qed.

Lemma renew_hit now runnerID a id claim (m : gmap string ExecutionAttempt) :
  runnerID ≠ "" → m !! id = Some a → a_runner_id a = Some runnerID → a_claim_id a = claim →
  a_status a = "running" →
  update_pk id
    (λ a, match nullString runnerID with Some r => a_runner_id a == Some r | None => false end &&
          (a_claim_id a == claim) && (a_status a == "running"))
    (λ a, a{{ a_lease_expires_at := Some (now + seconds defaultTaskLeaseSec);
              a_last_event_at := Some now; a_updated_at := now }}) m = (1, <[id := renew now a]> m).
Proof.
  intros Hr Hm H1 H2 H3. apply update_pk_hit; [done|].
  unfold nullString, nullif_empty. rewrite (bool_decide_eq_false_2 _ Hr), H1, H2, H3.
  by rewrite !bool_decide_eq_true_2.
Qed.

(** One iteration of the loop, on a state where earlier iterations renewed. *)
Lemma execution_command_spec runnerID now ids xs x db0 db cmds db' :
  runnerID ≠ "" → x ∈ xs → x_ExecutionId x ∈ ids → renewal runnerID now xs db0 db →
  execution_command runnerID now (ListExecutionAttemptsForHeartbeat ids runnerID db0) x db
    = (cmds, db') →
  renewal runnerID now xs db0 db' ∧
  (∀ a, holds runnerID db0 x a → cmds = [] ∧
        execution_attempts db' !! x_ExecutionId x = Some (renew now a)) ∧
  ((∀ a, ¬ holds runnerID db0 x a) → cancels x cmds) ∧
  ∀ id a, execution_attempts db0 !! id = Some a → execution_attempts db !! id = Some (renew now a) →
          execution_attempts db' !! id = Some (renew now a).
Proof.
  intros Hr Hx Hid Hren. unfold execution_command.
  pose proof (find_row ids runnerID db0 x Hid) as Hf.
  destruct (List.find _ _) as [row|].
  2: { intros [= <- <-]. split; [done|]. split; [|split; [|done]].
       - intros a Ha. by apply Hf in Ha.
       - intros _. eexists. by left. }
  destruct Hf as (a & p & Ha & Hrun & Hp & ->). cbn [hb_Status hb_Error].
  unfold execution_matches. cbn [hb_TaskID hb_AgentSessionID hb_UserPromptID hb_ClaimID].
  destruct (_ && _ && _ && _) eqn:Em; cbn [negb].
  2: { intros [= <- <-]. split; [done|]. split; [|split; [|done]].
       - intros a' (Ha' & _ & _ & Hc & Hu & p' & Hp' & Ht & Hs). simplify_eq.
         rewrite Hc, Hu, Ht, Hs, !bool_decide_eq_true_2 in Em by done. done.
       - intros _. eexists. by left. }
  rewrite !andb_true_iff, !bool_decide_eq_true in Em. destruct Em as [[[E1 E2] E3] E4].
  destruct (stop_reason _) as [reason|] eqn:Es.
  { intros [= <- <-]. split; [done|]. split; [|split; [|done]].
    - intros a' (Ha' & _ & Hs & _). simplify_eq. unfold stop_reason in Es. simpl in Es.
      by rewrite Hs in Es.
    - intros _. exists reason. unfold executionCancelCommand, executionAttemptCancelCommand. simpl.
      rewrite E1, E2, E3. by left. }
  assert (a_status a = "running") as Hs.
  { unfold stop_reason, one_of in Es. simpl in Es. rewrite !orb_false_r in Es.
    by destruct (a_status a =? "cancelled")%string, (a_status a =? "lost")%string,
      (String.eqb_spec (a_status a) "running"). }
  assert (holds runnerID db0 x a) as Hh by (repeat split; eauto).
  assert (∃ a', execution_attempts db !! x_ExecutionId x = Some a' ∧ a_runner_id a' = Some runnerID ∧
            a_claim_id a' = x_ClaimId x ∧ a_status a' = "running" ∧ renew now a' = renew now a)
    as (a' & Ha' & H1 & H2 & H3 & H4).
  { destruct Hren as (m & -> & Hm). simpl. destruct (Hm (x_ExecutionId x)) as [->|(y & b & _ & Hy & Hb & ->)].
    - exists a. split_and!; [exact Ha|exact Hrun|exact E4|exact Hs|done].
    - destruct Hb as (Hb & _). rewrite Hy in Hb. simplify_eq. eexists. split; [done|].
      split_and!; [exact Hrun|exact E4|exact Hs|done]. }
  unfold RenewExecutionAttemptLease, on_attempts.
  rewrite (renew_hit _ _ _ _ _ _ Hr Ha' H1 H2 H3), H4. cbn [fst snd Z.eqb]. intros [= <- <-].
  split; [|split; [|split]].
  - destruct Hren as (m & -> & Hm). exists (<[x_ExecutionId x := renew now a]> m). split; [done|].
    intros id. destruct (decide (id = x_ExecutionId x)) as [->|Hne].
    + right. exists x, a. rewrite lookup_insert_eq. done.
    + rewrite lookup_insert_ne by done. apply Hm.
  - intros b (Hb & _). simplify_eq. split; [done|]. apply lookup_insert_eq.
  - intros Hno. by destruct (Hno a).
  - intros id b Hb Hrb. destruct (decide (id = x_ExecutionId x)) as [->|Hne].
    + simplify_eq. apply lookup_insert_eq.
    + etransitivity; [by apply lookup_insert_ne|exact Hrb].
Qed.

Lemma execution_commands_spec runnerID now ids xs db0 : ∀ ys db cmds db',
  runnerID ≠ "" → (∀ y, y ∈ ys → y ∈ xs ∧ x_ExecutionId y ∈ ids) → renewal runnerID now xs db0 db →
  execution_commands runnerID now (ListExecutionAttemptsForHeartbeat ids runnerID db0) ys db
    = (cmds, db') →
  renewal runnerID now xs db0 db' ∧
  (∀ x, x ∈ ys → (∀ a, ¬ holds runnerID db0 x a) → cancels x cmds) ∧
  (∀ x a, x ∈ ys → holds runnerID db0 x a →
     execution_attempts db' !! x_ExecutionId x = Some (renew now a)) ∧
  (∀ id a, execution_attempts db0 !! id = Some a → execution_attempts db !! id = Some (renew now a) →
     execution_attempts db' !! id = Some (renew now a)).
Proof.
  induction ys as [|y ys IH]; intros db cmds db' Hr Hin Hren; cbn [execution_commands].
  { intros [= <- <-]. split; [done|]. split; [|split; [|done]].
    - by intros x ?%elem_of_nil.
    - by intros x a ?%elem_of_nil. }
  destruct (execution_command _ _ _ _ _) as [c1 db1] eqn:E1.
  destruct (execution_commands _ _ _ _ db1) as [c2 db2] eqn:E2. intros [= <- <-].
  destruct (Hin y (list_elem_of_here _ _)) as [Hy1 Hy2].
  destruct (execution_command_spec _ _ _ _ _ _ _ _ _ Hr Hy1 Hy2 Hren E1) as (Hr1 & Hh1 & Hc1 & Ho1).
  destruct (IH db1 c2 db2 Hr) as (Hr2 & Hc2 & Hh2 & Hk2); [by intros z Hz; apply Hin; right|done|done|].
  split; [done|]. split; [|split].
  - intros x [->|Hx]%elem_of_cons Hno.
    + destruct (Hc1 Hno) as (r & Hcmd). exists r. apply elem_of_app. by left.
    + destruct (Hc2 x Hx Hno) as (r & Hcmd). exists r. apply elem_of_app. by right.
  - intros x a [->|Hx]%elem_of_cons Hh; [|by apply Hh2].
    apply Hk2; [by destruct Hh|by apply Hh1].
  - intros id a Hid0 Hida. apply Hk2; [done|]. by apply Ho1.
Qed.

(** The command of an iteration is about its execution. *)
Lemma execution_command_about runnerID now rows x db id :
  cancelled_by id (execution_command runnerID now rows x db).1 → id = x_ExecutionId x.
Proof.
  intros (t & s & p & r & Hin). unfold execution_command in Hin.
  destruct (List.find _ _) as [row|] eqn:Ef.
  2: { by apply list_elem_of_singleton in Hin as [= _ _ _ ->]. }
  apply List.find_some in Ef as [_ Heq%bool_decide_eq_true].
  destruct (negb _); [by apply list_elem_of_singleton in Hin as [= _ _ _ ->]|].
  destruct (stop_reason row) as [reason|];
    [apply list_elem_of_singleton in Hin as [= _ _ _ -> _]; done|].
  destruct (RenewExecutionAttemptLease _ _ _ _ _ _ _) as [n db1]. cbn [fst] in Hin.
  destruct (n =? 0); [|by apply elem_of_nil in Hin].
  apply list_elem_of_singleton in Hin as [= _ _ _ -> _]. done.
Qed.

(** The loop cancels executions of the list only, and none that is held. *)
Lemma execution_commands_only runnerID now ids xs db0 id : ∀ ys db,
  runnerID ≠ "" → (∀ y, y ∈ ys → y ∈ xs ∧ x_ExecutionId y ∈ ids) → renewal runnerID now xs db0 db →
  cancelled_by id (execution_commands runnerID now (ListExecutionAttemptsForHeartbeat ids runnerID db0) ys db).1 →
  ∃ x, x ∈ ys ∧ x_ExecutionId x = id ∧ ∀ a, ¬ holds runnerID db0 x a.
Proof.
  induction ys as [|y ys IH]; intros db Hr Hin Hren; cbn [execution_commands].
  { by intros (? & ? & ? & ? & ?%elem_of_nil). }
  destruct (Hin y (list_elem_of_here _ _)) as [Hy1 Hy2].
  pose proof (execution_command_about runnerID now (ListExecutionAttemptsForHeartbeat ids runnerID db0) y db id) as Ha.
  destruct (execution_command _ _ _ _ _) as [c1 db1] eqn:E1.
  destruct (execution_command_spec _ _ _ _ _ _ _ _ _ Hr Hy1 Hy2 Hren E1) as (Hr1 & Hh1 & _ & _).
  specialize (IH db1 Hr (λ z Hz, Hin z (list_elem_of_further _ _ _ Hz)) Hr1).
  destruct (execution_commands _ _ _ _ db1) as [c2 db2]. cbn [fst] in *. intros [Hc|Hc]%cancelled_by_app.
  - exists y. split; [by left|]. split; [by rewrite Ha|]. intros a Hh. destruct (Hh1 a Hh) as [-> _].
    by destruct Hc as (? & ? & ? & ? & ?%elem_of_nil).
  - destruct (IH Hc) as (x & ? & ?). exists x. split; [by right|done].
Qed.

(** The drain step does not touch what the loop reads. *)
Lemma drain_commands_frame dbFails info db :
  ∃ m, (drain_commands dbFails info db).2 = db{{ runner_drain_requests := m }}.
Proof.
  unfold drain_commands. destruct (_ == _); [by exists (runner_drain_requests db); destruct db|].
  case_match; [|exists (runner_drain_requests db); by destruct db].
  destruct dbFails; simpl; [exists (runner_drain_requests db); by destruct db|by eexists].
Qed.

Lemma holds_ext runnerID db db' x a :
  execution_attempts db' = execution_attempts db → user_prompts db' = user_prompts db →
  holds runnerID db' x a ↔ holds runnerID db x a.
Proof. unfold holds. by intros -> ->. Qed.

Lemma drain_commands_cancel_none dbFails info db t s p id r : CmdCancel t s p id r ∉ (drain_commands dbFails info db).1.
Proof.
  unfold drain_commands. destruct (_ == _); [by intros ?%elem_of_nil|]. case_match; [by intros ?%elem_of_nil|].
  cbn [fst]. destruct (_ && _); [by intros ?%list_elem_of_singleton|by intros ?%elem_of_nil].
Qed.

(** What a heartbeat does to the executions it lists. *)
Lemma heartbeat_outcome auditing dbFails now info db cmds db' :
  Heartbeat auditing dbFails now info db = (inr cmds, db') →
  (∀ x, x ∈ i_CurrentExecutions info → x_ExecutionId x ≠ "") →
  (∀ x, x ∈ i_CurrentExecutions info → (∀ a, ¬ holds (i_RunnerId info) db x a) → cancels x cmds) ∧
  (∀ x a, x ∈ i_CurrentExecutions info → holds (i_RunnerId info) db x a →
     execution_attempts db' !! x_ExecutionId x = Some (renew now a)) ∧
  (∀ id, execution_attempts db' !! id = execution_attempts db !! id ∨
        ∃ x a, x ∈ i_CurrentExecutions info ∧ x_ExecutionId x = id ∧
               holds (i_RunnerId info) db x a ∧ execution_attempts db' !! id = Some (renew now a)) ∧
  ∀ id, cancelled_by id cmds →
        ∃ x, x ∈ i_CurrentExecutions info ∧ x_ExecutionId x = id ∧ ∀ a, ¬ holds (i_RunnerId info) db x a.
Proof.
  intros Hhb Hids. unfold Heartbeat, upsertRunner in Hhb.
  destruct (decide (i_RunnerId info = "")) as [Hr|Hr];
    [by rewrite (bool_decide_eq_true_2 _ Hr) in Hhb|rewrite (bool_decide_eq_false_2 _ Hr) in Hhb].
  destruct (runnerCommands _ _ _ _) as [cs db2] eqn:Erc. injection Hhb as <- <-.
  unfold runnerCommands in Erc.
  set (db1 := UpsertRunnerHeartbeat (i_RunnerId info) (runner_row now info) db) in *.
  destruct (drain_commands_frame dbFails info db1) as [m Hm].
  pose proof (drain_commands_cancel_none dbFails info db1) as Hnc.
  destruct (drain_commands dbFails info db1) as [c0 dbd] eqn:Ed. simpl in Hm. cbn [fst] in Hnc.
  assert (∀ x a, holds (i_RunnerId info) dbd x a ↔ holds (i_RunnerId info) db x a) as Hh
    by (intros; rewrite Hm; apply holds_ext; done).
  assert (execution_attempts dbd = execution_attempts db) as Hatt by (by rewrite Hm).
  destruct (i_CurrentExecutions info) as [|y ys] eqn:Exs.
  { injection Erc as <- <-. split; [by intros x ?%elem_of_nil|].
    split; [by intros x a ?%elem_of_nil|]. split; [intros id; left; by rewrite Hatt|].
    intros id (t & s & p & r & Hin). by apply Hnc in Hin. }
  rewrite <- Exs in *. clear Exs.
  assert (∀ x, x ∈ i_CurrentExecutions info → x ∈ i_CurrentExecutions info ∧
            x_ExecutionId x ∈ runningExecutionAttemptIDs (i_CurrentExecutions info)) as Hlist.
  { intros x Hx. split; [exact Hx|]. apply list_elem_of_fmap. exists x. split; [done|].
       apply list_elem_of_In, filter_In. split; [by apply list_elem_of_In|].
       by rewrite bool_decide_eq_false_2 by (by apply Hids). }
  pose proof (λ id, execution_commands_only _ now _ _ _ id _ _ Hr Hlist (renewal_refl _ now _ dbd)) as Hon.
  destruct (execution_commands _ _ _ _ _) as [c1 db3] eqn:Ec. injection Erc as <- <-.
  eapply execution_commands_spec in Ec as (Hren & Hc & Hk & _); [|done|exact Hlist|apply renewal_refl].
  split; [|split; [|split]].
  - intros x Hx Hno. destruct (Hc x Hx) as (r & Hin).
    { intros a Ha. by apply (Hno a), Hh. }
    exists r. apply elem_of_app. by right.
  - intros x a Hx Ha. by apply Hk; [|apply Hh].
  - intros id. destruct Hren as (m' & -> & Hm'). simpl. rewrite <- Hatt.
    destruct (Hm' id) as [?|(x & a & Hx & Hid & Ha & ?)]; [by left|right].
    exists x, a. split; [done|]. split; [done|]. split; [by apply Hh|done].
  - intros id [(t & s & p & r & Hin)|Hcan]%cancelled_by_app; [by apply Hnc in Hin|].
    destruct (Hon id Hcan) as (x & Hx & Hid & Hno). exists x. split; [done|]. split; [done|].
    intros a Ha. by apply (Hno a), Hh.
Qed.

(** ** Properties *)

(** C8. A heartbeat settles every execution it lists: one the runner still
    holds (same claim, same session, prompt and task, running - even after its
    lease ran out) gets a lease of two minutes from now, any other one gets a
    cancel command that names it in full; and the heartbeat changes no other attempt, and nothing but
    lease and time stamps of those. No cancel command is about an execution that
    is held, or that the heartbeat did not list. *)
Theorem heartbeat_settles auditing dbFails now info db cmds db' :
  Heartbeat auditing dbFails now info db = (inr cmds, db') →
  (∀ x, x ∈ i_CurrentExecutions info → x_ExecutionId x ≠ "") →
  (∀ x, x ∈ i_CurrentExecutions info → (∀ a, ¬ holds (i_RunnerId info) db x a) → cancels x cmds) ∧
  (∀ x a, x ∈ i_CurrentExecutions info → holds (i_RunnerId info) db x a →
     execution_attempts db' !! x_ExecutionId x = Some (renew now a)) ∧
  (∀ id, execution_attempts db' !! id = execution_attempts db !! id ∨
        ∃ x a, x ∈ i_CurrentExecutions info ∧ x_ExecutionId x = id ∧
               holds (i_RunnerId info) db x a ∧ execution_attempts db' !! id = Some (renew now a)) ∧
  ∀ id, cancelled_by id cmds →
        ∃ x, x ∈ i_CurrentExecutions info ∧ x_ExecutionId x = id ∧ ∀ a, ¬ holds (i_RunnerId info) db x a.
Proof. apply heartbeat_outcome. Qed.

Lemma execution_command_drains runnerID now rows x db :
  runner_drain_requests (execution_command runnerID now rows x db).2 = runner_drain_requests db.
Proof.
  unfold execution_command. destruct (List.find _ _) as [row|]; [|done].
  case_match; [done|]. case_match; [done|]. done.
Qed.

Lemma execution_commands_drains runnerID now rows xs : ∀ db,
  runner_drain_requests (execution_commands runnerID now rows xs db).2 = runner_drain_requests db.
Proof.
  induction xs as [|x xs IH]; intros db; [done|]. cbn [execution_commands].
  pose proof (execution_command_drains runnerID now rows x db) as H1.
  destruct (execution_command _ _ _ _ _) as [c1 db1]. specialize (IH db1).
  destruct (execution_commands _ _ _ _ db1) as [c2 db2]. simpl in *. congruence.
Qed.

Lemma heartbeat_drain auditing dbFails now info db :
  i_RunnerId info ≠ "" →
  ∃ cmds db', Heartbeat auditing dbFails now info db = (inr cmds, db') ∧
    runner_drain_requests db' =
      runner_drain_requests (drain_commands dbFails info
        (UpsertRunnerHeartbeat (i_RunnerId info) (runner_row now info) db)).2 ∧
    ∀ c, c ∈ (drain_commands dbFails info
        (UpsertRunnerHeartbeat (i_RunnerId info) (runner_row now info) db)).1 → c ∈ cmds.
Proof.
  intros Hr. unfold Heartbeat, upsertRunner. rewrite (bool_decide_eq_false_2 _ Hr).
  unfold runnerCommands. set (db1 := UpsertRunnerHeartbeat _ _ _).
  destruct (drain_commands dbFails info db1) as [c0 db2].
  destruct (i_CurrentExecutions info) as [|y ys]; [by exists c0, db2|].
  pose proof (execution_commands_drains (i_RunnerId info) now
    (ListExecutionAttemptsForHeartbeat (runningExecutionAttemptIDs (y :: ys)) (i_RunnerId info) db2)
    (y :: ys) db2) as Hd.
  destruct (execution_commands _ _ _ _ _) as [c1 db3]. exists (c0 ++ c1), db3.
  split; [done|]. split; [done|]. intros c Hc. apply elem_of_app. by left.
Qed.

(** A pending drain request is delivered at least once: as long as the
    runner has not reported draining, each of its heartbeats carries the drain
    command and keeps the request, its claims are refused, and the reaper keeps
    the request while the runner was seen within the grace period; the first
    heartbeat that reports draining removes it. *)
Theorem drain_at_least_once `{Outbox} auditing now info db t skip lease now' eventID claimID ids :
  let r := i_RunnerId info in
  r ≠ "" → runner_drain_requests db !! r = Some t →
  (one_of ["draining"; "drained"] (i_Status info) = false →
   ∃ cmds db', Heartbeat auditing false now info db = (inr cmds, db') ∧ CmdDrain ∈ cmds ∧
               runner_drain_requests db' !! r = Some t) ∧
  (one_of ["draining"; "drained"] (i_Status info) = true →
   ∃ cmds db', Heartbeat auditing false now info db = (inr cmds, db') ∧
               runner_drain_requests db' !! r = None) ∧
  claimOnce false skip r lease now' eventID claimID ids db = (inl ENoClaimableTask, db, []) ∧
  ∀ rn grace, runners db !! r = Some rn → now' - grace <= r_last_seen_at rn →
    runner_drain_requests (reapStaleRunnerDrains now' grace db).2 !! r = Some t.
Proof.
  intros r Hr Ht. subst r.
  assert (runner_drain_requests (UpsertRunnerHeartbeat (i_RunnerId info) (runner_row now info) db)
            !! i_RunnerId info = Some t) as Ht1 by done.
  destruct (heartbeat_drain auditing false now info db Hr) as (cmds & db' & Hhb & Hd & Hc).
  unfold drain_commands in Hd, Hc. rewrite (bool_decide_eq_false_2 _ Hr) in Hd, Hc.
  split; [|split; [|split]].
  - intros Hs. rewrite Hs in Hd, Hc. exists cmds, db'. split; [done|].
    unfold peekRunnerDrainDB in Hc. rewrite Ht1 in Hc.
    split; [apply Hc; by left|]. by rewrite Hd.
  - intros Hs. rewrite Hs in Hd, Hc. exists cmds, db'. split; [done|].
    rewrite Hd. apply lookup_delete_eq.
  - unfold claimOnce. rewrite (bool_decide_eq_false_2 _ Hr). unfold peekRunnerDrainDB.
    by rewrite Ht.
  - intros rn grace Hrn Hle. simpl. apply map_lookup_filter_Some. split.
    + apply map_lookup_filter_Some. split; [done|]. simpl. by rewrite Hrn.
    + simpl. rewrite Hrn. by rewrite (proj2 (Z.ltb_ge _ _)).
Qed.

Definition sample_info (status : string) (xs : list RunningExecution) : RunnerInfo :=
  mkRunnerInfo "r1" status "" "" "" 1 0 1 false 0 0 0 None 0 xs.

Lemma heartbeat_settles_witness :
  ∃ cmds db', Heartbeat false false 9 (sample_info "active" [mkRunning "t1" "s1" "p1" "a9" "c"])
                sample_db = (inr cmds, db') ∧
    cancels (mkRunning "t1" "s1" "p1" "a9" "c") cmds.
Proof.
  destruct (Heartbeat false false 9 (sample_info "active" [mkRunning "t1" "s1" "p1" "a9" "c"])
              sample_db) as [[e|cmds] db'] eqn:E; [vm_compute in E; discriminate|].
  exists cmds, db'. split; [done|].
  apply (heartbeat_settles _ _ _ _ _ _ _ E); [by intros x ->%list_elem_of_singleton|by left|].
  intros a (Ha & _). vm_compute in Ha. discriminate.
Defined.

Lemma drain_at_least_once_witness :
  @claimOnce no_outbox false no_skip "r1" (seconds 120) 5 "e" "c" sample_ids
    (requestRunnerDrainDB 3 "r1" sample_db)
  = (inl ENoClaimableTask, requestRunnerDrainDB 3 "r1" sample_db, []).
Proof.
  apply (@drain_at_least_once no_outbox false 4 (sample_info "active" [])
           (requestRunnerDrainDB 3 "r1" sample_db) 3); [done|by vm_compute].
Defined.
