(* ===== verification/Workspaces.v ===== *)
(** * Workspace pruning

    [PruneWorkspaces] of [internal/service/runner_rpc.go]: a runner asks which
    leftover workspaces, or containers in container scope, it may delete. *)
From S2P Require Import Prelude GoStrings Status Repos Db Queries Sample.

Record WorkspaceCandidate := mkCandidate {
  w_TaskId : string;
  w_ExecutionId : string;
  w_WorkspacePath : string;
}.

Definition retained_status : string → bool :=
  one_of ["running"; "resuming"; "paused"; "recoverable"; "paused_waiting_review"].

(** The three EXISTS of the candidate query. *)
Definition live_attempt (runnerID : string) (containerScope : bool) (c : WorkspaceCandidate)
    (db : DB) : bool :=
  match execution_attempts db !! w_ExecutionId c with
  | None => false
  | Some a => (task_of db a == Some (w_TaskId c)) && (a_status a == "running") &&
              (containerScope || (a_runner_id a == Some runnerID))
  end.

Definition retained_session (runnerID : string) (containerScope : bool) (c : WorkspaceCandidate)
    (db : DB) : bool :=
  exists_row (agent_sessions db) (λ _ s,
    negb containerScope && (s_task_id s == w_TaskId c) &&
    ((s_workspace_path s == Some (w_WorkspacePath c)) || (w_WorkspacePath c == "")) &&
    retained_status (s_status s) &&
    (containerScope || match s_pinned_runner_id s with
                       | None => true
                       | Some r => (r == "") || (r == runnerID)
                       end)).

Definition ready_checkpoint (runnerID : string) (containerScope : bool) (c : WorkspaceCandidate)
    (db : DB) : bool :=
  exists_row (agent_session_checkpoints db) (λ _ k,
    match agent_sessions db !! c_agent_session_id k with
    | None => false
    | Some s =>
      (s_task_id s == w_TaskId c) &&
      ((c_workspace_path k == w_WorkspacePath c) || (w_WorkspacePath c == "")) &&
      (c_status k == "ready") && negb (c_checkpoint_path k == "") &&
      (containerScope || (c_runner_id k == runnerID))
    end).

Definition protected (runnerID : string) (containerScope : bool) (c : WorkspaceCandidate)
    (db : DB) : bool :=
  live_attempt runnerID containerScope c db || retained_session runnerID containerScope c db ||
  ready_checkpoint runnerID containerScope c db.

Fixpoint prune_loop (runnerID : string) (containerScope : bool) (db : DB)
    (candidates : list WorkspaceCandidate) : err + list (string * string) :=
  match candidates with
  | [] => inr []
  | c :: rest =>
      if (w_TaskId c == "") || (w_ExecutionId c == "") then
        inl (EInvalidArgument "workspace candidate task_id and execution_id are required")
      else if (w_WorkspacePath c == "") && negb containerScope then
        inl (EInvalidArgument "workspace candidate workspace_path is required")
      else match prune_loop runnerID containerScope db rest with
           | inl e => inl e
           | inr safe => inr (if protected runnerID containerScope c db then safe
                              else (w_TaskId c, w_ExecutionId c) :: safe)
           end
  end.

Definition PruneWorkspaces (runnerID : string) (containerScope : bool)
    (candidates : list WorkspaceCandidate) (db : DB) : err + list (string * string) :=
  if runnerID == "" then inl (EInvalidArgument "runner_id is required")
  else prune_loop runnerID containerScope db candidates.

(** ** Lemmas *)

Lemma prune_loop_spec runnerID scope db cs safe :
  prune_loop runnerID scope db cs = inr safe →
  (∀ c, c ∈ cs → w_TaskId c ≠ "" ∧ w_ExecutionId c ≠ "" ∧ (w_WorkspacePath c = "" → scope = true)) ∧
  ∀ k, k ∈ safe ↔ ∃ c, c ∈ cs ∧ k = (w_TaskId c, w_ExecutionId c) ∧
                       protected runnerID scope c db = false.
Proof.
  revert safe. induction cs as [|c cs IH]; intros safe; simpl.
  { intros [= <-]. split; set_solver. }
  destruct (decide (w_TaskId c = "")) as [E1|E1];
    [by rewrite (bool_decide_eq_true_2 _ E1)|rewrite (bool_decide_eq_false_2 _ E1)].
  destruct (decide (w_ExecutionId c = "")) as [E2|E2];
    [by rewrite (bool_decide_eq_true_2 _ E2)|rewrite (bool_decide_eq_false_2 _ E2)]. simpl.
  destruct (_ && negb scope) eqn:E3; [done|].
  destruct (prune_loop _ _ _ cs) as [e|safe']; [done|]. intros [= <-].
  destruct (IH safe' eq_refl) as [H1 H2]. split.
  - intros d [->|Hd]%elem_of_cons; [|by apply H1]. split; [done|]. split; [done|].
    intros Hw. rewrite (bool_decide_eq_true_2 _ Hw) in E3. by destruct scope.
  - intros k. setoid_rewrite elem_of_cons. destruct (protected _ _ c _) eqn:Ep.
    + rewrite H2. split; [naive_solver|]. intros (d & [->|?] & ? & ?); [congruence|eauto].
    + rewrite elem_of_cons, H2. naive_solver.
Qed.

(** ** Properties *)

(** What a runner is told it may delete was among the candidates it named,
    is not the workspace of an attempt it is running (in container scope: of an
    attempt any runner is running), and outside container scope belongs to no
    session that is running or kept for resume on this runner under that path;
    a ready checkpoint protects its workspace in both scopes. A candidate that
    is none of these is offered. *)
Theorem PruneWorkspaces_safe runnerID scope cs db safe :
  PruneWorkspaces runnerID scope cs db = inr safe →
  ∀ t x, (t, x) ∈ safe ↔
    ∃ c, c ∈ cs ∧ w_TaskId c = t ∧ w_ExecutionId c = x ∧
      (∀ a, execution_attempts db !! x = Some a → task_of db a = Some t →
            a_status a = "running" → scope = false ∧ a_runner_id a ≠ Some runnerID) ∧
      (scope = false → ∀ sid s, agent_sessions db !! sid = Some s → s_task_id s = t →
         s_workspace_path s = Some (w_WorkspacePath c) → retained_status (s_status s) = true →
         ∃ r, s_pinned_runner_id s = Some r ∧ r ≠ "" ∧ r ≠ runnerID) ∧
      ready_checkpoint runnerID scope c db = false.
Proof.
  unfold PruneWorkspaces. destruct (_ == _); [done|]. intros [Hok Hs]%prune_loop_spec t x.
  rewrite Hs. apply exist_proper. intros c. unfold protected. rewrite !orb_false_iff.
  assert (live_attempt runnerID scope c db = false ↔
    ∀ a, execution_attempts db !! w_ExecutionId c = Some a → task_of db a = Some (w_TaskId c) →
         a_status a = "running" → scope = false ∧ a_runner_id a ≠ Some runnerID) as H1.
  { unfold live_attempt. destruct (execution_attempts db !! w_ExecutionId c) as [a|]; [|naive_solver].
    rewrite !andb_false_iff, orb_false_iff, !bool_decide_eq_false. split.
    - intros Hc a' [= <-] Ht Hst. naive_solver.
    - intros Hall. destruct (decide (task_of db a = Some (w_TaskId c))) as [Ht|]; [|by left; left].
      destruct (decide (a_status a = "running")) as [Hst|]; [|by left; right].
      right. by apply Hall. }
  assert (c ∈ cs → (retained_session runnerID scope c db = false ↔
    (scope = false → ∀ sid s, agent_sessions db !! sid = Some s → s_task_id s = w_TaskId c →
       s_workspace_path s = Some (w_WorkspacePath c) → retained_status (s_status s) = true →
       ∃ r, s_pinned_runner_id s = Some r ∧ r ≠ "" ∧ r ≠ runnerID))) as H2.
  { intros Hc. destruct (Hok c Hc) as (_ & _ & Hw). unfold retained_session.
    rewrite exists_row_false. split.
    - intros Hall -> sid s Hsid Ht Hp Hst. specialize (Hall sid s Hsid). simpl in Hall.
      rewrite Ht, Hp, Hst, !bool_decide_eq_true_2 in Hall by done. simpl in Hall.
      destruct (s_pinned_runner_id s) as [r|]; [|done].
      apply orb_false_iff in Hall. rewrite !bool_decide_eq_false in Hall. naive_solver.
    - intros Hall sid s Hsid. destruct scope; [done|]. specialize (Hall eq_refl sid s Hsid).
      simpl. rewrite (bool_decide_eq_false_2 (w_WorkspacePath c = "")) by (intros ?; by specialize (Hw H)).
      rewrite orb_false_r, !andb_false_iff, !bool_decide_eq_false.
      destruct (decide (s_task_id s = w_TaskId c)) as [Ht|]; [|by left; left; left].
      destruct (decide (s_workspace_path s = Some (w_WorkspacePath c))) as [Hp|]; [|by left; left; right].
      destruct (retained_status (s_status s)) eqn:Hst; [|by left; right].
      right. destruct (Hall Ht Hp eq_refl) as (r & -> & Hr1 & Hr2).
      by rewrite !bool_decide_eq_false_2. }
  split.
  - intros (Hc & [= -> ->] & [Hl Hse] & Hck). split; [done|]. do 2 (split; [done|]).
    split; [by apply H1|]. split; [by apply H2|done].
  - intros (Hc & <- & <- & Hl & Hse & Hck). split; [done|]. split; [done|].
    split; [split; [by apply H1|by apply H2]|done].
Qed.

Lemma PruneWorkspaces_safe_witness :
  ∃ safe, PruneWorkspaces "r1" false [mkCandidate "t1" "a0" "/old"] sample_db = inr safe ∧
          ("t1", "a0") ∈ safe.
Proof.
  destruct (PruneWorkspaces "r1" false [mkCandidate "t1" "a0" "/old"] sample_db) as [e|safe] eqn:E;
    [vm_compute in E; discriminate|]. exists safe. split; [done|].
  apply (PruneWorkspaces_safe _ _ _ _ _ E). exists (mkCandidate "t1" "a0" "/old").
  split; [left|]. split_and!; try done.
  intros _ sid s Hs. unfold sample_db in Hs. cbn in Hs.
  apply lookup_singleton_Some in Hs as [_ <-]. done.
Defined.
