(* ===== verification/Reaper.v ===== *)
(** * The reaper

    The reaper's transactions of [internal/service/service.go]: expired leases
    are reclaimed or failed ([reapExpiredLeases]), pinned and isolation tasks
    nobody can run are failed, stale prompts and sessions are brought in line
    with their tasks, and kept sessions expire. A cycle that fails rolls its
    transaction back and is tried again by the next. *)
From S2P Require Import Prelude GoStrings Status Repos Db Queries Sample Outbox Claim.

Definition runnerPresenceMaxSec : Z := 60.

(** The identifiers one reclaim draws. *)
Record ReclaimDraw := mkReclaimDraw {
  rd_sessionID : string;
  rd_promptID : string;
  rd_attemptID : string;
  rd_eventID : string;
  rd_restartEventID : string;
  rd_ids : nat → string;
  rd_restartIds : nat → string;
}.

Definition runnerIsDeliberatelyDrained (runnerID : string) (db : DB) : bool :=
  if runnerID == "" then false
  else match runners db !! runnerID with
       | None => false
       | Some r => (r_status r == "draining") || (r_status r == "stopping")
       end.

Definition reclaim_error (attempt : Z) : string :=
  "runner lease expired after attempt " ^^ fmt_d attempt.

(** The session a reclaimed task restarts with: the configuration of the old
    one, without its repositories, pin, checkpoint and workspace. *)
Definition reclaimed_session (newSessionID taskID : string) (sequence : Z) (now : time)
    (old : AgentSession) : AgentSession :=
  let searchText := join " " (fields (newSessionID ^^ " " ^^ str_of (s_agent old) ^^ " " ^^
                                      str_of (s_model_id old) ^^ " " ^^ str_of (s_git_url old))) in
  mkAgentSession (s_team_id old) "running" (s_resume_mode old) None None None None None None
    (s_git_url old) (s_git_ref old) (s_agent_image old) (s_agent old) (s_provider_id old)
    (s_model_id old) (s_variant_id old) now now None (s_expires_at old) (s_pause_reason old) None
    (nullString searchText) sequence taskID (s_harness old) (s_mcp_endpoints old)
    (s_commit_author_name old) (s_commit_author_email old) (s_git_identity_id old) (s_skills old)
    (s_env old) None (Some now) None (s_isolation_required old) None.

Definition reclaimed_prompt (sessionID taskID : string) (now : time) (old : UserPrompt)
    : UserPrompt :=
  mkUserPrompt sessionID taskID "pending" (p_prompt old) None None None now now None None 1 None.

Definition reaper_subject (taskID : string) : string := "control.reaper." ^^ taskID.

Definition reclaim_event (d : ReclaimDraw) (now : time) (c : Reclaimable) (attempt : Z)
    : TaskEventCallbackContext :=
  let summary := "Runner lease expired after attempt " ^^ fmt_d attempt ^^
                 "; task reclaimed for a fresh execution" in
  mkEventContext (rd_eventID d) (rc_TaskID c) (str_of (rc_TeamID c)) (reaper_subject (rc_TaskID c))
    "pending" "task.reclaimed" summary "" ""
    (PObject [("attempt", JInt attempt); ("execution_id", JStr (rc_ExecutionAttemptID c));
              ("lease_expires_at", JInt (default 0 (rc_LeaseExpiresAt c)));
              ("runner_id", JStr (str_of (rc_RunnerID c))); ("status", JStr "pending");
              ("summary", JStr summary); ("task_id", JStr (rc_TaskID c))]) now.

Definition restart_event (d : ReclaimDraw) (now : time) (c : Reclaimable)
    (oldSessionID oldPromptID : string) : TaskEventCallbackContext :=
  let summary := "Started agent session " ^^ rd_sessionID d ^^ " after " ^^ oldSessionID ^^
                 " was abandoned" in
  mkEventContext (rd_restartEventID d) (rc_TaskID c) (str_of (rc_TeamID c))
    (reaper_subject (rc_TaskID c)) "pending" "task.session_restarted" summary "" ""
    (PObject [("execution_id", JStr (rc_ExecutionAttemptID c));
              ("new_agent_session_id", JStr (rd_sessionID d));
              ("new_user_prompt_id", JStr (rd_promptID d));
              ("old_agent_session_id", JStr oldSessionID);
              ("old_user_prompt_id", JStr oldPromptID); ("reason", JStr "lease_expired");
              ("status", JStr "pending"); ("summary", JStr summary);
              ("task_id", JStr (rc_TaskID c))]) now.

(** What is written for a reclaim before its events. *)
Definition reclaim_rows (d : ReclaimDraw) (now : time) (c : Reclaimable) (attempt : Z)
    (oldSession : string * AgentSession) (oldPrompt : string * UserPrompt) (sequence : Z)
    : tx DB unit :=
  let error := nullString (reclaim_error attempt) in
  rows ← tx_rows (MarkExecutionAttemptLost error now now (rc_ExecutionAttemptID c));
  _ ← tx_guard (negb (rows =? 1))
        (EMsg ("execution attempt " ^^ rc_ExecutionAttemptID c ^^ " is no longer running"));
  rows ← tx_rows (RequeueTaskAfterExecutionAttemptLost now (rc_TaskID c));
  _ ← tx_guard (negb (rows =? 1))
        (EMsg ("task " ^^ rc_TaskID c ^^ " is no longer running execution attempt " ^^
               rc_ExecutionAttemptID c));
  _ ← tx_rows (AbandonUserPrompt error now now oldPrompt.1);
  _ ← tx_rows (AbandonAgentSession error now now oldSession.1);
  _ ← InsertAgentSession (rd_sessionID d)
        (reclaimed_session (rd_sessionID d) (rc_TaskID c) sequence now oldSession.2);
  _ ← InsertUserPrompt (rd_promptID d)
        (reclaimed_prompt (rd_sessionID d) (rc_TaskID c) now oldPrompt.2);
  InsertPendingExecutionAttempt (rd_attemptID d) (rd_promptID d) 1 None (rc_TimeoutSec c) now now.

Definition reclaim_events `{Outbox} (d : ReclaimDraw) (now : time) (c : Reclaimable) (attempt : Z)
    (oldSessionID oldPromptID : string) : tx DB (list TaskEventCallbackContext) :=
  let ev := reclaim_event d now c attempt in
  let restart := restart_event d now c oldSessionID oldPromptID in
  _ ← InsertTaskEvent (ev_ID ev)
        (event_row ev (nullString oldSessionID) (nullString oldPromptID)
           (nullString (rc_ExecutionAttemptID c)));
  _ ← enqueue (rd_ids d) now ev;
  _ ← InsertTaskEvent (ev_ID restart)
        (event_row restart (nullString (rd_sessionID d)) (nullString (rd_promptID d)) None);
  _ ← enqueue (rd_restartIds d) now restart;
  mret [ev; restart].

(** One candidate: skipped at its attempt limit or when its runner was drained
    on purpose, else requeued with a fresh session, prompt and attempt. The
    runner check reads [outside], the database outside the transaction. *)
Definition reclaim_one `{Outbox} (outside : DB) (d : ReclaimDraw) (now : time) (c : Reclaimable)
    : tx DB (list TaskEventCallbackContext) :=
  attemptCount ← tx_read (CountExecutionAttemptsByTask (rc_TaskID c));
  if rc_MaxAttempts c <=? attemptCount then mret []
  else if runnerIsDeliberatelyDrained (str_of (rc_RunnerID c)) outside then mret []
  else
    oldSession ← tx_one (GetAgentSessionByTaskID (rc_TaskID c));
    oldPrompt ← tx_one (GetUserPromptByTaskID (rc_TaskID c));
    sequence ← tx_read (GetNextAgentSessionSequence (rc_TaskID c));
    _ ← reclaim_rows d now c attemptCount oldSession oldPrompt sequence;
    reclaim_events d now c attemptCount oldSession.1 oldPrompt.1.

Fixpoint reclaim_all `{Outbox} (outside : DB) (draws : nat → ReclaimDraw) (n : nat) (now : time)
    (cs : list Reclaimable) : tx DB (list TaskEventCallbackContext) :=
  match cs with
  | [] => mret []
  | c :: rest =>
      evs ← reclaim_one outside (draws n) now c;
      evs' ← reclaim_all outside draws (S n) now rest;
      mret (evs ++ evs')
  end.

(** The transaction: the events to publish and the number of failed tasks. *)
Definition reap_leases_tx `{Outbox} (autoRecovery : bool) (outside : DB)
    (draws : nat → ReclaimDraw) (now : time) : tx DB (list TaskEventCallbackContext * Z) :=
  candidates ← tx_read (ListReclaimableExecutionAttemptsForUpdate now);
  evs ← (if (autoRecovery : bool) then reclaim_all outside draws 0 now candidates else mret []);
  _ ← tx_rows (if (autoRecovery : bool) then FailExpiredExecutionAttempts now now now
               else FailAllExpiredExecutionAttempts now now now);
  failed ← tx_rows (FailExpiredLeases now now now);
  mret (evs, failed).

Definition reapExpiredLeases `{Outbox} (autoRecovery : bool) (draws : nat → ReclaimDraw)
    (now : time) (db : DB) : (err + list TaskEventCallbackContext * Z) * DB :=
  run_tx (reap_leases_tx autoRecovery db draws now) db.

(** ** The other steps of a cycle *)

Definition reapUnavailablePinnedResumeTasks (now dbnow : time) : DB → (err + unit) * DB :=
  run_tx (
    _ ← tx_rows (FailPendingExecutionAttemptsForMissingRunner dbnow now now runnerPresenceMaxSec);
    _ ← tx_rows (FailPendingResumeTasksForMissingRunner now now);
    _ ← tx_rows (FailPendingUserPromptsForUnavailableRunner now now);
    _ ← tx_rows (MarkResumingSessionsFailedForUnavailableRunner now now);
    mret tt).

Definition reapIsolationUnavailableTasks (now dbnow : time) : DB → (err + unit) * DB :=
  run_tx (
    _ ← tx_rows (FailPendingIsolationAttemptsWithoutCapableRunner dbnow now now
                   runnerPresenceMaxSec);
    _ ← tx_rows (FailPendingIsolationTasks now now);
    mret tt).

(** Three statements, each its own transaction. *)
Definition reapStaleUserPrompts (dbnow : time) (db : DB) : DB :=
  let db := (ReapStaleUserPrompts dbnow db).2 in
  let db := (RevertOrphanedRunningUserPrompts dbnow db).2 in
  (ReapStaleSessionsForTerminalRuns dbnow db).2.

Definition reapExpiredSessions (now : time) (db : DB) : Z * DB :=
  ExpirePausedSessions now now now db.

(** Artifacts of ended sessions; a time to live of zero disables the pass. *)
Definition reapExpiredSessionArtifacts (dbnow ttl : Z) (db : DB) : Z * DB :=
  if ttl <=? 0 then (0, db) else
  let ttlSeconds := ttl / seconds 1 in
  let r1 := ClearExpiredSessionCheckpoints dbnow ttlSeconds db in
  let r2 := ClearExpiredUserPromptExports dbnow ttlSeconds r1.2 in
  let r3 := ClearExpiredExecutionAttemptExports dbnow ttlSeconds r2.2 in
  (r1.1 + r2.1 + r3.1, r3.2).

(** [ReapStaleTasks] of [internal/store/store.go], in its MySQL form: whole
    seconds of running time against the timeout and a grace, and the task
    joined with the attempts this very statement ended. *)
Definition running_seconds (dbnow : time) (a : ExecutionAttempt) : option Z :=
  (λ t, Z.quot (dbnow - t) (seconds 1)) <$> a_started_at a.

Definition over_timeout (dbnow graceSeconds : Z) (a : ExecutionAttempt) : bool :=
  (a_status a == "running") &&
  match running_seconds dbnow a with
  | None => false
  | Some s => a_timeout_sec a + graceSeconds <? s
  end.

Definition timeout_error (dbnow : time) (a : ExecutionAttempt) : string :=
  "runner timeout: execution ran for " ^^ fmt_d (default 0 (running_seconds dbnow a)) ^^
  " seconds (timeout was " ^^ fmt_d (a_timeout_sec a) ^^ "s)".

Definition ended_now (now : time) (a : ExecutionAttempt) : bool :=
  failed_with "timeout" a && (a_ended_at a == Some now).

Definition ReapStaleTasks (now dbnow graceSeconds : Z) (db : DB) : Z * DB :=
  let db := (on_attempts (update_where (λ _ a, over_timeout dbnow graceSeconds a)
              (λ _ a, fail_attempt (timeout_error dbnow a) "timeout" now now a)) db).2 in
  on_tasks (update_where
    (λ id t, (t_status t == "running") &&
             bool_decide (is_Some (joined_attempt db id (ended_now now))))
    (λ id t, match joined_attempt db id (ended_now now) with
             | None => t
             | Some a => t{{ t_status := "error"; t_error := a_error a;
                             t_error_category := Some "timeout"; t_ended_at := Some now;
                             t_updated_at := now }}
             end)) db.

(** ** Lemmas *)

Definition lost_attempt (now attempt : Z) (a : ExecutionAttempt) : ExecutionAttempt :=
  a{{ a_status := "lost"; a_error := nullString (reclaim_error attempt);
      a_ended_at := Some now; a_updated_at := now }}.

Lemma reclaimable_spec before db c :
  c ∈ ListReclaimableExecutionAttemptsForUpdate before db ↔
  ∃ a tid t, execution_attempts db !! rc_ExecutionAttemptID c = Some a ∧ lease_expired before a = true ∧
    task_of db a = Some tid ∧ tasks db !! tid = Some t ∧
    c = mkReclaimable (rc_ExecutionAttemptID c) tid (t_team_id t) (a_runner_id a)
          (t_max_attempts t) (a_timeout_sec a) (a_lease_expires_at a).
Proof.
  unfold ListReclaimableExecutionAttemptsForUpdate. rewrite sort_by_elem, list_elem_of_omap. split.
  - intros ([id a] & Hin%elem_of_map_to_list & Hc). unfold reclaimable_row in Hc. simpl in Hc.
    destruct (lease_expired before a) eqn:El; [|done]. unfold task_row_of in Hc.
    destruct (task_of db a) as [tid|] eqn:Et; [|done].
    destruct (tasks db !! tid) as [t|] eqn:Ett; [|done]. simpl in Hc. injection Hc as <-. simpl.
    by exists a, tid, t.
  - intros (a & tid & t & Ha & Hl & Ht & Htt & Hc). exists (rc_ExecutionAttemptID c, a).
    split; [by apply elem_of_map_to_list|]. unfold reclaimable_row. simpl.
    rewrite Hl. unfold task_row_of.
    rewrite Ht, Htt. simpl. by rewrite <- Hc.
Qed.

Lemma reclaimable_keys_NoDup before db :
  NoDup (map rc_ExecutionAttemptID (ListReclaimableExecutionAttemptsForUpdate before db)).
Proof.
  unfold ListReclaimableExecutionAttemptsForUpdate.
  rewrite (Permutation_map rc_ExecutionAttemptID (sort_by_perm _ _)).
  apply (NoDup_omap_key _ fst); [|apply NoDup_fst_map_to_list].
  intros [k a] c. unfold reclaimable_row. simpl. destruct (lease_expired before a); [|done].
  destruct (task_row_of db a) as [[tid t]|]; [|done]. by intros [= <-].
Qed.


(** What a reclaim keeps of the rows that were there: attempts but the lost
    one, the task links of prompts, the attempt limits of tasks; and what it
    adds. *)
Definition requeued_task (now : time) (t : Task) : Task :=
  t{{ t_status := "pending"; t_summary := None; t_error := None; t_error_category := None;
      t_ended_at := None; t_updated_at := now }}.

Record reclaimed (d : ReclaimDraw) (now : time) (c : Reclaimable) (attempt : Z) (db db' : DB)
    : Prop := {
  rl_attempts : ∃ a, execution_attempts db !! rc_ExecutionAttemptID c = Some a ∧
    a_status a = "running" ∧ execution_attempts db !! rd_attemptID d = None ∧
    execution_attempts db' =
      <[rd_attemptID d := pending_attempt (rd_promptID d) 1 None (rc_TimeoutSec c) now now]>
        (<[rc_ExecutionAttemptID c := lost_attempt now attempt a]> (execution_attempts db));
  rl_tasks : ∃ t, tasks db !! rc_TaskID c = Some t ∧ t_status t = "running" ∧
    tasks db' = <[rc_TaskID c := requeued_task now t]> (tasks db);
  rl_prompts : ∀ k p, user_prompts db !! k = Some p → ∃ p', user_prompts db' !! k = Some p' ∧
    p_task_id p' = p_task_id p ∧ p_agent_session_id p' = p_agent_session_id p;
  rl_new_prompt : ∃ p, user_prompts db' !! rd_promptID d = Some p ∧ p_status p = "pending" ∧
    p_task_id p = rc_TaskID c ∧ p_agent_session_id p = rd_sessionID d;
  rl_new_session : ∃ s, agent_sessions db' !! rd_sessionID d = Some s ∧ s_status s = "running" ∧
    s_task_id s = rc_TaskID c ∧ s_sequence s = GetNextAgentSessionSequence (rc_TaskID c) db ∧
    ∃ sid old, GetAgentSessionByTaskID (rc_TaskID c) db = Some (sid, old) ∧
      s_isolation_required s = s_isolation_required old ∧ s_env s = s_env old;
  rl_runners : runners db' = runners db;
}.

Lemma tx_rows_one (u : DB → Z * DB) db n db' e s' :
  u db = (n, db') → tx_guard (negb (n =? 1)) e db' = inr (tt, s') → n = 1 ∧ s' = db'.
Proof.
  intros _ [Hg ->]%tx_guard_inr. split; [|done]. by apply negb_false_iff, Z.eqb_eq in Hg.
Qed.

Lemma on_prompts_pk_links id p f db n db' :
  on_prompts (update_pk id p f) db = (n, db') →
  (∀ q, p_task_id (f q) = p_task_id q ∧ p_agent_session_id (f q) = p_agent_session_id q) →
  (∃ m, db' = db{{ user_prompts := m }}) ∧
  ∀ k q, user_prompts db !! k = Some q → ∃ q', user_prompts db' !! k = Some q' ∧
    p_task_id q' = p_task_id q ∧ p_agent_session_id q' = p_agent_session_id q.
Proof.
  unfold on_prompts. intros [= _ <-] Hf. split; [by eexists|]. intros k q Hq.
  assert ((update_pk id p f (user_prompts db)).2 !! k =
          Some (if bool_decide (k = id) && p q then f q else q)) as Hk
    by (by rewrite update_pk_lookup, Hq).
  eexists. split; [exact Hk|]. case_match; [apply Hf|done].
Qed.

Lemma reclaim_rows_inr d now c attempt oldS oldP sequence db u db' :
  GetAgentSessionByTaskID (rc_TaskID c) db = Some oldS →
  sequence = GetNextAgentSessionSequence (rc_TaskID c) db →
  reclaim_rows d now c attempt oldS oldP sequence db = inr (u, db') →
  reclaimed d now c attempt db db'.
Proof.
  intros HoldS Hseq Htx. unfold reclaim_rows in Htx.
  apply tx_bind_inr in Htx as (n1 & db1 & H1 & Htx). apply tx_rows_inr in H1.
  apply tx_bind_inr in Htx as ([] & s & Hg & Htx).
  eapply tx_rows_one in Hg as [-> ->]; [|exact H1].
  apply on_attempts_pk_inr in H1 as (a & Ha & Hrun & ->); [|done].
  apply bool_decide_eq_true in Hrun.
  apply tx_bind_inr in Htx as (n2 & db2 & H2 & Htx). apply tx_rows_inr in H2.
  apply tx_bind_inr in Htx as ([] & s & Hg & Htx).
  eapply tx_rows_one in Hg as [-> ->]; [|exact H2].
  apply on_tasks_pk_inr in H2 as (t & Ht & Htr & ->); [|done]. apply bool_decide_eq_true in Htr.
  apply tx_bind_inr in Htx as (n3 & db3 & H3 & Htx). apply tx_rows_inr in H3.
  apply on_prompts_pk_links in H3 as [[mp ->] Hl]; [|done]. simpl in Hl.
  apply tx_bind_inr in Htx as (n4 & db4 & H4 & Htx). apply tx_rows_inr in H4.
  unfold AbandonAgentSession, on_sessions in H4. injection H4 as _ <-.
  apply tx_bind_inr in Htx as ([] & db5 & H5 & Htx). apply insert_session_inr in H5 as (Hsf & _ & ->).
  apply tx_bind_inr in Htx as ([] & db6 & H6 & Htx). apply insert_prompt_inr in H6 as (Hpf & _ & ->).
  apply insert_attempt_inr in Htx as (Haf & _ & ->). cbn in Hpf, Haf, Ha, Ht.
  constructor.
  - exists a. split; [done|]. split; [done|]. split; [|done].
    destruct (decide (rd_attemptID d = rc_ExecutionAttemptID c)) as [He|Hne].
    + rewrite He in Haf. exfalso. revert Haf. by rewrite lookup_insert_eq.
    + by rewrite lookup_insert_ne in Haf.
  - exists t. done.
  - intros k p Hp. destruct (Hl k p Hp) as (p' & Hp' & ?). exists p'. split; [|done].
    etransitivity; [|exact Hp']. apply lookup_insert_ne. intros <-.
    rewrite Hpf in Hp'. done.
  - eexists. split; [apply lookup_insert_eq|done].
  - eexists. split; [apply lookup_insert_eq|]. split; [done|]. split; [done|]. split; [done|].
    exists oldS.1, oldS.2. by destruct oldS.
  - done.
Qed.

Lemma insert_event_frame id e db u db' :
  InsertTaskEvent id e db = inr (u, db') → ∃ m, db' = db{{ task_events := m }}.
Proof.
  unfold InsertTaskEvent. destruct (insert_pk _ _ _ _) as [?|m]; [done|].
  intros [= _ <-]. by eexists.
Qed.

Lemma reclaim_events_frame `{Outbox} d now c n sid pid db v db' :
  reclaim_events d now c n sid pid db = inr (v, db') →
  ∃ m1 m2, db' = db{{ task_events := m1; callback_deliveries := m2 }}.
Proof.
  unfold reclaim_events. intros Htx.
  apply tx_bind_inr in Htx as ([] & d1 & [m1 ->]%insert_event_frame & Htx).
  apply tx_bind_inr in Htx as ([] & d2 & [H2 _]%enqueue_frame & Htx).
  apply tx_bind_inr in Htx as ([] & d3 & [m3 H3]%insert_event_frame & Htx).
  apply tx_bind_inr in Htx as ([] & d4 & [H4 _]%enqueue_frame & Htx).
  apply tx_ret_inr in Htx as [_ ->]. exists m3, (callback_deliveries d4).
  rewrite H4, H3, H2. done.
Qed.

Lemma reclaimed_events d now c n db db1 m1 m2 :
  reclaimed d now c n db db1 →
  reclaimed d now c n db (db1{{ task_events := m1; callback_deliveries := m2 }}).
Proof. intros []. by constructor. Qed.

(** Why a candidate is left to the statements that follow. *)
Definition left_alone (outside db : DB) (c : Reclaimable) : Prop :=
  rc_MaxAttempts c <= CountExecutionAttemptsByTask (rc_TaskID c) db ∨
  runnerIsDeliberatelyDrained (str_of (rc_RunnerID c)) outside = true.

Lemma reclaim_one_inr `{Outbox} outside d now c db evs db' :
  reclaim_one outside d now c db = inr (evs, db') →
  (left_alone outside db c ∧ db' = db ∧ evs = []) ∨
  (CountExecutionAttemptsByTask (rc_TaskID c) db < rc_MaxAttempts c ∧
   reclaimed d now c (CountExecutionAttemptsByTask (rc_TaskID c) db) db db').
Proof.
  unfold reclaim_one, left_alone. intros Htx.
  apply tx_bind_inr in Htx as (n & s & H1 & Htx). apply tx_read_inr in H1 as [-> ->].
  destruct (Z.leb_spec (rc_MaxAttempts c) (CountExecutionAttemptsByTask (rc_TaskID c) db)).
  { apply tx_ret_inr in Htx as [-> ->]. left. auto. }
  destruct (runnerIsDeliberatelyDrained _ _).
  { apply tx_ret_inr in Htx as [-> ->]. left. auto. }
  right. split; [done|].
  apply tx_bind_inr in Htx as (oldS & s & H2 & Htx). apply tx_one_inr in H2 as [HoldS ->].
  apply tx_bind_inr in Htx as (oldP & s & H3 & Htx). apply tx_one_inr in H3 as [HoldP ->].
  apply tx_bind_inr in Htx as (sq & s & H4 & Htx). apply tx_read_inr in H4 as [Hsq ->].
  apply tx_bind_inr in Htx as ([] & db1 & H5 & Htx).
  eapply reclaim_rows_inr in H5; [|exact HoldS|exact Hsq].
  apply reclaim_events_frame in Htx as (m1 & m2 & ->). by apply reclaimed_events.
Qed.

(** The relation between the state before the loop and any state in it. *)
Record reaping (now : time) (db0 db : DB) : Prop := {
  rp_attempts : ∀ id a, execution_attempts db0 !! id = Some a →
    execution_attempts db !! id = Some a ∨
    lease_expired now a = true ∧ ∃ n, execution_attempts db !! id = Some (lost_attempt now n a);
  rp_prompts : ∀ k p, user_prompts db0 !! k = Some p →
    ∃ p', user_prompts db !! k = Some p' ∧ p_task_id p' = p_task_id p;
  rp_tasks : ∀ k t, tasks db0 !! k = Some t →
    ∃ t', tasks db !! k = Some t' ∧ t_max_attempts t' = t_max_attempts t;
}.

Lemma reaping_refl now db : reaping now db db.
Proof. constructor; eauto. Qed.

Lemma reaping_task_of now db0 db id a b tid :
  reaping now db0 db → execution_attempts db0 !! id = Some a → task_of db0 a = Some tid →
  a_user_prompt_id b = a_user_prompt_id a → task_of db b = Some tid.
Proof.
  intros Hr Ha (p & Hp & Ht)%task_of_Some Hb. apply task_of_Some.
  destruct (rp_prompts _ _ _ Hr _ _ Hp) as (p' & Hp' & Ht'). rewrite Hb. exists p'. by rewrite Ht'.
Qed.

(** The number of attempts of a task never goes down. *)
Lemma reaping_count now db0 db tid :
  reaping now db0 db →
  CountExecutionAttemptsByTask tid db0 <= CountExecutionAttemptsByTask tid db.
Proof.
  intros Hr. unfold CountExecutionAttemptsByTask. apply inj_le.
  rewrite <- (length_fmap fst (attempts_of_task db0 tid)), <- (length_fmap fst (attempts_of_task db tid)).
  apply submseteq_length, NoDup_submseteq.
  - apply NoDup_fst_filter, NoDup_fst_map_to_list.
  - intros k ([k' a] & -> & [Ha Ht]%attempts_of_task_elem)%list_elem_of_fmap. simpl.
    apply list_elem_of_fmap.
    destruct (rp_attempts _ _ _ Hr _ _ Ha) as [Ha'|(_ & n & Ha')]; eexists (k', _);
      (split; [done|]); apply attempts_of_task_elem; (split; [exact Ha'|]);
      by eapply reaping_task_of.
Qed.

Lemma reclaimed_reaping now db0 db d c n db' :
  reaping now db0 db → reclaimed d now c n db db' →
  (∀ a, execution_attempts db0 !! rc_ExecutionAttemptID c = Some a → lease_expired now a = true) →
  (∀ a, execution_attempts db !! rc_ExecutionAttemptID c = Some a → a_status a = "running" →
        execution_attempts db0 !! rc_ExecutionAttemptID c = Some a) →
  reaping now db0 db'.
Proof.
  intros [Ra Rp Rt] [(a & Ha & Hrun & Hnew & Hatt) (t & Ht & _ & Htk) Hp _ _ _] Hexp Hsame.
  constructor.
  - intros id b Hb. rewrite Hatt.
    destruct (decide (id = rd_attemptID d)) as [->|Hne].
    { exfalso. destruct (Ra _ _ Hb) as [?|(_ & m & ?)]; congruence. }
    rewrite lookup_insert_ne by done.
    destruct (decide (id = rc_ExecutionAttemptID c)) as [->|Hne2].
    + right. rewrite lookup_insert_eq. specialize (Hsame a Ha Hrun). simplify_eq.
      split; [by apply Hexp|by eexists].
    + rewrite lookup_insert_ne by done. by apply Ra.
  - intros k p Hk. destruct (Rp _ _ Hk) as (p' & Hp' & ?).
    destruct (Hp _ _ Hp') as (p'' & Hp'' & ? & _). exists p''. split; [done|]. congruence.
  - intros k t0 Hk. destruct (Rt _ _ Hk) as (t' & Ht' & ?). rewrite Htk.
    destruct (decide (k = rc_TaskID c)) as [->|Hne].
    + rewrite lookup_insert_eq. eexists. split; [done|]. simplify_eq. done.
    + rewrite lookup_insert_ne by done. eauto.
Qed.

(** The loop, with what becomes of each candidate. *)
Lemma reclaim_all_spec `{Outbox} outside draws now db0 : ∀ cs n db evs db',
  (∀ c, c ∈ cs → ∃ a, execution_attempts db0 !! rc_ExecutionAttemptID c = Some a ∧
                      lease_expired now a = true) →
  NoDup (map rc_ExecutionAttemptID cs) →
  reaping now db0 db →
  (∀ c, c ∈ cs → execution_attempts db !! rc_ExecutionAttemptID c =
                 execution_attempts db0 !! rc_ExecutionAttemptID c) →
  reclaim_all outside draws n now cs db = inr (evs, db') →
  reaping now db0 db' ∧
  (∀ tid, CountExecutionAttemptsByTask tid db <= CountExecutionAttemptsByTask tid db') ∧
  (∀ id a, id ∉ map rc_ExecutionAttemptID cs → execution_attempts db !! id = Some a →
           execution_attempts db' !! id = Some a) ∧
  ∀ c, c ∈ cs →
    (∃ k a, execution_attempts db0 !! rc_ExecutionAttemptID c = Some a ∧
            execution_attempts db' !! rc_ExecutionAttemptID c = Some (lost_attempt now k a)) ∨
    (execution_attempts db' !! rc_ExecutionAttemptID c =
       execution_attempts db0 !! rc_ExecutionAttemptID c ∧
     (runnerIsDeliberatelyDrained (str_of (rc_RunnerID c)) outside = true ∨
      rc_MaxAttempts c <= CountExecutionAttemptsByTask (rc_TaskID c) db')).
Proof.
  induction cs as [|c cs IH]; intros n db evs db' Hexp Hnd Hr Hsame Htx; simpl in Htx.
  { apply tx_ret_inr in Htx as [_ ->]. split; [done|]. split; [done|]. split; [done|].
    intros c Hc. by apply elem_of_nil in Hc. }
  apply tx_bind_inr in Htx as (ev1 & db1 & H1 & Htx).
  apply tx_bind_inr in Htx as (ev2 & db2 & H2 & Htx). apply tx_ret_inr in Htx as [_ ->].
  simpl in Hnd. apply NoDup_cons in Hnd as [Hc Hnd].
  assert (∀ c', c' ∈ cs → rc_ExecutionAttemptID c' ≠ rc_ExecutionAttemptID c) as Hne.
  { intros c' Hc' Heq. apply Hc, list_elem_of_fmap. by exists c'. }
  destruct (Hexp c (list_elem_of_here _ _)) as (a & Ha & Hl).
  pose proof (Hsame c (list_elem_of_here _ _)) as Hsc. rewrite Ha in Hsc.
  assert (∀ c', c' ∈ cs → ∃ a, execution_attempts db0 !! rc_ExecutionAttemptID c' = Some a ∧
                               lease_expired now a = true) as Hexp'
    by (intros c' ?; apply Hexp; by right).
  apply reclaim_one_inr in H1 as [(Hleft & -> & _)|(_ & Hrec)].
  - assert (∀ c', c' ∈ cs → execution_attempts db !! rc_ExecutionAttemptID c' =
                            execution_attempts db0 !! rc_ExecutionAttemptID c') as Hsame'
      by (intros c' ?; apply Hsame; by right).
    destruct (IH _ _ _ _ Hexp' Hnd Hr Hsame' H2) as (Hr' & Hcnt & Hkeep & Hcs).
    split; [done|]. split; [done|]. split.
    + intros id b Hid. apply Hkeep. set_solver.
    + intros c' [->|Hc']%elem_of_cons; [right|by apply Hcs].
      split; [rewrite Ha; by apply Hkeep|]. destruct Hleft as [Hle|?]; [right|by left].
      specialize (Hcnt (rc_TaskID c)). lia.
  - assert (reaping now db db1) as Hstep.
    { eapply reclaimed_reaping; [apply reaping_refl|exact Hrec|intros; by simplify_eq|done]. }
    assert (reaping now db0 db1) as Hr1.
    { eapply reclaimed_reaping; [exact Hr|exact Hrec|intros; by simplify_eq|].
      intros b Hb _. congruence. }
    destruct Hrec as [(a' & Ha' & _ & Hnew & Hatt) _ _ _ _ _]. rewrite Hsc in Ha'.
    injection Ha' as <-.
    assert (∀ id b, id ≠ rc_ExecutionAttemptID c → execution_attempts db !! id = Some b →
                    execution_attempts db1 !! id = Some b) as Hother.
    { intros id b Hid Hb. rewrite Hatt, lookup_insert_ne by congruence.
      by rewrite lookup_insert_ne. }
    assert (∀ c', c' ∈ cs → execution_attempts db1 !! rc_ExecutionAttemptID c' =
                            execution_attempts db0 !! rc_ExecutionAttemptID c') as Hsame'.
    { intros c' Hc'. destruct (Hexp' c' Hc') as (b & Hb & _). rewrite Hb. apply Hother; [by apply Hne|].
      rewrite Hsame by (by right). done. }
    destruct (IH _ _ _ _ Hexp' Hnd Hr1 Hsame' H2) as (Hr' & Hcnt & Hkeep & Hcs).
    split; [done|]. split; [|split].
    + intros tid. pose proof (reaping_count now db db1 tid Hstep). specialize (Hcnt tid). lia.
    + intros id b Hid Hb. apply Hkeep; [set_solver|]. apply Hother; [set_solver|done].
    + intros c' [->|Hc']%elem_of_cons; [left|by apply Hcs].
      eexists _, a. split; [done|]. apply Hkeep; [done|].
      rewrite Hatt, lookup_insert_ne by congruence. apply lookup_insert_eq.
Qed.

(** The two statements after the loop. *)
Lemma fail_statements_inr (autoRecovery : bool) now db1 n1 db2 n2 db3 :
  (if autoRecovery then FailExpiredExecutionAttempts now now now
   else FailAllExpiredExecutionAttempts now now now) db1 = (n1, db2) →
  FailExpiredLeases now now now db2 = (n2, db3) →
  ∀ id a, execution_attempts db1 !! id = Some a →
  if lease_expired now a &&
     (negb autoRecovery || match task_row_of db1 a with
                           | None => false
                           | Some (tid, t) => t_max_attempts t <=? CountExecutionAttemptsByTask tid db1
                           end)
  then ∃ a', execution_attempts db3 !! id = Some a' ∧ a_status a' = "error" ∧
             a_error_category a' = Some "timeout"
  else execution_attempts db3 !! id = Some a.
Proof.
  intros H1 H2 id a Ha.
  assert (execution_attempts db3 = execution_attempts db2) as ->.
  { by apply on_tasks_where_inr in H2 as [[m ->] _]. }
  destruct autoRecovery; simpl;
    apply on_attempts_where_inr in H1 as [_ Hw]; rewrite Hw, Ha; simpl.
  - destruct (lease_expired now a); simpl; [|done].
    destruct (task_row_of db1 a) as [[tid t]|]; [|done].
    destruct (t_max_attempts t <=? _); [|done]. eexists. split; [done|]. done.
  - rewrite andb_true_r. destruct (lease_expired now a); [|done]. eexists. split; [done|]. done.
Qed.

(** ** Properties *)


Definition sample_draws (n : nat) : ReclaimDraw :=
  let k := fmt_d (Z.of_nat n) in
  mkReclaimDraw ("sess" ^^ k) ("prompt" ^^ k) ("exec" ^^ k) ("evta" ^^ k) ("evtb" ^^ k)
    sample_ids sample_ids.


(** One expired attempt can hold up all the others: when the attempt with
    the oldest expired lease belongs to a task that is no longer running (and
    has attempts left, a session and a prompt, on a runner not drained on
    purpose), the cycle fails and rolls back, so no lease is reclaimed or
    failed, in this cycle and in every later one that finds the same rows. *)
Theorem reapExpiredLeases_blocked `{Outbox} draws now db c rest t :
  ListReclaimableExecutionAttemptsForUpdate now db = c :: rest →
  tasks db !! rc_TaskID c = Some t → t_status t ≠ "running" →
  CountExecutionAttemptsByTask (rc_TaskID c) db < rc_MaxAttempts c →
  runnerIsDeliberatelyDrained (str_of (rc_RunnerID c)) db = false →
  is_Some (GetAgentSessionByTaskID (rc_TaskID c) db) →
  is_Some (GetUserPromptByTaskID (rc_TaskID c) db) →
  ∃ e, reapExpiredLeases true draws now db = (inl e, db).
Proof.
  intros Hl Ht Hst Hcnt Hdr [oldS HoldS] [oldP HoldP].
  unfold reapExpiredLeases, run_tx.
  destruct (reap_leases_tx true db draws now db) as [e|[v db']] eqn:E; [by exists e|exfalso].
  unfold reap_leases_tx in E. apply tx_bind_inr in E as (cs & s & H1 & E).
  apply tx_read_inr in H1 as [-> ->]. rewrite Hl in E.
  apply tx_bind_inr in E as (evs & db1 & H2 & _). simpl in H2.
  apply tx_bind_inr in H2 as (ev1 & db2 & H2 & _).
  apply reclaim_one_inr in H2 as [([Hle|Hd] & _)|(_ & Hrec)]; [lia|congruence|].
  destruct Hrec as [_ (t' & Ht' & Hrun & _) _ _ _ _]. congruence.
Qed.

(** The claimed attempt with its task marked as failed behind its back. *)
Definition stale_db : DB :=
  claimed_db{{ tasks := {[ "t1" := sample_task{{ t_status := "error" }} ]} }}.

Lemma reapExpiredLeases_blocked_witness :
  ∃ e, @reapExpiredLeases no_outbox true sample_draws (seconds 300) stale_db = (inl e, stale_db).
Proof.
  destruct (ListReclaimableExecutionAttemptsForUpdate (seconds 300) stale_db) as [|c rest] eqn:E;
    [vm_compute in E; discriminate|].
  apply (@reapExpiredLeases_blocked no_outbox _ _ _ c rest (sample_task{{ t_status := "error" }}) E);
    vm_compute in E; injection E as <- _.
  - by vm_compute.
  - done.
  - by vm_compute.
  - by vm_compute.
  - eexists; by vm_compute.
  - eexists; by vm_compute.
Defined.
