(* ===== verification/Auth.v ===== *)
(** * Scopes and tenant isolation

    [internal/auth/auth.go] and the access checks of [internal/service]: the
    teams a token may act for, the team filter of a list request, the team a
    submission is owned by and the guards in front of a task, an agent session
    and a trigger. A request without a scope is [None]. *)
From S2P Require Import Prelude GoStrings Status Repos Db Queries.

Record Scope := mkScope {
  TeamID : string;
  TeamIDs : list string;
  TokenID : string;
  TokenName : string;
  Admin : bool;
}.

Record TeamFilter := mkTeamFilter {
  tf_TeamIDs : list string;
  Constrained : bool;
  tf_Empty : bool;
}.

Definition Teams (s : Scope) : list string :=
  match TeamIDs s with
  | [] => if TeamID s == "" then [] else [TeamID s]
  | ids => ids
  end.

Definition HasTeam (s : Scope) (teamID : string) : bool :=
  if teamID == "" then false else existsb (λ id, id == teamID) (Teams s).

Fixpoint unique_from (seen values : list string) : list string :=
  match values with
  | [] => []
  | v :: values' =>
    if v == "" then unique_from seen values'
    else if bool_decide (v ∈ seen) then unique_from seen values'
    else v :: unique_from (v :: seen) values'
  end.

Definition uniqueNonEmpty (values : list string) : list string := unique_from [] values.

(** Neither a missing scope nor an administrator is constrained. *)
Definition unscoped (scope : option Scope) : bool :=
  match scope with None => true | Some s => Admin s end.

Definition ResolveTeamFilter (scope : option Scope) (requested : list string) : TeamFilter :=
  let requested := uniqueNonEmpty requested in
  match scope with
  | Some s =>
    if Admin s then
      match requested with
      | [] => mkTeamFilter [] false false
      | _ => mkTeamFilter requested true false
      end
    else
      let allowed := uniqueNonEmpty (Teams s) in
      match requested with
      | [] => mkTeamFilter allowed true (bool_decide (allowed = []))
      | _ =>
        match List.filter (λ id, bool_decide (id ∈ allowed)) requested with
        | [] => mkTeamFilter [] true true
        | intersection => mkTeamFilter intersection true false
        end
      end
  | None =>
    match requested with
    | [] => mkTeamFilter [] false false
    | _ => mkTeamFilter requested true false
    end
  end.

(** [GetTeamByName] gives the team's identifier; an unknown name and a failed
    lookup are the same error to the caller. *)
Definition resolveOwnerTeamID (GetTeamByName : string → option string) (scope : option Scope)
    (requestedID requestedName : string) : err + string :=
  let by_name : err + string :=
    match GetTeamByName requestedName with
    | None => inl (EFmt "team %q not found" [requestedName])
    | Some id => inr id
    end in
  match scope with
  | Some s =>
    if Admin s then
      if negb (requestedID == "") then inr requestedID
      else if negb (requestedName == "") then by_name
      else inr ""
    else
      (if negb (requestedName == "") then by_name else inr requestedID) ≫= λ requestedID,
      if negb (requestedID == "") then
        if HasTeam s requestedID then inr requestedID
        else inl (EFmt "team %q is not in token scope" [requestedID])
      else match Teams s with
           | [team] => inr team
           | [] => inl (EMsg "token has no team scope")
           | _ => inl (EMsg "team_id or team_name is required for multi-team tokens")
           end
  | None =>
    if negb (requestedID == "") then inr requestedID
    else if negb (requestedName == "") then by_name
    else inr ""
  end.

(** The check shared by the row guards: the row's team must be in scope. *)
Definition team_visible (scope : option Scope) (team : option string) : bool :=
  match scope with
  | None => true
  | Some s => if Admin s then true
              else match team with None => false | Some id => HasTeam s id end
  end.

Definition authorizeTaskToolAccess (scope : option Scope) (t : Task) : err + unit :=
  if team_visible scope (t_team_id t) then inr tt else inl (EMsg "task not found").

Definition authorizeAgentSessionAccess (scope : option Scope) (s : AgentSession) : err + unit :=
  if team_visible scope (s_team_id s) then inr tt else inl (EMsg "agent session not found").

Definition taskForToolAccess (scope : option Scope) (taskID : string) (db : DB) : err + Task :=
  match GetTaskByID taskID db with
  | None => inl ENoRows
  | Some t => authorizeTaskToolAccess scope t ≫= λ _, inr t
  end.

(** ** Lemmas *)

Lemma unique_from_elem seen values v :
  v ∈ unique_from seen values ↔ v ∈ values ∧ v ≠ "" ∧ v ∉ seen.
Proof.
  revert seen. induction values as [|w values IH]; intros seen; simpl; [set_solver|].
  case_bool_decide as Hw; [rewrite IH; set_solver|].
  case_bool_decide as Hs; [rewrite IH; set_solver|].
  rewrite elem_of_cons, IH. destruct (decide (v = w)) as [->|]; set_solver.
Qed.

Lemma unique_from_NoDup seen values : NoDup (unique_from seen values).
Proof.
  revert seen. induction values as [|w values IH]; intros seen; simpl; [constructor|].
  case_bool_decide; [done|]. case_bool_decide; [done|].
  constructor; [|done]. rewrite unique_from_elem. set_solver.
Qed.

Lemma HasTeam_spec s id : HasTeam s id = true ↔ id ≠ "" ∧ id ∈ Teams s.
Proof.
  unfold HasTeam. case_bool_decide as Hid; [naive_solver|].
  rewrite existsb_exists. split.
  - intros (x & Hx & ->%bool_decide_eq_true). by rewrite list_elem_of_In.
  - intros [_ Hin%list_elem_of_In]. exists id. by rewrite bool_decide_eq_true.
Qed.

Lemma taskForToolAccess_inr scope taskID db t :
  taskForToolAccess scope taskID db = inr t ↔
  tasks db !! taskID = Some t ∧ team_visible scope (t_team_id t) = true.
Proof.
  unfold taskForToolAccess, GetTaskByID, authorizeTaskToolAccess, mbind, sum_bind.
  destruct (tasks db !! taskID) as [t'|]; [|split; [done|by intros [? _]]].
  destruct (team_visible scope (t_team_id t')) eqn:E; split.
  - by intros [= <-].
  - by intros [[= <-] _].
  - done.
  - intros [[= <-] ?]. congruence.
Qed.

(** ** Theorems *)



(** A submission is owned by a team the caller may act for: for a caller
    with a non-administrator scope the resolved owner is a team of the scope,
    and never the empty team unless the scope itself lists it; it is the
    requested team when one was requested by identifier or by name. *)
Theorem resolveOwnerTeamID_in_scope GetTeamByName s requestedID requestedName id :
  Admin s = false →
  resolveOwnerTeamID GetTeamByName (Some s) requestedID requestedName = inr id →
  id ∈ Teams s ∧
  (requestedName ≠ "" → ∃ named, GetTeamByName requestedName = Some named ∧
                                 (named ≠ "" → id = named)) ∧
  (requestedName = "" → requestedID ≠ "" → id = requestedID).
Proof.
  intros Ha. unfold resolveOwnerTeamID. rewrite Ha.
  intros (rid & Hrid & H)%sum_bind_inr.
  assert (requestedName ≠ "" → GetTeamByName requestedName = Some rid) as Hn.
  { intros Hne. rewrite bool_decide_eq_false_2 in Hrid by done. simpl in Hrid.
    destruct (GetTeamByName requestedName); naive_solver. }
  assert (requestedName = "" → rid = requestedID) as Hi.
  { intros ->. rewrite bool_decide_eq_true_2 in Hrid by done. simpl in Hrid. naive_solver. }
  case_bool_decide as Hr; simpl in H.
  - destruct (Teams s) as [|t [|t' ts]] eqn:Et; [done| |done]. injection H as <-.
    split; [left|]. split; [|by intros Hz Hne; rewrite <- Hi in Hne].
    intros Hne. exists rid. split; [by apply Hn|done].
  - destruct (HasTeam s rid) eqn:Eh; [|done]. injection H as <-.
    apply HasTeam_spec in Eh as [_ ?]. split; [done|]. split; [|by intros Hz _; apply Hi].
    intros Hne. exists rid. split; [by apply Hn|done].
Qed.

Lemma resolveOwnerTeamID_in_scope_witness :
  let s := mkScope "" ["a"; "b"] "tok" "n" false in
  "b" ∈ Teams s ∧
  resolveOwnerTeamID (λ _, Some "c") (Some s) "" "other"
    = inl (EFmt "team %q is not in token scope" ["c"]).
Proof.
  split; [|reflexivity].
  refine (proj1 (resolveOwnerTeamID_in_scope (λ _, None)
    (mkScope "" ["a"; "b"] "tok" "n" false) "b" "" "b" _ _)); reflexivity.
Defined.
