(* ===== verification/Validation.v ===== *)
(** * Input validation

    [internal/validation/env.go] and [task.go]: the checks a submission and a
    trigger pass before anything is stored. A [ValidationError] keeps the
    arguments of its message instead of the formatted text. A Go map is the
    list of its entries in the order the loop meets them. *)
From S2P Require Import Prelude GoStrings Status.

Inductive Message :=
| MTooMany (count max : Z)
| MInvalidName (key : string)
| MNameTooLong (len max : Z)
| MValueTooLong (len max : Z)
| MBlockedName (key : string)
| MBlockedPrefix (key prefix : string)
| MUnsupported (value : string)
| MNegative (n : Z)
| MExceeds (n max : Z)
| MReasonTooLong (len max : Z)
| MNotOwnerRepo (repo : string).

Record ValidationError := mkValidationError { Field : string; Message_ : Message }.

(** [nil], the only violation itself, or all of them under a label. *)
Inductive Verdict :=
| VNil
| VOne (e : ValidationError)
| VMany (label : string) (errs : list ValidationError).

Definition joinErrors (errs : list ValidationError) (label : string) : Verdict :=
  match errs with
  | [] => VNil
  | [e] => VOne e
  | _ => VMany label errs
  end.

(** ** env.go *)

Definition name_start (c : ascii) : bool :=
  let n := N_of_ascii c in
  ((65 <=? n) && (n <=? 90) || (97 <=? n) && (n <=? 122) || (n =? 95))%N.

Definition name_byte (c : ascii) : bool :=
  let n := N_of_ascii c in name_start c || ((48 <=? n) && (n <=? 57))%N.

(** [^[A-Za-z_][A-Za-z0-9_]*$] *)
Definition IsValidEnvName (name : string) : bool :=
  match name with
  | EmptyString => false
  | String c rest => name_start c && all_bytes name_byte rest
  end.

Record Config := mkConfig {
  BlockedPrefixes : list string;
  BlockedNames : list string;
  MaxCount : Z;
  MaxNameLength : Z;
  MaxValueLength : Z;
}.

Definition Defaults : Config :=
  mkConfig ["CHETTER_"; "RUNNER_"; "MCP_AUTH"; "DATABASE_"; "GITHUB_APP_"; "ARCANE_"; "LLM_"]
           ["PATH"; "HOME"; "SHELL"; "LD_PRELOAD"; "LD_LIBRARY_PATH"] 64 256 4096.

Definition len (s : string) : Z := Z.of_nat (String.length s).

(** The violations of one entry. Each of the two lists stops at its first hit. *)
Definition env_violations (cfg : Config) (key value : string) : list ValidationError :=
  let field := "env[" ^^ key ^^ "]" in
  if negb (IsValidEnvName key) then [mkValidationError field (MInvalidName key)]
  else
    let upper := toUpper (trimSpace key) in
    (if MaxNameLength cfg <? len key
     then [mkValidationError field (MNameTooLong (len key) (MaxNameLength cfg))] else []) ++
    (if MaxValueLength cfg <? len value
     then [mkValidationError field (MValueTooLong (len value) (MaxValueLength cfg))] else []) ++
    (if existsb (λ blocked, upper == toUpper blocked) (BlockedNames cfg)
     then [mkValidationError field (MBlockedName key)] else []) ++
    match List.find (λ pre, hasPrefix upper (toUpper pre)) (BlockedPrefixes cfg) with
    | Some pre => [mkValidationError field (MBlockedPrefix key pre)]
    | None => []
    end.

Definition ValidateTaskEnv (env : list (string * string)) (cfg : Config) : Verdict :=
  match env with
  | [] => VNil
  | _ =>
    let label := "environment variable validation failed" in
    let count := Z.of_nat (length env) in
    if MaxCount cfg <? count
    then joinErrors [mkValidationError "env" (MTooMany count (MaxCount cfg))] label
    else joinErrors (List.concat (map (λ kv, env_violations cfg kv.1 kv.2) env)) label
  end.

(** ** task.go *)

Definition SupportedHarnesses : list string :=
  ["opencode"; "claude-code"; "pi"; "codewhale"; "codex"; "niffler"].
Definition TriggerTypes : list string := ["cron"; "pr_review"; "issue"].
Definition maxPauseReasonLen : Z := 1024.

Record TaskLimits := mkTaskLimits { MaxTimeoutSec : Z; MaxTTLHours : Z }.

Definition DefaultTaskLimits : TaskLimits := mkTaskLimits (24 * 3600) (24 * 30).

Record TaskInput := mkTaskInput {
  in_Harness : string;
  in_SessionMode : string;
  in_PauseReason : string;
  in_TTLHours : Z;
  in_TimeoutSec : Z;
}.

Definition check_harness (harness : string) : list ValidationError :=
  if negb (harness == "") && negb (one_of SupportedHarnesses harness)
  then [mkValidationError "harness" (MUnsupported harness)] else [].

Definition check_mode (mode : string) : list ValidationError :=
  if one_of [""; "none"; "resumable"] (trimSpace mode) then []
  else [mkValidationError "session_mode" (MUnsupported mode)].

(** A limit of zero is no limit. *)
Definition check_range (field : string) (n max : Z) : list ValidationError :=
  if n <? 0 then [mkValidationError field (MNegative n)]
  else if (0 <? max) && (max <? n) then [mkValidationError field (MExceeds n max)]
  else [].

Definition check_reason (reason : string) : list ValidationError :=
  if maxPauseReasonLen <? len reason
  then [mkValidationError "pause_reason" (MReasonTooLong (len reason) maxPauseReasonLen)] else [].

Definition validateTaskFields (i : TaskInput) (limits : TaskLimits) : list ValidationError :=
  check_harness (in_Harness i) ++ check_mode (in_SessionMode i) ++
  check_range "timeout_sec" (in_TimeoutSec i) (MaxTimeoutSec limits) ++
  check_range "ttl_hours" (in_TTLHours i) (MaxTTLHours limits) ++
  check_reason (in_PauseReason i).

Definition ValidateTaskInput (i : TaskInput) (limits : TaskLimits) : Verdict :=
  joinErrors (validateTaskFields i limits) "task validation failed".

Definition IsGitHubTriggerType (t : string) : bool := (t == "pr_review") || (t == "issue").

(** Letters, digits, hyphen, underscore and dot: a multi-byte rune has no byte
    among them. *)
Definition segment_byte (c : ascii) : bool :=
  let n := N_of_ascii c in
  ((97 <=? n) && (n <=? 122) || (65 <=? n) && (n <=? 90) || (48 <=? n) && (n <=? 57) ||
   (n =? 45) || (n =? 95) || (n =? 46))%N.

Definition isOwnerRepoSegment (s : string) : bool :=
  if (s == "") || (100 <? len s) then false
  else all_bytes segment_byte s && negb (replaceAll s "." "" == "").

Definition ValidOwnerRepo (s : string) : bool :=
  let s := trimSpace s in
  if s == "" then false
  else match split_on "/" s with
       | [owner; repo] => isOwnerRepoSegment owner && isOwnerRepoSegment repo
       | _ => false
       end.

Definition ValidateTriggerInput (triggerType repo : string) (i : TaskInput) (limits : TaskLimits)
    : Verdict :=
  joinErrors
    ((if negb (triggerType == "") && negb (one_of TriggerTypes triggerType)
      then [mkValidationError "trigger_type" (MUnsupported triggerType)] else []) ++
     validateTaskFields i limits ++
     (if IsGitHubTriggerType triggerType && negb (repo == "") && negb (ValidOwnerRepo repo)
      then [mkValidationError "repo" (MNotOwnerRepo repo)] else []))
    "trigger validation failed".

(** ** Lemmas *)

Lemma joinErrors_nil errs label : joinErrors errs label = VNil ↔ errs = [].
Proof. destruct errs as [|? [|? ?]]; simpl; naive_solver. Qed.

Lemma app_nil_iff {A} (l k : list A) : l ++ k = [] ↔ l = [] ∧ k = [].
Proof. destruct l; simpl; naive_solver. Qed.

Lemma if_nil {A} (b : bool) (x : A) : (if b then [x] else []) = [] ↔ b = false.
Proof. destruct b; naive_solver. Qed.

Lemma concat_nil {A B} (f : A → list B) l :
  List.concat (map f l) = [] ↔ ∀ x, x ∈ l → f x = [].
Proof.
  induction l as [|x l IH]; simpl; [set_solver|].
  rewrite app_nil_iff, IH. split.
  - intros [Hx Hl] y [->|Hy]%elem_of_cons; auto.
  - intros H. split; [apply H; left|]. intros y Hy. apply H. by right.
Qed.

Lemma existsb_false {A} (f : A → bool) l : existsb f l = false ↔ ∀ x, x ∈ l → f x = false.
Proof.
  rewrite <- not_true_iff_false, existsb_exists. split.
  - intros Hn x Hx. destruct (f x) eqn:E; [|done]. destruct Hn. exists x.
    by rewrite <- list_elem_of_In.
  - intros H (x & Hx%list_elem_of_In & Hf). by rewrite (H x Hx) in Hf.
Qed.

Lemma find_nil {A B} (f : A → bool) (g : A → B) l :
  match List.find f l with Some x => [g x] | None => [] end = [] ↔ ∀ x, x ∈ l → f x = false.
Proof.
  destruct (List.find f l) as [x|] eqn:E.
  - split; [done|]. intros H. apply List.find_some in E as [Hin Hf].
    by rewrite (H x) in Hf by (by apply list_elem_of_In).
  - split; [|done]. intros _ x Hx. eapply List.find_none; [exact E|]. by apply list_elem_of_In.
Qed.

Lemma name_start_byte c : name_start c = true → name_byte c = true.
Proof. unfold name_byte. by intros ->. Qed.

Lemma name_byte_plain c : name_byte c = true → negb (is_space c) && negb (c == "="%char) = true.
Proof. destruct c as [[] [] [] [] [] [] [] []]; vm_compute; congruence. Qed.

Lemma valid_name_bytes k : IsValidEnvName k = true → all_bytes name_byte k = true ∧ k ≠ "".
Proof.
  destruct k as [|c k]; [done|]. cbn [IsValidEnvName all_bytes].
  rewrite !andb_true_iff. intros [Hc Hk]. split; [|done]. split; [by apply name_start_byte|done].
Qed.

Lemma valid_name_trim k : IsValidEnvName k = true → trimSpace k = k.
Proof.
  intros [Hk _]%valid_name_bytes. apply trimSpace_nospace. eapply all_bytes_weaken; [|exact Hk].
  intros c [Hc _]%name_byte_plain%andb_true_iff. done.
Qed.

Lemma cut_app sep k v :
  all_bytes (λ c, negb (c == sep)) k = true → cut sep (k ^^ String sep v) = Some (k, v).
Proof.
  induction k as [|c k IH]; cbn [all_bytes].
  - intros _. simpl. by rewrite bool_decide_eq_true_2.
  - intros [Hc%negb_true_iff Hk]%andb_true_iff. rewrite app_cons. cbn [cut].
    by rewrite Hc, (IH Hk).
Qed.

Lemma env_violations_nil cfg k v :
  env_violations cfg k v = [] ↔
  IsValidEnvName k = true ∧ len k <= MaxNameLength cfg ∧ len v <= MaxValueLength cfg ∧
  (∀ b, b ∈ BlockedNames cfg → toUpper k ≠ toUpper b) ∧
  (∀ b, b ∈ BlockedPrefixes cfg → hasPrefix (toUpper k) (toUpper b) = false).
Proof.
  unfold env_violations. destruct (IsValidEnvName k) eqn:Ek; simpl; [|naive_solver].
  rewrite (valid_name_trim k Ek), !app_nil_iff, !if_nil, find_nil, existsb_false.
  rewrite !Z.ltb_ge. setoid_rewrite bool_decide_eq_false. naive_solver.
Qed.

Lemma split_on_join sep s : s = String.concat (String sep "") (split_on sep s).
Proof.
  induction s as [|c s IH]; [done|]. simpl. case_bool_decide as Hc.
  - subst c. rewrite IH at 1. destruct (split_on sep s) eqn:E; [|done].
    destruct s; simpl in E; repeat case_match; discriminate.
  - destruct (split_on sep s) as [|w ws] eqn:E.
    + destruct s; simpl in E; repeat case_match; discriminate.
    + rewrite IH at 1. by destruct ws.
Qed.

(** A path segment that can only name one directory below its parent. *)
Definition safe_segment (s : string) : Prop :=
  s ≠ "" ∧ len s <= 100 ∧ all_bytes segment_byte s = true ∧ s ≠ "." ∧ s ≠ "..".

Lemma segment_safe s : isOwnerRepoSegment s = true → safe_segment s.
Proof.
  unfold isOwnerRepoSegment, safe_segment. case_match eqn:E; [done|].
  apply orb_false_iff in E as [E1%bool_decide_eq_false E2%Z.ltb_ge].
  intros [Hb Hd]%andb_true_iff. do 3 (split; [done|]).
  split; intros ->; vm_compute in Hd; discriminate.
Qed.

Lemma ValidOwnerRepo_safe s :
  ValidOwnerRepo s = true →
  ∃ owner repo, trimSpace s = owner ^^ "/" ^^ repo ∧ safe_segment owner ∧ safe_segment repo.
Proof.
  unfold ValidOwnerRepo. case_match; [done|].
  destruct (split_on "/" (trimSpace s)) as [|o [|r [|]]] eqn:E; try done.
  intros [Ho Hr]%andb_true_iff. exists o, r.
  split; [|split; by apply segment_safe].
  pose proof (split_on_join "/" (trimSpace s)) as Hs. by rewrite E in Hs.
Qed.

(** The verdict, entry by entry. *)
Lemma ValidateTaskEnv_nil env cfg :
  ValidateTaskEnv env cfg = VNil ↔
  env = [] ∨
  Z.of_nat (length env) <= MaxCount cfg ∧ ∀ k v, (k, v) ∈ env → env_violations cfg k v = [].
Proof.
  unfold ValidateTaskEnv. destruct env as [|kv env]; [naive_solver|].
  destruct (Z.ltb_spec (MaxCount cfg) (Z.of_nat (length (kv :: env)))) as [Hc|Hc].
  - split; [done|]. intros [?|[? _]]; [done|lia].
  - rewrite joinErrors_nil, concat_nil. split.
    + intros Hv. right. split; [done|]. intros k v Hin. by apply (Hv (k, v)).
    + intros [?|[_ Hv]]; [done|]. intros [k v]. apply Hv.
Qed.

(** ** Theorems *)

(** C19. The environment of a task is accepted exactly when it has at most
    [MaxCount] entries and every entry has an identifier for a name, fits the
    two length limits and, upper-cased, is neither a blocked name nor starts
    with a blocked prefix. The text that the runner hands to Docker for an
    accepted entry, split at its first equals sign, gives back exactly that
    name and value, so no entry can smuggle a managed name past the list. *)
Theorem ValidateTaskEnv_spec env cfg :
  (ValidateTaskEnv env cfg = VNil ↔
   env = [] ∨
   Z.of_nat (length env) <= MaxCount cfg ∧
   ∀ k v, (k, v) ∈ env →
     IsValidEnvName k = true ∧ len k <= MaxNameLength cfg ∧ len v <= MaxValueLength cfg ∧
     (∀ b, b ∈ BlockedNames cfg → toUpper k ≠ toUpper b) ∧
     (∀ b, b ∈ BlockedPrefixes cfg → hasPrefix (toUpper k) (toUpper b) = false)) ∧
  (ValidateTaskEnv env cfg = VNil → ∀ k v, (k, v) ∈ env →
     cut "=" (k ^^ "=" ^^ v) = Some (k, v)).
Proof.
  assert (Hspec := ValidateTaskEnv_nil env cfg).
  setoid_rewrite <- env_violations_nil. split; [done|].
  intros H k v Hin. destruct (proj1 Hspec H) as [->|[_ Hv]]; [by apply elem_of_nil in Hin|].
  apply Hv, env_violations_nil in Hin as [[Hk _]%valid_name_bytes _].
  apply (cut_app "=" k v). eapply all_bytes_weaken; [|exact Hk].
  by intros c [_ Hc]%name_byte_plain%andb_true_iff.
Qed.

(** A task or trigger is accepted exactly when every documented limit
    holds: a known harness or none, a known session mode, a timeout and a time
    to live that are not negative and within the configured caps (a cap of
    zero being none), a bounded pause reason, for a trigger a known type and,
    for a GitHub trigger with a repository, a canonical owner/repo name whose
    two parts are safe path segments. *)
Theorem ValidateTriggerInput_spec triggerType repo i limits :
  ValidateTriggerInput triggerType repo i limits = VNil ↔
  ValidateTaskInput i limits = VNil ∧
  (in_Harness i = "" ∨ in_Harness i ∈ SupportedHarnesses) ∧
  trimSpace (in_SessionMode i) ∈ [""; "none"; "resumable"] ∧
  (0 <= in_TimeoutSec i ∧ (0 < MaxTimeoutSec limits → in_TimeoutSec i <= MaxTimeoutSec limits)) ∧
  (0 <= in_TTLHours i ∧ (0 < MaxTTLHours limits → in_TTLHours i <= MaxTTLHours limits)) ∧
  len (in_PauseReason i) <= 1024 ∧
  (triggerType = "" ∨ triggerType ∈ TriggerTypes) ∧
  (triggerType ∈ ["pr_review"; "issue"] → repo ≠ "" → ValidOwnerRepo repo = true ∧
   ∃ owner name, trimSpace repo = owner ^^ "/" ^^ name ∧ safe_segment owner ∧ safe_segment name).
Proof.
  assert (∀ f n max, check_range f n max = [] ↔ 0 <= n ∧ (0 < max → n <= max)) as Hrange.
  { intros f n max. unfold check_range. destruct (Z.ltb_spec n 0); [split; [done|lia]|].
    destruct (Z.ltb_spec 0 max), (Z.ltb_spec max n); simpl; split; try done; lia. }
  assert (validateTaskFields i limits = [] ↔
    (in_Harness i = "" ∨ in_Harness i ∈ SupportedHarnesses) ∧
    trimSpace (in_SessionMode i) ∈ [""; "none"; "resumable"] ∧
    (0 <= in_TimeoutSec i ∧ (0 < MaxTimeoutSec limits → in_TimeoutSec i <= MaxTimeoutSec limits)) ∧
    (0 <= in_TTLHours i ∧ (0 < MaxTTLHours limits → in_TTLHours i <= MaxTTLHours limits)) ∧
    len (in_PauseReason i) <= 1024) as Hfields.
  { unfold validateTaskFields. rewrite !app_nil_iff, !Hrange. unfold check_harness, check_mode,
      check_reason. rewrite !if_nil, Z.ltb_ge, andb_false_iff, !negb_false_iff, bool_decide_eq_true.
    rewrite <- one_of_spec. change (maxPauseReasonLen) with 1024.
    rewrite <- (one_of_spec [_; _; _]). destruct (one_of [_; _; _] _); naive_solver. }
  unfold ValidateTriggerInput, ValidateTaskInput.
  rewrite !joinErrors_nil, !app_nil_iff, !if_nil, !andb_false_iff, !negb_false_iff, Hfields,
    !bool_decide_eq_true, one_of_spec.
  assert (IsGitHubTriggerType triggerType = false ↔ triggerType ∉ ["pr_review"; "issue"]) as ->.
  { unfold IsGitHubTriggerType. rewrite orb_false_iff, !bool_decide_eq_false. set_solver. }
  pose proof (ValidOwnerRepo_safe repo) as Hsafe. split.
  - intros (Ht & (H1 & H2 & H3 & H4 & H5) & Hr). do 7 (split; [tauto|]).
    intros Hg Hne. assert (ValidOwnerRepo repo = true) as Hv
      by (destruct Hr as [[Hr|Hr]|Hr]; done). auto.
  - intros (_ & H1 & H2 & H3 & H4 & H5 & Ht & Hr). split; [tauto|]. split; [tauto|].
    destruct (decide (triggerType ∈ ["pr_review"; "issue"])) as [Hg|Hg]; [|tauto].
    destruct (decide (repo = "")) as [|Hne]; [tauto|]. right. by apply Hr.
Qed.
