(* ===== verification/Submission.v ===== *)
(** * Submission

    The four ways a task gets into the queue, [SubmitTask], [RecoverTask],
    [RerunTask] and [ResumeAgentSession] of [internal/service/service.go], and
    the admission gate they share. Each inserts its rows in one transaction.
    Reads made before the transaction see the state [outside] it. *)
From S2P Require Import Prelude GoStrings Status Repos Redact Db Queries Outbox Auth Validation.
From S2P Require Import Sample Claim.

Record ServiceConfig := mkServiceConfig {
  DefaultAgentImage : string;
  AgentImagePrefix : string;
  DefaultTaskTimeoutSec : Z;
  MaxPendingTasks : Z;
  AllowUnisolated : bool;
  cfg_TaskLimits : TaskLimits;
  cfg_EnvValidation : Validation.Config;
}.

Record SubmitTaskRequest := mkSubmitTaskRequest {
  q_TeamID : string;
  q_TeamName : string;
  q_Prompt : string;
  q_GitURL : string;
  q_GitRef : string;
  q_Repos : list RepoRef;
  q_GitHubRepo : string;
  q_GitHubInstallationID : Z;
  q_AgentImage : string;
  q_Agent : string;
  q_ProviderID : string;
  q_ModelID : string;
  q_VariantID : string;
  q_Harness : string;
  q_Skills : list string;
  q_McpEndpoints : list string;
  q_Env : gmap string string;
  q_TimeoutSec : Z;
  q_TriggerName : string;
  q_TriggerType : string;
  q_SubmissionSource : string;
  q_CallbackParentTaskID : string;
  q_CallbackDepth : Z;
  q_ExplicitTaskID : string;
  q_SelfTestRunID : string;
  q_SelfTestProfile : string;
  q_SelfTestCheck : string;
  q_SelfTestNonce : string;
  q_SessionMode : string;
  q_PauseReason : string;
  q_TTLHours : Z;
  q_Isolation : string;
}.

Record GitIdentityRecord := mkGitIdentity {
  gi_ID : string;
  gi_GitAuthorName : string;
  gi_GitAuthorEmail : string;
}.

(** What a submission looks up in the tables this development does not model:
    teams, definitions and Git identities; and the GitHub repository parser,
    which gives the full name of a repository. *)
Record Lookups := mkLookups {
  GetTeamByName : string → option string;
  githubrepo_Parse : string → option string;
  resolveTaskGitIdentity : string → string → string → err + GitIdentityRecord;
  defaultGitIdentity : string → err + GitIdentityRecord;
  loadMcpEndpoints : list string → string → err + unit;
}.

(** The identifiers drawn for one submission. *)
Record SubmitIDs := mkSubmitIDs {
  id_task : string;
  id_session : string;
  id_prompt : string;
  id_attempt : string;
  id_event : string;
  id_run : string;
}.

(** ** Admission *)

Definition withPendingTaskAdmission {A} (cfg : ServiceConfig) (fn : tx DB A) : tx DB A :=
  if MaxPendingTasks cfg <=? 0 then fn
  else tx_read CountPendingTasks ≫= λ current,
       if MaxPendingTasks cfg <=? current
       then tx_fail (ECapacity (MaxPendingTasks cfg) current)
       else fn.

(** ** Preparing a request *)

(** [strings.Trim(s, "/")] *)
Fixpoint drop_slashes (s : string) : string :=
  match s with
  | EmptyString => EmptyString
  | String c s' => if c == "/"%char then drop_slashes s' else s
  end.
Definition trim_slashes (s : string) : string :=
  rev_string (drop_slashes (rev_string (drop_slashes s))).

Definition isRegistryQualifiedImageRef (image : string) : bool :=
  match cut "/" image with
  | None => false
  | Some (first, _) => (first == "localhost") || contains first "." || contains first ":"
  end.

Definition resolveAgentImageRef (image prefix : string) : string :=
  let image := trimSpace image in
  let prefix := trim_slashes (trimSpace prefix) in
  if (image == "") || (prefix == "") || isRegistryQualifiedImageRef image then image
  else prefix ^^ "/" ^^ image.

Definition taskGitHubMetadata (L : Lookups) (q : SubmitTaskRequest) : err + string * Z :=
  if q_GitHubInstallationID q <? 0 then inl (EMsg "github_installation_id must be positive")
  else if negb (trimSpace (q_GitHubRepo q) == "") then
    match githubrepo_Parse L (q_GitHubRepo q) with
    | None => inl (EMsg "invalid trusted github_repo")
    | Some name => inr (name, q_GitHubInstallationID q)
    end
  else if 0 <? q_GitHubInstallationID q then
    inl (EMsg "github_installation_id requires github_repo")
  else if trimSpace (q_GitURL q) == "" then inr ("", 0)
  else match githubrepo_Parse L (q_GitURL q) with
       | None => inr ("", 0)
       | Some name => inr (name, 0)
       end.

Definition normalizeMcpEndpointNames : list string → list string := normalize_loop [].

(** One substitution pass per variable, the longest names first. *)
Definition expand_one (values : string → string) (prompt key : string) : string :=
  let value := if values key == "" then "unknown" else values key in
  replaceAll (replaceAll prompt ("${" ^^ key ^^ "}") value) ("$" ^^ key) value.

Definition expandChetterPromptVars (prompt : string) (values : string → string) : string :=
  foldl (expand_one values) prompt
    ["CHETTER_RUNNER_IMAGE_DIGEST"; "CHETTER_RUNNER_IMAGE"; "CHETTER_AGENT_NAME";
     "CHETTER_MODEL_ID"; "CHETTER_TASK_ID"].

Definition prompt_vars (q : SubmitTaskRequest) (taskID key : string) : string :=
  if key == "CHETTER_AGENT_NAME" then q_Agent q
  else if key == "CHETTER_MODEL_ID" then q_ModelID q
  else if key == "CHETTER_TASK_ID" then taskID
  else if key == "CHETTER_RUNNER_IMAGE" then q_AgentImage q
  else if key == "CHETTER_RUNNER_IMAGE_DIGEST" then "unknown" else "".

Definition sanitizeTaskEnv (env : gmap string string) : gmap string string :=
  map_imap (λ key value, Some (if sensitive_key key then "[redacted]" else value)) env.

Definition nullInt64 (value : Z) : option Z := if value =? 0 then None else Some value.

Definition search_text (words : list string) : string := join " " (fields (join " " words)).

Definition verdict_err (v : Verdict) : err + unit :=
  match v with
  | VNil => inr tt
  | VOne e => inl (EFmt "%s" [Field e])
  | VMany label errs => inl (EFmt label (map Field errs))
  end.

(** The request once its defaults are in, with what it resolved to. *)
Record Prepared := mkPrepared {
  pp_request : SubmitTaskRequest;
  pp_team : string;
  pp_github : string * Z;
  pp_identity : GitIdentityRecord;
  pp_task : string;
  pp_endpoints : list string;
}.

Definition prepare_request (cfg : ServiceConfig) (q : SubmitTaskRequest) : err + SubmitTaskRequest :=
  _ ← err_guard (q_Prompt q == "") (EMsg "prompt is required");
  let repos := normalizeSubmitRepoRefs (q_Repos q) (q_GitURL q) (q_GitRef q) in
  let q := q{{ q_Repos := repos }} in
  let q := match PrimaryRepoRef repos with
           | Some primary => q{{ q_GitURL := URL primary; q_GitRef := Ref primary }}
           | None => q
           end in
  _ ← verdict_err (ValidateTaskInput
        (mkTaskInput (q_Harness q) (q_SessionMode q) (q_PauseReason q) (q_TTLHours q)
           (q_TimeoutSec q)) (cfg_TaskLimits cfg));
  _ ← verdict_err (ValidateTaskEnv (map_to_list (q_Env q)) (cfg_EnvValidation cfg));
  _ ← err_guard ((q_AgentImage q == "") && (DefaultAgentImage cfg == ""))
        (EMsg "agent_image is required (no default configured)");
  let image := if q_AgentImage q == "" then DefaultAgentImage cfg else q_AgentImage q in
  let q := q{{ q_AgentImage := resolveAgentImageRef image (AgentImagePrefix cfg) }} in
  inr (if q_TimeoutSec q =? 0 then q{{ q_TimeoutSec := DefaultTaskTimeoutSec cfg }} else q).

Definition prepare_submission (cfg : ServiceConfig) (L : Lookups) (scope : option Scope)
    (ids : SubmitIDs) (q : SubmitTaskRequest) : err + Prepared :=
  q ← prepare_request cfg q;
  team ← resolveOwnerTeamID (GetTeamByName L) scope (q_TeamID q) (q_TeamName q);
  github ← taskGitHubMetadata L q;
  identity ← (if negb (trimSpace (q_Agent q) == "")
              then resolveTaskGitIdentity L (q_Agent q) team (q_GitURL q)
              else defaultGitIdentity L team);
  let taskID := if q_ExplicitTaskID q == "" then id_task ids else q_ExplicitTaskID q in
  let q := q{{ q_Prompt := expandChetterPromptVars (q_Prompt q) (prompt_vars q taskID) }} in
  let endpoints := normalizeMcpEndpointNames (q_McpEndpoints q) in
  _ ← (match endpoints with [] => inr tt | _ => loadMcpEndpoints L endpoints team end);
  inr (mkPrepared q team github identity taskID endpoints).

(** ** SubmitTask *)

Definition resume_mode (q : SubmitTaskRequest) : string :=
  if q_SessionMode q == "resumable" then "harness_session" else "none".

Definition session_expiry (q : SubmitTaskRequest) (now : time) : option time :=
  if q_SessionMode q == "resumable"
  then Some (now + hours (if 0 <? q_TTLHours q then q_TTLHours q else 72))
  else None.

Definition isolationRequired (cfg : ServiceConfig) (q : SubmitTaskRequest) : bool :=
  negb (resume_mode q == "none") || (q_Isolation q == "required") || negb (AllowUnisolated cfg).

(** The column default of [tasks.max_attempts]. *)
Definition default_max_attempts : Z := 3.

Definition task_repos (q : SubmitTaskRequest) : option (list RepoRef) := MarshalRepoRefs (q_Repos q).

Definition submission_source (q : SubmitTaskRequest) : string :=
  if q_SubmissionSource q == "" then "manual" else q_SubmissionSource q.

Definition submitted_task (p : Prepared) (now : time) : Task :=
  let q := pp_request p in
  mkTask "pending" (q_Prompt q) (nullString (q_GitURL q)) (nullString (q_GitRef q)) None None
    now now None (nullString (pp_team p)) (nullString (q_TriggerName q))
    (nullString (q_TriggerType q)) default_max_attempts
    (nullString (search_text [q_Prompt q; q_Agent q; q_ModelID q; q_TriggerName q; q_GitURL q;
                              (pp_github p).1]))
    None (submission_source q) None None (nullString (pp_github p).1)
    (nullInt64 (pp_github p).2) (nullString (q_SelfTestRunID q)) (nullString (q_SelfTestProfile q))
    (nullString (q_SelfTestCheck q)) (nullString (q_SelfTestNonce q))
    (nullString (q_CallbackParentTaskID q)) (int32_of (q_CallbackDepth q)) (task_repos q).

Definition submitted_session (cfg : ServiceConfig) (p : Prepared) (sessionID : string)
    (now : time) : AgentSession :=
  let q := pp_request p in
  mkAgentSession (nullString (pp_team p)) "running" (resume_mode q) None None None None None None
    (nullString (q_GitURL q)) (nullString (q_GitRef q)) (nullString (q_AgentImage q))
    (nullString (q_Agent q)) (nullString (q_ProviderID q)) (nullString (q_ModelID q))
    (nullString (q_VariantID q)) now now None (session_expiry q now)
    (nullString (if q_SessionMode q == "resumable" then q_PauseReason q else "")) None
    (nullString (search_text [sessionID; q_Agent q; q_ModelID q; q_GitURL q]))
    1 (pp_task p) (nullString (q_Harness q)) (Some (pp_endpoints p))
    (Some (gi_GitAuthorName (pp_identity p))) (Some (gi_GitAuthorEmail (pp_identity p)))
    (nullString (gi_ID (pp_identity p))) (q_Skills q) (sanitizeTaskEnv (q_Env q))
    None (Some now) None (isolationRequired cfg q) (task_repos q).

Definition new_prompt (sessionID taskID prompt : string) (sequence : Z) (source : option string)
    (now : time) : UserPrompt :=
  mkUserPrompt sessionID taskID "pending" prompt None None None now now None None sequence source.

Definition submit_rows (cfg : ServiceConfig) (p : Prepared) (ids : SubmitIDs) (now : time)
    : tx DB Task :=
  _ ← InsertTask (pp_task p) (submitted_task p now);
  _ ← InsertAgentSession (id_session ids) (submitted_session cfg p (id_session ids) now);
  _ ← InsertUserPrompt (id_prompt ids)
        (new_prompt (id_session ids) (pp_task p) (q_Prompt (pp_request p)) 1 None now);
  _ ← InsertPendingExecutionAttempt (id_attempt ids) (id_prompt ids) 1 None
        (int32_of (q_TimeoutSec (pp_request p))) now now;
  tx_one (GetTaskByID (pp_task p)).

(** The run of a trigger, recorded after the commit; [trigger] tells whether
    the trigger is found. *)
Definition record_trigger_run (p : Prepared) (trigger : bool) (runID : string) (db : DB) : DB :=
  if negb (q_TriggerName (pp_request p) == "") && trigger
  then db{{ trigger_runs := <[runID := mkTriggerRun (Some (pp_task p)) "submitted"]>
                              (trigger_runs db) }}
  else db.

Definition SubmitTask (cfg : ServiceConfig) (L : Lookups) (scope : option Scope) (trigger : bool)
    (ids : SubmitIDs) (now : time) (q : SubmitTaskRequest) (sets : redactSets) (db : DB)
    : (err + Task) * redactSets * DB :=
  match prepare_submission cfg L scope ids q with
  | inl e => (inl e, sets, db)
  | inr p =>
    match run_tx (withPendingTaskAdmission cfg (submit_rows cfg p ids now)) db with
    | (inl e, db') => (inl e, sets, db')
    | (inr t, db') =>
      (inr t,
       if bool_decide (q_Env (pp_request p) = ∅) then sets
       else RegisterRedactSet (id_session ids) (Some (NewSet (map_to_list (q_Env (pp_request p)))))
              sets,
       record_trigger_run p trigger (id_run ids) db')
    end
  end.

(** ** RecoverTask and RerunTask *)

(** [ORDER BY sequence ASC, created_at ASC] *)
Definition ListExecutionAttemptsByPrompt (promptID : string) (db : DB)
    : list (string * ExecutionAttempt) :=
  sort_by (λ kv, a_sequence kv.2) (sort_by (λ kv, a_created_at kv.2)
    (List.filter (λ kv, a_user_prompt_id kv.2 == promptID) (map_to_list (execution_attempts db)))).

(** The timeout of the last attempt of a prompt. *)
Definition last_timeout (cfg : ServiceConfig) (promptID : string) (db : DB) : Z :=
  match List.last (map Some (ListExecutionAttemptsByPrompt promptID db)) None with
  | None => DefaultTaskTimeoutSec cfg
  | Some (_, a) => a_timeout_sec a
  end.

Definition newline : string := String "010" "".

Definition default_recovery_prompt (taskID prompt : string) : string :=
  "The file chetter_recovery_" ^^ taskID ^^ ".md in the workspace is the complete transcript of a previous session that attempted this work but did not succeed. " ^^
  "Please review the previous session thoroughly, understand what was accomplished and what went wrong, then finish the work. " ^^
  "Use the context from the previous session to continue efficiently — you don't need to redo work that was already completed successfully." ^^
  newline ^^ newline ^^ "Original task:" ^^ newline ^^ prompt.

(** The session that continues the work of [old]: its configuration is copied,
    its run state and its repository set are not. *)
Definition derived_session (old : AgentSession) (taskID sessionID gitURL : string) (sequence : Z)
    (expiresAt : option time) (now : time) : AgentSession :=
  mkAgentSession (s_team_id old) "running" (s_resume_mode old) None None None None None None
    (s_git_url old) (s_git_ref old) (s_agent_image old) (s_agent old) (s_provider_id old)
    (s_model_id old) (s_variant_id old) now now None expiresAt (s_pause_reason old) None
    (nullString (search_text [sessionID; str_of (s_agent old); str_of (s_model_id old); gitURL]))
    sequence taskID (s_harness old) (s_mcp_endpoints old) (s_commit_author_name old)
    (s_commit_author_email old) (s_git_identity_id old) (s_skills old) (s_env old) None (Some now)
    None (s_isolation_required old) None.

Definition recovery_event (ids : SubmitIDs) (taskID teamID oldSession oldPrompt : string)
    (now : time) : TaskEventCallbackContext :=
  let summary := "Started recovery session " ^^ id_session ids ^^ " from " ^^ oldSession in
  mkEventContext (id_event ids) taskID teamID ("control.recovery." ^^ taskID) "pending"
    "task.session_restarted" summary "" ""
    (PObject [("task_id", JStr taskID); ("old_agent_session_id", JStr oldSession);
              ("new_agent_session_id", JStr (id_session ids));
              ("old_user_prompt_id", JStr oldPrompt); ("new_user_prompt_id", JStr (id_prompt ids));
              ("reason", JStr "explicit_recovery"); ("status", JStr "pending");
              ("summary", JStr summary)]) now.

Definition has_export (p : UserPrompt) : bool :=
  match p_session_export p with None => false | Some e => negb (trimSpace e == "") end.

Definition recover_rows `{Outbox} (cfg : ServiceConfig) (taskID teamID prompt : string)
    (ids : SubmitIDs) (draws : nat → string) (now : time) : tx DB TaskEventCallbackContext :=
  oldSession ← tx_one (GetAgentSessionByTaskID taskID);
  oldPrompt ← tx_one (GetUserPromptByTaskID taskID);
  _ ← tx_guard (negb (has_export oldPrompt.2))
        (EMsg ("no session export available for task " ^^ taskID));
  timeout ← tx_read (last_timeout cfg oldPrompt.1);
  sequence ← tx_read (GetNextAgentSessionSequence taskID);
  rows ← tx_rows (RequeueTaskForPrompt now taskID);
  _ ← tx_guard (rows =? 0) (EMsg ("task " ^^ taskID ^^ " is not in a terminal state"));
  let expiresAt :=
    if s_resume_mode oldSession.2 == "none" then None else Some (now + hours 72) in
  _ ← InsertAgentSession (id_session ids)
        (derived_session oldSession.2 taskID (id_session ids) (str_of (s_git_url oldSession.2))
           sequence expiresAt now);
  _ ← InsertUserPrompt (id_prompt ids)
        (new_prompt (id_session ids) taskID prompt 1 (nullString oldPrompt.1) now);
  _ ← InsertPendingExecutionAttempt (id_attempt ids) (id_prompt ids) 1 None (int32_of timeout)
        now now;
  let event := recovery_event ids taskID teamID oldSession.1 oldPrompt.1 now in
  _ ← InsertTaskEvent (ev_ID event)
        (event_row event (nullString (id_session ids)) (nullString (id_prompt ids)) None);
  _ ← enqueue draws now event;
  mret event.

(** The result is the event to publish. *)
Definition RecoverTask `{Outbox} (cfg : ServiceConfig) (scope : option Scope) (outside : DB)
    (taskID customPrompt : string) (ids : SubmitIDs) (draws : nat → string) (now : time) (db : DB)
    : (err + TaskEventCallbackContext) * DB :=
  match taskForToolAccess scope taskID outside with
  | inl e => (inl e, db)
  | inr orig =>
    if negb (task_ended (t_status orig))
    then (inl (EFmt "task %s is %s, not a terminal state" [taskID; t_status orig]), db)
    else
      let custom := trimSpace customPrompt in
      let prompt := if custom == "" then default_recovery_prompt taskID (t_prompt orig)
                    else custom in
      run_tx (withPendingTaskAdmission cfg
                (recover_rows cfg taskID (str_of (t_team_id orig)) prompt ids draws now)) db
  end.

Definition rerun_task (orig : Task) (session : AgentSession) (now : time) : Task :=
  mkTask "pending" (t_prompt orig) (t_git_url orig) (t_git_ref orig) None None now now None
    (nullString (str_of (t_team_id orig))) None None default_max_attempts
    (nullString (search_text [t_prompt orig; str_of (s_agent session); str_of (s_model_id session);
                              str_of (t_git_url orig)]))
    None "rerun" None None (t_github_repo orig) (t_github_installation_id orig) None None None None
    None 0 None.

Definition rerun_rows (orig : Task) (session : AgentSession) (timeout : Z) (ids : SubmitIDs)
    (now : time) : tx DB unit :=
  _ ← InsertTask (id_task ids) (rerun_task orig session now);
  _ ← InsertAgentSession (id_session ids)
        (derived_session session (id_task ids) (id_session ids) (str_of (t_git_url orig)) 1 None now);
  _ ← InsertUserPrompt (id_prompt ids)
        (new_prompt (id_session ids) (id_task ids) (t_prompt orig) 1 None now);
  InsertPendingExecutionAttempt (id_attempt ids) (id_prompt ids) 1 None (int32_of timeout) now now.

Definition RerunTask (cfg : ServiceConfig) (scope : option Scope) (outside : DB) (taskID : string)
    (ids : SubmitIDs) (now : time) (db : DB) : (err + unit) * DB :=
  match taskForToolAccess scope taskID outside with
  | inl e => (inl e, db)
  | inr orig =>
    if negb (task_ended (t_status orig))
    then (inl (EFmt "task %s is %s, not a terminal state" [taskID; t_status orig]), db)
    else
      match GetAgentSessionByTaskID taskID outside, GetUserPromptByTaskID taskID outside with
      | Some session, Some prompt =>
        run_tx (withPendingTaskAdmission cfg
                  (rerun_rows orig session.2 (last_timeout cfg prompt.1 outside) ids now)) db
      | _, _ => (inl ENoRows, db)
      end
  end.

(** ** ResumeAgentSession *)

(** A nullable column that is set and not empty. *)
Definition present (o : option string) : bool := negb (str_of o == "").

Definition resume_checks (L : Lookups) (scope : option Scope) (dbnow : time) (sessionID : string)
    (outside : DB) : err + AgentSession :=
  session ← (match GetAgentSessionByID sessionID outside with
             | None => inl ENoRows | Some s => inr s end);
  _ ← authorizeAgentSessionAccess scope session;
  _ ← err_guard (negb (session_paused (s_status session)))
        (EFmt "agent session is not resumable from status: %s" [s_status session]);
  _ ← err_guard (negb (one_of ["gvisor_checkpoint"; "harness_session"] (s_resume_mode session)))
        (EFmt "agent session is not resumable (resume_mode: %s)" [s_resume_mode session]);
  _ ← err_guard (negb (present (s_pinned_runner_id session)))
        (EMsg "agent session has no pinned runner");
  _ ← err_guard (negb (present (s_workspace_path session)))
        (EMsg "agent session has no workspace path");
  _ ← (if s_resume_mode session == "gvisor_checkpoint" then
         _ ← err_guard (negb (present (s_checkpoint_id session)))
               (EMsg "agent session has no checkpoint");
         match GetLatestAgentSessionCheckpoint sessionID outside with
         | None => inl ENoRows
         | Some chk => err_guard (negb (c_status chk == "ready"))
                         (EFmt "checkpoint not ready (status: %s)" [c_status chk])
         end
       else err_guard (negb (present (s_harness_session_id session)))
              (EMsg "agent session has no harness session ID"));
  _ ← (match s_mcp_endpoints session with
       | None | Some [] => inr tt
       | Some names => loadMcpEndpoints L names (str_of (s_team_id session))
       end);
  _ ← err_guard (negb (IsRunnerAlive dbnow (str_of (s_pinned_runner_id session)) 120 outside))
        (EFmt "pinned runner %s is not alive" [str_of (s_pinned_runner_id session)]);
  _ ← err_guard (s_task_id session == "") (EMsg "agent session has no task");
  inr session.

Definition resume_rows (sessionID taskID prompt : string) (runnerID : option string) (timeout : Z)
    (ids : SubmitIDs) (now : time) : tx DB Task :=
  sequence ← tx_read (GetNextUserPromptSequence sessionID);
  rows ← tx_rows (RequeueTaskForPrompt now taskID);
  _ ← tx_guard (rows =? 0) (EMsg ("task " ^^ taskID ^^ " is not in a terminal state"));
  _ ← InsertUserPrompt (id_prompt ids) (new_prompt sessionID taskID prompt sequence None now);
  _ ← InsertPendingExecutionAttempt (id_attempt ids) (id_prompt ids) 1
        (Some (str_of runnerID)) (int32_of timeout) now now;
  resumed ← tx_rows (MarkAgentSessionResuming "resuming" now sessionID);
  _ ← tx_guard (resumed =? 0)
        (EMsg ("agent session " ^^ sessionID ^^ " is no longer resumable (status changed)"));
  tx_one (GetTaskByID taskID).

Definition ResumeAgentSession (cfg : ServiceConfig) (L : Lookups) (scope : option Scope)
    (dbnow : time) (outside : DB) (sessionID prompt : string) (timeoutSec : Z) (ids : SubmitIDs)
    (now : time) (db : DB) : (err + Task * UserPrompt) * DB :=
  match resume_checks L scope dbnow sessionID outside with
  | inl e => (inl e, db)
  | inr session =>
    let timeout := if timeoutSec =? 0 then DefaultTaskTimeoutSec cfg else timeoutSec in
    match run_tx (withPendingTaskAdmission cfg
            (resume_rows sessionID (s_task_id session) prompt (s_pinned_runner_id session) timeout
               ids now)) db with
    | (inl e, db') => (inl e, db')
    | (inr t, db') =>
      match GetUserPromptByTaskID (s_task_id session) db' with
      | None => (inl ENoRows, db')
      | Some run => (inr (t, run.2), db')
      end
    end
  end.

(** ** Lemmas *)

(** *** Counting the queue *)

Definition pending_rows (m : gmap string Task) : list (string * Task) :=
  List.filter (λ kv, t_status kv.2 == "pending") (map_to_list m).

Lemma pending_insert m k t :
  m !! k = None →
  length (pending_rows (<[k := t]> m)) =
  ((if t_status t == "pending" then 1 else 0) + length (pending_rows m))%nat.
Proof.
  intros Hk. unfold pending_rows.
  rewrite (filter_length_perm _ _ _ (map_to_list_insert m k t Hk)). simpl. by case_bool_decide.
Qed.

(** A row that enters the queue adds one to it. *)
Lemma pending_enqueued db k t :
  t_status t = "pending" →
  (∀ old, tasks db !! k = Some old → t_status old ≠ "pending") →
  CountPendingTasks (db{{ tasks := <[k := t]> (tasks db) }}) = CountPendingTasks db + 1.
Proof.
  intros Ht Hold. unfold CountPendingTasks. cbn [tasks].
  change (Z.of_nat (length (pending_rows (<[k:=t]> (tasks db)))) =
          Z.of_nat (length (pending_rows (tasks db))) + 1).
  rewrite <- insert_delete_eq, pending_insert by apply lookup_delete_eq.
  rewrite bool_decide_eq_true_2 by done.
  destruct (tasks db !! k) as [old|] eqn:E.
  - rewrite <- (insert_delete_id (tasks db) k old E) at 2.
    rewrite pending_insert by apply lookup_delete_eq.
    rewrite bool_decide_eq_false_2 by (by apply Hold). lia.
  - rewrite delete_id by done. lia.
Qed.

Lemma admission_inr {A} cfg (fn : tx DB A) db r :
  withPendingTaskAdmission cfg fn db = inr r ↔
  (0 < MaxPendingTasks cfg → CountPendingTasks db < MaxPendingTasks cfg) ∧ fn db = inr r.
Proof.
  unfold withPendingTaskAdmission. destruct (Z.leb_spec (MaxPendingTasks cfg) 0).
  - split; [|by intros [_ ?]]. intros ?. split; [lia|done].
  - unfold mbind, tx_bind, tx_read. destruct (Z.leb_spec (MaxPendingTasks cfg) (CountPendingTasks db)).
    + split; [done|]. intros [? _]. lia.
    + split; [by intros ?|by intros [_ ?]].
Qed.

(** *** The rows of a new submission *)

Definition new_rows (tid : string) (t : Task) (sid : string) (s : AgentSession)
    (pid : string) (p : UserPrompt) (aid : string) (a : ExecutionAttempt) (db : DB) : DB :=
  db{{ tasks := <[tid := t]> (tasks db);
       agent_sessions := <[sid := s]> (agent_sessions db);
       user_prompts := <[pid := p]> (user_prompts db);
       execution_attempts := <[aid := a]> (execution_attempts db) }}.

Lemma insert_task_inr id t db u db' :
  InsertTask id t db = inr (u, db') →
  tasks db !! id = None ∧ db' = db{{ tasks := <[id := t]> (tasks db) }}.
Proof.
  unfold InsertTask. destruct (insert_pk _ _ _ _) as [?|m] eqn:E; [done|].
  intros [= _ <-]. apply insert_pk_inr in E as [? ->]. done.
Qed.

Lemma submit_rows_inr cfg p ids now db t db' :
  submit_rows cfg p ids now db = inr (t, db') →
  let task := submitted_task p now in
  let session := submitted_session cfg p (id_session ids) now in
  let prompt := new_prompt (id_session ids) (pp_task p) (q_Prompt (pp_request p)) 1 None now in
  let attempt := pending_attempt (id_prompt ids) 1 None
                   (int32_of (q_TimeoutSec (pp_request p))) now now in
  tasks db !! pp_task p = None ∧ agent_sessions db !! id_session ids = None ∧
  user_prompts db !! id_prompt ids = None ∧ execution_attempts db !! id_attempt ids = None ∧
  t = task ∧
  db' = new_rows (pp_task p) task (id_session ids) session (id_prompt ids) prompt
          (id_attempt ids) attempt db.
Proof.
  unfold submit_rows. intros H. tx_inv.
  repeat match goal with
  | H : InsertTask _ _ _ = _ |- _ => apply insert_task_inr in H as [? ->]
  | H : InsertAgentSession _ _ _ = _ |- _ => apply insert_session_inr in H as (? & _ & ->)
  | H : InsertUserPrompt _ _ _ = _ |- _ => apply insert_prompt_inr in H as (? & _ & ->)
  | H : InsertPendingExecutionAttempt _ _ _ _ _ _ _ _ = _ |- _ =>
      apply insert_attempt_inr in H as (? & _ & ->)
  | H : tx_one _ _ = _ |- _ => apply tx_one_inr in H as [? ->]
  end.
  do 4 (split; [assumption|]). split; [|reflexivity].
  match goal with H : GetTaskByID _ _ = Some _ |- _ =>
    unfold GetTaskByID in H; cbn [tasks] in H end.
  match goal with H : _ !! pp_task p = Some t |- _ =>
    assert (Some (submitted_task p now) = Some t) as [= <-]
      by (rewrite <- H; symmetry; apply lookup_insert_eq) end.
  done.
Qed.

(** A queued attempt can be claimed by every runner that may run its session. *)
Lemma new_rows_claimable tid t sid s pid p aid a db runnerID iso :
  a_status a = "pending" → a_required_runner_id a = None → t_status t = "pending" →
  a_user_prompt_id a = pid → p_task_id p = tid → p_agent_session_id p = sid →
  claimable runnerID iso (new_rows tid t sid s pid p aid a db) a =
  negb (s_isolation_required s) || iso.
Proof.
  intros Ha Hr Ht Hp Htid Hsid. unfold claimable.
  set (db' := new_rows _ _ _ _ _ _ _ _ _).
  assert (prompt_of db' a = Some p) as ->
    by (unfold prompt_of; rewrite Hp; apply lookup_insert_eq).
  assert (tasks db' !! p_task_id p = Some t) as -> by (rewrite Htid; apply lookup_insert_eq).
  assert (session_of db' p = Some s) as ->
    by (unfold session_of; rewrite Hsid; apply lookup_insert_eq).
  rewrite Hr, Ha, Ht, !bool_decide_eq_true_2 by done. simpl.
  by destruct (s_isolation_required s), iso.
Qed.

(** *** Preparing *)

Record prepared_from (cfg : ServiceConfig) (q : SubmitTaskRequest) (p : Prepared) : Prop := {
  pf_env : q_Env (pp_request p) = q_Env q;
  pf_mode : q_SessionMode (pp_request p) = q_SessionMode q;
  pf_isolation : q_Isolation (pp_request p) = q_Isolation q;
  pf_ttl : q_TTLHours (pp_request p) = q_TTLHours q;
  pf_trigger : q_TriggerName (pp_request p) = q_TriggerName q;
  pf_callback : q_CallbackParentTaskID (pp_request p) = q_CallbackParentTaskID q ∧
                q_CallbackDepth (pp_request p) = q_CallbackDepth q;
  pf_source : q_SubmissionSource (pp_request p) = q_SubmissionSource q;
  pf_prompt : q_Prompt q ≠ "";
  pf_repos : q_Repos (pp_request p) = normalizeSubmitRepoRefs (q_Repos q) (q_GitURL q) (q_GitRef q);
  pf_task : pp_task p = q_ExplicitTaskID q ∨ q_ExplicitTaskID q = "";
  pf_valid : ValidateTaskEnv (map_to_list (q_Env q)) (cfg_EnvValidation cfg) = VNil;
}.

Lemma verdict_err_inr v u : verdict_err v = inr u ↔ v = VNil.
Proof. destruct v, u; simpl; naive_solver. Qed.

(** Inversion of a successful check into its steps. *)
Ltac sum_inv :=
  repeat match goal with
  | H : (_ ≫= _) = inr _ |- _ => apply sum_bind_inr in H as (? & ? & H); simpl in H
  | H : err_guard _ _ = inr _ |- _ => apply err_guard_inr in H
  | H : verdict_err _ = inr _ |- _ => apply verdict_err_inr in H
  end.

Lemma prepare_request_inr cfg q q' :
  prepare_request cfg q = inr q' →
  q_Env q' = q_Env q ∧ q_SessionMode q' = q_SessionMode q ∧ q_Isolation q' = q_Isolation q ∧
  q_TTLHours q' = q_TTLHours q ∧ q_TriggerName q' = q_TriggerName q ∧ q_Prompt q ≠ "" ∧
  q_Repos q' = normalizeSubmitRepoRefs (q_Repos q) (q_GitURL q) (q_GitRef q) ∧
  q_ExplicitTaskID q' = q_ExplicitTaskID q ∧
  (q_CallbackParentTaskID q' = q_CallbackParentTaskID q ∧ q_CallbackDepth q' = q_CallbackDepth q) ∧
  q_SubmissionSource q' = q_SubmissionSource q ∧
  ValidateTaskEnv (map_to_list (q_Env q)) (cfg_EnvValidation cfg) = VNil.
Proof.
  unfold prepare_request. cbv zeta.
  destruct (PrimaryRepoRef _) as [primary|]; intros H; sum_inv;
    match goal with H : bool_decide (q_Prompt q = "") = false |- _ =>
      apply bool_decide_eq_false in H end;
    injection H as <-; destruct (_ =? 0);
    repeat (split; [first [reflexivity|assumption|split; reflexivity]|]); assumption.
Qed.

Lemma prepare_inr cfg L scope ids q p :
  prepare_submission cfg L scope ids q = inr p → prepared_from cfg q p.
Proof.
  unfold prepare_submission. intros H. sum_inv.
  match goal with H : prepare_request _ _ = inr _ |- _ =>
    apply prepare_request_inr in H as (? & ? & ? & ? & ? & ? & ? & Hid & ? & ? & ?) end.
  injection H as <-. constructor; try assumption. cbn [pp_task]. rewrite Hid.
  destruct (decide (q_ExplicitTaskID q = "")) as [E|E]; [by right|left; by rewrite bool_decide_eq_false_2].
Qed.

Lemma record_trigger_run_tasks p trigger runID db :
  tasks (record_trigger_run p trigger runID db) = tasks db.
Proof. unfold record_trigger_run. by destruct (_ && _). Qed.

Lemma SubmitTask_inr cfg L scope trigger ids now q sets db t sets' db' :
  SubmitTask cfg L scope trigger ids now q sets db = (inr t, sets', db') →
  ∃ p db1, prepare_submission cfg L scope ids q = inr p ∧
    (0 < MaxPendingTasks cfg → CountPendingTasks db < MaxPendingTasks cfg) ∧
    submit_rows cfg p ids now db = inr (t, db1) ∧
    db' = record_trigger_run p trigger (id_run ids) db1 ∧
    sets' = if bool_decide (q_Env (pp_request p) = ∅) then sets
            else <[id_session ids := NewSet (map_to_list (q_Env (pp_request p)))]> sets.
Proof.
  unfold SubmitTask. destruct (prepare_submission _ _ _ _ _) as [e|p]; [done|].
  destruct (run_tx _ db) as [[e|t'] db1] eqn:Etx; [done|]. intros [= -> <- <-].
  apply run_tx_ok, admission_inr in Etx as [Hadm Hrows]. by exists p, db1.
Qed.

(** *** Requeueing a finished task *)

Definition reopened (now : time) (t : Task) : Task :=
  t{{ t_status := "pending"; t_summary := None; t_error := None; t_error_category := None;
      t_failure_category := None; t_failure_message := None; t_ended_at := None;
      t_updated_at := now }}.

Lemma requeue_inr now taskID db n db' :
  RequeueTaskForPrompt now taskID db = (n, db') → (n =? 0) = false →
  ∃ t, tasks db !! taskID = Some t ∧ task_ended (t_status t) = true ∧
       db' = db{{ tasks := <[taskID := reopened now t]> (tasks db) }}.
Proof. apply on_tasks_pk_inr. Qed.

(** What a new run of an existing task writes: the task reopened, a session
    row, a new prompt and a new attempt. *)
Record reopened_with (now : time) (taskID sessionID promptID attemptID : string)
    (t : Task) (session : AgentSession) (prompt : UserPrompt) (attempt : ExecutionAttempt)
    (db db' : DB) : Prop := {
  rw_task : tasks db !! taskID = Some t ∧ task_ended (t_status t) = true;
  rw_fresh : user_prompts db !! promptID = None ∧ execution_attempts db !! attemptID = None;
  rw_tables : tasks db' = <[taskID := reopened now t]> (tasks db) ∧
              agent_sessions db' = <[sessionID := session]> (agent_sessions db) ∧
              user_prompts db' = <[promptID := prompt]> (user_prompts db) ∧
              execution_attempts db' = <[attemptID := attempt]> (execution_attempts db);
  rw_links : s_task_id session = taskID ∧ p_task_id prompt = taskID ∧
             p_agent_session_id prompt = sessionID ∧ a_user_prompt_id attempt = promptID;
  rw_pending : p_status prompt = "pending" ∧ a_status attempt = "pending";
  rw_frame : db' = db{{ tasks := tasks db'; agent_sessions := agent_sessions db';
                        user_prompts := user_prompts db';
                        execution_attempts := execution_attempts db';
                        task_events := task_events db';
                        callback_deliveries := callback_deliveries db' }};
}.

Lemma recover_rows_inr `{Outbox} cfg taskID teamID prompt ids draws now db ev db' :
  recover_rows cfg taskID teamID prompt ids draws now db = inr (ev, db') →
  ∃ oldS oldP t,
    GetAgentSessionByTaskID taskID db = Some oldS ∧ GetUserPromptByTaskID taskID db = Some oldP ∧
    has_export oldP.2 = true ∧ agent_sessions db !! id_session ids = None ∧
    ev_EventType ev = "task.session_restarted" ∧ ev_TaskID ev = taskID ∧
    (∃ row, task_events db' = <[id_event ids := row]> (task_events db)) ∧
    reopened_with now taskID (id_session ids) (id_prompt ids) (id_attempt ids) t
      (derived_session oldS.2 taskID (id_session ids) (str_of (s_git_url oldS.2))
         (GetNextAgentSessionSequence taskID db)
         (if s_resume_mode oldS.2 == "none" then None else Some (now + hours 72)) now)
      (new_prompt (id_session ids) taskID prompt 1 (nullString oldP.1) now)
      (pending_attempt (id_prompt ids) 1 None (int32_of (last_timeout cfg oldP.1 db)) now now)
      db db'.
Proof.
  unfold recover_rows. intros Hr. tx_inv.
  match goal with H : _ = (?n, _), Hn : (?n =? 0) = false |- _ =>
    apply (fun h => requeue_inr _ _ _ _ _ h Hn) in H as (t & Ht & Hend & ->) end.
  repeat match goal with
  | H : InsertAgentSession _ _ _ = _ |- _ => apply insert_session_inr in H as (? & _ & ->)
  | H : InsertUserPrompt _ _ _ = _ |- _ => apply insert_prompt_inr in H as (? & _ & ->)
  | H : InsertPendingExecutionAttempt _ _ _ _ _ _ _ _ = _ |- _ =>
      apply insert_attempt_inr in H as (? & _ & ->)
  | H : InsertTaskEvent _ _ _ = _ |- _ => apply insert_event_inr in H as [? ->]
  | H : enqueue _ _ _ _ = _ |- _ =>
      apply enqueue_frame, only_deliveries_frame in H; rewrite H
  | H : negb (has_export _) = false |- _ => apply negb_false_iff in H
  end.
  eexists _, _, t. do 2 (split; [eassumption|]). split; [assumption|]. split; [assumption|].
  do 2 (split; [reflexivity|]). split; [eexists; reflexivity|]. constructor; done.
Qed.

Definition resuming (now : time) (s : AgentSession) : AgentSession :=
  s{{ s_status := "resuming"; s_updated_at := now }}.

Lemma resume_rows_inr sessionID taskID prompt runnerID timeout ids now db t' db' :
  resume_rows sessionID taskID prompt runnerID timeout ids now db = inr (t', db') →
  ∃ t s, agent_sessions db !! sessionID = Some s ∧ session_paused (s_status s) = true ∧
    (s_task_id s = taskID →
     reopened_with now taskID sessionID (id_prompt ids) (id_attempt ids) t (resuming now s)
       (new_prompt sessionID taskID prompt (GetNextUserPromptSequence sessionID db) None now)
       (pending_attempt (id_prompt ids) 1 (Some (str_of runnerID)) (int32_of timeout) now now)
       db db') ∧
    t' = reopened now t ∧ tasks db !! taskID = Some t ∧ task_ended (t_status t) = true ∧
    user_prompts db !! id_prompt ids = None ∧
    user_prompts db' = <[id_prompt ids :=
      new_prompt sessionID taskID prompt (GetNextUserPromptSequence sessionID db) None now]>
      (user_prompts db) ∧
    agent_sessions db' = <[sessionID := resuming now s]> (agent_sessions db) ∧
    tasks db' = <[taskID := reopened now t]> (tasks db).
Proof.
  unfold resume_rows. intros Hr. tx_inv.
  match goal with H : RequeueTaskForPrompt _ _ _ = (?n, _), Hn : (?n =? 0) = false |- _ =>
    apply (fun h => requeue_inr _ _ _ _ _ h Hn) in H as (t & Ht & Hend & ->) end.
  repeat match goal with
  | H : InsertUserPrompt _ _ _ = _ |- _ => apply insert_prompt_inr in H as (? & _ & ->)
  | H : InsertPendingExecutionAttempt _ _ _ _ _ _ _ _ = _ |- _ =>
      apply insert_attempt_inr in H as (? & _ & ->)
  end.
  match goal with H : MarkAgentSessionResuming _ _ _ _ = (?n, _), Hn : (?n =? 0) = false |- _ =>
    apply (fun h => on_sessions_pk_inr _ _ _ _ _ _ h Hn) in H as (s & Hs & Hp & ->) end.
  assert (t' = reopened now t) as ->.
  { match goal with H : GetTaskByID _ _ = Some t' |- _ => unfold GetTaskByID in H; cbn [tasks] in H end.
    assert (Some (reopened now t) = Some t') as [= <-]
      by (match goal with H : _ !! taskID = Some t' |- _ => rewrite <- H end;
          symmetry; apply lookup_insert_eq). done. }
  exists t, s. split; [exact Hs|]. split; [exact Hp|]. split.
  - intros Hlink. constructor; done.
  - repeat (split; [first [reflexivity|assumption]|]). reflexivity.
Qed.

Lemma next_session_sequence taskID db id s :
  agent_sessions db !! id = Some s → s_task_id s = taskID →
  s_sequence s < GetNextAgentSessionSequence taskID db.
Proof.
  intros Hs Ht. unfold GetNextAgentSessionSequence.
  enough (s_sequence s <= sql_max (map (λ kv, s_sequence kv.2) (sessions_of_task db taskID))) by lia.
  apply sql_max_ge, list_elem_of_fmap. exists (id, s). split; [done|].
  unfold sessions_of_task. rewrite list_elem_of_In, filter_In, <- list_elem_of_In.
  by rewrite elem_of_map_to_list, bool_decide_eq_true.
Qed.

Lemma next_prompt_sequence sessionID db id p :
  user_prompts db !! id = Some p → p_agent_session_id p = sessionID →
  p_sequence p < GetNextUserPromptSequence sessionID db.
Proof.
  intros Hp Hs. unfold GetNextUserPromptSequence.
  enough (p_sequence p <= sql_max (map (λ kv, p_sequence kv.2)
    (List.filter (λ kv, p_agent_session_id kv.2 == sessionID) (map_to_list (user_prompts db)))))
    by lia.
  apply sql_max_ge, list_elem_of_fmap. exists (id, p). split; [done|].
  rewrite list_elem_of_In, filter_In, <- list_elem_of_In.
  by rewrite elem_of_map_to_list, bool_decide_eq_true.
Qed.

Lemma RecoverTask_inr `{Outbox} cfg scope outside taskID custom ids draws now db ev db' :
  RecoverTask cfg scope outside taskID custom ids draws now db = (inr ev, db') →
  ∃ orig prompt, taskForToolAccess scope taskID outside = inr orig ∧
    task_ended (t_status orig) = true ∧
    (0 < MaxPendingTasks cfg → CountPendingTasks db < MaxPendingTasks cfg) ∧
    recover_rows cfg taskID (str_of (t_team_id orig)) prompt ids draws now db = inr (ev, db').
Proof.
  unfold RecoverTask. destruct (taskForToolAccess _ _ _) as [e|orig]; [done|].
  destruct (task_ended (t_status orig)) eqn:Ee; [|done]. simpl.
  intros [Hadm Hrows]%run_tx_ok%admission_inr. eexists orig, _. done.
Qed.

Lemma RerunTask_inr cfg scope outside taskID ids now db u db' :
  RerunTask cfg scope outside taskID ids now db = (inr u, db') →
  ∃ orig session prompt, taskForToolAccess scope taskID outside = inr orig ∧
    GetAgentSessionByTaskID taskID outside = Some session ∧
    GetUserPromptByTaskID taskID outside = Some prompt ∧
    (0 < MaxPendingTasks cfg → CountPendingTasks db < MaxPendingTasks cfg) ∧
    tasks db !! id_task ids = None ∧ agent_sessions db !! id_session ids = None ∧
    user_prompts db !! id_prompt ids = None ∧ execution_attempts db !! id_attempt ids = None ∧
    db' = new_rows (id_task ids) (rerun_task orig session.2 now) (id_session ids)
            (derived_session session.2 (id_task ids) (id_session ids) (str_of (t_git_url orig)) 1
               None now)
            (id_prompt ids) (new_prompt (id_session ids) (id_task ids) (t_prompt orig) 1 None now)
            (id_attempt ids)
            (pending_attempt (id_prompt ids) 1 None
               (int32_of (last_timeout cfg prompt.1 outside)) now now) db.
Proof.
  unfold RerunTask. destruct (taskForToolAccess _ _ _) as [e|orig]; [done|].
  destruct (task_ended (t_status orig)); [|done]. simpl.
  destruct (GetAgentSessionByTaskID taskID outside) as [session|]; [|done].
  destruct (GetUserPromptByTaskID taskID outside) as [prompt|]; [|done].
  intros [Hadm Hrows]%run_tx_ok%admission_inr. exists orig, session, prompt.
  do 4 (split; [done|]). unfold rerun_rows in Hrows. tx_inv.
  match goal with H : InsertTask _ _ _ = _ |- _ => apply insert_task_inr in H as [? ->] end.
  match goal with H : InsertAgentSession _ _ _ = _ |- _ =>
    apply insert_session_inr in H as (? & _ & ->) end.
  match goal with H : InsertUserPrompt _ _ _ = _ |- _ =>
    apply insert_prompt_inr in H as (? & _ & ->) end.
  apply insert_attempt_inr in Hrows as (? & _ & ->). done.
Qed.

(** The prompt of a resumed session is there to be read back. *)
Lemma resumed_prompt_found sessionID taskID id p s db :
  user_prompts db !! id = Some p → p_task_id p = taskID →
  p_agent_session_id p = sessionID → agent_sessions db !! sessionID = Some s →
  is_Some (GetUserPromptByTaskID taskID db).
Proof.
  intros Hp Ht Hsid Hs. unfold GetUserPromptByTaskID.
  destruct (best later_prompt (prompts_of_task db taskID)) as [x|] eqn:E; [by eexists|].
  apply best_None in E. assert ((id, p, s) ∈ prompts_of_task db taskID) as Hin
    by (apply prompts_of_task_elem; by rewrite Hsid).
  rewrite E in Hin. by apply elem_of_nil in Hin.
Qed.

Lemma resume_cases cfg L scope dbnow outside sessionID prompt timeout ids now db r db' :
  ResumeAgentSession cfg L scope dbnow outside sessionID prompt timeout ids now db = (r, db') →
  (∃ e, r = inl e ∧ db' = db) ∨
  ∃ session t run timeout', resume_checks L scope dbnow sessionID outside = inr session ∧
    (0 < MaxPendingTasks cfg → CountPendingTasks db < MaxPendingTasks cfg) ∧
    resume_rows sessionID (s_task_id session) prompt (s_pinned_runner_id session) timeout' ids now
      db = inr (t, db') ∧
    GetUserPromptByTaskID (s_task_id session) db' = Some run ∧ r = inr (t, run.2).
Proof.
  unfold ResumeAgentSession. destruct (resume_checks _ _ _ _ _) as [e|session]; [left|].
  { exists e. naive_solver. }
  destruct (run_tx _ db) as [[e|t] db1] eqn:Etx.
  { intros [= <- <-]. left. exists e. split; [done|]. by eapply run_tx_error. }
  apply run_tx_ok, admission_inr in Etx as [Hadm Hrows]. intros Hr. right.
  pose proof (resume_rows_inr _ _ _ _ _ _ _ _ _ _ Hrows)
    as (t0 & s & Hs & _ & _ & _ & _ & _ & _ & Hp & Hss & _).
  edestruct (resumed_prompt_found sessionID (s_task_id session)) as [run Hrun];
    [rewrite Hp; apply lookup_insert_eq|done|done|rewrite Hss; apply lookup_insert_eq|].
  rewrite Hrun in Hr. injection Hr as <- <-. exists session, t, run. by eexists.
Qed.

Lemma count_tasks db db' : tasks db = tasks db' → CountPendingTasks db = CountPendingTasks db'.
Proof. unfold CountPendingTasks. by intros ->. Qed.

Lemma count_reopened db db' taskID now t :
  tasks db !! taskID = Some t → task_ended (t_status t) = true →
  tasks db' = <[taskID := reopened now t]> (tasks db) →
  CountPendingTasks db' = CountPendingTasks db + 1.
Proof.
  intros Ht He Hdb. rewrite (count_tasks db' (db{{ tasks := <[taskID := reopened now t]> (tasks db) }}))
    by done.
  apply pending_enqueued; [done|]. intros old Hold. simplify_eq. intros Hp. by rewrite Hp in He.
Qed.

Definition is_ok {A B} (r : A + B) : bool := match r with inl _ => false | inr _ => true end.

(** A call that may put a task into the queue, with whether it succeeded. *)
Inductive queueing `{Outbox} (cfg : ServiceConfig) (db : DB) : bool → DB → Prop :=
| queue_submit L scope trigger ids now q sets r sets' db' :
    SubmitTask cfg L scope trigger ids now q sets db = (r, sets', db') →
    queueing cfg db (is_ok r) db'
| queue_recover scope outside taskID custom ids draws now r db' :
    RecoverTask cfg scope outside taskID custom ids draws now db = (r, db') →
    queueing cfg db (is_ok r) db'
| queue_rerun scope outside taskID ids now r db' :
    RerunTask cfg scope outside taskID ids now db = (r, db') →
    queueing cfg db (is_ok r) db'
| queue_resume L scope dbnow outside sessionID prompt timeout ids now r db' :
    ResumeAgentSession cfg L scope dbnow outside sessionID prompt timeout ids now db = (r, db') →
    queueing cfg db (is_ok r) db'.

Lemma submit_error cfg L scope trigger ids now q sets db e sets' db' :
  SubmitTask cfg L scope trigger ids now q sets db = (inl e, sets', db') → db' = db ∧ sets' = sets.
Proof.
  unfold SubmitTask. destruct (prepare_submission _ _ _ _ _); [naive_solver|].
  destruct (run_tx _ db) as [[?|?] db1] eqn:Etx; [|done]. intros [= _ <- <-].
  split; [|done]. by eapply run_tx_error.
Qed.

(** A submission under the identifier of a task that exists. *)
Lemma submit_existing cfg L scope trigger ids now q sets db t r sets' db' :
  q_ExplicitTaskID q ≠ "" → tasks db !! q_ExplicitTaskID q = Some t →
  SubmitTask cfg L scope trigger ids now q sets db = (r, sets', db') →
  ∃ e, r = inl e ∧ sets' = sets ∧ db' = db ∧
    (is_ok (prepare_submission cfg L scope ids q) = true →
     (0 < MaxPendingTasks cfg → CountPendingTasks db < MaxPendingTasks cfg) →
     e = EDuplicateKey "tasks").
Proof.
  intros Hne Ht Hs. destruct r as [e|t'].
  - destruct (submit_error _ _ _ _ _ _ _ _ _ _ _ _ Hs) as [-> ->].
    exists e. do 3 (split; [done|]). intros Hprep Hadm. unfold SubmitTask in Hs.
    destruct (prepare_submission cfg L scope ids q) as [e'|p] eqn:Ep; [done|].
    assert (pp_task p = q_ExplicitTaskID q) as Hp
      by (destruct (pf_task _ _ _ (prepare_inr _ _ _ _ _ _ Ep)); congruence).
    assert (withPendingTaskAdmission cfg (submit_rows cfg p ids now) db = inl (EDuplicateKey "tasks"))
      as Htx.
    { assert (submit_rows cfg p ids now db = inl (EDuplicateKey "tasks")) as Hrows.
      { unfold submit_rows, mbind, tx_bind, InsertTask, insert_pk. by rewrite Hp, Ht. }
      unfold withPendingTaskAdmission. destruct (Z.leb_spec (MaxPendingTasks cfg) 0); [done|].
      unfold mbind, tx_bind, tx_read.
      destruct (Z.leb_spec (MaxPendingTasks cfg) (CountPendingTasks db)); [|done]. lia. }
    unfold run_tx in Hs. rewrite Htx in Hs. congruence.
  - exfalso. apply SubmitTask_inr in Hs as (p & db1 & Hp & _ & Hrows & _).
    apply submit_rows_inr in Hrows as (Hnone & _).
    destruct (pf_task _ _ _ (prepare_inr _ _ _ _ _ _ Hp)) as [E|E]; congruence.
Qed.

Lemma recover_error `{Outbox} cfg scope outside taskID custom ids draws now db e db' :
  RecoverTask cfg scope outside taskID custom ids draws now db = (inl e, db') → db' = db.
Proof.
  unfold RecoverTask. destruct (taskForToolAccess _ _ _); [naive_solver|].
  destruct (negb _); [naive_solver|]. apply run_tx_error.
Qed.

Lemma rerun_error cfg scope outside taskID ids now db e db' :
  RerunTask cfg scope outside taskID ids now db = (inl e, db') → db' = db.
Proof.
  unfold RerunTask. destruct (taskForToolAccess _ _ _); [naive_solver|].
  destruct (negb _); [naive_solver|]. repeat case_match; [apply run_tx_error|naive_solver..].
Qed.

(** ** Theorems *)

(** C9. A submission that succeeds puts one complete, fresh unit of work in the
    queue: a pending task, its first session, its first prompt and one pending
    attempt, linked to each other under identifiers that were free, and no
    other row but the run of the trigger that asked for it. The attempt can be
    claimed at once by exactly the runners allowed to run it: every runner, or
    only those that enforce isolation when the session requires it; and it
    requires it unless the deployment opted out, the task is not resumable and
    did not ask for isolation. A resumable session expires in the future, a
    plain one never. *)
Theorem SubmitTask_queues cfg L scope trigger ids now q sets db t sets' db' :
  SubmitTask cfg L scope trigger ids now q sets db = (inr t, sets', db') →
  ∃ p session prompt attempt,
    prepare_submission cfg L scope ids q = inr p ∧
    (tasks db !! pp_task p = None ∧ agent_sessions db !! id_session ids = None ∧
     user_prompts db !! id_prompt ids = None ∧ execution_attempts db !! id_attempt ids = None) ∧
    db' = (new_rows (pp_task p) t (id_session ids) session (id_prompt ids) prompt
             (id_attempt ids) attempt db){{ trigger_runs := trigger_runs db' }} ∧
    (t_status t = "pending" ∧ s_status session = "running" ∧ p_status prompt = "pending") ∧
    (s_task_id session = pp_task p ∧ p_task_id prompt = pp_task p ∧
     p_agent_session_id prompt = id_session ids ∧ a_user_prompt_id attempt = id_prompt ids) ∧
    (∀ runnerID iso, claimable runnerID iso db' attempt
                     = negb (s_isolation_required session) || iso) ∧
    (s_isolation_required session = false ↔
       AllowUnisolated cfg = true ∧ q_Isolation q ≠ "required" ∧ q_SessionMode q ≠ "resumable") ∧
    (s_expires_at session = None ↔ q_SessionMode q ≠ "resumable") ∧
    (∀ e, s_expires_at session = Some e → now < e).
Proof.
  intros (p & db1 & Hp & _ & Hrows & Hdb' & _)%SubmitTask_inr.
  apply submit_rows_inr in Hrows as (H1 & H2 & H3 & H4 & -> & ->).
  pose proof (prepare_inr _ _ _ _ _ _ Hp) as Hpf.
  eexists p, _, _, _. split; [exact Hp|]. do 1 (split; [done|]).
  assert (db' = (new_rows (pp_task p) (submitted_task p now) (id_session ids)
      (submitted_session cfg p (id_session ids) now) (id_prompt ids)
      (new_prompt (id_session ids) (pp_task p) (q_Prompt (pp_request p)) 1 None now)
      (id_attempt ids)
      (pending_attempt (id_prompt ids) 1 None (int32_of (q_TimeoutSec (pp_request p))) now now)
      db){{ trigger_runs := trigger_runs db' }}) as Heq.
  { rewrite Hdb'. unfold record_trigger_run. destruct (_ && _); reflexivity. }
  split; [exact Heq|]. do 2 (split; [done|]). split.
  { intros runnerID iso. rewrite Heq.
    apply (new_rows_claimable (pp_task p) _ (id_session ids) _ (id_prompt ids) _ (id_attempt ids) _
             db runnerID iso); done. }
  cbn [s_isolation_required s_expires_at submitted_session].
  unfold isolationRequired, session_expiry, resume_mode.
  rewrite (pf_mode _ _ _ Hpf), (pf_isolation _ _ _ Hpf), (pf_ttl _ _ _ Hpf).
  destruct (decide (q_SessionMode q = "resumable")) as [Hm|Hm];
    [rewrite (bool_decide_eq_true_2 (_ = "resumable")) by done|
     rewrite (bool_decide_eq_false_2 (_ = "resumable")) by done]; simpl.
  - split; [naive_solver|]. split; [naive_solver|]. intros e [= <-].
    unfold hours, seconds. destruct (Z.ltb_spec 0 (q_TTLHours q)); lia.
  - rewrite orb_false_iff, negb_false_iff, bool_decide_eq_false. naive_solver.
Qed.


(** C10. Admission: with a limit configured, every one of the four calls that
    can put a task into the queue either finds fewer pending tasks than the
    limit and adds exactly one, or fails and changes nothing; so no such call
    takes the queue over the limit. *)
Theorem admission_bounds_queue `{Outbox} cfg db ok db' :
  0 < MaxPendingTasks cfg → queueing cfg db ok db' →
  if ok then CountPendingTasks db < MaxPendingTasks cfg ∧
             CountPendingTasks db' = CountPendingTasks db + 1
  else db' = db.
Proof.
  intros Hmax [L scope trigger ids now q sets [e|t] sets' db1 Hc|
    scope outside taskID custom ids draws now [e|ev] db1 Hc|
    scope outside taskID ids now [e|[]] db1 Hc|
    L scope dbnow outside sessionID prompt timeout ids now r db1 Hc]; simpl.
  - by apply submit_error in Hc as [-> _].
  - apply SubmitTask_inr in Hc as (p & db2 & _ & Hadm & Hrows & -> & _). split; [by apply Hadm|].
    apply submit_rows_inr in Hrows as (Hf & _ & _ & _ & -> & ->).
    rewrite <- (pending_enqueued db (pp_task p) (submitted_task p now)); [|done|].
    + apply count_tasks. unfold record_trigger_run. by destruct (_ && _).
    + intros old Hold. congruence.
  - by apply recover_error in Hc.
  - apply RecoverTask_inr in Hc as (orig & prompt & _ & _ & Hadm & Hrows). split; [by apply Hadm|].
    apply recover_rows_inr in Hrows as (oldS & oldP & t & _ & _ & _ & _ & _ & _ & _ & Hrw).
    destruct (rw_task _ _ _ _ _ _ _ _ _ _ _ Hrw), (rw_tables _ _ _ _ _ _ _ _ _ _ _ Hrw) as [? _].
    by eapply count_reopened.
  - by apply rerun_error in Hc.
  - apply RerunTask_inr in Hc as (orig & s & p & _ & _ & _ & Hadm & Hf & _ & _ & _ & ->).
    split; [by apply Hadm|].
    rewrite <- (pending_enqueued db (id_task ids) (rerun_task orig s.2 now)); [|done|];
      [by apply count_tasks|]. intros old Hold. congruence.
  - apply resume_cases in Hc as [(e & -> & ->)|(s & t & run & tmo & _ & Hadm & Hrows & _ & ->)];
      [done|]. simpl. split; [by apply Hadm|].
    apply resume_rows_inr in Hrows as (t0 & s0 & _ & _ & _ & _ & Ht & He & _ & _ & _ & Htasks).
    by eapply count_reopened.
Qed.

(** A recovery restarts a finished task in a new session: the caller sees
    the task, it had ended and its current prompt carries a session export; it
    becomes pending again with its outcome cleared, under a session whose
    sequence is above every other of the task, with the old session's
    isolation requirement, environment and agent configuration, a first prompt
    that names the old one as its source, and one pending attempt. The new
    prompt is the task's current prompt, the one that claims and results will
    update. *)
Theorem RecoverTask_restarts `{Outbox} cfg scope outside taskID custom ids draws now db ev db' :
  linked db →
  RecoverTask cfg scope outside taskID custom ids draws now db = (inr ev, db') →
  ∃ t oldS oldP session prompt attempt,
    (∃ orig, taskForToolAccess scope taskID outside = inr orig ∧
             task_ended (t_status orig) = true) ∧
    GetAgentSessionByTaskID taskID db = Some oldS ∧ GetUserPromptByTaskID taskID db = Some oldP ∧
    has_export oldP.2 = true ∧ agent_sessions db !! id_session ids = None ∧
    reopened_with now taskID (id_session ids) (id_prompt ids) (id_attempt ids)
      t session prompt attempt db db' ∧
    (∀ id s, agent_sessions db !! id = Some s → s_task_id s = taskID →
       s_sequence s < s_sequence session) ∧
    (s_isolation_required session = s_isolation_required oldS.2 ∧ s_env session = s_env oldS.2 ∧
     s_agent session = s_agent oldS.2 ∧ s_status session = "running") ∧
    p_source_user_prompt_id prompt = nullString oldP.1 ∧ a_required_runner_id attempt = None ∧
    GetUserPromptByTaskID taskID db' = Some (id_prompt ids, prompt).
Proof.
  intros Hlink (orig & pr & Horig & Hend & _ & Hrows)%RecoverTask_inr.
  apply recover_rows_inr in Hrows as (oldS & oldP & t & Hs & Hp & Hx & Hf & _ & _ & _ & Hrw).
  do 6 eexists. split; [by exists orig|]. do 4 (split; [eassumption|]). split; [exact Hrw|].
  split; [intros id s; apply next_session_sequence|]. do 3 (split; [done|]).
  destruct Hrw as [_ [Hfp _] (_ & HS & HP & _) _ _ _].
  eapply current_prompt_intro.
  - rewrite HP. apply lookup_insert_eq.
  - done.
  - rewrite HS. apply lookup_insert_eq.
  - intros id' p' s' Hp' Hne Ht' Hs'. left.
    rewrite HP, lookup_insert_ne in Hp' by done.
    destruct (Hlink _ _ Hp') as (s0 & Hs0 & Htask).
    rewrite HS, lookup_insert_ne in Hs' by (intros E; congruence). simplify_eq.
    eapply next_session_sequence; [eassumption|congruence].
Qed.

(** A resume is decided by the state it commits to, not by the stale reads
    before it: when it succeeds the session was still paused and its task
    still finished in the committed state, the session is now resuming, and
    the new attempt is pinned so that only the session's runner can claim it.
    Resuming the same session again, on whatever earlier reads, then fails and
    changes nothing: a session has at most one resume in flight. *)
Theorem ResumeAgentSession_once cfg L scope dbnow outside sessionID prompt timeout ids now db v db' :
  (∀ so s, agent_sessions outside !! sessionID = Some so → agent_sessions db !! sessionID = Some s →
     s_task_id s = s_task_id so) →
  ResumeAgentSession cfg L scope dbnow outside sessionID prompt timeout ids now db = (inr v, db') →
  ∃ so s t new attempt,
    resume_checks L scope dbnow sessionID outside = inr so ∧
    agent_sessions db !! sessionID = Some s ∧ session_paused (s_status s) = true ∧
    reopened_with now (s_task_id s) sessionID (id_prompt ids) (id_attempt ids)
      t (resuming now s) new attempt db db' ∧
    (∀ runnerID iso, claimable runnerID iso db' attempt = true →
       s_pinned_runner_id so = Some runnerID) ∧
    ∀ cfg2 L2 scope2 dbnow2 outside2 prompt2 timeout2 ids2 now2,
      ∃ e, ResumeAgentSession cfg2 L2 scope2 dbnow2 outside2 sessionID prompt2 timeout2 ids2 now2
             db' = (inl e, db').
Proof.
  intros Hsame Hr. apply resume_cases in Hr
    as [(? & [=] & _)|(so & t & run & tmo & Hchk & _ & Hrows & _ & _)].
  apply resume_rows_inr in Hrows as (t0 & s & Hs & Hpz & Hrw & _ & _ & _ & _ & _ & HS & _).
  assert (agent_sessions outside !! sessionID = Some so ∧ present (s_pinned_runner_id so) = true)
    as [Hso Hpin].
  { clear -Hchk. unfold resume_checks in Hchk. sum_inv. injection Hchk as ->.
    repeat match goal with H : negb _ = false |- _ => apply negb_false_iff in H end.
    split; [|assumption]. unfold GetAgentSessionByID in *.
    destruct (agent_sessions outside !! sessionID); naive_solver. }
  rewrite <- (Hsame so s Hso Hs) in Hrw. specialize (Hrw eq_refl).
  exists so, s, t0. do 2 eexists. split; [exact Hchk|]. split; [done|]. split; [done|].
  split; [exact Hrw|]. split.
  - intros runnerID iso (p & t' & _ & _ & _ & _ & Hreq & _)%claimable_true.
    cbn [a_required_runner_id pending_attempt] in Hreq. unfold present in Hpin.
    destruct (s_pinned_runner_id so) as [r|]; [|done]. simpl in *.
    apply negb_true_iff, bool_decide_eq_false in Hpin. set_solver.
  - intros. destruct (ResumeAgentSession _ _ _ _ _ sessionID _ _ _ _ db') as [r db2] eqn:E.
    apply resume_cases in E as [(e & -> & ->)|(so2 & t2 & run2 & tmo2 & _ & _ & Hrows & _ & _)].
    { by exists e. }
    apply resume_rows_inr in Hrows as (t3 & s3 & Hs3 & Hpz3 & _).
    rewrite HS in Hs3.
    assert (Some (resuming now s) = Some s3) as [= <-]
      by (rewrite <- Hs3; symmetry; apply lookup_insert_eq). done.
Qed.

(** A flaw: resuming a session that is not the newest of its task loses
    the new prompt. If the task has a prompt in a session with a higher
    sequence, the prompt just inserted is not the task's current prompt, the
    call reports another one, and no update of "the task's prompt", which is
    how claims and results reach prompts, ever touches it: it stays pending. *)
Theorem ResumeAgentSession_older_lost cfg L scope dbnow outside sessionID prompt timeout ids now
    db t run db' so newer p s :
  resume_checks L scope dbnow sessionID outside = inr so →
  agent_sessions db !! sessionID = Some s →
  user_prompts db !! newer = Some p → p_task_id p = s_task_id so →
  (∃ s2, agent_sessions db !! p_agent_session_id p = Some s2 ∧ s_sequence s < s_sequence s2) →
  ResumeAgentSession cfg L scope dbnow outside sessionID prompt timeout ids now db
    = (inr (t, run), db') →
  ∃ id, GetUserPromptByTaskID (s_task_id so) db' = Some (id, run) ∧ id ≠ id_prompt ids ∧
  (∃ lost, user_prompts db' !! id_prompt ids = Some lost ∧ p_status lost = "pending" ∧
     p_agent_session_id lost = sessionID) ∧
  ∀ q f, user_prompts (update_latest_prompt (s_task_id so) q f db').2 !! id_prompt ids
         = user_prompts db' !! id_prompt ids.
Proof.
  intros Hchk Hs Hp Hpt (s2 & Hs2 & Hlt) Hr.
  apply resume_cases in Hr
    as [(? & [=] & _)|(so' & t' & [id run'] & tmo & Hchk' & _ & Hrows & Hrun & [= -> ->])].
  rewrite Hchk in Hchk'. injection Hchk' as <-.
  apply resume_rows_inr in Hrows as (t0 & s0 & Hs0 & _ & _ & _ & _ & _ & Hfresh & HP & HS & _).
  simplify_eq. assert (sessionID ≠ p_agent_session_id p) as Hne by (intros E; simplify_eq; lia).
  assert (id ≠ id_prompt ids) as Hid.
  { intros ->. apply current_prompt_latest in Hrun as (Hl & _ & sl & Hsl & Hmax).
    rewrite HP in Hl. assert (Some run' = Some (new_prompt sessionID (s_task_id so) prompt
      (GetNextUserPromptSequence sessionID db) None now)) as [= ->]
      by (rewrite <- Hl; apply lookup_insert_eq).
    cbn [p_agent_session_id new_prompt] in Hsl. rewrite HS in Hsl.
    assert (Some sl = Some (resuming now s)) as [= ->] by (rewrite <- Hsl; apply lookup_insert_eq).
    assert (s_sequence s2 <= s_sequence s); [|lia]. apply (Hmax newer p s2); [|done|].
    - rewrite HP, lookup_insert_ne; [done|]. intros E. congruence.
    - by rewrite HS, lookup_insert_ne. }
  exists id. split; [done|]. split; [done|]. split.
  - eexists. split; [rewrite HP; apply lookup_insert_eq|]. done.
  - intros q f. unfold update_latest_prompt. rewrite Hrun. unfold on_prompts. simpl.
    rewrite update_pk_lookup, (bool_decide_eq_false_2 (_ = id)) by congruence.
    by destruct (user_prompts db' !! id_prompt ids).
Qed.

(** ** Witnesses *)

Definition sample_config (limit : Z) : ServiceConfig :=
  mkServiceConfig "agent:1" "reg.example" 600 limit false DefaultTaskLimits Defaults.

Definition sample_lookups : Lookups :=
  mkLookups (λ _, Some "team1") (λ _, None) (λ _ _ _, inr (mkGitIdentity "g" "bot" "bot@x"))
    (λ _, inr (mkGitIdentity "g" "bot" "bot@x")) (λ _ _, inr tt).

Definition sample_request (mode : string) : SubmitTaskRequest :=
  mkSubmitTaskRequest "" "" "fix $CHETTER_TASK_ID" "" "" [] "" 0 "" "" "" "" "" "" [] []
    {[ "API_TOKEN" := "hunter22" ]} 0 "" "" "" "" 0 "" "" "" "" "" mode "" 0 "".

Definition fresh_ids (p : string) : SubmitIDs :=
  mkSubmitIDs (p ^^ "_task") (p ^^ "_sess") (p ^^ "_prompt") (p ^^ "_exec") (p ^^ "_evt")
    (p ^^ "_run").

(** The sample task after a run that paused its session on runner r1, and the
    same with a newer session. *)
Definition paused_session : AgentSession :=
  (sample_session "t1"){{ s_status := "paused"; s_pinned_runner_id := Some "r1";
                          s_workspace_path := Some "/w"; s_harness_session_id := Some "h1" }}.

Definition paused_db : DB :=
  sample_db{{ tasks := {[ "t1" := sample_task{{ t_status := "done" }} ]};
              agent_sessions := {[ "s1" := paused_session ]};
              user_prompts := {[ "p1" := (sample_prompt "s1" "t1")
                                  {{ p_status := "completed"; p_session_export := Some "log" }} ]};
              execution_attempts := {[ "a1" := (pending_attempt "p1" 1 None 600 0 0)
                                        {{ a_status := "completed" }} ]} }}.

Definition newer_db : DB :=
  paused_db{{ agent_sessions := {[ "s1" := paused_session;
                                   "s2" := paused_session{{ s_sequence := 2 }} ]};
              user_prompts := {[ "p1" := sample_prompt "s1" "t1"; "p2" := sample_prompt "s2" "t1" ]} }}.

Lemma SubmitTask_queues_witness :
  ∃ t sets db', SubmitTask (sample_config 2) sample_lookups None false (fresh_ids "x") 5
      (sample_request "resumable") ∅ sample_db = (inr t, sets, db') ∧ t_status t = "pending".
Proof.
  destruct (SubmitTask (sample_config 2) sample_lookups None false (fresh_ids "x") 5
    (sample_request "resumable") ∅ sample_db) as [[[e|t] sets] db'] eqn:E;
    [vm_compute in E; discriminate|].
  exists t, sets, db'. split; [reflexivity|].
  destruct (SubmitTask_queues _ _ _ _ _ _ _ _ _ _ _ _ E)
    as (? & ? & ? & ? & _ & _ & _ & (Hst & _) & _).
  exact Hst.
Defined.


Lemma admission_bounds_queue_witness :
  let r := SubmitTask (sample_config 1) sample_lookups None false (fresh_ids "x") 5
             (sample_request "none") ∅ sample_db in
  r.1.1 = inl (ECapacity 1 1) ∧ r.2 = sample_db.
Proof.
  split; [vm_compute; reflexivity|].
  refine (@admission_bounds_queue no_outbox (sample_config 1) sample_db false _ eq_refl _).
  destruct (SubmitTask (sample_config 1) sample_lookups None false (fresh_ids "x") 5
    (sample_request "none") ∅ sample_db) as [[r sets] db'] eqn:E.
  pose proof (@queue_submit no_outbox (sample_config 1) sample_db _ _ _ _ _ _ _ _ _ _ E) as Hq.
  assert (is_ok r = false) as Hok by (vm_compute in E; injection E as <- _ _; reflexivity).
  rewrite Hok in Hq. exact Hq.
Defined.

Lemma paused_linked : linked paused_db.
Proof.
  intros id p H. change (user_prompts paused_db) with
    ({[ "p1" := (sample_prompt "s1" "t1"){{ p_status := "completed"; p_session_export := Some "log" }} ]}
      : gmap string UserPrompt) in H.
  apply lookup_singleton_Some in H as [_ <-]. exists paused_session. split; reflexivity.
Qed.

Lemma RecoverTask_restarts_witness :
  ∃ ev db', @RecoverTask no_outbox (sample_config 2) None paused_db "t1" "again" (fresh_ids "y")
      sample_ids 9 paused_db = (inr ev, db') ∧
    ∃ prompt, GetUserPromptByTaskID "t1" db' = Some ("y_prompt", prompt).
Proof.
  destruct (@RecoverTask no_outbox (sample_config 2) None paused_db "t1" "again" (fresh_ids "y")
      sample_ids 9 paused_db) as [[e|ev] db'] eqn:E; [vm_compute in E; discriminate|].
  exists ev, db'. split; [reflexivity|].
  destruct (@RecoverTask_restarts no_outbox _ _ _ _ _ _ _ _ _ _ _ paused_linked E)
    as (? & ? & ? & ? & prompt & ? & _ & _ & _ & _ & _ & _ & _ & _ & _ & _ & Hcur).
  exists prompt. exact Hcur.
Defined.

Lemma same_session db id so s :
  agent_sessions db !! id = Some so → agent_sessions db !! id = Some s → s_task_id s = s_task_id so.
Proof. congruence. Qed.

Lemma ResumeAgentSession_once_witness :
  ∃ v db', ResumeAgentSession (sample_config 2) sample_lookups None 0 paused_db "s1" "go on" 0
      (fresh_ids "z") 9 paused_db = (inr v, db') ∧
    ∃ e, ResumeAgentSession (sample_config 2) sample_lookups None 0 paused_db "s1" "go on" 0
      (fresh_ids "w") 10 db' = (inl e, db').
Proof.
  destruct (ResumeAgentSession (sample_config 2) sample_lookups None 0 paused_db "s1" "go on" 0
      (fresh_ids "z") 9 paused_db) as [[e|v] db'] eqn:E; [vm_compute in E; discriminate|].
  exists v, db'. split; [reflexivity|].
  destruct (ResumeAgentSession_once _ _ _ _ _ _ _ _ _ _ _ _ _
    (same_session paused_db "s1") E) as (? & ? & ? & ? & ? & _ & _ & _ & _ & _ & H2).
  apply H2.
Defined.

Lemma ResumeAgentSession_older_lost_witness :
  ∃ t run db' id, ResumeAgentSession (sample_config 0) sample_lookups None 0 newer_db "s1" "go on" 0
      (fresh_ids "z") 9 newer_db = (inr (t, run), db') ∧
    GetUserPromptByTaskID "t1" db' = Some (id, run) ∧ id ≠ "z_prompt".
Proof.
  destruct (ResumeAgentSession (sample_config 0) sample_lookups None 0 newer_db "s1" "go on" 0
      (fresh_ids "z") 9 newer_db) as [[e|[t run]] db'] eqn:E; [vm_compute in E; discriminate|].
  assert (resume_checks sample_lookups None 0 "s1" newer_db = inr paused_session) as Hchk
    by (vm_compute; reflexivity).
  destruct (ResumeAgentSession_older_lost (sample_config 0) sample_lookups None 0 newer_db "s1"
    "go on" 0 (fresh_ids "z") 9 newer_db t run db' paused_session "p2" (sample_prompt "s2" "t1")
    paused_session Hchk eq_refl eq_refl eq_refl
    (ex_intro _ (paused_session{{ s_sequence := 2 }}) (conj eq_refl eq_refl)) E) as (id & Hcur & Hne & _).
  exists t, run, db', id. split; [reflexivity|]. split; [exact Hcur|exact Hne].
Defined.
