(* ===== verification/Cancel.v ===== *)
(** * Operator actions on the queue

    [CancelTask], [ExtendTaskTimeout] and [ClearQueue] of
    [internal/service/api.go]. *)
From S2P Require Import Prelude GoStrings Status Repos Db Queries Auth Outbox Sample Claim.
From S2P Require Import RunnerEvent Reaper.

Definition cancel_tx (taskID reason : string) (now : time) : tx DB unit :=
  rows ← tx_rows (CancelExecutionAttemptsByTask reason now now taskID);
  _ ← tx_guard (rows =? 0) (EMsg ("task " ^^ taskID ^^ " is not pending or running"));
  rows ← tx_rows (SetCancelTask reason now now taskID);
  tx_guard (rows =? 0) (EMsg ("task " ^^ taskID ^^ " is not pending or running")).

(** [triggerFails] says whether the update of the trigger run, which comes
    after the commit and is only logged, fails. *)
Definition CancelTask (scope : option Scope) (outside : DB) (taskID reason : string) (now : time)
    (triggerFails : bool) (db : DB) : (err + unit) * DB :=
  match taskForToolAccess scope taskID outside with
  | inl e => (inl e, db)
  | inr _ =>
    let reason := if reason == "" then "cancelled by operator" else reason in
    match run_tx (cancel_tx taskID reason now) db with
    | (inl e, db') => (inl e, db')
    | (inr _, db') =>
      (inr tt, if triggerFails then db' else UpdateTriggerRunStatusByTask "cancelled" taskID db')
    end
  end.

Definition ExtendTaskTimeout (scope : option Scope) (outside : DB) (taskID : string)
    (extensionSec : Z) (now : time) (db : DB) : (err + unit) * DB :=
  if extensionSec <=? 0 then (inl (EMsg "extension must be greater than zero"), db)
  else
    match taskForToolAccess scope taskID outside with
    | inl e => (inl e, db)
    | inr _ =>
      match run_tx (ExtendActiveExecutionAttemptTimeout (int32_of extensionSec) now taskID) db with
      | (inl e, db') => (inl e, db')
      | (inr rows, db') =>
        if rows =? 0
        then (inl (EMsg ("task " ^^ taskID ^^ " is not pending or running")), db')
        else (inr tt, db')
      end
    end.

Definition isAdmin (scope : option Scope) : bool :=
  match scope with None => false | Some s => Admin s end.

Definition clear_queue_reason : string := "cancelled by chetter_clear_queue".

Definition ClearQueue (scope : option Scope) (now : time) (db : DB) : (err + Z) * DB :=
  if negb (isAdmin scope) then (inl (EMsg "admin access required"), db)
  else run_tx (
    _ ← tx_rows (CancelPendingExecutionAttempts clear_queue_reason now now);
    tx_rows (ClearPendingTasks clear_queue_reason now now)) db.

(** ** Lemmas *)

Lemma on_attempts_links p f db id :
  (∀ k a, a_user_prompt_id (f k a) = a_user_prompt_id a) →
  ∀ a', execution_attempts (on_attempts (update_where p f) db).2 !! id = Some a' →
  ∃ a, execution_attempts db !! id = Some a ∧ a' = (if p id a then f id a else a) ∧
       a_user_prompt_id a' = a_user_prompt_id a.
Proof.
  intros Hf a' Ha'. destruct (on_attempts (update_where p f) db) as [n db'] eqn:E.
  apply on_attempts_where_inr in E as [_ Hl]. simpl in Ha'. rewrite Hl in Ha'.
  apply fmap_Some in Ha' as (a & Ha & ->). exists a. do 2 (split; [done|]). by destruct (p id a).
Qed.

Lemma on_attempts_where_nonzero p f db n db' :
  on_attempts (update_where p f) db = (n, db') → (n =? 0) = false →
  ∃ k a, execution_attempts db !! k = Some a ∧ p k a = true.
Proof.
  intros [= Hn _] Hz. apply dec_stable. intros Hno. apply Z.eqb_neq in Hz. apply Hz.
  rewrite <- Hn. apply (proj2 (update_where_rows_zero p f (execution_attempts db))).
  intros k a Hk. destruct (p k a) eqn:E; [|done]. destruct Hno. by exists k, a.
Qed.

Lemma cancel_tx_inr taskID reason now db u db' :
  cancel_tx taskID reason now db = inr (u, db') →
  (∃ t, tasks db !! taskID = Some t ∧ one_of ["pending"; "running"] (t_status t) = true ∧
     tasks db' = <[taskID := cancel_task_row reason now now t]> (tasks db)) ∧
  (∀ id, execution_attempts db' !! id =
     (λ a, if (task_of db a == Some taskID) && attempt_active (a_status a)
           then cancel_attempt reason now now a else a) <$> execution_attempts db !! id) ∧
  (∃ id a, execution_attempts db !! id = Some a ∧ task_of db a = Some taskID ∧
     attempt_active (a_status a) = true) ∧
  db' = db{{ tasks := tasks db'; execution_attempts := execution_attempts db' }}.
Proof.
  unfold cancel_tx. intros H. tx_inv.
  match goal with Hu : CancelExecutionAttemptsByTask _ _ _ _ _ = (?n, ?d), Hn : (?n =? 0) = false,
                  Hs : SetCancelTask _ _ _ _ _ = (?k, _), Hk : (?k =? 0) = false |- _ =>
    pose proof (on_attempts_where_inr _ _ _ _ _ Hu) as [[m ->] Hl];
    apply (fun h => on_tasks_pk_inr _ _ _ _ _ _ h Hk) in Hs as (t & Ht & Hp & ->) end.
  split; [by exists t|]. split; [exact Hl|]. split; [|done].
  match goal with Hu : CancelExecutionAttemptsByTask _ _ _ _ _ = (?n, _), Hn : (?n =? 0) = false |- _ =>
    apply (fun h => on_attempts_where_nonzero _ _ _ _ _ h Hn) in Hu as (k & a & Hk & Hpa) end.
  apply andb_true_iff in Hpa as [Hpa%bool_decide_eq_true ?]. by exists k, a.
Qed.

Lemma cancelled_active reason now a : attempt_active (a_status (cancel_attempt reason now now a)) = false.
Proof. done. Qed.

Lemma CancelTask_inr scope outside taskID reason now tf db u db' :
  CancelTask scope outside taskID reason now tf db = (inr u, db') →
  ∃ orig r db1, taskForToolAccess scope taskID outside = inr orig ∧
    cancel_tx taskID r now db = inr (tt, db1) ∧
    db' = db1{{ trigger_runs := trigger_runs db' }}.
Proof.
  unfold CancelTask. destruct (taskForToolAccess _ _ _) as [e|orig]; [done|].
  destruct (run_tx _ db) as [[e|[]] db1] eqn:Etx; [done|]. apply run_tx_ok in Etx.
  intros [= _ <-]. eexists orig, _, db1. split; [done|]. split; [exact Etx|].
  destruct tf; [by destruct db1|]. unfold UpdateTriggerRunStatusByTask. by destruct db1.
Qed.

(** The rows of a cancelled task. *)
Lemma cancel_attempts taskID reason now db u db1 id a :
  cancel_tx taskID reason now db = inr (u, db1) →
  execution_attempts db1 !! id = Some a →
  user_prompts db1 = user_prompts db ∧ agent_sessions db1 = agent_sessions db ∧
  (task_of db a = Some taskID → attempt_active (a_status a) = false).
Proof.
  intros (_ & Hatt & _ & Hf)%cancel_tx_inr Ha. rewrite Hatt in Ha.
  apply fmap_Some in Ha as (b & Hb & ->). rewrite Hf.
  do 2 (split; [done|]). destruct (_ && _) eqn:E; [by rewrite cancelled_active|].
  intros Ht. rewrite Ht, bool_decide_eq_true_2 in E by done. done.
Qed.

Lemma inactive_not_live dbnow runnerID claimID a :
  attempt_active (a_status a) = false → live_claim dbnow runnerID claimID a = false.
Proof.
  intros Ha. unfold live_claim. destruct (a_status a == "running") eqn:E.
  - apply bool_decide_eq_true in E. by rewrite E in Ha.
  - by rewrite andb_false_r.
Qed.

(** ** Theorems *)

(** A cancellation that succeeds stops the task for good: the task had been
    pending or running and is now cancelled by the user, none of its attempts
    is pending or running, so no runner can claim it and no event of a runner
    still working on it is accepted; the attempts of other tasks, and those
    that had ended, are as they were, as are prompts and sessions. *)
Theorem CancelTask_stops scope outside taskID reason now tf db u db' :
  CancelTask scope outside taskID reason now tf db = (inr u, db') →
  (∃ t, tasks db !! taskID = Some t ∧ t_status t ∈ ["pending"; "running"] ∧
     tasks db' = <[taskID := cancel_task_row
       (if reason == "" then "cancelled by operator" else reason) now now t]> (tasks db)) ∧
  (∀ id a, execution_attempts db' !! id = Some a → task_of db' a = Some taskID →
     attempt_active (a_status a) = false ∧
     (∀ runnerID iso, claimable runnerID iso db' a = false) ∧
     (∀ e runnerID dbnow, re_ExecutionId e = id → not_owned runnerID dbnow e db')) ∧
  (∀ id a, execution_attempts db !! id = Some a →
     task_of db a ≠ Some taskID ∨ attempt_active (a_status a) = false →
     execution_attempts db' !! id = Some a) ∧
  user_prompts db' = user_prompts db ∧ agent_sessions db' = agent_sessions db.
Proof.
  unfold CancelTask. destruct (taskForToolAccess _ _ _) as [e|orig]; [done|].
  set (r := if reason == "" then _ else _).
  destruct (run_tx _ db) as [[e|[]] db1] eqn:Etx; [done|]. apply run_tx_ok in Etx.
  intros [= _ Hdb']. assert (db' = db1{{ trigger_runs := trigger_runs db' }}) as Heq
    by (rewrite <- Hdb'; destruct tf; [by destruct db1|by destruct db1]).
  clear Hdb'. pose proof Etx as (Htask & Hatt & _ & Hf)%cancel_tx_inr. split.
  { destruct Htask as (t & Ht & Hs & Htasks). exists t. split; [done|].
    split; [by apply one_of_spec|]. by rewrite Heq. }
  assert (user_prompts db' = user_prompts db ∧ agent_sessions db' = agent_sessions db) as [HP HS]
    by (rewrite Heq, Hf; done).
  assert (execution_attempts db' = execution_attempts db1) as HA by (by rewrite Heq).
  split; [|split; [|done]].
  - intros id a Ha Ht. rewrite HA in Ha.
    assert (attempt_active (a_status a) = false) as Hact.
    { eapply cancel_attempts; [exact Etx|exact Ha|]. unfold task_of, prompt_of in *.
      by rewrite HP in Ht. }
    split; [done|]. split.
    + intros runnerID iso. apply not_true_iff_false.
      intros (p & t & _ & _ & Hpend & _)%claimable_true. by rewrite Hpend in Hact.
    + intros e runnerID dbnow He. unfold not_owned. rewrite He, HA, Ha. left.
      by apply inactive_not_live.
  - intros id a Ha Hor. rewrite HA, Hatt, Ha. simpl. destruct (_ && _) eqn:E; [|done].
    apply andb_true_iff in E as [E1%bool_decide_eq_true E2]. destruct Hor; congruence.
Qed.

(** One pass of the prompt and session reapers leaves a cancelled task's
    unstarted prompt and its session alone. *)
Definition stranded (taskID sessionID : string) (db : DB) : Prop :=
  (∃ t, tasks db !! taskID = Some t ∧ t_status t = "cancelled") ∧
  (∀ id p, user_prompts db !! id = Some p → p_agent_session_id p = sessionID →
     p_task_id p = taskID ∧ p_status p = "pending") ∧
  ∃ s, agent_sessions db !! sessionID = Some s ∧ s_status s = "running".

Lemma joined_prompt_none db sid q :
  (∀ id p t, user_prompts db !! id = Some p → p_agent_session_id p = sid →
     prompt_task db p = Some t → q p t = false) →
  joined_prompt db sid q = None.
Proof.
  intros Hq. unfold joined_prompt. destruct (head _) as [[p t]|] eqn:E; [|done].
  apply head_Some_elem_of in E. apply list_elem_of_omap in E as ([k p'] & Hin & Hf).
  apply elem_of_map_to_list in Hin. simpl in Hf.
  destruct (prompt_task db p') as [t'|] eqn:Et; [|done].
  destruct (_ && _) eqn:Eb; [|done]. apply andb_true_iff in Eb as [Eb%bool_decide_eq_true Eq].
  by rewrite (Hq _ _ _ Hin Eb Et) in Eq.
Qed.

Lemma stranded_prompts taskID sessionID p f db :
  (∀ id q, p id q = true → p_status q = "running") →
  (∀ id q, p_agent_session_id (f id q) = p_agent_session_id q) →
  stranded taskID sessionID db → stranded taskID sessionID (on_prompts (update_where p f) db).2.
Proof.
  intros Hp Hf (Ht & Hps & Hs). destruct (on_prompts _ db) as [n db'] eqn:E.
  apply on_prompts_where_inr in E as [[m ->] Hl]. split; [exact Ht|]. split; [|exact Hs].
  intros id q Hq Hsid. pose proof (eq_trans (eq_sym (Hl id)) Hq) as Hq'.
  apply fmap_Some in Hq' as (q0 & Hq0 & ->).
  destruct (p id q0) eqn:Epq; [|by eapply Hps]. rewrite Hf in Hsid.
  destruct (Hps id q0 Hq0 Hsid) as [_ Hpend]. apply Hp in Epq. congruence.
Qed.

Lemma stranded_sessions taskID sessionID p f db :
  (∀ s, agent_sessions db !! sessionID = Some s → p sessionID s = false) →
  stranded taskID sessionID db → stranded taskID sessionID (on_sessions (update_where p f) db).2.
Proof.
  intros Hp (Ht & Hps & (s & Hs & Hst)). destruct (on_sessions _ db) as [n db'] eqn:E.
  apply on_sessions_where_inr in E as [[m ->] Hl]. split; [exact Ht|]. split; [exact Hps|].
  exists s. split; [|done]. refine (eq_trans (Hl sessionID) _). rewrite Hs. simpl.
  by rewrite (Hp s Hs).
Qed.

Lemma stranded_reaped taskID sessionID dbnow db :
  stranded taskID sessionID db → stranded taskID sessionID (reapStaleUserPrompts dbnow db).
Proof.
  intros Hst. unfold reapStaleUserPrompts.
  assert (stranded taskID sessionID (ReapStaleUserPrompts dbnow db).2) as Hst1.
  { apply stranded_prompts; [| |done].
    - intros id q [Hq _]%andb_true_iff. by apply bool_decide_eq_true in Hq.
    - intros id q. by destruct (prompt_task db q). }
  assert (stranded taskID sessionID
    (RevertOrphanedRunningUserPrompts dbnow (ReapStaleUserPrompts dbnow db).2).2) as Hst2.
  { apply stranded_prompts; [|done|done].
    intros id q [Hq _]%andb_true_iff. by apply bool_decide_eq_true in Hq. }
  apply stranded_sessions; [|done]. intros s Hs. destruct Hst2 as (_ & Hps & _).
  rewrite joined_prompt_none; [by rewrite andb_false_r|].
  intros id p t Hp Hid Ht. destruct (Hps id p Hp Hid) as [_ Hpend].
  unfold ended_run. by rewrite Hpend.
Qed.

(** A flaw: cancelling a task that no runner has claimed leaves its prompt
    pending and its session running forever. The cancellation writes neither,
    and however many passes the prompt and session reapers make afterwards,
    at whatever times, they close neither, since they look for a prompt that
    is running or has ended. *)
Theorem CancelTask_strands scope outside taskID sessionID reason now tf db u db' s nows :
  CancelTask scope outside taskID reason now tf db = (inr u, db') →
  agent_sessions db !! sessionID = Some s → s_status s = "running" →
  (∀ id p, user_prompts db !! id = Some p → p_agent_session_id p = sessionID →
     p_task_id p = taskID ∧ p_status p = "pending") →
  let final := foldl (λ d t, reapStaleUserPrompts t d) db' nows in
  (∃ s', agent_sessions final !! sessionID = Some s' ∧ s_status s' = "running") ∧
  (∀ id p, user_prompts final !! id = Some p → p_agent_session_id p = sessionID →
     p_status p = "pending").
Proof.
  intros (orig & r & db1 & _ & Htx & Heq)%CancelTask_inr Hs Hst Hps final.
  apply cancel_tx_inr in Htx as ((t & Ht & _ & HT) & _ & _ & Hf).
  assert (stranded taskID sessionID db') as Hstr.
  { rewrite Heq. split; [|split].
    - eexists. split; [cbn [tasks]; rewrite Hf; cbn [tasks]; rewrite HT; apply lookup_insert_eq|].
      done.
    - rewrite Hf. exact Hps.
    - exists s. rewrite Hf. done. }
  assert (stranded taskID sessionID final) as (_ & Hp & (s' & Hs' & Hst')).
  { subst final. clear -Hstr. revert db' Hstr. induction nows as [|n nows IH]; [done|].
    intros db' Hstr. simpl. by apply IH, stranded_reaped. }
  split; [by exists s'|]. intros id p Hid Hsid. by apply (Hp id p Hid Hsid).
Qed.

(** Clearing the queue is for administrators only and fails without effect
    for anyone else. It reports the number of tasks that were pending, leaves
    none pending and nothing for any runner to claim, and does not touch a
    task or an attempt that is past that point. *)
Theorem ClearQueue_empties scope now db r db' :
  ClearQueue scope now db = (r, db') →
  if isAdmin scope then
    r = inr (CountPendingTasks db) ∧ CountPendingTasks db' = 0 ∧
    (∀ skip runnerID iso, GetClaimableExecutionAttemptForUpdate skip runnerID iso db' = None) ∧
    (∀ id a, execution_attempts db !! id = Some a → a_status a ≠ "pending" →
       execution_attempts db' !! id = Some a) ∧
    (∀ id t, tasks db !! id = Some t → t_status t ≠ "pending" → tasks db' !! id = Some t)
  else (∃ e, r = inl e) ∧ db' = db.
Proof.
  unfold ClearQueue. destruct (isAdmin scope); simpl; [|intros [= <- <-]; split; [by eexists|done]].
  set (d1 := (CancelPendingExecutionAttempts clear_queue_reason now now db).2).
  assert (∀ id, tasks d1 !! id = tasks db !! id) as Ht1 by done.
  assert (∀ id, execution_attempts d1 !! id =
    (λ a, if a_status a == "pending" then cancel_attempt clear_queue_reason now now a else a)
      <$> execution_attempts db !! id) as Ha1.
  { intros id. apply (update_where_lookup (λ _ a, a_status a == "pending")
      (λ _, cancel_attempt clear_queue_reason now now) (execution_attempts db) id). }
  set (d2 := ClearPendingTasks clear_queue_reason now now d1).
  assert (∀ id, tasks d2.2 !! id =
    (λ t, if t_status t == "pending" then cancel_task_row clear_queue_reason now now t else t)
      <$> tasks db !! id) as Ht2.
  { intros id. rewrite <- Ht1. apply (update_where_lookup (λ _ t, t_status t == "pending")
      (λ _, cancel_task_row clear_queue_reason now now) (tasks d1) id). }
  assert (d2.1 = CountPendingTasks db) as Hn by
    apply (update_where_count (λ _ t, t_status t == "pending")
      (λ _, cancel_task_row clear_queue_reason now now) (tasks db)).
  intros Hrun. assert (r = inr d2.1) as -> by (symmetry; exact (f_equal fst Hrun)).
  assert (db' = d2.2) as -> by (symmetry; exact (f_equal snd Hrun)). clear Hrun.
  split; [exact (f_equal inr Hn)|].
  split; [|split; [|split]].
  - unfold CountPendingTasks. destruct (List.filter _ _) as [|[id t] l] eqn:E; [done|].
    assert ((id, t) ∈ List.filter (λ kv, t_status kv.2 == "pending") (map_to_list (tasks d2.2)))
      as Hin by (rewrite E; left).
    apply list_elem_of_In, filter_In in Hin as [Hin Hp].
    apply list_elem_of_In, elem_of_map_to_list in Hin. rewrite Ht2 in Hin.
    apply fmap_Some in Hin as (t0 & _ & ->). simpl in Hp. by destruct (t_status t0 == "pending") eqn:E0;
      [|rewrite E0 in Hp].
  - intros skip runnerID iso.
    destruct (GetClaimableExecutionAttemptForUpdate _ _ _ _) as [q|] eqn:E; [|done].
    apply claim_query_oldest in E as (a & Ha & _ & _ & Hc & _).
    apply claimable_true in Hc as (p & t & _ & _ & Hp & _).
    assert (execution_attempts d1 !! cl_attempt q = Some a) as Ha' by exact Ha.
    rewrite Ha1 in Ha'. apply fmap_Some in Ha' as (a0 & _ & ->).
    by destruct (a_status a0 == "pending") eqn:E0; [|apply bool_decide_eq_false in E0].
  - intros id a Ha Hne. change (execution_attempts d1 !! id = Some a). rewrite Ha1, Ha. simpl.
    by rewrite bool_decide_eq_false_2.
  - intros id t Ht Hne. rewrite Ht2, Ht. simpl. by rewrite bool_decide_eq_false_2.
Qed.

(** Extending a task's deadline needs a positive extension and an active
    attempt; it then adds the extension, as a 32-bit integer, to the timeout
    of exactly the task's pending and running attempts, each sum staying in the
    range of its column, and changes nothing else. Below 2^31 seconds the
    32-bit value is the extension itself. *)
Theorem ExtendTaskTimeout_adds scope outside taskID extensionSec now db u db' :
  ExtendTaskTimeout scope outside taskID extensionSec now db = (inr u, db') →
  0 < extensionSec ∧ (extensionSec < 2 ^ 31 → int32_of extensionSec = extensionSec) ∧
  (∃ id a, execution_attempts db !! id = Some a ∧ task_of db a = Some taskID ∧
     attempt_active (a_status a) = true) ∧
  (∀ id a, execution_attempts db !! id = Some a →
     if (task_of db a == Some taskID) && attempt_active (a_status a) then
       int32_ok (a_timeout_sec a + int32_of extensionSec) = true ∧
       execution_attempts db' !! id = Some (a{{ a_timeout_sec := a_timeout_sec a + int32_of extensionSec;
                                               a_updated_at := now }})
     else execution_attempts db' !! id = Some a) ∧
  db' = db{{ execution_attempts := execution_attempts db' }}.
Proof.
  unfold ExtendTaskTimeout. destruct (Z.leb_spec extensionSec 0) as [|Hpos]; [done|].
  destruct (taskForToolAccess _ _ _); [done|].
  destruct (run_tx _ db) as [[e|n] db1] eqn:Etx; [done|]. apply run_tx_ok in Etx.
  destruct (n =? 0) eqn:En; [done|]. intros [= _ <-].
  unfold ExtendActiveExecutionAttemptTimeout in Etx.
  destruct (exists_row _ _) eqn:Eover; [done|]. apply (inj inr) in Etx.
  pose proof (on_attempts_where_nonzero _ _ _ _ _ Etx En) as (k & b & Hb & Hsel).
  apply on_attempts_where_inr in Etx as [[m ->] Hl]. split; [done|]. split.
  { intros Hlt. unfold int32_of. rewrite Z.mod_small by lia. lia. }
  split. { apply andb_true_iff in Hsel as [?%bool_decide_eq_true ?]. by exists k, b. }
  split; [|done]. intros id a Ha. specialize (Hl id). rewrite Ha in Hl. simpl in Hl.
  rewrite exists_row_false in Eover. specialize (Eover id a Ha).
  destruct ((task_of db a == Some taskID) && attempt_active (a_status a)); [|exact Hl].
  split; [by apply negb_false_iff|exact Hl].
Qed.

(** An extension of 2^32 - 60 seconds takes a minute off instead. *)
Lemma ExtendTaskTimeout_wraps :
  ∃ db', ExtendTaskTimeout None sample_db "t1" (2 ^ 32 - 60) 9 sample_db = (inr tt, db') ∧
    a_timeout_sec <$> execution_attempts db' !! "a1" = Some 540.
Proof. eexists. split; vm_compute; reflexivity. Qed.

Lemma CancelTask_stops_witness :
  ∃ db', CancelTask None sample_db "t1" "" 9 false sample_db = (inr tt, db') ∧
    user_prompts db' = user_prompts sample_db.
Proof.
  destruct (CancelTask None sample_db "t1" "" 9 false sample_db) as [[e|[]] db'] eqn:E;
    [vm_compute in E; discriminate|].
  exists db'. split; [reflexivity|].
  destruct (CancelTask_stops _ _ _ _ _ _ _ _ _ E) as (_ & _ & _ & Hp & _). exact Hp.
Defined.

Lemma sample_session_prompts id p :
  user_prompts sample_db !! id = Some p → p_agent_session_id p = "s1" →
  p_task_id p = "t1" ∧ p_status p = "pending".
Proof.
  intros H _. change (user_prompts sample_db) with ({[ "p1" := sample_prompt "s1" "t1" ]}
    : gmap string UserPrompt) in H. by apply lookup_singleton_Some in H as [_ <-].
Qed.

Lemma CancelTask_strands_witness :
  ∃ db', CancelTask None sample_db "t1" "" 9 false sample_db = (inr tt, db') ∧
    ∃ s', agent_sessions (foldl (λ d t, reapStaleUserPrompts t d) db' [10; 20]) !! "s1" = Some s' ∧
      s_status s' = "running".
Proof.
  destruct (CancelTask None sample_db "t1" "" 9 false sample_db) as [[e|[]] db'] eqn:E;
    [vm_compute in E; discriminate|].
  exists db'. split; [reflexivity|].
  exact (proj1 (CancelTask_strands None sample_db "t1" "s1" "" 9 false sample_db tt db'
    (sample_session "t1") [10; 20] E eq_refl eq_refl sample_session_prompts)).
Defined.

Lemma ClearQueue_empties_witness :
  ∃ r db', ClearQueue (Some (mkScope "" [] "" "" true)) 9 sample_db = (r, db') ∧ r = inr 1 ∧
    GetClaimableExecutionAttemptForUpdate no_skip "r2" true db' = None.
Proof.
  destruct (ClearQueue (Some (mkScope "" [] "" "" true)) 9 sample_db) as [r db'] eqn:E.
  exists r, db'. split; [reflexivity|].
  destruct (ClearQueue_empties _ _ _ _ _ E) as (Hr & _ & Hq & _). split; [exact Hr|apply Hq].
Defined.

Lemma ExtendTaskTimeout_adds_witness :
  ∃ db', ExtendTaskTimeout None sample_db "t1" 60 9 sample_db = (inr tt, db') ∧
    user_prompts db' = user_prompts sample_db.
Proof.
  destruct (ExtendTaskTimeout None sample_db "t1" 60 9 sample_db) as [[e|[]] db'] eqn:E;
    [vm_compute in E; discriminate|].
  exists db'. split; [reflexivity|].
  destruct (ExtendTaskTimeout_adds _ _ _ _ _ _ _ _ E) as (_ & _ & _ & _ & Hf).
  rewrite Hf. reflexivity.
Defined.
