(* ===== verification/Artifacts.v ===== *)
(** * Artifacts of tasks, and resuming a session for its pull request

    The table [task_artifacts], [RecordArtifact] and [ResumeSessionForPR] of
    [internal/service/service.go]. The table is a map of its own, by primary
    key. *)
From S2P Require Import Prelude GoStrings Status Db Queries Submission GithubEvents.

Record TaskArtifact := mkTaskArtifact {
  f_task_id : string;
  f_agent_session_id : option string;
  f_user_prompt_id : option string;
  f_execution_attempt_id : string;
  f_artifact_type : string;
  f_repo : string;
  f_number : option Z;
  f_url : option string;
  f_ref : option string;
  f_sha : option string;
  f_created_at : time;
  f_discovered_at : time;
  f_discovery_source : string;
  f_search_text : option string;
}.

Notation Artifacts := (gmap string TaskArtifact).

(** The unique key [idx_task_artifacts_dedup], in which NULLs are distinct. *)
Definition same_artifact (f f' : TaskArtifact) : bool :=
  (f_task_id f == f_task_id f') && (f_artifact_type f == f_artifact_type f') &&
  (f_repo f == f_repo f') && (f_execution_attempt_id f == f_execution_attempt_id f') &&
  match f_number f, f_number f' with Some n, Some n' => n =? n' | _, _ => false end.

(** INSERT IGNORE: a duplicate is dropped. *)
Definition InsertTaskArtifact (id : string) (f : TaskArtifact) (m : Artifacts) : Artifacts :=
  match insert_unique "task_artifacts" same_artifact id f m with inl _ => m | inr m' => m' end.

(** The parameters as [RecordArtifact] of the service completes them: an attempt
    decides session and prompt. *)
Definition artifact_owner (p : RecordArtifactParams) (db : DB) : err + RecordArtifactParams :=
  if ra_ExecutionAttemptID p == "" then inr p
  else match GetExecutionAttemptContext (ra_ExecutionAttemptID p) db with
  | None => inl (EMsg "get artifact execution attempt context")
  | Some cx =>
    if negb (cx_TaskID cx == ra_TaskID p)
    then inl (EFmt "execution attempt %q does not belong to task %q"
                [ra_ExecutionAttemptID p; ra_TaskID p])
    else inr (mkRecordArtifactParams (ra_TaskID p) (cx_AgentSessionID cx) (cx_UserPromptID cx)
                (ra_ExecutionAttemptID p) (ra_ArtifactType p) (ra_Repo p) (ra_Number p) (ra_URL p)
                (ra_Ref p) (ra_SHA p) (ra_DiscoverySource p))
  end.

Definition artifact_row (p : RecordArtifactParams) (now : time) : TaskArtifact :=
  mkTaskArtifact (ra_TaskID p) (nullString (ra_AgentSessionID p)) (nullString (ra_UserPromptID p))
    (ra_ExecutionAttemptID p) (ra_ArtifactType p) (ra_Repo p)
    (if 0 <? ra_Number p then Some (int32_of (ra_Number p)) else None)
    (nullString (ra_URL p)) (nullString (ra_Ref p)) (nullString (ra_SHA p)) now now
    (ra_DiscoverySource p)
    (nullString (search_text [ra_TaskID p; ra_AgentSessionID p; ra_UserPromptID p;
                              ra_ExecutionAttemptID p; ra_Repo p; ra_ArtifactType p; ra_Ref p])).

(** [id] is the random identifier of the row. *)
Definition RecordArtifact (id : string) (p : RecordArtifactParams) (now : time) (db : DB)
    (m : Artifacts) : (err + unit) * Artifacts :=
  match artifact_owner p db with
  | inl e => (inl e, m)
  | inr p' => (inr tt, InsertTaskArtifact id (artifact_row p' now) m)
  end.

(** ** Resuming for a pull request *)

(** [ORDER BY a.discovered_at DESC LIMIT 1] *)
Definition GetPausedSessionByArtifact (repo : string) (number : Z) (artifactType : string)
    (m : Artifacts) (db : DB) : option (string * AgentSession) :=
  fst <$> best (λ x y, f_discovered_at y.2 <? f_discovered_at x.2)
    (omap (λ kv : string * TaskArtifact,
       let f := kv.2 in
       if (f_repo f == repo) && (f_number f == Some number) && (f_artifact_type f == artifactType)
       then match f_agent_session_id f with
            | None => None
            | Some sid =>
              match agent_sessions db !! sid with
              | Some s => if session_paused (s_status s) &&
                             one_of ["gvisor_checkpoint"; "harness_session"] (s_resume_mode s)
                          then Some ((sid, s), f) else None
              | None => None
              end
            end
       else None) (map_to_list m)).

Definition feedback_prompt (repo : string) (prNumber : Z) : string :=
  let nl := String (ascii_of_nat 10) EmptyString in
  "Your PR #" ^^ fmt_d prNumber ^^ " in " ^^ repo ^^ " received review feedback." ^^ nl ^^ nl ^^
  "Read the PR review comments and review threads using gh." ^^ nl ^^
  "Address the feedback with the smallest correct changes." ^^ nl ^^
  "Push updates to the existing branch." ^^ nl ^^
  "Reply to resolved review comments where appropriate." ^^ nl ^^
  "Do not open a new PR.".

(** The service's: the lookups and the resumption read one state each. *)
Definition ResumeSessionForPR (cfg : ServiceConfig) (L : Lookups) (dbnow : time) (repo : string)
    (prNumber : Z) (ids : SubmitIDs) (now : time) (m : Artifacts) (db : DB) : (err + unit) * DB :=
  match GetPausedSessionByArtifact repo (int32_of prNumber) "pull_request" m db with
  | None => (inr tt, db)
  | Some (sid, s) =>
    if negb (IsRunnerAlive dbnow (str_of (s_pinned_runner_id s)) 120 db) then (inr tt, db)
    else match ResumeAgentSession cfg L None dbnow db sid (feedback_prompt repo prNumber) 0 ids now db with
         | (inl e, db') => (inl e, db')
         | (inr _, db') => (inr tt, db')
         end
  end.

(** ** Lemmas *)

Lemma RecordArtifact_types id p now db m r m' k f :
  RecordArtifact id p now db m = (r, m') → m' !! k = Some f →
  m !! k = Some f ∨ f_artifact_type f = ra_ArtifactType p.
Proof.
  unfold RecordArtifact. destruct (artifact_owner p db) as [e|p'] eqn:E; [intros [= _ <-]; by left|].
  intros [= _ <-]. unfold InsertTaskArtifact.
  destruct (insert_unique _ _ _ _ m) as [e|m1] eqn:Ei; [by left|].
  apply insert_unique_inr in Ei as (_ & _ & ->).
  intros [[_ <-]|[_ Hk]]%lookup_insert_Some; [right|by left].
  unfold artifact_owner in E. destruct (_ == ""); [by injection E as <-|].
  destruct (GetExecutionAttemptContext _ db) as [cx|]; [|done].
  destruct (negb _); [done|]. by injection E as <-.
Qed.

Lemma paused_by_artifact repo n ty m db sid s :
  GetPausedSessionByArtifact repo n ty m db = Some (sid, s) →
  ∃ k f, m !! k = Some f ∧ f_artifact_type f = ty.
Proof.
  unfold GetPausedSessionByArtifact. destruct (best _ _) as [[x f]|] eqn:E; [|done]. intros _.
  apply best_elem, list_elem_of_omap in E as ([k f'] & Hin%elem_of_map_to_list & Hf). cbn in Hf.
  destruct ((_ == repo) && _ && _) eqn:Ec; [|done].
  apply andb_prop in Ec as [_ Hty%bool_decide_eq_true]. by exists k, f'.
Qed.
