(* ===== verification/TxRetry.v ===== *)
(** * Transactions with retry

    [internal/service/tx.go] and [internal/store/retry.go]: which database
    errors are worth another attempt, the loop that reruns a whole transaction
    and the loop that reruns one call. What the database answers to each
    attempt is an input. *)
From S2P Require Import Prelude GoStrings.

(** ** Errors as the driver reports them *)

Inductive DBError :=
| MySQLError (number : Z) (msg : string)      (* *mysql.MySQLError *)
| PgError (code : string) (msg : string)      (* *pgconn.PgError *)
| NetOpError (msg : string)                   (* *net.OpError *)
| Errno (refused : bool) (msg : string)       (* ECONNREFUSED, EPIPE, ECONNRESET; or another *)
| App (e : err).                              (* an error of the service itself *)

(** [fmt.Errorf] on string arguments: each verb takes the next one. *)
Fixpoint sprintf (format : string) (args : list string) : string :=
  match format with
  | EmptyString => EmptyString
  | String c tail =>
    match tail with
    | String v rest =>
      if c == "%"%char then
        match args with
        | a :: args' => (if v == "q"%char then String "034" (a ^^ String "034" "") else a)
                        ^^ sprintf rest args'
        | [] => format
        end
      else String c (sprintf tail args)
    | EmptyString => format
    end
  end.

(** [err.Error()] *)
Definition err_text (e : err) : string :=
  match e with
  | ENoRows => "sql: no rows in result set"
  | EDuplicateKey tbl => "Error 1062 (23000): Duplicate entry for key '" ^^ tbl ^^ ".PRIMARY'"
  | EOutOfRange => "Error 1264 (22003): Out of range value"
  | ENoClaimableTask => "no claimable task"
  | ETaskNotClaimed => "task is not claimed by runner"
  | ECapacity limit current =>
      "pending task admission limit reached (" ^^ fmt_d current ^^ " pending, limit " ^^
      fmt_d limit ^^ "): retry when capacity frees up"
  | EInvalidArgument msg => "invalid_argument: " ^^ msg
  | EFailedPrecondition msg => "failed_precondition: " ^^ msg
  | EMsg msg => msg
  | EFmt format args => sprintf format args
  end.

Definition error_text (e : DBError) : string :=
  match e with
  | MySQLError n msg => "Error " ^^ fmt_d n ^^ ": " ^^ msg
  | PgError _ msg | NetOpError msg | Errno _ msg => msg
  | App e => err_text e
  end.

(** ** Classification *)

Definition contains_one (l : list string) (s : string) : bool := existsb (contains s) l.
Definition one_of_z (l : list Z) (n : Z) : bool := existsb (Z.eqb n) l.
Definition one_of_code (l : list string) (c : string) : bool := existsb (String.eqb c) l.

Definition isNetworkError (e : DBError) : bool :=
  match e with
  | NetOpError _ => true
  | Errno true _ => true
  | _ => let msg := error_text e in
         contains msg "connect:" &&
         (contains msg "connection refused" || contains msg "no route to host")
  end.

Definition IsTransientError (e : DBError) : bool :=
  isNetworkError e ||
  match e with
  | MySQLError n _ => one_of_z [1205; 1213; 2002; 2003; 2006; 2013; 8028; 9007] n
  | PgError c _ => one_of_code ["08000"; "08001"; "08003"; "08004"; "08006"; "08007"; "40001";
                                "40P01"; "53P00"; "55P03"; "57P01"; "57P02"; "57P03"] c
  | _ => false
  end ||
  contains_one ["connection refused"; "broken pipe"; "connection reset by peer"; "i/o timeout";
                "no such host"; "try again later"; "Deadlock"; "Lock wait timeout";
                "Write conflict"] (error_text e).

Definition isRetryableTxError (e : DBError) : bool :=
  match e with
  | MySQLError n _ => one_of_z [1205; 1213; 8028; 9007] n
  | PgError c _ => one_of_code ["40001"; "40P01"; "55P03"] c
  | _ => false
  end ||
  contains_one ["Deadlock"; "Lock wait timeout"; "Write conflict"; "try again later"] (error_text e).

Definition isInboundPermanentTaskError (e : DBError) : bool :=
  if isRetryableTxError e then false
  else if IsTransientError e then false
  else negb (contains_one
    ["database not available"; "connection refused"; "connection reset"; "dial tcp";
     "context deadline exceeded"; "i/o timeout"; "write conflict"; "lock wait timeout"; "deadlock";
     "too many connections"] (toLower (error_text e))).

Definition isDuplicateKeyError (e : DBError) : bool :=
  contains_one ["Duplicate entry"; "duplicate key"; "unique constraint"] (error_text e).

(** ** withTxRetryOptions *)

Definition txMaxAttempts : nat := 3.

(** What the database and the context answer to one attempt: the context's
    error, the error of BEGIN, and the error of COMMIT together with whether
    the commit took effect all the same. *)
Record Answers := mkAnswers {
  an_ctx : option DBError;
  an_begin : option DBError;
  an_commit : option (DBError * bool);
}.

Section with_tx.
Context {S A : Type} (fn : nat → S → DBError + A * S) (answers : nat → Answers).

(** [left] attempts remain after this one; the result carries the number of
    times [fn] ran and the microseconds slept. *)
Record Outcome := mkOutcome { oc_result : DBError + A; oc_state : S; oc_runs : nat; oc_slept : Z }.

Fixpoint tx_loop (left attempt : nat) (lastErr : DBError) (s : S) (runs : nat) (slept : Z) : Outcome :=
  let delay := Z.of_nat (attempt + 1) * 25000 in
  let an := answers attempt in
  match an_ctx an with
  | Some e => mkOutcome (inl e) s runs slept
  | None =>
    match an_begin an with
    | Some e =>
      match left with
      | Datatypes.S left' =>
        if IsTransientError e then tx_loop left' (attempt + 1) e s runs (slept + delay)
        else mkOutcome (inl e) s runs slept
      | O => mkOutcome (inl e) s runs slept
      end
    | None =>
      match fn attempt s with
      | inl e =>
        match left with
        | Datatypes.S left' =>
          if isRetryableTxError e then tx_loop left' (attempt + 1) e s (runs + 1) (slept + delay)
          else mkOutcome (inl e) s (runs + 1) slept
        | O => mkOutcome (inl e) s (runs + 1) slept
        end
      | inr (a, s') =>
        match an_commit an with
        | Some (e, applied) => mkOutcome (inl e) (if applied : bool then s' else s) (runs + 1) slept
        | None => mkOutcome (inr a) s' (runs + 1) slept
        end
      end
    end
  end.

Definition withTxRetryOptions (s : S) : Outcome :=
  tx_loop (txMaxAttempts - 1) 0 (App (EMsg "")) s 0 0.
End with_tx.
Arguments Outcome : clear implicits.

(** ** RetryTransient *)

Definition transientBackoff : list Z := [100000; 500000; 1000000; 2000000; 5000000].
Definition transientMaxRetries : nat := 3.

Section retry.
Context (fn : nat → option DBError) (ctx : nat → option DBError) (ctx_wait : nat → option DBError).

(** The answer of call [attempt] is [fn attempt]; the context is asked before
    each call and while waiting. *)
Fixpoint retry_loop (left attempt calls : nat) : option DBError * nat :=
  match ctx attempt with
  | Some e => (Some e, calls)
  | None =>
    match fn attempt with
    | None => (None, (calls + 1)%nat)
    | Some e =>
      if negb (IsTransientError e) then (Some e, (calls + 1)%nat)
      else match left with
           | O => (Some e, (calls + 1)%nat)
           | S left' =>
             match ctx_wait attempt with
             | Some e' => (Some e', (calls + 1)%nat)
             | None => retry_loop left' (attempt + 1) (calls + 1)
             end
           end
    end
  end.

Definition retryTransient (maxRetries : nat) : option DBError * nat := retry_loop maxRetries 0 0.
Definition RetryTransient : option DBError * nat := retryTransient transientMaxRetries.
End retry.

Definition transient_delay (attempt : nat) : Z :=
  nth (Nat.min attempt (length transientBackoff - 1)) transientBackoff 0.

(** ** Lemmas *)

Lemma contains_one_mono l k s :
  (∀ x, x ∈ l → x ∈ k) → contains_one l s = true → contains_one k s = true.
Proof.
  unfold contains_one. rewrite !existsb_exists. intros Hlk (x & Hx%list_elem_of_In & Hc).
  exists x. split; [by apply list_elem_of_In, Hlk|done].
Qed.

Lemma one_of_z_spec l n : one_of_z l n = true ↔ n ∈ l.
Proof.
  unfold one_of_z. rewrite existsb_exists. split.
  - intros (x & Hx & ->%Z.eqb_eq). by apply list_elem_of_In.
  - intros Hn. exists n. rewrite Z.eqb_refl, <- list_elem_of_In. done.
Qed.

Lemma one_of_code_spec l c : one_of_code l c = true ↔ c ∈ l.
Proof.
  unfold one_of_code. rewrite existsb_exists. split.
  - intros (x & Hx & ->%String.eqb_eq). by apply list_elem_of_In.
  - intros Hn. exists c. rewrite String.eqb_refl, <- list_elem_of_In. done.
Qed.

Section tx_facts.
Context {S A : Type} (fn : nat → S → DBError + A * S) (answers : nat → Answers).

Record settled (s : S) (runs0 budget : nat) (slept0 : Z) (attempt : nat) (o : Outcome S A) : Prop := {
  st_runs : (oc_runs o <= runs0 + budget)%nat;
  st_ok : ∀ a, oc_result o = inr a →
    ∃ k, (attempt <= k < attempt + budget)%nat ∧ fn k s = inr (a, oc_state o) ∧
      an_commit (answers k) = None;
  st_error : ∀ e, oc_result o = inl e →
    oc_state o = s ∨
    ∃ k a, (attempt <= k < attempt + budget)%nat ∧ fn k s = inr (a, oc_state o) ∧
      an_commit (answers k) = Some (e, true);
  st_wait : slept0 <= oc_slept o <=
    slept0 + (Z.of_nat budget - 1) * (2 * Z.of_nat attempt + Z.of_nat budget) * 12500;
}.

Lemma tx_loop_settled left : ∀ attempt lastErr s runs slept,
  settled s runs (left + 1) slept attempt (tx_loop fn answers left attempt lastErr s runs slept).
Proof.
  induction left as [|left IH]; intros attempt lastErr s runs slept; simpl;
    (destruct (an_ctx (answers attempt)) as [ec|];
       [constructor; simpl; [lia|done|by left|nia]|]);
    (destruct (an_begin (answers attempt)) as [eb|]).
  1: constructor; simpl; [lia|done|by left|nia].
  2: destruct (IsTransientError eb); [|constructor; simpl; [lia|done|by left|nia]].
  1, 3: destruct (fn attempt s) as [e|[a s']] eqn:Ef.
  1: constructor; simpl; [lia|done|by left|nia].
  1, 3: destruct (an_commit (answers attempt)) as [[e applied]|] eqn:Ec; constructor; simpl;
    [lia|done| |nia|lia| |done|nia].
  1, 3: intros e0 [= ->]; destruct applied; [right; exists attempt, a; split; [lia|done]|by left].
  1, 2: intros a0 [= ->]; exists attempt; split; [lia|done].
  1: destruct (isRetryableTxError e); [|constructor; simpl; [lia|done|by left|nia]].
  - destruct (IH (attempt + 1)%nat e s (runs + 1)%nat (slept + Z.of_nat (attempt + 1) * 25000))
      as [H1 H2 H3 H4]. constructor; [lia| | |nia].
    + intros a Ha. destruct (H2 a Ha) as (k & Hk & ?). exists k. split; [lia|done].
    + intros e0 He. destruct (H3 e0 He) as [?|(k & a & Hk & ?)]; [by left|right].
      exists k, a. split; [lia|done].
  - destruct (IH (attempt + 1)%nat eb s runs (slept + Z.of_nat (attempt + 1) * 25000))
      as [H1 H2 H3 H4]. constructor; [lia| | |nia].
    + intros a Ha. destruct (H2 a Ha) as (k & Hk & ?). exists k. split; [lia|done].
    + intros e0 He. destruct (H3 e0 He) as [?|(k & a & Hk & ?)]; [by left|right].
      exists k, a. split; [lia|done].
Qed.
End tx_facts.

(** ** Theorems *)

(** The retry loop runs a transaction at most three times and sleeps at
    most 75 milliseconds in all. It commits at most once: a success is the
    committed result of a single run on the state the call started from, and
    after an error the state is unchanged, except when a COMMIT was reported
    as failed although it took effect, which is returned at once and never
    rerun. When the database has no trouble the loop is the plain transaction:
    commit on success, roll back on error. *)
Theorem withTxRetryOptions_once {S A} (fn : nat → S → DBError + A * S) answers s :
  let o := withTxRetryOptions fn answers s in
  (oc_runs o <= 3)%nat ∧ 0 <= oc_slept o <= 75000 ∧
  (∀ a, oc_result o = inr a → ∃ k, (k < 3)%nat ∧ fn k s = inr (a, oc_state o)) ∧
  (∀ e, oc_result o = inl e →
     oc_state o = s ∨ ∃ k a, (k < 3)%nat ∧ fn k s = inr (a, oc_state o) ∧
       an_commit (answers k) = Some (e, true)) ∧
  (∀ m : tx S A, fn = (λ _ s, match m s with inl e => inl (App e) | inr r => inr r end) →
     (∀ k, answers k = mkAnswers None None None) →
     (∀ e, m s = inl e → isRetryableTxError (App e) = false) →
     (oc_result o, oc_state o) =
       match run_tx m s with (inl e, s') => (inl (App e), s') | (inr a, s') => (inr a, s') end).
Proof.
  intros o. destruct (tx_loop_settled fn answers 2 0 (App (EMsg "")) s 0 0) as [H1 H2 H3 H4].
  change (tx_loop fn answers 2 0 (App (EMsg "")) s 0 0) with o in *.
  split; [lia|]. split; [lia|]. split.
  { intros a Ha. destruct (H2 a Ha) as (k & Hk & Hf & _). exists k. split; [lia|done]. }
  split.
  { intros e He. destruct (H3 e He) as [?|(k & a & Hk & ?)]; [by left|right].
    exists k, a. split; [lia|done]. }
  intros m -> Han Hret. subst o. unfold withTxRetryOptions, txMaxAttempts, run_tx. simpl.
  rewrite Han. simpl. destruct (m s) as [e|[a s']] eqn:Em; [|done].
  by rewrite (Hret e eq_refl).
Qed.

(** Every error that makes a transaction run again is one the store
    classifies as transient too, so the two policies cannot disagree on it,
    and no such error is ever held for a permanent failure of a delivery. *)
Theorem retryable_is_transient e :
  isRetryableTxError e = true →
  IsTransientError e = true ∧ isInboundPermanentTaskError e = false.
Proof.
  intros Hr. split; [|by unfold isInboundPermanentTaskError; rewrite Hr].
  unfold isRetryableTxError in Hr. unfold IsTransientError. apply orb_true_iff in Hr as [Hr|Hr].
  - apply orb_true_iff. left. apply orb_true_iff. right. destruct e as [n ?|c ?|?|? ?|?]; try done.
    + apply one_of_z_spec in Hr. apply one_of_z_spec. set_solver.
    + apply one_of_code_spec in Hr. apply one_of_code_spec. set_solver.
  - apply orb_true_iff. right. eapply contains_one_mono; [|exact Hr]. set_solver.
Qed.

Lemma retry_loop_spec fn ctx wait left : ∀ attempt calls r n,
  retry_loop fn ctx wait left attempt calls = (r, n) →
  (calls <= n <= calls + left + 1)%nat ∧
  (∀ k, (attempt <= k)%nat → (k + 1 < attempt + (n - calls))%nat →
     ∃ e, fn k = Some e ∧ IsTransientError e = true) ∧
  (r = None → (calls < n)%nat ∧ fn (attempt + (n - calls) - 1)%nat = None) ∧
  (∀ e, r = Some e → IsTransientError e = true → (n - calls = left + 1)%nat ∨
     ∃ k, ctx k = Some e ∨ wait k = Some e).
Proof.
  induction left as [|left IH]; intros attempt calls r n; simpl;
    (destruct (ctx attempt) as [ec|] eqn:Ec;
      [intros [= <- <-]; split; [lia|]; split; [intros; lia|]; split; [done|];
       intros e [= <-] _; right; exists attempt; by left|]);
    (destruct (fn attempt) as [e|] eqn:Ef;
      [|intros [= <- <-]; split; [lia|]; split; [intros; lia|];
        split; [intros _; split; [lia|]; by replace (attempt + _ - 1)%nat with attempt by lia|done]]);
    (destruct (IsTransientError e) eqn:Et; simpl;
      [|intros [= <- <-]; split; [lia|]; split; [intros; lia|]; split; [done|];
        intros e' [= <-] He; congruence]).
  - intros [= <- <-]. split; [lia|]. split; [intros; lia|]. split; [done|].
    intros e' [= <-] _. left. lia.
  - destruct (wait attempt) as [ew|] eqn:Ew.
    { intros [= <- <-]. split; [lia|]. split; [intros; lia|]. split; [done|].
      intros e' [= <-] _. right. exists attempt. by right. }
    intros (H1 & H2 & H3 & H4)%IH. split; [lia|]. split; [|split].
    + intros k Hk1 Hk2. destruct (decide (k = attempt)) as [->|]; [by exists e|].
      apply H2; lia.
    + intros Hr. destruct (H3 Hr) as [? Hf]. split; [lia|].
      by replace (attempt + (n - calls) - 1)%nat with (attempt + 1 + (n - (calls + 1)) - 1)%nat by lia.
    + intros e' Hr He. destruct (H4 e' Hr He) as [?|?]; [left; lia|by right].
Qed.

(** [RetryTransient] makes at most four calls: every call but the last
    failed with a transient error, a success is the answer of the last call, a
    permanent error is returned after the call that met it, and a transient
    error comes back only when the calls are used up or the context ended.
    The waits between the calls follow the fixed steps and never exceed five
    seconds. *)
Theorem RetryTransient_bounded fn ctx wait r n :
  RetryTransient fn ctx wait = (r, n) →
  (n <= 4)%nat ∧
  (∀ k, (k + 1 < n)%nat → ∃ e, fn k = Some e ∧ IsTransientError e = true) ∧
  (r = None → (0 < n)%nat ∧ fn (n - 1)%nat = None) ∧
  (∀ e, r = Some e → IsTransientError e = true →
     n = 4%nat ∨ ∃ k, ctx k = Some e ∨ wait k = Some e) ∧
  (∀ k, 100000 <= transient_delay k <= 5000000).
Proof.
  intros (H1 & H2 & H3 & H4)%retry_loop_spec. unfold transientMaxRetries in *.
  rewrite Nat.sub_0_r in *. split; [lia|]. split; [intros k Hk; apply H2; lia|].
  split; [exact H3|]. split; [exact H4|].
  intros k. unfold transient_delay. destruct k as [|[|[|[|[|k]]]]]; simpl; lia.
Qed.

(** The admission limit, documented as retryable, is held for permanent. *)
Lemma capacity_contains w limit current :
  w ≠ "" → all_bytes (λ c, negb (number_char c)) w = true →
  contains (err_text (ECapacity limit current)) w =
  contains "pending task admission limit reached (" w || contains " pending, limit " w ||
  contains "): retry when capacity frees up" w.
Proof.
  intros Hw Hf. unfold err_text.
  destruct (fmt_d_chars limit) as [H1 H2], (fmt_d_chars current) as [H3 H4].
  rewrite contains_skips by done. by rewrite contains_skips, orb_assoc by done.
Qed.

(** The refusal of a full queue is one of the permanent errors, whatever the
    numbers it quotes. *)
Lemma capacity_is_permanent limit current :
  isInboundPermanentTaskError (App (ECapacity limit current)) = true ∧
  isDuplicateKeyError (App (ECapacity limit current)) = false.
Proof.
  assert (toLower (error_text (App (ECapacity limit current)))
          = err_text (ECapacity limit current)) as Hlow.
  { cbn [error_text]. unfold err_text.
    assert (∀ s, all_bytes number_char s = true → toLower s = s) as Hnum.
    { intros s. induction s as [|c s IH]; [done|]. intros [Hc Hs]%andb_true_iff.
      change (String (lower_ascii c) (toLower s) = String c s). rewrite (IH Hs). f_equal.
      unfold number_char, in_range in Hc. unfold lower_ascii.
      destruct ((65 <=? N_of_ascii c) && (N_of_ascii c <=? 90))%N eqn:E; [|done].
      apply orb_true_iff in Hc as [Hc|Hc%bool_decide_eq_true]; [|by subst c].
      apply andb_true_iff in E as [?%N.leb_le ?%N.leb_le], Hc as [?%N.leb_le ?%N.leb_le]. lia. }
    rewrite !toLower_app, (Hnum (fmt_d limit)), (Hnum (fmt_d current)) by apply fmt_d_chars. reflexivity. }
  unfold isInboundPermanentTaskError, isRetryableTxError, IsTransientError, isDuplicateKeyError,
    isNetworkError. rewrite Hlow. cbn [error_text]. unfold contains_one. cbn [existsb].
  rewrite !capacity_contains by (first [discriminate|vm_compute; reflexivity]).
  split; vm_compute; reflexivity.
Qed.

Lemma retryable_is_transient_witness :
  IsTransientError (MySQLError 1213 "x") = true.
Proof. refine (proj1 (retryable_is_transient (MySQLError 1213 "x") _)). reflexivity. Defined.

Lemma RetryTransient_bounded_witness :
  ∃ n, RetryTransient (λ k, if (k <? 2)%nat then Some (NetOpError "dial") else None)
         (λ _, None) (λ _, None) = (None, n) ∧ n = 3%nat ∧ (n <= 4)%nat.
Proof.
  exists 3%nat. split; [reflexivity|]. split; [reflexivity|].
  refine (proj1 (RetryTransient_bounded (λ k, if (k <? 2)%nat then Some (NetOpError "dial") else None)
    (λ _, None) (λ _, None) None 3 _)). reflexivity.
Defined.
