(* ===== verification/CallbackDelivery.v ===== *)
(** * Outbound callback deliveries

    [internal/service/callback_deliveries.go], the queries of
    [internal/repository/callback_deliveries.sql.go] and the create_task spawn
    of [internal/service/event_callbacks.go]: the rows written next to a task
    event, and the leased worker that delivers them. The instance at the end
    of the definitions is the [Outbox] the other transactions call.

    The answer of an HTTP request is an input of the worker's step. *)
From S2P Require Import Prelude GoStrings Status Repos Redact Db Queries Outbox Auth Validation.
From S2P Require Import Sample Claim Submission Cancel TxRetry.

Definition callbackDeliveryLease : Z := seconds 60.
Definition callbackDeliveryClaimLimit : nat := 50.
Definition defaultCallbackDeliveryMaxAttempts : Z := 3.

Definition callbackDeliveryBackoff (attempts : Z) : Z :=
  if 4 <=? attempts then seconds 30
  else if attempts =? 3 then seconds 15
  else if attempts =? 2 then seconds 5
  else seconds 1.

(** The next status, and the time of the next attempt when there is one. *)
Definition nextCallbackDeliveryAttempt (now : time) (attemptsAfter maxAttempts : Z)
    (backoff : Z → Z) : string * option time :=
  if maxAttempts <=? attemptsAfter then ("dead_letter", None)
  else ("failed", Some (now + backoff attemptsAfter)).

(** ** Statements *)

Definition on_deliveries
    (u : gmap string CallbackDelivery → Z * gmap string CallbackDelivery) (db : DB) : Z * DB :=
  let r := u (callback_deliveries db) in (r.1, db{{ callback_deliveries := r.2 }}).

Definition same_delivery_key (d d' : CallbackDelivery) : bool :=
  (d_callback_id d == d_callback_id d') && (d_event_id d == d_event_id d').

(** [ON DUPLICATE KEY UPDATE id = id]: a row whose key is taken is dropped. *)
Definition InsertCallbackDelivery (id : string) (d : CallbackDelivery) (db : DB) : DB :=
  match insert_unique "callback_deliveries" same_delivery_key id d (callback_deliveries db) with
  | inl _ => db
  | inr m => db{{ callback_deliveries := m }}
  end.

Definition lease_over (now : time) (d : CallbackDelivery) : bool :=
  (d_status d == "in_flight") && sql_lt (d_lease_expires_at d) (Some now).

Definition in_flight_until (lease now : time) (d : CallbackDelivery) : CallbackDelivery :=
  d{{ d_status := "in_flight"; d_lease_expires_at := Some lease; d_updated_at := now }}.

Definition MarkCallbackDeliveryInFlight (lease updatedAt now : time) (id : string) : DB → Z * DB :=
  on_deliveries (update_pk id
    (λ d, one_of ["pending"; "failed"] (d_status d) || lease_over now d)
    (in_flight_until lease updatedAt)).

Definition succeeded (childTaskID : option string) (now : time) (d : CallbackDelivery)
    : CallbackDelivery :=
  d{{ d_status := "completed"; d_error := None; d_lease_expires_at := None;
      d_next_attempt_at := None; d_child_task_id := childTaskID; d_processed_at := Some now;
      d_updated_at := now }}.

Definition MarkCallbackDeliverySucceeded (childTaskID : option string) (now : time) (id : string)
    : DB → Z * DB :=
  on_deliveries (update_pk id (λ d, d_status d == "in_flight") (succeeded childTaskID now)).

Definition failed (status error : string) (nextAttemptAt : option time) (now : time)
    (d : CallbackDelivery) : CallbackDelivery :=
  d{{ d_status := status; d_attempts := d_attempts d + 1; d_error := Some error;
      d_lease_expires_at := None; d_next_attempt_at := nextAttemptAt; d_processed_at := None;
      d_updated_at := now }}.

Definition FailCallbackDelivery (status error : string) (nextAttemptAt : option time) (now : time)
    (id : string) : DB → Z * DB :=
  on_deliveries (update_pk id (λ d, d_status d == "in_flight") (failed status error nextAttemptAt now)).

Definition reset_for_retry (now : time) (d : CallbackDelivery) : CallbackDelivery :=
  d{{ d_status := "pending"; d_attempts := 0; d_error := None; d_lease_expires_at := None;
      d_next_attempt_at := Some now; d_processed_at := None; d_updated_at := now }}.

Definition ResetCallbackDeliveryForRetry (now : time) (id : string) : DB → Z * DB :=
  on_deliveries (update_pk id (λ d, one_of ["failed"; "dead_letter"] (d_status d))
    (reset_for_retry now)).

(** ** Enqueueing *)

(** [callbackWebhookConfig]; the headers as the JSON text they are stored as. *)
Record WebhookConfig := mkWebhookConfig {
  wc_URL : string;
  wc_Method : string;
  wc_Headers : option string;
}.

Record EventCallback := mkEventCallback {
  ec_ID : string;
  ec_team_id : option string;
  ec_name : string;
  ec_event_type : string;
  ec_action_type : string;
  ec_webhook : string + WebhookConfig;           (* action_config as a webhook, or the error *)
  ec_create : string + SubmitTaskRequest;        (* action_config as a create_task, or the error *)
  ec_enabled : bool;
  ec_created_at : time;
}.

(** SQL LIKE with its two wildcards and the backslash escape. *)
Fixpoint like_from (fuel : nat) (pattern text : string) : bool :=
  match fuel with
  | O => false
  | S fuel' =>
    match pattern with
    | EmptyString => text == ""
    | String p pattern' =>
      if p == "%"%char then
        like_from fuel' pattern' text ||
        match text with EmptyString => false | String _ text' => like_from fuel' pattern text' end
      else
        let '(literal, p, pattern') :=
          if p == "\"%char
          then match pattern' with String q r => (true, q, r) | EmptyString => (true, p, "") end
          else (negb (p == "_"%char), p, pattern') in
        match text with
        | EmptyString => false
        | String c text' =>
          (negb literal || (c == p)) && like_from fuel' pattern' text'
        end
    end
  end.
Definition sql_like (text pattern : string) : bool :=
  like_from (S (String.length pattern + String.length text)) pattern text.

(** [event_type = ?], or a pattern that ends in ".*". *)
Definition event_matches (pattern eventType : string) : bool :=
  (pattern == eventType) ||
  hasSuffix pattern ".*" &&
  sql_like eventType (take_bytes (String.length pattern - 1) pattern ^^ "%").

Definition ListEnabledEventCallbacksForEvent (teamID : option string) (eventType : string)
    (callbacks : list EventCallback) : list EventCallback :=
  sort_by ec_created_at
    (List.filter (λ c, ec_enabled c &&
       ((ec_team_id c == teamID) || (ec_team_id c == None)) &&
       event_matches (ec_event_type c) eventType) callbacks).

(** What the enqueue reads besides the database: the callbacks, the policy of
    destinations, the rendered body and the snapshot of a create_task row. *)
Record CallbackEnv := mkCallbackEnv {
  callbacks : list EventCallback;
  validateWebhookDestination : string → bool;
  renderWebhookBody : EventCallback → TaskEventCallbackContext → string + string;
  encode_snapshot : EventCallback → TaskEventCallbackContext → string;
}.

Definition new_delivery (ev : TaskEventCallbackContext) (c : EventCallback)
    (url method : string) (headers : option string) (payload : string) (now : time)
    : CallbackDelivery :=
  mkCallbackDelivery (ec_ID c) (ev_ID ev) (nullString (ev_TaskID ev)) (nullString (ev_TeamID ev))
    (ev_EventType ev) url method headers payload "pending" 0 defaultCallbackDeliveryMaxAttempts None
    None (Some now) None now now (ec_action_type c) None.

Definition broken_delivery (ev : TaskEventCallbackContext) (c : EventCallback) (errMsg : string)
    (now : time) : CallbackDelivery :=
  mkCallbackDelivery (ec_ID c) (ev_ID ev) (nullString (ev_TaskID ev)) (nullString (ev_TeamID ev))
    (ev_EventType ev) "" "POST" None "" "dead_letter" 1 defaultCallbackDeliveryMaxAttempts
    (Some errMsg) None None None now now (ec_action_type c) None.

(** The row for one callback, or none when its destination is rejected. *)
Definition enqueueCallbackDelivery (env : CallbackEnv) (ev : TaskEventCallbackContext)
    (c : EventCallback) (now : time) : option CallbackDelivery :=
  match ec_webhook c with
  | inl e => Some (broken_delivery ev c ("parse action_config: " ^^ e) now)
  | inr (mkWebhookConfig url method headers) =>
    if trimSpace url == "" then Some (broken_delivery ev c "webhook action_config.url is required" now)
    else if negb (validateWebhookDestination env url) then None
    else match renderWebhookBody env c ev with
         | inl e => Some (broken_delivery ev c ("render payload: " ^^ e) now)
         | inr body => Some (new_delivery ev c url (if method == "" then "POST" else method) headers
                               body now)
         end
  end.

Definition enqueueCreateTaskCallbackDelivery (env : CallbackEnv) (ev : TaskEventCallbackContext)
    (c : EventCallback) (now : time) : option CallbackDelivery :=
  match ec_create c with
  | inl e => Some (broken_delivery ev c ("parse action_config: " ^^ e) now)
  | inr cfg =>
    if q_Prompt cfg == ""
    then Some (broken_delivery ev c "create_task action_config.prompt is required" now)
    else Some (new_delivery ev c "" "" None (encode_snapshot env c ev) now)
  end.

Definition delivery_for (env : CallbackEnv) (ev : TaskEventCallbackContext) (c : EventCallback)
    (now : time) : option CallbackDelivery :=
  if one_of ["webhook"; "slack"] (ec_action_type c) then enqueueCallbackDelivery env ev c now
  else if ec_action_type c == "create_task" then enqueueCreateTaskCallbackDelivery env ev c now
  else None.

Fixpoint enqueue_all (env : CallbackEnv) (ev : TaskEventCallbackContext) (now : time)
    (ids : nat → string) (n : nat) (cs : list EventCallback) (db : DB) : DB :=
  match cs with
  | [] => db
  | c :: cs' =>
    match delivery_for env ev c now with
    | None => enqueue_all env ev now ids n cs' db
    | Some d => enqueue_all env ev now ids (S n) cs' (InsertCallbackDelivery (ids n) d db)
    end
  end.

Definition EnqueueTaskEventCallbackDeliveries (env : CallbackEnv) (ids : nat → string) (now : time)
    (ev : TaskEventCallbackContext) : tx DB unit :=
  tx_write (enqueue_all env ev now ids 0
    (ListEnabledEventCallbacksForEvent (nullString (ev_TeamID ev)) (ev_EventType ev) (callbacks env))).

(** ** The worker *)

(** A due row: waiting with its time come, or claimed under a lease that is
    over. *)
Definition due (now : time) (d : CallbackDelivery) : bool :=
  (one_of ["pending"; "failed"] (d_status d) &&
   match d_next_attempt_at d with None => false | Some t => t <=? now end) || lease_over now d.

(** [ORDER BY next_attempt_at ASC]; NULL comes first. *)
Definition due_key (kv : string * CallbackDelivery) : Z :=
  match d_next_attempt_at kv.2 with None => -1 | Some t => Z.max 0 t end.

Definition select_due (skip : string → bool) (now : time) (db : DB) : list (string * CallbackDelivery) :=
  take callbackDeliveryClaimLimit (sort_by due_key
    (List.filter (λ kv, negb (skip kv.1) && due now kv.2) (map_to_list (callback_deliveries db)))).

Definition mark_claimed (now : time) (db : DB) (kv : string * CallbackDelivery) : DB :=
  (MarkCallbackDeliveryInFlight (now + callbackDeliveryLease) now now kv.1 db).2.

Definition claimDueCallbackDeliveries (skip : string → bool) (now : time) (db : DB)
    : list (string * CallbackDelivery) * DB :=
  let items := select_due skip now db in
  (items, foldl (mark_claimed now) db items).

Definition completeCallbackDelivery (id childTaskID : string) (now : time) (db : DB) : DB :=
  (MarkCallbackDeliverySucceeded (nullString childTaskID) now id db).2.

(** [d] is the row as it was claimed. *)
Definition failCallbackDelivery (id : string) (d : CallbackDelivery) (now : time) (terminal : bool)
    (cause : string) (db : DB) : DB :=
  let next := if terminal then ("dead_letter", None)
              else nextCallbackDeliveryAttempt now (d_attempts d + 1) (d_max_attempts d)
                     callbackDeliveryBackoff in
  (FailCallbackDelivery next.1 (truncateTo500 cause) next.2 now id db).2.

(** The answer to a webhook or slack request: accepted, rejected by the
    destination policy, or failed. *)
Inductive SendResult := Sent | PolicyRejected (msg : string) | SendFailed (msg : string).

Definition deliver_http (id : string) (d : CallbackDelivery) (answer : SendResult) (now : time)
    (db : DB) : DB :=
  match answer with
  | Sent => completeCallbackDelivery id "" now db
  | PolicyRejected msg => failCallbackDelivery id d now true msg db
  | SendFailed msg => failCallbackDelivery id d now false msg db
  end.

(** The decoded snapshot of a create_task delivery. *)
Record CreateTaskDelivery := mkCreateTaskDelivery {
  sn_Name : string;
  sn_Config : SubmitTaskRequest;
  sn_Event : TaskEventCallbackContext;
}.

Definition recursion_error : string := "event_callback_recursion_limit".

Definition rejected_event (ev : TaskEventCallbackContext) (name : string) (depth maxDepth : Z)
    (source : string) (now : time) : TaskEventRow :=
  mkTaskEvent (ev_TaskID ev) None None None ("control.event_callback." ^^ ev_TaskID ev) "error"
    "task.callback_rejected"
    (PObject [("task_id", JStr (ev_TaskID ev)); ("parent_task_id", JStr (ev_TaskID ev));
              ("callback", JStr name); ("callback_depth", JInt depth); ("max_depth", JInt maxDepth);
              ("event_type", JStr (ev_EventType ev)); ("error", JStr recursion_error);
              ("rejected_at", JInt now); ("source_submission", JStr source)]) now.

(** The installation of the source task is kept only for its own repository;
    [same] is [githubrepo.Same]. *)
Definition callbackTaskGitHubMetadata (L : Lookups) (same : string → string → bool) (source : Task)
    (gitURL : string) : string * Z :=
  if trimSpace gitURL == "" then (str_of (t_github_repo source), default 0 (t_github_installation_id source))
  else match githubrepo_Parse L gitURL with
       | None => ("", 0)
       | Some name =>
         (name, match t_github_repo source with
                | Some r => if same r name then default 0 (t_github_installation_id source) else 0
                | None => 0
                end)
       end.

Definition callback_env (name : string) (ev : TaskEventCallbackContext) (depth : Z)
    (env : gmap string string) : gmap string string :=
  <["CHETTER_EVENT_PARENT_TASK_ID" := ev_TaskID ev]>
  (<["CHETTER_EVENT_CALLBACK_DEPTH" := fmt_d depth]>
  (<["CHETTER_EVENT_CALLBACK" := name]>
  (<["CHETTER_EVENT_TASK_ID" := ev_TaskID ev]>
  (<["CHETTER_EVENT_TYPE" := ev_EventType ev]>
  (<["CHETTER_EVENT_ID" := ev_ID ev]> env))))).

(** The request a create_task callback submits. *)
Definition spawn_request (prompt name : string) (cfg : SubmitTaskRequest)
    (ev : TaskEventCallbackContext) (github : string * Z) (depth : Z) (taskID : string)
    : SubmitTaskRequest :=
  mkSubmitTaskRequest (ev_TeamID ev) "" prompt (q_GitURL cfg) (q_GitRef cfg) [] github.1 github.2
    (q_AgentImage cfg) (q_Agent cfg) (q_ProviderID cfg) (q_ModelID cfg) (q_VariantID cfg)
    (q_Harness cfg) (q_Skills cfg) [] (callback_env name ev depth (q_Env cfg)) (q_TimeoutSec cfg)
    name "event_callback" "event_callback" (ev_TaskID ev) depth taskID "" "" "" "" "" "" 0 "".

(** What the worker needs to run a create_task delivery. *)
Record SpawnEnv := mkSpawnEnv {
  sp_config : ServiceConfig;
  sp_lookups : Lookups;
  sp_same : string → string → bool;
  sp_render : string → TaskEventCallbackContext → string + string;
  sp_max_depth : Z;
  sp_trigger : bool;
}.

Definition spawnCreateTaskFromEvent (sp : SpawnEnv) (ids : SubmitIDs) (now : time)
    (ev : TaskEventCallbackContext) (name : string) (cfg : SubmitTaskRequest) (taskID : string)
    (sets : redactSets) (db : DB) : (err + unit) * redactSets * DB :=
  if q_Prompt cfg == "" then (inl (EMsg "create_task action_config.prompt is required"), sets, db)
  else match sp_render sp (q_Prompt cfg) ev with
  | inl e => (inl (EMsg ("render prompt: " ^^ e)), sets, db)
  | inr prompt =>
    match GetTaskByID (ev_TaskID ev) db with
    | None => (inl ENoRows, sets, db)
    | Some source =>
      let depth := int32_of (t_callback_depth source + 1) in
      if (0 <? sp_max_depth sp) && (int32_of (sp_max_depth sp) <? depth) then
        match run_tx (InsertTaskEvent (id_event ids)
                        (rejected_event ev name depth (sp_max_depth sp) (t_submission_source source)
                           now)) db with
        | (inl e, db') => (inl e, sets, db')
        | (inr _, db') => (inl (EMsg recursion_error), sets, db')
        end
      else
        let github := callbackTaskGitHubMetadata (sp_lookups sp) (sp_same sp) source (q_GitURL cfg) in
        match SubmitTask (sp_config sp) (sp_lookups sp) None (sp_trigger sp) ids now
                (spawn_request prompt name cfg ev github depth taskID) sets db with
        | (inl e, sets', db') => (inl e, sets', db')
        | (inr _, sets', db') => (inr tt, sets', db')
        end
    end
  end.

Definition isCallbackDeliveryPermanentError (e : err) : bool := isInboundPermanentTaskError (App e).

(** [callbackDeliveryTaskID], a digest of the row's identifier, is an
    argument; [None] is a payload that does not decode. *)
Definition deliverCreateTaskCallback (sp : SpawnEnv) (taskIDOf : string → string) (ids : SubmitIDs)
    (id : string) (d : CallbackDelivery) (snapshot : option CreateTaskDelivery) (now : time)
    (sets : redactSets) (db : DB) : redactSets * DB :=
  match snapshot with
  | None => (sets, failCallbackDelivery id d now true "parse create_task delivery snapshot" db)
  | Some sn =>
    let child := taskIDOf id in
    match spawnCreateTaskFromEvent sp ids now (sn_Event sn) (sn_Name sn) (sn_Config sn) child sets db with
    | (inr _, sets', db') => (sets', completeCallbackDelivery id child now db')
    | (inl e, sets', db') =>
      if isDuplicateKeyError (App e) && bool_decide (is_Some (GetTaskByID child db'))
      then (sets', completeCallbackDelivery id child now db')
      else (sets', failCallbackDelivery id d now
                     ((e == EMsg recursion_error) || isCallbackDeliveryPermanentError e)
                     (err_text e) db')
    end
  end.

(** The operator's redelivery. *)
Definition RetryCallbackDelivery (scope : option Scope) (deliveryID : string) (now : time) (db : DB)
    : (err + unit) * DB :=
  let id := trimSpace deliveryID in
  if negb (isAdmin scope) then (inl (EMsg "admin access required"), db)
  else if id == "" then (inl (EMsg "delivery_id is required"), db)
  else match callback_deliveries db !! id with
       | None => (inl (EFmt "callback delivery %q not found" [id]), db)
       | Some previous =>
         let r := ResetCallbackDeliveryForRetry now id db in
         if r.1 =? 0
         then (inl (EFmt "callback delivery %q cannot be retried from status %q (only failed or dead_letter deliveries can be retried)" [id; d_status previous]), r.2)
         else (inr tt, r.2)
       end.

(** ** Lemmas: the outbox *)

Definition has_delivery (callbackID eventID : string) (db : DB) : Prop :=
  ∃ id d, callback_deliveries db !! id = Some d ∧ d_callback_id d = callbackID ∧
          d_event_id d = eventID.

Definition unique_deliveries (db : DB) : Prop :=
  ∀ id id' d d', callback_deliveries db !! id = Some d → callback_deliveries db !! id' = Some d' →
    same_delivery_key d d' = true → id = id'.

Lemma same_delivery_key_true d d' :
  same_delivery_key d d' = true ↔
  d_callback_id d = d_callback_id d' ∧ d_event_id d = d_event_id d'.
Proof. unfold same_delivery_key. by rewrite andb_true_iff, !bool_decide_eq_true. Qed.

Lemma insert_delivery_cases id d db :
  (InsertCallbackDelivery id d db = db ∧
   (has_delivery (d_callback_id d) (d_event_id d) db ∨ is_Some (callback_deliveries db !! id))) ∨
  (callback_deliveries db !! id = None ∧
   (∀ j d', callback_deliveries db !! j = Some d' → same_delivery_key d d' = false) ∧
   InsertCallbackDelivery id d db
     = db{{ callback_deliveries := <[id := d]> (callback_deliveries db) }}).
Proof.
  unfold InsertCallbackDelivery.
  destruct (insert_unique _ _ id d (callback_deliveries db)) as [e|m] eqn:E.
  - left. split; [done|]. unfold insert_unique in E.
    destruct (exists_row _ _) eqn:Ex.
    + apply exists_row_spec in Ex as (j & d' & Hj & [H1 H2]%same_delivery_key_true). left.
      by exists j, d'.
    + right. unfold insert_pk in E. destruct (callback_deliveries db !! id); [by eexists|done].
  - right. by apply insert_unique_inr in E as (? & ? & ->).
Qed.

Lemma delivery_for_ids env ev c now d :
  delivery_for env ev c now = Some d → d_callback_id d = ec_ID c ∧ d_event_id d = ev_ID ev.
Proof.
  unfold delivery_for, enqueueCallbackDelivery, enqueueCreateTaskCallbackDelivery.
  repeat case_match; by intros [= <-].
Qed.

Lemma delivery_for_now env ev c now now' :
  is_Some (delivery_for env ev c now) → is_Some (delivery_for env ev c now').
Proof.
  unfold delivery_for, enqueueCallbackDelivery, enqueueCreateTaskCallbackDelivery.
  repeat case_match; intros [x Hx]; try done; by eexists.
Qed.

(** What enqueueing some callbacks does to the rows. *)
Record enqueued (env : CallbackEnv) (ev : TaskEventCallbackContext) (now : time)
    (cs : list EventCallback) (db db' : DB) : Prop := {
  en_frame : db' = db{{ callback_deliveries := callback_deliveries db' }};
  en_kept : callback_deliveries db ⊆ callback_deliveries db';
  en_new : ∀ id d, callback_deliveries db' !! id = Some d →
    callback_deliveries db !! id = Some d ∨ ∃ c, c ∈ cs ∧ delivery_for env ev c now = Some d;
  en_unique : unique_deliveries db → unique_deliveries db';
}.

Lemma inserted_delivery id d db j d' :
  callback_deliveries (db{{ callback_deliveries := <[id := d]> (callback_deliveries db) }}) !! j
    = Some d' → j = id ∧ d' = d ∨ j ≠ id ∧ callback_deliveries db !! j = Some d'.
Proof.
  change (<[id := d]> (callback_deliveries db) !! j = Some d' → j = id ∧ d' = d ∨
          j ≠ id ∧ callback_deliveries db !! j = Some d').
  intros [[-> ->]|[? ?]]%lookup_insert_Some; [by left|right]. split; [by intros ->|done].
Qed.

Lemma insert_delivery_enqueued env ev now c d id db :
  delivery_for env ev c now = Some d → enqueued env ev now [c] db (InsertCallbackDelivery id d db).
Proof.
  intros Hd. destruct (insert_delivery_cases id d db) as [[-> _]|(Hn & Hs & ->)].
  { constructor; [by destruct db|done|by left|done]. }
  constructor; [done|by apply insert_subseteq| |].
  - intros j d' Hj. apply inserted_delivery in Hj as [[-> ->]|[_ ?]]; [right|by left].
    exists c. split; [left|done].
  - intros Hu i j a b Ha Hb Hab.
    apply inserted_delivery in Ha as [[-> ->]|[_ Ha]];
      apply inserted_delivery in Hb as [[-> ->]|[_ Hb]]; [done| | |by eapply Hu].
    + by rewrite (Hs _ _ Hb) in Hab.
    + apply same_delivery_key_true in Hab as [H1 H2].
      assert (same_delivery_key d a = true) as Hc by (by apply same_delivery_key_true).
      by rewrite (Hs _ _ Ha) in Hc.
Qed.

Lemma enqueued_trans env ev now cs1 cs2 db1 db2 db3 :
  enqueued env ev now cs1 db1 db2 → enqueued env ev now cs2 db2 db3 →
  enqueued env ev now (cs1 ++ cs2) db1 db3.
Proof.
  intros [F1 K1 N1 U1] [F2 K2 N2 U2]. constructor; [by rewrite F2, F1|by etrans| |auto].
  intros id d Hd. apply N2 in Hd as [Hd|(c & Hc & ?)].
  - apply N1 in Hd as [?|(c & Hc & ?)]; [by left|right]. exists c. split; [|done].
    apply elem_of_app. by left.
  - right. exists c. split; [|done]. apply elem_of_app. by right.
Qed.

Lemma enqueue_all_enqueued env ev now ids cs : ∀ n db,
  enqueued env ev now cs db (enqueue_all env ev now ids n cs db).
Proof.
  induction cs as [|c cs IH]; intros n db; simpl.
  { constructor; [by destruct db|done|by left|done]. }
  destruct (delivery_for env ev c now) as [d|] eqn:Ed.
  - eapply (enqueued_trans _ _ _ [c]); [by apply insert_delivery_enqueued|apply IH].
  - destruct (IH n db) as [F K N U]. constructor; [done|done| |done].
    intros id d' Hd. apply N in Hd as [?|(c' & ? & ?)]; [by left|right].
    exists c'. split; [by right|done].
Qed.

Lemma has_delivery_mono cid eid db db' :
  callback_deliveries db ⊆ callback_deliveries db' → has_delivery cid eid db → has_delivery cid eid db'.
Proof.
  intros Hs (id & d & Hd & ?). exists id, d. split; [|done]. by eapply lookup_weaken.
Qed.

(** With fresh identifiers no row is dropped. *)
Lemma enqueue_all_complete env ev now ids cs : ∀ n db,
  (∀ m, (n <= m)%nat → callback_deliveries db !! ids m = None) →
  (∀ i j, ids i = ids j → i = j) →
  ∀ c, c ∈ cs → is_Some (delivery_for env ev c now) →
  has_delivery (ec_ID c) (ev_ID ev) (enqueue_all env ev now ids n cs db).
Proof.
  induction cs as [|c0 cs IH]; intros n db Hfresh Hinj c Hc Hd; [by apply elem_of_nil in Hc|].
  simpl. apply elem_of_cons in Hc as [->|Hc].
  - destruct Hd as [d Hd]. rewrite Hd.
    eapply has_delivery_mono; [exact (en_kept _ _ _ _ _ _ (enqueue_all_enqueued env ev now ids cs _ _))|].
    destruct (delivery_for_ids _ _ _ _ _ Hd) as [<- <-].
    destruct (insert_delivery_cases (ids n) d db) as [[-> [?|[x Hx]]]|(_ & _ & ->)]; [done| |].
    + by rewrite Hfresh in Hx by lia.
    + exists (ids n), d. split; [apply lookup_insert_eq|done].
  - destruct (delivery_for env ev c0 now) as [d|] eqn:E; [|by apply IH].
    apply IH; [|done|done|done]. intros m Hm.
    destruct (insert_delivery_cases (ids n) d db) as [[-> _]|(_ & _ & ->)]; [apply Hfresh; lia|].
    refine (eq_trans (lookup_insert_ne _ _ _ _ _) _); [|apply Hfresh; lia].
    intros E2%Hinj. lia.
Qed.

(** Enqueueing the same event again finds every row in place. *)
Lemma enqueue_all_replay env ev now ids cs : ∀ n db,
  (∀ c, c ∈ cs → is_Some (delivery_for env ev c now) → has_delivery (ec_ID c) (ev_ID ev) db) →
  enqueue_all env ev now ids n cs db = db.
Proof.
  induction cs as [|c cs IH]; intros n db Hall; simpl; [done|].
  destruct (delivery_for env ev c now) as [d|] eqn:Ed; [|apply IH; intros c' ?; apply Hall; by right].
  assert (InsertCallbackDelivery (ids n) d db = db) as ->.
  { destruct (insert_delivery_cases (ids n) d db) as [[-> _]|(_ & Hs & _)]; [done|].
    destruct (Hall c ltac:(left) ltac:(by eexists)) as (j & d' & Hj & H1 & H2).
    destruct (delivery_for_ids _ _ _ _ _ Ed) as [H3 H4].
    assert (same_delivery_key d d' = true) as Hk by (apply same_delivery_key_true; by rewrite H1, H2).
    by rewrite (Hs _ _ Hj) in Hk. }
  apply IH. intros c' ?. apply Hall. by right.
Qed.

(** ** The instance the other transactions call *)
Definition callback_outbox (env : CallbackEnv) : Outbox.
Proof.
  refine {| dispatcher := Some (EnqueueTaskEventCallbackDeliveries env) |}.
  intros f ids now ev db u db' [= <-]. unfold EnqueueTaskEventCallbackDeliveries.
  intros ->%tx_write_inr.
  pose proof (enqueue_all_enqueued env ev now ids
    (ListEnabledEventCallbacksForEvent (nullString (ev_TeamID ev)) (ev_EventType ev) (callbacks env))
    0 db) as [F K _ _]. by split.
Defined.

Definition empty_callback_env : CallbackEnv :=
  mkCallbackEnv [] (λ _, true) (λ _ _, inr "{}") (λ _ _, "{}").

(** ** Lemmas: the delivery state machine *)

Record delivery_ok (d : CallbackDelivery) : Prop := {
  dk_status : d_status d ∈ ["pending"; "in_flight"; "completed"; "failed"; "dead_letter"];
  dk_attempts : 0 <= d_attempts d <= d_max_attempts d;
  dk_live : d_status d ∈ ["pending"; "failed"; "in_flight"] → d_attempts d < d_max_attempts d;
  dk_due : d_status d ∈ ["pending"; "failed"] → is_Some (d_next_attempt_at d);
  dk_lease : d_status d = "in_flight" ↔ is_Some (d_lease_expires_at d);
}.

Definition deliveries_ok (db : DB) : Prop :=
  ∀ id d, callback_deliveries db !! id = Some d → delivery_ok d.

Ltac not_in := repeat (rewrite elem_of_cons || rewrite elem_of_nil); naive_solver.

Lemma new_delivery_ok ev c url method headers payload now :
  delivery_ok (new_delivery ev c url method headers payload now).
Proof. constructor; simpl; [not_in|unfold defaultCallbackDeliveryMaxAttempts; lia|
  unfold defaultCallbackDeliveryMaxAttempts; lia|by eexists|split; [done|by intros []]]. Qed.

Lemma broken_delivery_ok ev c msg now : delivery_ok (broken_delivery ev c msg now).
Proof. constructor; simpl; [not_in|unfold defaultCallbackDeliveryMaxAttempts; lia|
  unfold defaultCallbackDeliveryMaxAttempts; lia|not_in|split; [done|by intros []]]. Qed.

Lemma delivery_for_ok env ev c now d : delivery_for env ev c now = Some d → delivery_ok d.
Proof.
  unfold delivery_for, enqueueCallbackDelivery, enqueueCreateTaskCallbackDelivery.
  repeat case_match; intros [= <-]; apply new_delivery_ok || apply broken_delivery_ok.
Qed.

Lemma in_flight_ok lease now d :
  delivery_ok d → d_status d ∈ ["pending"; "failed"; "in_flight"] →
  delivery_ok (in_flight_until lease now d).
Proof.
  intros [_ H2 H3 _ _] Hs. constructor; simpl; [not_in|done|auto|not_in|].
  split; [by eexists|done].
Qed.

Lemma succeeded_ok child now d : delivery_ok d → delivery_ok (succeeded child now d).
Proof.
  intros [_ H2 _ _ _]. constructor; simpl; [not_in|done|not_in|not_in|].
  split; [done|by intros []].
Qed.

Lemma failed_ok now d r terminal cause :
  delivery_ok r → d_status r = "in_flight" →
  d_attempts d = d_attempts r → d_max_attempts d = d_max_attempts r →
  let next := if terminal : bool then ("dead_letter", None)
              else nextCallbackDeliveryAttempt now (d_attempts d + 1) (d_max_attempts d)
                     callbackDeliveryBackoff in
  delivery_ok (failed next.1 cause next.2 now r).
Proof.
  intros [_ H2 H3 _ _] Hs Ha Hm. rewrite Ha, Hm.
  assert (d_attempts r < d_max_attempts r) as Hlt by (apply H3; rewrite Hs; not_in).
  unfold nextCallbackDeliveryAttempt. destruct r as [? ? ? ? ? ? ? ? ? ? att mx ? ? ? ? ? ? ? ?].
  cbn [d_attempts d_max_attempts] in *.
  destruct terminal; [|destruct (Z.leb_spec mx (att + 1))];
    (constructor; simpl; [not_in|lia| | |split; [done|by intros []]]); try not_in;
    intros _; first [lia|by eexists].
Qed.

Lemma reset_ok now d : delivery_ok d → 0 < d_max_attempts d → delivery_ok (reset_for_retry now d).
Proof.
  intros [_ H2 _ _ _] Hm. destruct d as [? ? ? ? ? ? ? ? ? ? att mx ? ? ? ? ? ? ? ?].
  cbn [d_attempts d_max_attempts] in *.
  constructor; simpl; [not_in|lia|lia|by eexists|].
  split; [done|by intros []].
Qed.

Lemma on_deliveries_pk_inr k p f db :
  (on_deliveries (update_pk k p f) db).2 = db ∧
    (∀ v, callback_deliveries db !! k = Some v → p v = false) ∨
  ∃ v, callback_deliveries db !! k = Some v ∧ p v = true ∧
    (on_deliveries (update_pk k p f) db).2
      = db{{ callback_deliveries := <[k := f v]> (callback_deliveries db) }}.
Proof.
  unfold on_deliveries. destruct (update_pk_rows k p f (callback_deliveries db))
    as [(_ & v & Hv & Hp & Hu)|(_ & Hu & Hno)]; [right|left].
  - exists v. split; [done|]. split; [done|]. simpl. by rewrite Hu.
  - split; [|done]. simpl. rewrite Hu. by destruct db.
Qed.

Lemma deliveries_ok_pk k p f db :
  deliveries_ok db →
  (∀ v, callback_deliveries db !! k = Some v → p v = true → delivery_ok (f v)) →
  deliveries_ok (on_deliveries (update_pk k p f) db).2.
Proof.
  intros Hok Hf. destruct (on_deliveries_pk_inr k p f db) as [[-> _]|(v & Hv & Hp & ->)]; [done|].
  intros id d Hd. apply inserted_delivery in Hd as [[-> ->]|[_ ?]]; [by apply Hf|by eapply Hok].
Qed.

Lemma claimed_ok lease now id db :
  deliveries_ok db → deliveries_ok (MarkCallbackDeliveryInFlight lease now now id db).2.
Proof.
  intros Hok. apply deliveries_ok_pk; [done|]. intros v Hv Hp. apply in_flight_ok; [by eapply Hok|].
  apply orb_true_iff in Hp as [Hp%one_of_spec|[Hp _]%andb_true_iff];
    [set_solver|apply bool_decide_eq_true in Hp; rewrite Hp; not_in].
Qed.

(** The marked rows: claimed rows hold the new lease, the others are as before. *)
Lemma claim_marks now items : ∀ db id d,
  callback_deliveries db !! id = Some d →
  callback_deliveries (foldl (mark_claimed now) db items) !! id = Some d ∨
  (d_status d ∈ ["pending"; "failed"] ∨ lease_over now d = true) ∧
  callback_deliveries (foldl (mark_claimed now) db items) !! id
    = Some (in_flight_until (now + callbackDeliveryLease) now d).
Proof.
  induction items as [|kv items IH]; intros db id d Hd; simpl; [by left|].
  destruct (on_deliveries_pk_inr kv.1
    (λ d, one_of ["pending"; "failed"] (d_status d) || lease_over now d)
    (in_flight_until (now + callbackDeliveryLease) now) db) as [[Heq _]|(v & Hv & Hp & Heq)];
    (assert (mark_claimed now db kv = _) as -> by exact Heq); [by apply IH|].
  destruct (decide (id = kv.1)) as [->|Hne].
  - assert (v = d) as -> by congruence. right. split.
    { by apply orb_true_iff in Hp as [?%one_of_spec|?]; [left|right]. }
    edestruct (IH (db{{ callback_deliveries :=
        <[kv.1 := in_flight_until (now + callbackDeliveryLease) now d]> (callback_deliveries db) }})
        kv.1 (in_flight_until (now + callbackDeliveryLease) now d)) as [H|[_ H]];
      [apply lookup_insert_eq|exact H|exact H].
  - apply IH. refine (eq_trans (lookup_insert_ne _ _ _ _ _) Hd). congruence.
Qed.

Lemma claims_ok now items : ∀ db,
  deliveries_ok db → deliveries_ok (foldl (mark_claimed now) db items).
Proof.
  induction items as [|kv items IH]; intros db Hok; simpl; [done|]. by apply IH, claimed_ok.
Qed.

Lemma in_flight_idem lease now d :
  in_flight_until lease now (in_flight_until lease now d) = in_flight_until lease now d.
Proof. done. Qed.

Lemma claim_marks_hit now items : ∀ db id d d0,
  (id, d0) ∈ items → callback_deliveries db !! id = Some d → due now d = true →
  callback_deliveries (foldl (mark_claimed now) db items) !! id
    = Some (in_flight_until (now + callbackDeliveryLease) now d).
Proof.
  induction items as [|kv items IH]; intros db id d d0 Hin Hd Hdue; [by apply elem_of_nil in Hin|].
  simpl. assert (one_of ["pending"; "failed"] (d_status d) || lease_over now d = true) as Hp.
  { apply orb_true_iff in Hdue as [[-> _]%andb_true_iff| ->]; [done|by rewrite orb_true_r]. }
  destruct (on_deliveries_pk_inr kv.1
    (λ d, one_of ["pending"; "failed"] (d_status d) || lease_over now d)
    (in_flight_until (now + callbackDeliveryLease) now) db) as [[Heq Hno]|(v & Hv & _ & Heq)];
    (assert (mark_claimed now db kv = _) as -> by exact Heq).
  - destruct (decide (id = kv.1)) as [->|Hne]; [by rewrite (Hno d Hd) in Hp|].
    apply elem_of_cons in Hin as [<-|Hin]; [done|]. by eapply IH.
  - destruct (decide (id = kv.1)) as [->|Hne].
    + assert (v = d) as -> by congruence.
      edestruct (claim_marks now items (db{{ callback_deliveries :=
          <[kv.1 := in_flight_until (now + callbackDeliveryLease) now d]> (callback_deliveries db) }})
          kv.1) as [H|[_ H]]; [apply lookup_insert_eq|exact H|exact H].
    + apply elem_of_cons in Hin as [<-|Hin]; [done|]. eapply IH; [exact Hin| |done].
      refine (eq_trans (lookup_insert_ne _ _ _ _ _) Hd). congruence.
Qed.

Lemma select_due_elem skip now db id d :
  (id, d) ∈ select_due skip now db →
  callback_deliveries db !! id = Some d ∧ skip id = false ∧ due now d = true.
Proof.
  intros Hin%elem_of_take. destruct Hin as (i & Hi & _). apply list_elem_of_lookup_2 in Hi.
  apply sort_by_elem in Hi. rewrite list_elem_of_In, filter_In, <- list_elem_of_In in Hi.
  destruct Hi as [Hi Hb]. apply elem_of_map_to_list in Hi.
  by apply andb_true_iff in Hb as [?%negb_true_iff ?].
Qed.

(** ** Theorems *)



(** A flaw: completion and failure are recorded by row and status, not by
    claim. When the lease of a slow worker runs out and another worker takes
    the delivery over, a failure the first one records late ends the second
    one's claim, and the success of the second is then dropped: the delivery
    that was accepted stays failed, to be sent again, or dead-lettered. *)
Theorem late_failure_discards_success db id r stale late terminal cause child now :
  callback_deliveries db !! id = Some r → d_status r = "in_flight" →
  let db1 := failCallbackDelivery id stale late terminal cause db in
  completeCallbackDelivery id child now db1 = db1 ∧
  ∃ r', callback_deliveries db1 !! id = Some r' ∧ d_status r' ∈ ["failed"; "dead_letter"] ∧
        d_processed_at r' = None.
Proof.
  intros Hr Hst db1. set (next := if terminal : bool then ("dead_letter", None)
    else nextCallbackDeliveryAttempt late (d_attempts stale + 1) (d_max_attempts stale)
           callbackDeliveryBackoff).
  assert (d_status (failed next.1 (truncateTo500 cause) next.2 late r) ∈ ["failed"; "dead_letter"])
    as Hin.
  { cbn [d_status failed]. subst next. unfold nextCallbackDeliveryAttempt.
    destruct terminal; [|destruct (_ <=? _)]; not_in. }
  assert (db1 = db{{ callback_deliveries :=
      <[id := failed next.1 (truncateTo500 cause) next.2 late r]> (callback_deliveries db) }}) as Hdb1.
  { destruct (on_deliveries_pk_inr id (λ d, d_status d == "in_flight")
      (failed next.1 (truncateTo500 cause) next.2 late) db) as [[_ Hno]|(v & Hv & _ & Heq)].
    - specialize (Hno r Hr). by rewrite Hst in Hno.
    - assert (v = r) as -> by congruence. exact Heq. }
  assert (callback_deliveries db1 !! id = Some (failed next.1 (truncateTo500 cause) next.2 late r))
    as Hl by (rewrite Hdb1; apply lookup_insert_eq).
  split.
  - destruct (on_deliveries_pk_inr id (λ d, d_status d == "in_flight")
      (succeeded (nullString child) now) db1) as [[Heq _]|(v & Hv & Hp & _)]; [exact Heq|].
    exfalso. assert (v = failed next.1 (truncateTo500 cause) next.2 late r) as -> by congruence.
    apply bool_decide_eq_true in Hp. rewrite Hp in Hin. apply list_elem_of_In in Hin. simpl in Hin.
    intuition congruence.
  - eexists. split; [exact Hl|]. split; [exact Hin|done].
Qed.

(** ** create_task deliveries *)

Lemma reject_tasks ids row db e db' :
  run_tx (InsertTaskEvent ids row) db = (e, db') → tasks db' = tasks db.
Proof.
  intros H. destruct e as [e|u].
  - by apply run_tx_error in H as ->.
  - apply run_tx_ok, insert_event_inr in H as [_ ->]. done.
Qed.

Lemma spawn_existing sp ids now ev name cfg taskID sets db t r sets' db' :
  taskID ≠ "" → tasks db !! taskID = Some t →
  spawnCreateTaskFromEvent sp ids now ev name cfg taskID sets db = (r, sets', db') →
  (∃ e, r = inl e) ∧ tasks db' = tasks db ∧ callback_deliveries db' = callback_deliveries db.
Proof.
  intros Hne Ht. unfold spawnCreateTaskFromEvent.
  destruct (q_Prompt cfg == ""); [intros [= <- _ <-]; split; [by eexists|done]|].
  destruct (sp_render sp (q_Prompt cfg) ev) as [e|prompt]; [intros [= <- _ <-]; split; [by eexists|done]|].
  destruct (GetTaskByID (ev_TaskID ev) db) as [source|]; [|intros [= <- _ <-]; split; [by eexists|done]].
  destruct (_ && _).
  - destruct (run_tx _ db) as [[e|u] db1] eqn:E; intros [= <- _ <-]; (split; [by eexists|]).
    + by apply run_tx_error in E as ->.
    + apply run_tx_ok, insert_event_inr in E as [_ ->]. done.
  - destruct (SubmitTask _ _ _ _ _ _ _ _ _) as [[r1 sets1] db1] eqn:E.
    apply (submit_existing _ _ _ _ _ _ _ _ _ t) in E as (e & -> & -> & -> & _); [|done..].
    intros [= <- _ <-]. split; [by eexists|done].
Qed.

Lemma in_flight_update id f db r :
  callback_deliveries db !! id = Some r → d_status r = "in_flight" →
  callback_deliveries (on_deliveries (update_pk id (λ d, d_status d == "in_flight") f) db).2 !! id
    = Some (f r) ∧
  tasks (on_deliveries (update_pk id (λ d, d_status d == "in_flight") f) db).2 = tasks db.
Proof.
  intros Hr Hst. destruct (on_deliveries_pk_inr id (λ d, d_status d == "in_flight") f db)
    as [[_ Hno]|(v & Hv & _ & ->)].
  - specialize (Hno r Hr). by rewrite Hst in Hno.
  - assert (v = r) as -> by congruence. split; [apply lookup_insert_eq|done].
Qed.

(** C13. Replaying a create_task delivery never makes a second task: once the
    child task exists under the identifier derived from the row, another run
    of the delivery changes no task, and when the submission gets as far as
    inserting the row, the duplicate is recognised and the delivery completes
    with the child that is already there. *)
Theorem create_task_replay_idempotent sp taskIDOf ids id d sn now sets db t r sets' db' :
  taskIDOf id ≠ "" → tasks db !! taskIDOf id = Some t →
  callback_deliveries db !! id = Some r → d_status r = "in_flight" →
  deliverCreateTaskCallback sp taskIDOf ids id d (Some sn) now sets db = (sets', db') →
  tasks db' = tasks db ∧
  (∀ sets1 db1, spawnCreateTaskFromEvent sp ids now (sn_Event sn) (sn_Name sn) (sn_Config sn)
       (taskIDOf id) sets db = (inl (EDuplicateKey "tasks"), sets1, db1) →
     ∃ r', callback_deliveries db' !! id = Some r' ∧ d_status r' = "completed" ∧
           d_child_task_id r' = Some (taskIDOf id)).
Proof.
  intros Hne Ht Hr Hst. unfold deliverCreateTaskCallback.
  destruct (spawnCreateTaskFromEvent _ _ _ _ _ _ _ _ _) as [[res sets2] db2] eqn:Esp.
  pose proof (spawn_existing _ _ _ _ _ _ _ _ _ _ _ _ _ Hne Ht Esp) as ([e ->] & HT & HC).
  assert (callback_deliveries db2 !! id = Some r) as Hr2 by (by rewrite HC).
  set (child := nullString (taskIDOf id)).
  assert (child = Some (taskIDOf id)) as Hch
    by (unfold child, nullString, nullif_empty; by rewrite bool_decide_eq_false_2).
  destruct (isDuplicateKeyError (App e) && bool_decide (is_Some (GetTaskByID (taskIDOf id) db2)))
    eqn:Edup; intros [= _ <-].
  - destruct (in_flight_update id (succeeded child now) db2 r Hr2 Hst) as [Hl HT2].
    split; [by etrans|]. intros _ _ _. eexists. split; [exact Hl|]. split; [done|exact Hch].
  - split.
    + rewrite <- HT. exact (proj2 (in_flight_update id _ db2 r Hr2 Hst)).
    + intros sets1 db1 [= -> -> ->]. exfalso. unfold GetTaskByID in Edup.
      rewrite HT, Ht, (bool_decide_eq_true_2 (is_Some (Some t))) in Edup by done.
      vm_compute in Edup. done.
Qed.

(** The chain of tasks that callbacks spawn is bounded: a spawned task
    records its parent and a depth one above the parent's, within the
    configured limit when there is one; beyond the limit no task is made and
    the rejection is recorded on the parent's events. *)
Theorem callback_chain_bounded sp ids now ev name cfg taskID sets db r sets' db' :
  spawnCreateTaskFromEvent sp ids now ev name cfg taskID sets db = (r, sets', db') →
  match r with
  | inr _ =>
    ∃ parent childID child, tasks db !! ev_TaskID ev = Some parent ∧
      tasks db !! childID = None ∧ tasks db' !! childID = Some child ∧
      (taskID ≠ "" → childID = taskID) ∧
      t_callback_depth child = int32_of (int32_of (t_callback_depth parent + 1)) ∧
      (0 < sp_max_depth sp → int32_of (t_callback_depth parent + 1) <= int32_of (sp_max_depth sp)) ∧
      t_callback_parent_task_id child = nullString (ev_TaskID ev) ∧
      t_submission_source child = "event_callback"
  | inl _ => tasks db' = tasks db ∧
    (∀ parent prompt, q_Prompt cfg ≠ "" → sp_render sp (q_Prompt cfg) ev = inr prompt →
       tasks db !! ev_TaskID ev = Some parent → 0 < sp_max_depth sp →
       int32_of (sp_max_depth sp) < int32_of (t_callback_depth parent + 1) →
       task_events db !! id_event ids = None →
       ∃ row, task_events db' = <[id_event ids := row]> (task_events db) ∧
              e_event_type row = "task.callback_rejected" ∧ e_task_id row = ev_TaskID ev)
  end.
Proof.
  unfold spawnCreateTaskFromEvent.
  destruct (q_Prompt cfg == "") eqn:Eq.
  { intros [= <- _ <-]. split; [done|]. by apply bool_decide_eq_true in Eq. }
  destruct (sp_render sp (q_Prompt cfg) ev) as [e|prompt]; [by intros [= <- _ <-]|].
  unfold GetTaskByID. destruct (tasks db !! ev_TaskID ev) as [source|] eqn:Esrc; [|by intros [= <- _ <-]].
  set (depth := int32_of (t_callback_depth source + 1)).
  destruct ((0 <? sp_max_depth sp) && (int32_of (sp_max_depth sp) <? depth)) eqn:Elim.
  - destruct (run_tx _ db) as [[e|u] db1] eqn:E; intros [= <- _ <-].
    + apply run_tx_error in E as Hdb1. subst db1. split; [done|].
      intros parent pr _ _ _ _ _ Hf. unfold run_tx, InsertTaskEvent, insert_pk in E.
      by rewrite Hf in E.
    + apply run_tx_ok, insert_event_inr in E as [_ ->]. split; [done|].
      intros parent pr _ _ _ _ _ _. eexists. split; [reflexivity|done].
  - destruct (SubmitTask _ _ _ _ _ _ _ _ _) as [[[e|t] sets1] db1] eqn:E; intros [= <- _ <-].
    + apply submit_error in E as [-> _]. split; [done|].
      intros parent pr _ _ [= <-] Hpos Hlt _. exfalso. apply andb_false_iff in Elim.
      destruct Elim as [H|H]; apply Z.ltb_ge in H; [lia|]. subst depth. lia.
    + apply SubmitTask_inr in E as (p & db2 & Hp & _ & Hrows & -> & _).
      apply submit_rows_inr in Hrows as (Hnone & _ & _ & _ & _ & ->).
      pose proof (prepare_inr _ _ _ _ _ _ Hp) as Hpf.
      exists source, (pp_task p), (submitted_task p now). do 2 (split; [done|]). split.
      { rewrite record_trigger_run_tasks. apply lookup_insert_eq. }
      split; [intros Hne; by destruct (pf_task _ _ _ Hpf)|].
      split; [exact (f_equal int32_of (proj2 (pf_callback _ _ _ Hpf)))|].
      split; [intros Hpos; apply andb_false_iff in Elim as [H|H]; apply Z.ltb_ge in H; [lia|exact H]|].
      split; [exact (f_equal nullString (proj1 (pf_callback _ _ _ Hpf)))|].
      apply (eq_trans (y := submission_source (pp_request p))); [reflexivity|].
      unfold submission_source. rewrite (pf_source _ _ _ Hpf). reflexivity.
Qed.

Lemma callback_env_parent name ev depth env :
  ("CHETTER_EVENT_PARENT_TASK_ID", ev_TaskID ev) ∈ map_to_list (callback_env name ev depth env).
Proof. apply elem_of_map_to_list, lookup_insert_eq. Qed.

(** A flaw: a create_task callback adds its provenance to the environment
    of the child under names that start with CHETTER_, and the submission it
    makes is validated like a user's: wherever that prefix is reserved, as it
    is by default, no callback ever makes a task. *)
Theorem reserved_prefix_blocks_spawn sp ids now ev name cfg taskID sets db r sets' db' :
  "CHETTER_" ∈ BlockedPrefixes (cfg_EnvValidation (sp_config sp)) →
  spawnCreateTaskFromEvent sp ids now ev name cfg taskID sets db = (r, sets', db') →
  (∃ e, r = inl e) ∧ tasks db' = tasks db ∧ execution_attempts db' = execution_attempts db.
Proof.
  intros Hblocked. unfold spawnCreateTaskFromEvent.
  destruct (q_Prompt cfg == ""); [intros [= <- _ <-]; split; [by eexists|done]|].
  destruct (sp_render sp (q_Prompt cfg) ev) as [e|prompt]; [intros [= <- _ <-]; split; [by eexists|done]|].
  destruct (GetTaskByID (ev_TaskID ev) db) as [source|]; [|intros [= <- _ <-]; split; [by eexists|done]].
  destruct (_ && _).
  - destruct (run_tx _ db) as [[e|u] db1] eqn:E; intros [= <- _ <-]; (split; [by eexists|]).
    + by apply run_tx_error in E as ->.
    + apply run_tx_ok, insert_event_inr in E as [_ ->]. done.
  - destruct (SubmitTask _ _ _ _ _ _ _ _ _) as [[[e|t] sets1] db1] eqn:E; intros [= <- _ <-].
    { apply submit_error in E as [-> _]. split; [by eexists|done]. }
    exfalso. apply SubmitTask_inr in E as (p & _ & Hp & _).
    pose proof (pf_valid _ _ _ (prepare_inr _ _ _ _ _ _ Hp)) as Hv.
    apply ValidateTaskEnv_nil in Hv as [Hv|[_ Hv]].
    + pose proof (callback_env_parent name ev (int32_of (t_callback_depth source + 1)) (q_Env cfg)) as Hin.
      cbn [q_Env spawn_request] in Hv. rewrite Hv in Hin. by apply elem_of_nil in Hin.
    + specialize (Hv _ _ (callback_env_parent name ev _ (q_Env cfg))).
      apply env_violations_nil in Hv as (_ & _ & _ & _ & Hpre).
      specialize (Hpre _ Hblocked). vm_compute in Hpre. discriminate.
Qed.

(** A configuration that reserves no prefix. *)
Definition open_config (limit : Z) : ServiceConfig :=
  (sample_config limit){{ cfg_EnvValidation := Defaults{{ BlockedPrefixes := [] }} }}.

(** A flaw: the child of a delivery exists, but a replay that meets a full
    queue is refused at admission before the duplicate can be recognised, and
    the refusal counts as permanent: the delivery is dead-lettered. *)
Lemma replay_dead_letters : ∃ sp taskIDOf ids d sn db sets db' t r',
  tasks db !! taskIDOf "d1" = Some t ∧ callback_deliveries db !! "d1" = Some d ∧
  d_status d = "in_flight" ∧ d_attempts d = 0 ∧
  deliverCreateTaskCallback sp taskIDOf ids "d1" d (Some sn) 9 ∅ db = (sets, db') ∧
  callback_deliveries db' !! "d1" = Some r' ∧ d_status r' = "dead_letter".
Proof.
  set (ev := mkEventContext "e1" "t1" "team1" "s" "done" "task.done" "" "" "" (PObject []) 7).
  set (c := mkEventCallback "c1" None "next" "task.*" "create_task" (inl "") (inr (sample_request "none")) true 0).
  set (d := in_flight_until 60 5 (new_delivery ev c "" "" None "" 5)).
  set (db := sample_db{{ tasks := {[ "t1" := sample_task{{ t_status := "done" }};
                                     "child" := sample_task ]};
                         callback_deliveries := {[ "d1" := d ]} }}).
  set (sp := mkSpawnEnv (open_config 1) sample_lookups (λ a b, a == b) (λ p _, inr p) 3 false).
  exists sp, (λ _, "child"), (fresh_ids "x"), d, (mkCreateTaskDelivery "next" (sample_request "none") ev), db.
  eexists _, _, sample_task, _. do 4 (split; [reflexivity|]).
  split; [vm_compute; reflexivity|]. split; vm_compute; reflexivity.
Qed.

(** ** Witnesses *)

Definition sample_event : TaskEventCallbackContext :=
  mkEventContext "e1" "t1" "team1" "s" "done" "task.done" "" "" "" (PObject []) 7.

Definition webhook_callback : EventCallback :=
  mkEventCallback "c1" None "hook" "task.*" "webhook" (inr (mkWebhookConfig "https://h" "" None))
    (inl "") true 0.

Definition spawn_callback : EventCallback :=
  mkEventCallback "c2" (Some "team1") "next" "task.done" "create_task" (inl "")
    (inr (sample_request "none")) true 1.

Definition sample_callback_env : CallbackEnv :=
  mkCallbackEnv [webhook_callback; spawn_callback] (λ _, true) (λ _ _, inr "{}") (λ _ _, "{}").

Definition sample_spawn : SpawnEnv :=
  mkSpawnEnv (open_config 5) sample_lookups (λ a b, a == b) (λ p _, inr p) 3 false.

Definition claimed_row : CallbackDelivery :=
  in_flight_until 60 5 (new_delivery sample_event spawn_callback "" "" None "" 5).

(** The parent of the sample event has ended; its child may be there. *)
Definition delivery_db (children : list string) : DB :=
  sample_db{{ tasks := <["t1" := sample_task{{ t_status := "done" }}]>
                         (list_to_map ((λ c, (c, sample_task)) <$> children));
              callback_deliveries := {[ "d1" := claimed_row ]} }}.



Lemma late_failure_discards_success_witness :
  completeCallbackDelivery "d1" "child" 99
    (failCallbackDelivery "d1" claimed_row 90 false "timeout" (delivery_db []))
  = failCallbackDelivery "d1" claimed_row 90 false "timeout" (delivery_db []).
Proof.
  refine (proj1 (late_failure_discards_success (delivery_db []) "d1" claimed_row claimed_row 90 false
    "timeout" "child" 99 _ _)); reflexivity.
Defined.

Lemma create_task_replay_idempotent_witness :
  ∃ sets db' r', deliverCreateTaskCallback sample_spawn (λ _, "child") (fresh_ids "x") "d1" claimed_row
      (Some (mkCreateTaskDelivery "next" (sample_request "none") sample_event)) 9 ∅
      (delivery_db ["child"]) = (sets, db') ∧
    tasks db' = tasks (delivery_db ["child"]) ∧
    callback_deliveries db' !! "d1" = Some r' ∧ d_status r' = "completed".
Proof.
  destruct (deliverCreateTaskCallback sample_spawn (λ _, "child") (fresh_ids "x") "d1" claimed_row
      (Some (mkCreateTaskDelivery "next" (sample_request "none") sample_event)) 9 ∅
      (delivery_db ["child"])) as [sets db'] eqn:E.
  edestruct (create_task_replay_idempotent sample_spawn (λ _, "child") (fresh_ids "x") "d1" claimed_row
      (mkCreateTaskDelivery "next" (sample_request "none") sample_event) 9 ∅ (delivery_db ["child"])
      sample_task claimed_row sets db') as [HT Hrow]; [discriminate|reflexivity..|exact E|].
  edestruct Hrow as (r' & Hr & Hst & _); [vm_compute; reflexivity|].
  exists sets, db', r'. split; [reflexivity|]. split; [exact HT|]. split; [exact Hr|exact Hst].
Defined.

Lemma callback_chain_bounded_witness :
  ∃ sets db' childID child, spawnCreateTaskFromEvent sample_spawn (fresh_ids "x") 9 sample_event "next"
      (sample_request "none") "child" ∅ (delivery_db []) = (inr tt, sets, db') ∧
    tasks db' !! childID = Some child ∧ t_callback_depth child = 1.
Proof.
  destruct (spawnCreateTaskFromEvent sample_spawn (fresh_ids "x") 9 sample_event "next"
      (sample_request "none") "child" ∅ (delivery_db [])) as [[[e|[]] sets] db'] eqn:E;
    [vm_compute in E; discriminate|].
  destruct (callback_chain_bounded _ _ _ _ _ _ _ _ _ _ _ _ E)
    as (parent & childID & child & Hp & _ & Hc & _ & Hd & _).
  exists sets, db', childID, child. split; [reflexivity|]. split; [exact Hc|].
  injection Hp as <-. rewrite Hd. reflexivity.
Defined.

Definition default_spawn : SpawnEnv :=
  mkSpawnEnv (sample_config 5) sample_lookups (λ a b, a == b) (λ p _, inr p) 3 false.

Lemma reserved_prefix_blocks_spawn_witness :
  "CHETTER_" ∈ BlockedPrefixes Defaults ∧
  ∃ e sets db', spawnCreateTaskFromEvent default_spawn (fresh_ids "x") 9
      sample_event "next" (sample_request "none") "child" ∅ (delivery_db []) = (inl e, sets, db') ∧
    tasks db' = tasks (delivery_db []).
Proof.
  assert ("CHETTER_" ∈ BlockedPrefixes Defaults) as Hb by (apply (list_elem_of_lookup_2 _ 0); reflexivity).
  split; [exact Hb|].
  destruct (spawnCreateTaskFromEvent default_spawn (fresh_ids "x") 9
      sample_event "next" (sample_request "none") "child" ∅ (delivery_db [])) as [[r sets] db'] eqn:E.
  destruct (reserved_prefix_blocks_spawn default_spawn (fresh_ids "x")
    9 sample_event "next" (sample_request "none") "child" ∅ (delivery_db []) r sets db' Hb E)
    as [[e ->] [HT _]].
  exists e, sets, db'. split; [reflexivity|exact HT].
Defined.
