(* ===== verification/Watchdog.v ===== *)
(** * The progress watchdog of a run

    [runner/internal/controller/progress_watchdog.go]: the runner's guard
    against a harness that is alive but no longer advances its task. The state
    is the one behind the watchdog's mutex; the loop is a fold over what it
    observes, progress events and ticks of its timer. *)
From S2P Require Import Prelude GoStrings.

Definition minutes (n : Z) : Z := seconds (60 * n).

Definition harnessProgressCheckInterval : Z := seconds 10.
Definition harnessProgressNudgeAfter : Z := minutes 2.
Definition harnessProgressFailAfter : Z := minutes 5.
Definition maxHarnessContinuationStreak : Z := 3.
Definition maxHarnessContinuationAttemptsTotal : Z := 10.
Definition harnessProgressBusyFailAfter : Z := minutes 12.

Inductive harnessStuckCause :=
| stuckCauseNone
| stuckCauseSilentAfterNudge
| stuckCauseContinuationAttemptsExhausted
| stuckCauseBusyUnresponsive.

#[export] Instance cause_eq_dec : EqDecision harnessStuckCause.
Proof. solve_decision. Defined.

(** [nudgedAt] is [None] for the zero time. *)
Record progressWatchdog := mkWatchdog {
  lastProgress : time;
  nudgedAt : option time;
  nudgeCount : Z;
  nudgeTotal : Z;
  stuck : bool;
  stuckCause : harnessStuckCause;
  stuckSilence : Z;
  turnStateKnown : bool;
  turnActive : bool;
  lastSummary : string;
}.

Definition startProgressWatchdog (now : time) : progressWatchdog :=
  mkWatchdog now None 0 0 false stuckCauseNone 0 false false "".

Definition isHarnessProgress (summary : string) : bool :=
  let summary := trimSpace (toLower summary) in
  negb (summary == "") && negb (contains summary "heartbeat").

Definition maxWatchdogSummaryLen : Z := 160.

Definition truncateWatchdogSummary (summary : string) : string :=
  if maxWatchdogSummaryLen <? Z.of_nat (String.length summary)
  then take_bytes (Z.to_nat maxWatchdogSummaryLen) summary ^^ "..." else summary.

Definition busy_mark : string := String "034" ("busy" ^^ String "034" "").
Definition idle_mark : string := String "034" ("idle" ^^ String "034" "").

Definition record (now : time) (summary : string) (w : progressWatchdog) : progressWatchdog :=
  if negb (isHarnessProgress summary) then w else
  let status := contains summary "session.status" in
  w{{ lastProgress := now; lastSummary := truncateWatchdogSummary summary;
      turnStateKnown := turnStateKnown w || status;
      turnActive :=
        if negb status then turnActive w
        else if contains summary busy_mark then true
        else if contains summary idle_mark then false else turnActive w;
      nudgedAt := None; nudgeCount := 0 }}.

(** The answer of the harness to a probe: no probe configured, a failed probe,
    or a status. *)
Inductive Probe := NoProbe | ProbeFailed | ProbeStatus (status : string).

(** [(active, known)] *)
Definition probeTurnActive (p : Probe) : bool * bool :=
  match p with
  | NoProbe | ProbeFailed => (false, false)
  | ProbeStatus status => if status == "busy" then (true, true) else (false, true)
  end.

(** [idle] is [isIdle != nil && isIdle()], [canNudge] is [nudge != nil]. *)
Definition check (canNudge : bool) (now : time) (idle : bool) (p : Probe) (w : progressWatchdog)
    : bool * harnessStuckCause * progressWatchdog :=
  if idle then (false, stuckCauseNone, w) else
  match nudgedAt w with
  | Some at_ =>
      (false, if harnessProgressFailAfter <=? now - at_ then stuckCauseSilentAfterNudge
              else stuckCauseNone, w)
  | None =>
    let elapsed := now - lastProgress w in
    if elapsed <? harnessProgressNudgeAfter then (false, stuckCauseNone, w)
    else if negb canNudge then (false, stuckCauseNone, w)
    else if (maxHarnessContinuationStreak <=? nudgeCount w) ||
            (maxHarnessContinuationAttemptsTotal <=? nudgeTotal w)
    then (false, stuckCauseContinuationAttemptsExhausted, w)
    else
      let '(active, known) := probeTurnActive p in
      if known && active
      then (false, if harnessProgressBusyFailAfter <=? elapsed then stuckCauseBusyUnresponsive
                   else stuckCauseNone, w)
      else (true, stuckCauseNone,
            w{{ nudgedAt := Some now; nudgeCount := nudgeCount w + 1;
                nudgeTotal := nudgeTotal w + 1 }})
  end.

Definition fail (now : time) (cause : harnessStuckCause) (w : progressWatchdog) : progressWatchdog :=
  w{{ stuck := true; stuckCause := cause;
      stuckSilence := if bool_decide (cause = stuckCauseSilentAfterNudge)
                      then harnessProgressFailAfter else now - lastProgress w }}.

(** What the watchdog observes, and what it does about it. *)
Inductive Observation :=
| Progress (now : time) (summary : string)
| Tick (now : time) (idle : bool) (p : Probe).

Inductive Action := Nudged (now : time) | Stopped (now : time) (cause : harnessStuckCause).

(** One observation. A stopped watchdog has left its loop; events are still
    recorded. *)
Definition observe (canNudge : bool) (o : Observation) (w : progressWatchdog)
    : list Action * progressWatchdog :=
  match o with
  | Progress now summary => ([], record now summary w)
  | Tick now idle p =>
    if stuck w then ([], w) else
    let '(nudge, cause, w') := check canNudge now idle p w in
    let actions := if (nudge : bool) then [Nudged now] else [] in
    if bool_decide (cause = stuckCauseNone) then (actions, w')
    else (actions ++ [Stopped now cause], fail now cause w')
  end.

Fixpoint run (canNudge : bool) (os : list Observation) (w : progressWatchdog)
    : list Action * progressWatchdog :=
  match os with
  | [] => ([], w)
  | o :: rest =>
      let '(a, w1) := observe canNudge o w in
      let '(b, w2) := run canNudge rest w1 in
      (a ++ b, w2)
  end.

(** The text of the event that reports the stop; durations as Go prints them. *)
Definition stuckMessage (w : progressWatchdog) : string :=
  let silent := "Harness made no progress for 5m0s after continuation prompt; stopping task." in
  match stuckCause w with
  | stuckCauseBusyUnresponsive =>
      "Harness busy but unresponsive: no progress for 12m0s during an in-flight generation turn (likely a hung model request); stopping task."
  | stuckCauseContinuationAttemptsExhausted =>
      if turnStateKnown w && turnActive w then silent
      else "Harness continuation prompt budget exhausted (" ^^ fmt_d maxHarnessContinuationStreak ^^
           " consecutive, " ^^ fmt_d (nudgeTotal w) ^^ "/" ^^
           fmt_d maxHarnessContinuationAttemptsTotal ^^
           " total) after 5m0s without progress; stopping task."
  | _ => silent
  end.

(** ** Lemmas *)

Definition is_nudge (a : Action) : bool := match a with Nudged _ => true | _ => false end.
Definition nudges (l : list Action) : Z := Z.of_nat (length (List.filter is_nudge l)).

Lemma nudges_app l k : nudges (l ++ k) = nudges l + nudges k.
Proof. unfold nudges. rewrite List.filter_app, length_app. lia. Qed.

(** The invariant of the state: a prompt is outstanding exactly when the streak
    is one, it was sent after two silent minutes, and the total is bounded. *)
Record sound (w : progressWatchdog) : Prop := {
  so_streak : nudgeCount w = match nudgedAt w with None => 0 | Some _ => 1 end;
  so_after : ∀ n, nudgedAt w = Some n → lastProgress w + harnessProgressNudgeAfter <= n;
  so_total : 0 <= nudgeTotal w <= maxHarnessContinuationAttemptsTotal;
}.

Lemma start_sound now : sound (startProgressWatchdog now).
Proof. by constructor. Qed.

Lemma record_sound now summary w : sound w → sound (record now summary w).
Proof.
  intros [Hs Ha Ht]. unfold record. destruct (negb _); [by constructor|]. constructor; [done| |done].
  intros n [=].
Qed.

(** What a check does, by its answer. *)
Lemma check_cases canNudge now idle p w nudge cause w' :
  sound w → check canNudge now idle p w = (nudge, cause, w') →
  (nudge = true ∧ cause = stuckCauseNone ∧ nudgedAt w = None ∧
   lastProgress w + harnessProgressNudgeAfter <= now ∧
   nudgeTotal w < maxHarnessContinuationAttemptsTotal ∧
   w' = w{{ nudgedAt := Some now; nudgeCount := nudgeCount w + 1; nudgeTotal := nudgeTotal w + 1 }}) ∨
  (nudge = false ∧ w' = w ∧
   match cause with
   | stuckCauseNone => True
   | stuckCauseSilentAfterNudge =>
       ∃ n, nudgedAt w = Some n ∧ n + harnessProgressFailAfter <= now
   | stuckCauseContinuationAttemptsExhausted =>
       lastProgress w + harnessProgressNudgeAfter <= now ∧
       nudgeTotal w = maxHarnessContinuationAttemptsTotal
   | stuckCauseBusyUnresponsive =>
       lastProgress w + harnessProgressBusyFailAfter <= now ∧ p = ProbeStatus "busy"
   end).
Proof.
  intros [Hs Ha Ht]. unfold check. destruct idle; [by intros [= <- <- <-]; right|].
  destruct (nudgedAt w) as [n|] eqn:En.
  { intros [= <- <- <-]. right. split; [done|]. split; [done|].
    destruct (Z.leb_spec harnessProgressFailAfter (now - n)); [|done]. exists n. split; [done|lia]. }
  destruct (Z.ltb_spec (now - lastProgress w) harnessProgressNudgeAfter).
  { intros [= <- <- <-]. by right. }
  destruct canNudge; simpl; [|by intros [= <- <- <-]; right].
  destruct (_ || _) eqn:Eb.
  { intros [= <- <- <-]. right. split; [done|]. split; [done|]. split; [lia|].
    rewrite Hs in Eb. apply orb_true_iff in Eb as [Eb|Eb]; apply Z.leb_le in Eb; [done|]. lia. }
  apply orb_false_iff in Eb as [_ Eb]. apply Z.leb_gt in Eb.
  destruct (probeTurnActive p) as [active known] eqn:Ep. destruct (known && active) eqn:Ea.
  - intros [= <- <- <-]. right. split; [done|]. split; [done|].
    destruct (Z.leb_spec harnessProgressBusyFailAfter (now - lastProgress w)); [|done].
    split; [lia|]. destruct p as [| |status]; simpl in Ep; [by simplify_eq|by simplify_eq|].
    destruct (bool_decide_reflect (status = "busy")); [congruence|]. simplify_eq.
  - intros [= <- <- <-]. left. split; [done|]. split; [done|]. split; [done|].
    split; [lia|]. split; [lia|done].
Qed.

Lemma observe_inv canNudge o w a w' :
  sound w → observe canNudge o w = (a, w') →
  sound w' ∧ nudgeTotal w' = nudgeTotal w + nudges a.
Proof.
  intros Hs. unfold observe. destruct o as [now summary|now idle p].
  { intros [= <- <-]. split; [by apply record_sound|]. unfold record.
    destruct (negb _); by rewrite Z.add_0_r. }
  destruct (stuck w); [intros [= <- <-]; split; [done|by rewrite Z.add_0_r]|].
  destruct (check canNudge now idle p w) as [[nudge cause] w1] eqn:E.
  apply (check_cases _ _ _ _ _ _ _ _ Hs) in E
    as [(-> & -> & Hn & Hl & Ht & ->)|(-> & -> & _)].
  - rewrite bool_decide_eq_true_2 by done. intros [= <- <-].
    destruct Hs as [Hc Ha Htot]. rewrite Hn in Hc. split; [|done].
    constructor; simpl; [rewrite Hc; done|by intros n [= <-]|lia].
  - destruct (bool_decide _); intros [= <- <-]; (split; [|by rewrite Z.add_0_r]); [done|].
    by destruct Hs; constructor.
Qed.

Lemma run_inv canNudge os : ∀ w acts w',
  sound w → run canNudge os w = (acts, w') →
  sound w' ∧ nudgeTotal w' = nudgeTotal w + nudges acts.
Proof.
  induction os as [|o os IH]; intros w acts w' Hs; simpl.
  { intros [= <- <-]. split; [done|by rewrite Z.add_0_r]. }
  destruct (observe canNudge o w) as [a w1] eqn:Eo. destruct (run canNudge os w1) as [b w2] eqn:Er.
  intros [= <- <-]. apply observe_inv in Eo as [Hs1 H1]; [|done].
  destruct (IH _ _ _ Hs1 Er) as [Hs2 H2]. split; [done|]. rewrite nudges_app. lia.
Qed.

(** The time of the last event that counts as progress. *)
Fixpoint last_progress (start : time) (os : list Observation) : time :=
  match os with
  | [] => start
  | Progress now summary :: rest =>
      last_progress (if isHarnessProgress summary then now else start) rest
  | Tick _ _ _ :: rest => last_progress start rest
  end.

Lemma observe_last canNudge o w a w' :
  sound w → observe canNudge o w = (a, w') → lastProgress w' = last_progress (lastProgress w) [o].
Proof.
  intros Hs. unfold observe. destruct o as [now summary|now idle p]; simpl.
  { intros [= <- <-]. unfold record. by destruct (isHarnessProgress summary). }
  destruct (stuck w); [by intros [= <- <-]|].
  destruct (check canNudge now idle p w) as [[nudge cause] w1] eqn:E.
  apply (check_cases _ _ _ _ _ _ _ _ Hs) in E as [(-> & -> & _ & _ & _ & ->)|(-> & -> & _)];
    destruct (bool_decide _); by intros [= <- <-].
Qed.

Lemma last_progress_app start os1 os2 :
  last_progress start (os1 ++ os2) = last_progress (last_progress start os1) os2.
Proof.
  revert start. induction os1 as [|[now summary|now idle p] os1 IH]; intros start; simpl; [done|..];
    apply IH.
Qed.

(** The observation behind an action. *)
Lemma run_action canNudge x os : ∀ w,
  x ∈ (run canNudge os w).1 →
  ∃ os1 o os2, os = os1 ++ o :: os2 ∧ x ∈ (observe canNudge o (run canNudge os1 w).2).1.
Proof.
  induction os as [|o os IH]; intros w Hin; simpl in Hin; [by apply elem_of_nil in Hin|].
  destruct (observe canNudge o w) as [a w1] eqn:Eo. destruct (run canNudge os w1) as [b w2] eqn:Er.
  simpl in Hin. apply elem_of_app in Hin as [Hin|Hin].
  - exists [], o, os. split; [done|]. simpl. by rewrite Eo.
  - destruct (IH w1) as (os1 & o' & os2 & -> & Hx); [by rewrite Er|].
    exists (o :: os1), o', os2. split; [done|]. simpl. rewrite Eo.
    by destruct (run canNudge os1 w1).
Qed.

Lemma run_last canNudge os : ∀ w acts w',
  sound w → run canNudge os w = (acts, w') → lastProgress w' = last_progress (lastProgress w) os.
Proof.
  induction os as [|o os IH]; intros w acts w' Hs; simpl; [by intros [= _ <-]|].
  destruct (observe canNudge o w) as [a w1] eqn:Eo. destruct (run canNudge os w1) as [b w2] eqn:Er.
  intros [= _ <-]. rewrite (IH _ _ _ (proj1 (observe_inv _ _ _ _ _ Hs Eo)) Er).
  rewrite (observe_last _ _ _ _ _ Hs Eo). exact (eq_sym (last_progress_app _ [o] os)).
Qed.

(** When an observation stops the run, and why. *)
Lemma observe_stopped canNudge o w now cause :
  sound w → Stopped now cause ∈ (observe canNudge o w).1 →
  ∃ p, o = Tick now false p ∧
    match cause with
    | stuckCauseNone => False
    | stuckCauseSilentAfterNudge => lastProgress w + minutes 7 <= now
    | stuckCauseContinuationAttemptsExhausted =>
        lastProgress w + minutes 2 <= now ∧ nudgeTotal w = 10
    | stuckCauseBusyUnresponsive => lastProgress w + minutes 12 <= now ∧ p = ProbeStatus "busy"
    end.
Proof.
  intros Hs. unfold observe. destruct o as [t summary|t idle p]; [by intros []%elem_of_nil|].
  destruct (stuck w); [by intros []%elem_of_nil|].
  destruct (check canNudge t idle p w) as [[nudge c] w4] eqn:E.
  assert (idle = false ∨ c = stuckCauseNone) as Hidle.
  { destruct idle; [|by left]. simpl in E. injection E as <- <- <-. by right. }
  apply (check_cases _ _ _ _ _ _ _ _ Hs) in E as [(-> & -> & _)|(-> & -> & Hc)].
  { rewrite bool_decide_eq_true_2 by done. by intros [[=]|[]]%list_elem_of_In. }
  destruct (bool_decide_reflect (c = stuckCauseNone)) as [->|Hne]; [by intros []%elem_of_nil|].
  intros [[= -> ->]|[]]%list_elem_of_In. destruct Hidle as [->|?]; [|done].
  exists p. split; [done|]. destruct cause; [done| |exact Hc|exact Hc].
  destruct Hc as (n & Hn & Hle). pose proof (so_after _ Hs _ Hn) as Hn2.
  unfold harnessProgressNudgeAfter, harnessProgressFailAfter, minutes, seconds in *. lia.
Qed.

(** ** Properties *)

(** The budget of continuation prompts: over a whole run, whatever the
    harness does, at most ten are sent; and never a second one before the
    harness makes progress, so the limit of three in a row is never reached. *)
Theorem watchdog_budget canNudge start os acts w :
  run canNudge os (startProgressWatchdog start) = (acts, w) →
  nudges acts = nudgeTotal w ∧ nudges acts <= maxHarnessContinuationAttemptsTotal ∧
  nudgeCount w <= 1 < maxHarnessContinuationStreak.
Proof.
  intros Hr. pose proof (start_sound start) as Hst.
  apply run_inv in Hr as [[Hc _ Ht] Hn]; [|done]. simpl in Hn. split; [lia|]. split; [lia|].
  rewrite Hc. by destruct (nudgedAt w).
Qed.

(** The watchdog only stops a run that is silent: when it stops one, the
    harness was not idle and had made no progress for seven minutes (five of
    them after a continuation prompt), or for two minutes with all ten prompts
    spent, or for twelve minutes while it claimed to be busy. *)
Theorem watchdog_spares canNudge start os now cause :
  Stopped now cause ∈ (run canNudge os (startProgressWatchdog start)).1 →
  ∃ os1 p os2, os = os1 ++ Tick now false p :: os2 ∧
    match cause with
    | stuckCauseNone => False
    | stuckCauseSilentAfterNudge => last_progress start os1 + minutes 7 <= now
    | stuckCauseContinuationAttemptsExhausted =>
        last_progress start os1 + minutes 2 <= now ∧
        nudges (run canNudge os1 (startProgressWatchdog start)).1 = 10
    | stuckCauseBusyUnresponsive =>
        last_progress start os1 + minutes 12 <= now ∧ p = ProbeStatus "busy"
    end.
Proof.
  intros (os1 & o & os2 & -> & Hx)%run_action. pose proof (start_sound start) as Hst.
  destruct (run canNudge os1 (startProgressWatchdog start)) as [acts w] eqn:Er. simpl in Hx.
  destruct (run_inv _ _ _ _ _ Hst Er) as [Hs Ht]. simpl in Ht.
  apply (run_last _ _ _ _ _ Hst) in Er as Hl. simpl in Hl.
  destruct (observe_stopped _ _ _ _ _ Hs Hx) as (p & -> & Hc). exists os1, p, os2.
  split; [done|]. rewrite Hl in Hc. rewrite Er. simpl.
  destruct cause; [done|done| |done]. destruct Hc as [? Hn]. split; [done|]. lia.
Qed.

(** Ticks at least every ten seconds, the first within ten seconds of [t0]. *)
Fixpoint paced (t0 : time) (ts : list (time * Probe)) : Prop :=
  match ts with
  | [] => True
  | (t, _) :: rest => t0 <= t <= t0 + harnessProgressCheckInterval ∧ paced t rest
  end.

Definition ticks (ts : list (time * Probe)) : list Observation :=
  map (λ tp, Tick tp.1 false tp.2) ts.

Definition quiet_probe (p : Probe) : Prop := p ≠ ProbeStatus "busy".

(** After a prompt went unanswered. *)
Lemma nudged_stops n ts : ∀ w t0,
  nudgedAt w = Some n → stuck w = false → paced t0 ts → t0 < n + harnessProgressFailAfter →
  (∃ t p, (t, p) ∈ ts ∧ n + harnessProgressFailAfter <= t) →
  ∃ t, Stopped t stuckCauseSilentAfterNudge ∈ (run true (ticks ts) w).1 ∧
       t <= n + harnessProgressFailAfter + harnessProgressCheckInterval.
Proof.
  induction ts as [|[t p] ts IH]; intros w t0 Hn Hst Hp Ht0 (t' & p' & Hin & Hle).
  { by apply elem_of_nil in Hin. }
  destruct Hp as [Hpt Hp]. unfold ticks. cbn [map run fst snd]. unfold observe at 1, check.
  rewrite Hst, Hn. destruct (Z.leb_spec harnessProgressFailAfter (t - n)).
  - rewrite bool_decide_eq_false_2 by done. destruct (run _ _ _) as [b w2]. exists t. simpl.
    split; [left|lia].
  - rewrite bool_decide_eq_true_2 by done. destruct (IH w t) as (t2 & Hin2 & Hle2); try done; [lia| |].
    + exists t', p'. split; [|done]. apply elem_of_cons in Hin as [[= -> ->]|?]; [lia|done].
    + unfold ticks in Hin2. destruct (run _ _ _) as [b w2]. exists t2. done.
Qed.

Lemma silent_stops ts : ∀ w t0,
  sound w → nudgedAt w = None → stuck w = false → paced t0 ts →
  (∀ t p, (t, p) ∈ ts → quiet_probe p) → t0 < lastProgress w + harnessProgressNudgeAfter →
  (∃ t p, (t, p) ∈ ts ∧ lastProgress w + minutes 7 + harnessProgressCheckInterval <= t) →
  ∃ t cause, Stopped t cause ∈ (run true (ticks ts) w).1 ∧
    t <= lastProgress w + minutes 7 + 2 * harnessProgressCheckInterval.
Proof.
  induction ts as [|[t p] ts IH]; intros w t0 Hs Hn Hst Hp Hq Ht0 (t' & p' & Hin & Hle).
  { by apply elem_of_nil in Hin. }
  destruct Hp as [Hpt Hp]. unfold ticks. cbn [map run fst snd].
  destruct (observe true (Tick t false p) w) as [a w1] eqn:Eo.
  assert ((t', p') ∈ ts ∨ t' = t) as Hin' by (apply elem_of_cons in Hin as [[= -> ->]|?]; auto).
  unfold observe in Eo. rewrite Hst in Eo.
  destruct (check true t false p w) as [[nudge c] w2] eqn:Ec.
  assert (match probeTurnActive p with (x, y) => y && x end = false) as Hb.
  { specialize (Hq t p (list_elem_of_here _ _)). destruct p as [| |status]; [done..|]. simpl.
    destruct (bool_decide_reflect (status = "busy")) as [->|]; [by destruct Hq|done]. }
  unfold check in Ec. rewrite Hn in Ec.
  destruct (Z.ltb_spec (t - lastProgress w) harnessProgressNudgeAfter) as [Hlt|Hge].
  { injection Ec as <- <- <-. rewrite bool_decide_eq_true_2 in Eo by done. injection Eo as <- <-.
    destruct (IH w t) as (t2 & c2 & Hin2 & Hle2); try done; [by eauto using list_elem_of_further|lia| |].
    - exists t', p'. split; [|done]. destruct Hin' as [?| ->]; [done|].
      unfold harnessProgressNudgeAfter, harnessProgressCheckInterval, minutes, seconds in *. lia.
    - unfold ticks in Hin2. destruct (run _ _ _) as [b w3]. exists t2, c2. done. }
  simpl in Ec. destruct (_ || _).
  { injection Ec as <- <- <-. rewrite bool_decide_eq_false_2 in Eo by done. injection Eo as <- <-.
    destruct (run _ _ _) as [b w3]. exists t, stuckCauseContinuationAttemptsExhausted. simpl.
    split; [left|].
    unfold harnessProgressNudgeAfter, harnessProgressCheckInterval, minutes, seconds in *. lia. }
  destruct (probeTurnActive p) as [x y]. rewrite Hb in Ec. injection Ec as <- <- <-.
  rewrite bool_decide_eq_true_2 in Eo by done. injection Eo as <- Hw1.
  destruct (nudged_stops t ts w1 t) as (t2 & Hin2 & Hle2); [by rewrite <- Hw1|by rewrite <- Hw1|done|
    unfold harnessProgressFailAfter, minutes, seconds; lia| |].
  - exists t', p'. destruct Hin' as [?| ->]; [split; [done|]|];
      unfold harnessProgressNudgeAfter, harnessProgressFailAfter, harnessProgressCheckInterval,
        minutes, seconds in *; lia.
  - unfold ticks in Hin2. destruct (run _ _ _) as [b w3].
    exists t2, stuckCauseSilentAfterNudge. split; [by right|].
    unfold harnessProgressNudgeAfter, harnessProgressFailAfter, harnessProgressCheckInterval,
        minutes, seconds in *. lia.
Qed.

(** C15. A silent run does not hang: when the harness can be prompted, makes no
    more progress, is neither idle nor busy, and the timer ticks every ten
    seconds, the watchdog stops the run within seven minutes and twenty seconds
    of the last progress. *)
Theorem watchdog_stops start os acts w ts :
  run true os (startProgressWatchdog start) = (acts, w) → stuck w = false → nudgedAt w = None →
  paced (lastProgress w) ts → (∀ t p, (t, p) ∈ ts → quiet_probe p) →
  (∃ t p, (t, p) ∈ ts ∧ lastProgress w + minutes 7 + seconds 10 <= t) →
  ∃ t cause, Stopped t cause ∈ (run true (ticks ts) w).1 ∧
    t <= lastProgress w + minutes 7 + seconds 20.
Proof.
  intros Hr Hst Hn Hp Hq Hlate. destruct (run_inv _ _ _ _ _ (start_sound start) Hr) as [Hs _].
  apply (silent_stops ts w (lastProgress w)); try done.
  unfold harnessProgressNudgeAfter, minutes, seconds. lia.
Qed.

(** ** Witnesses *)

Definition timer (n : nat) : list (time * Probe) :=
  map (λ k, (seconds (10 * Z.of_nat k), NoProbe)) (seq 1 n).

Lemma watchdog_budget_witness :
  ∃ acts w, run true (ticks (timer 60)) (startProgressWatchdog 0) = (acts, w) ∧
            nudges acts = 1 ∧ nudgeCount w <= 1.
Proof.
  destruct (run true (ticks (timer 60)) (startProgressWatchdog 0)) as [acts w] eqn:E.
  destruct (watchdog_budget _ _ _ _ _ E) as (Hn & _ & Hc). exists acts, w. split; [reflexivity|].
  split; [|lia]. vm_compute in E. injection E as <- _. reflexivity.
Defined.

Lemma watchdog_spares_witness :
  ∃ os1 p os2, ticks (timer 60) = os1 ++ Tick (seconds 420) false p :: os2 ∧
    last_progress 0 os1 + minutes 7 <= seconds 420.
Proof.
  apply (watchdog_spares true 0 (ticks (timer 60)) (seconds 420) stuckCauseSilentAfterNudge).
  apply list_elem_of_In. vm_compute. by right; left.
Defined.

Lemma watchdog_stops_witness :
  ∃ t cause, Stopped t cause ∈ (run true (ticks (timer 60)) (startProgressWatchdog 0)).1 ∧
    t <= minutes 7 + seconds 20.
Proof.
  apply (watchdog_stops 0 [] [] (startProgressWatchdog 0) (timer 60)); [done|done|done| | |].
  - vm_compute. by repeat split.
  - intros t p (k & [= _ ->] & _)%list_elem_of_fmap. discriminate.
  - exists (seconds 600), NoProbe. split; [|by vm_compute].
    apply list_elem_of_fmap. exists 60%nat. split; [reflexivity|]. apply list_elem_of_In, in_seq. lia.
Defined.
