(* ===== verification/Admission.v ===== *)
(** * Host pressure and the claim loop of a runner

    [runner/internal/controller/admission.go] and [claimLoop] of
    [runner/internal/controller/runner_rpc.go]: when a runner stops claiming,
    what it then tells the control plane, and what the reaper makes of it. *)
From Stdlib Require Import QArith.
From S2P Require Import Prelude GoStrings Status Db Queries Evolution Heartbeat Reaper Sample.
#[local] Open Scope Z_scope.

Definition admissionPausedMemory : string := "admission_paused:memory_pressure".
Definition admissionPausedLoad : string := "admission_paused:host_load".

(** The two readings the gate looks at; nil is [None]. *)
Record resourceSnapshot := mkSnapshot {
  MemoryAvailableBytes : option Z;
  Load1 : option Q;
}.

Definition admissionPauseReason (snap : resourceSnapshot) (minFreeMemoryMB : Z) (maxHostLoad : Q)
    : string :=
  let low_memory :=
    (0 <? minFreeMemoryMB) &&
    match MemoryAvailableBytes snap with
    | None => false
    | Some b => Z.quot b (Z.shiftl 1 20) <? minFreeMemoryMB
    end in
  let overloaded :=
    negb (Qle_bool maxHostLoad 0) &&
    match Load1 snap with None => false | Some l => negb (Qle_bool l maxHostLoad) end in
  if low_memory then admissionPausedMemory
  else if overloaded then admissionPausedLoad
  else "".

Record RunnerConfig := mkRunnerConfig {
  MinFreeHostMemoryMB : Z;
  MaxHostLoad : Q;
}.

Definition pause_reason (cfg : RunnerConfig) (snap : resourceSnapshot) : string :=
  admissionPauseReason snap (MinFreeHostMemoryMB cfg) (MaxHostLoad cfg).

Definition heartbeatStatus (cfg : RunnerConfig) (draining : bool) (snap : resourceSnapshot) : string :=
  if draining then "draining"
  else let reason := pause_reason cfg snap in
       if negb (reason == "") then reason else "active".

(** The logged transitions: the previous reason, and whether a line is logged. *)
Definition noteAdmissionTransition (reason : string) (lastAdmissionPause : string) : string * bool :=
  if lastAdmissionPause == reason then (lastAdmissionPause, false) else (reason, true).

(** ** The claim loop *)

(** The answer to ClaimTask: an error, no task (or one without an identifier),
    or a task; the boolean tells whether the context has ended. *)
Inductive ClaimResponse :=
| RespError (ctxDone : bool)
| RespEmpty (ctxDone : bool)
| RespTask (taskID : string).

(** The loop reserves a slot before it claims, and waits while all are in use.
    One iteration ends the loop, goes on, starts a task in a slot of its own,
    or ends the loop with a claimed task that nobody will run. *)
Inductive Iteration :=
| Exit
| Continue
| Started (taskID : string)
| Abandoned (taskID : string).

(** [d1], [d2], [d3] are the three readings of the draining flag, [sem] the
    slots in use; the result has the slots after it and the logged state. *)
Definition claimLoop_step (cfg : RunnerConfig) (d1 : bool) (snap : resourceSnapshot) (d2 : bool)
    (resp : ClaimResponse) (d3 : bool) (sem : Z) (lastPause : string)
    : Iteration * Z * string :=
  if d1 then (Exit, sem, lastPause)
  else
    let reason := pause_reason cfg snap in
    let last := (noteAdmissionTransition reason lastPause).1 in
    if negb (reason == "") then (Continue, sem, last)
    else
      let sem := sem + 1 in
      if d2 then (Exit, sem - 1, last)
      else match resp with
           | RespError done | RespEmpty done =>
               (if (done : bool) then Exit else Continue, sem - 1, last)
           | RespTask t =>
               if d3 then (Abandoned t, sem - 1, last)
               else (Started t, sem, last)
           end.

(** ** Lemmas *)

(** What a heartbeat keeps: prompts, sessions and tasks, and every attempt that
    does not run. *)
Record beat_frame (db db' : DB) : Prop := {
  bf_prompts : user_prompts db' = user_prompts db;
  bf_sessions : agent_sessions db' = agent_sessions db;
  bf_tasks : tasks db' = tasks db;
  bf_runners : runners db' = runners db;
  bf_attempts : ∀ id a, execution_attempts db !! id = Some a → a_status a ≠ "running" →
    execution_attempts db' !! id = Some a;
}.

#[export] Instance beat_frame_preorder : PreOrder beat_frame.
Proof.
  split; [by intros db; constructor|].
  intros d1 d2 d3 [P1 S1 T1 R1 A1] [P2 S2 T2 R2 A2]. constructor; [congruence..|].
  intros id a Ha Hn. apply A2; [|done]. by apply A1.
Qed.

Lemma beat_renew l le up id r c db : beat_frame db (RenewExecutionAttemptLease l le up id r c db).2.
Proof.
  constructor; [done..|]. intros k a Ha Hn.
  unfold RenewExecutionAttemptLease, on_attempts. cbn [snd execution_attempts].
  match goal with |- context [update_pk id ?p ?f] =>
    assert ((update_pk id p f (execution_attempts db)).2 !! k = _) as Hl by apply update_pk_lookup end.
  refine (eq_trans Hl _). rewrite Ha. simpl. rewrite (bool_decide_eq_false_2 (a_status a = "running")) by done.
  by rewrite !andb_false_r.
Qed.

Lemma beat_execution_commands runnerID now rows xs : ∀ db,
  beat_frame db (execution_commands runnerID now rows xs db).2.
Proof.
  induction xs as [|x xs IH]; intros db; simpl; [reflexivity|].
  assert (beat_frame db (execution_command runnerID now rows x db).2) as H1.
  { unfold execution_command. destruct (List.find _ _) as [row|]; [|reflexivity].
    destruct (negb _); [reflexivity|]. destruct (stop_reason row); [reflexivity|].
    destruct (RenewExecutionAttemptLease _ _ _ _ _ _ db) as [n db'] eqn:E. simpl.
    change db' with (n, db').2. rewrite <- E. apply beat_renew. }
  destruct (execution_command _ _ _ _ _) as [cmds db1]. specialize (IH db1).
  destruct (execution_commands _ _ _ _ _) as [cmds' db2]. by transitivity db1.
Qed.

(** The state after a heartbeat: the runner's row, and the frame. *)
Lemma heartbeat_row auditing dbFails now info db cmds db' :
  Heartbeat auditing dbFails now info db = (inr cmds, db') →
  ∃ row, i_RunnerId info ≠ "" ∧ runners db' = <[i_RunnerId info := row]> (runners db) ∧
    r_status row = (if i_Status info == "" then "active" else i_Status info) ∧
    beat_frame (UpsertRunnerHeartbeat (i_RunnerId info) (runner_row now info) db) db'.
Proof.
  unfold Heartbeat, upsertRunner. destruct (bool_decide_reflect (i_RunnerId info = "")); [done|].
  set (db1 := UpsertRunnerHeartbeat _ _ db). unfold runnerCommands.
  destruct (drain_commands_frame dbFails info db1) as [m Hm].
  destruct (drain_commands _ _ _) as [cmds1 db2]. simpl in Hm.
  assert (beat_frame db1 db2) as H2 by (rewrite Hm; by constructor).
  intros Hb. enough (beat_frame db1 db') as Hf.
  { eexists. split; [done|]. split; [rewrite (bf_runners _ _ Hf); reflexivity|]. split; [|done].
    by destruct (runners db !! i_RunnerId info). }
  destruct (i_CurrentExecutions info) as [|x xs]; [by simplify_eq|]. transitivity db2; [done|].
  pose proof (beat_execution_commands (i_RunnerId info) now
    (ListExecutionAttemptsForHeartbeat (runningExecutionAttemptIDs (x :: xs)) (i_RunnerId info) db2)
    (x :: xs) db2) as H3.
  destruct (execution_commands _ _ _ _ _) as [cmds' db3]. by simplify_eq.
Qed.

Lemma pause_reason_cases cfg snap :
  pause_reason cfg snap ∈ [""; admissionPausedMemory; admissionPausedLoad].
Proof.
  unfold pause_reason, admissionPauseReason. cbv zeta.
  destruct (_ && _); [right; left|]. destruct (_ && _); [right; right; left|left].
Qed.


Lemma paused_incapable dbnow stale row cfg snap :
  pause_reason cfg snap ≠ "" →
  r_status row = (if heartbeatStatus cfg false snap == "" then "active"
                  else heartbeatStatus cfg false snap) →
  capable_runner dbnow stale row = false ∧ r_status row ≠ "active".
Proof.
  intros Hp. unfold heartbeatStatus, capable_runner. cbv zeta.
  rewrite (bool_decide_eq_false_2 _ Hp). cbn [negb]. rewrite (bool_decide_eq_false_2 _ Hp). intros ->.
  pose proof (pause_reason_cases cfg snap) as Hc. apply list_elem_of_In in Hc.
  destruct Hc as [Hc|[Hc|[Hc|[]]]]; [done|..]; rewrite <- Hc; (split; [|done]);
    by destruct (r_isolation_enabled row).
Qed.

Lemma reapIsolation_inr now dbnow db :
  reapIsolationUnavailableTasks now dbnow db =
  (inr tt, (FailPendingIsolationTasks now now
     (FailPendingIsolationAttemptsWithoutCapableRunner dbnow now now runnerPresenceMaxSec db).2).2).
Proof.
  unfold reapIsolationUnavailableTasks, run_tx, mbind, tx_bind, tx_rows, mret, tx_ret.
  destruct (FailPendingIsolationAttemptsWithoutCapableRunner _ _ _ _ _) as [n d1]. simpl.
  by destruct (FailPendingIsolationTasks now now d1).
Qed.

Lemma reapResumes_inr now dbnow db :
  reapUnavailablePinnedResumeTasks now dbnow db =
  (inr tt, (MarkResumingSessionsFailedForUnavailableRunner now now
     (FailPendingUserPromptsForUnavailableRunner now now
        (FailPendingResumeTasksForMissingRunner now now
           (FailPendingExecutionAttemptsForMissingRunner dbnow now now runnerPresenceMaxSec db).2).2).2).2).
Proof.
  unfold reapUnavailablePinnedResumeTasks, run_tx, mbind, tx_bind, tx_rows, mret, tx_ret.
  destruct (FailPendingExecutionAttemptsForMissingRunner _ _ _ _ _) as [n d1]. simpl.
  destruct (FailPendingResumeTasksForMissingRunner now now d1) as [n2 d2]. simpl.
  destruct (FailPendingUserPromptsForUnavailableRunner now now d2) as [n3 d3]. simpl.
  by destruct (MarkResumingSessionsFailedForUnavailableRunner now now d3).
Qed.

(** What the isolation pass does to a waiting attempt that nobody can run. *)
Lemma isolation_pass now dbnow db id a p s t :
  exists_row (runners db) (λ _ x, capable_runner dbnow runnerPresenceMaxSec x) = false →
  execution_attempts db !! id = Some a → a_status a = "pending" →
  user_prompts db !! a_user_prompt_id a = Some p →
  agent_sessions db !! p_agent_session_id p = Some s → s_isolation_required s = true →
  tasks db !! p_task_id p = Some t → t_status t = "pending" →
  let db2 := (reapIsolationUnavailableTasks now dbnow db).2 in
  (∃ a', execution_attempts db2 !! id = Some a' ∧ a_status a' = "error" ∧
         a_error_category a' = Some "isolation_unavailable") ∧
  ∃ t', tasks db2 !! p_task_id p = Some t' ∧ t_status t' = "error" ∧
        t_error_category t' = Some "isolation_unavailable".
Proof.
  intros Hnone Ha Hpend Hp Hs Hiso Ht Htp. cbv zeta. rewrite reapIsolation_inr. cbn [snd].
  assert (execution_attempts (FailPendingIsolationAttemptsWithoutCapableRunner dbnow now now
            runnerPresenceMaxSec db).2 !! id =
          Some (fail_attempt isolation_error "isolation_unavailable" now now a)) as Hd1.
  { apply (where_hit_attempt _ (λ _, fail_attempt isolation_error "isolation_unavailable" now now));
      [exact Ha|]. rewrite Hpend. unfold prompt_of. rewrite Hp. simpl. unfold session_of.
    by rewrite Hs, Hiso, Hnone. }
  split; [eexists; split; [exact Hd1|done]|]. eexists. split.
  - apply where_hit_task; [exact Ht|]. rewrite Htp. simpl.
    eapply joined_attempt_is_Some; [exact Hd1| |apply failed_with_fail]. apply task_of_Some. by exists p.
  - done.
Qed.

(** What the resume pass does to a waiting attempt pinned to a missing runner. *)
Lemma resume_pass now dbnow db id a p s t rid :
  runner_missing dbnow runnerPresenceMaxSec db rid = true → rid ≠ "" →
  execution_attempts db !! id = Some a → a_status a = "pending" →
  a_required_runner_id a = Some rid →
  user_prompts db !! a_user_prompt_id a = Some p →
  agent_sessions db !! p_agent_session_id p = Some s → s_status s = "resuming" →
  tasks db !! p_task_id p = Some t → t_status t = "pending" →
  let db2 := (reapUnavailablePinnedResumeTasks now dbnow db).2 in
  (∃ a', execution_attempts db2 !! id = Some a' ∧ a_status a' = "error" ∧
         a_error_category a' = Some "runner_unavailable") ∧
  ∃ t', tasks db2 !! p_task_id p = Some t' ∧ t_status t' = "error" ∧
        t_error_category t' = Some "runner_unavailable".
Proof.
  intros Hmiss Hr Ha Hpend Hreq Hp Hs Hres Ht Htp. cbv zeta. rewrite reapResumes_inr.
  set (d2 := (FailPendingResumeTasksForMissingRunner _ _ _).2).
  set (d4 := (_, _).2).
  change (execution_attempts d4) with (execution_attempts d2). change (tasks d4) with (tasks d2).
  assert (execution_attempts (FailPendingExecutionAttemptsForMissingRunner dbnow now now
            runnerPresenceMaxSec db).2 !! id =
          Some (fail_attempt ("pinned runner " ^^ str_of (a_required_runner_id a) ^^ " is not alive")
                  "runner_unavailable" now now a)) as Hd1.
  { apply (where_hit_attempt _ (λ _ a,
      fail_attempt ("pinned runner " ^^ str_of (a_required_runner_id a) ^^ " is not alive")
        "runner_unavailable" now now a)); [exact Ha|].
    rewrite Hpend. unfold prompt_of. rewrite Hp. simpl. unfold session_of.
    rewrite Hs, Hres, Hreq, Hmiss. by rewrite (bool_decide_eq_false_2 (rid = "")). }
  assert (bool_decide (is_Some (joined_attempt (FailPendingExecutionAttemptsForMissingRunner dbnow now
            now runnerPresenceMaxSec db).2 (p_task_id p) (failed_with "runner_unavailable"))) = true) as Hj.
  { eapply joined_attempt_is_Some; [exact Hd1| |apply failed_with_fail]. apply task_of_Some. by exists p. }
  split; [eexists; split; [exact Hd1|done]|]. apply bool_decide_eq_true in Hj as Hj'.
  destruct Hj' as [b Hb]. eexists. split.
  - apply where_hit_task; [exact Ht|]. by rewrite Htp.
  - cbv beta. by rewrite Hb.
Qed.

(** ** Properties *)

(** Load shedding kills waiting work: the host-pressure gate is meant only
    to stop a runner from claiming, but the status it reports is none of those
    the reaper counts as alive. One heartbeat of a live runner under pressure
    makes the next cycle fail, for good and together with its task, every
    waiting attempt of a resumed session that is pinned to this runner, and,
    when no other runner enforces isolation, every waiting attempt that needs
    isolation. *)
Theorem pressure_fails_waiting_work cfg snap auditing dbFails now info db cmds db1 now' dbnow
    id a p s t :
  pause_reason cfg snap ≠ "" → i_Status info = heartbeatStatus cfg false snap →
  Heartbeat auditing dbFails now info db = (inr cmds, db1) →
  execution_attempts db !! id = Some a → a_status a = "pending" →
  user_prompts db !! a_user_prompt_id a = Some p →
  agent_sessions db !! p_agent_session_id p = Some s →
  tasks db !! p_task_id p = Some t → t_status t = "pending" →
  let failed (category : string) (db2 : DB) :=
    (∃ a', execution_attempts db2 !! id = Some a' ∧ a_status a' = "error" ∧
           a_error_category a' = Some category) ∧
    ∃ t', tasks db2 !! p_task_id p = Some t' ∧ t_status t' = "error" ∧
          t_error_category t' = Some category in
  (a_required_runner_id a = Some (i_RunnerId info) → s_status s = "resuming" →
   failed "runner_unavailable" (reapUnavailablePinnedResumeTasks now' dbnow db1).2) ∧
  (s_isolation_required s = true →
   (∀ k x, k ≠ i_RunnerId info → runners db !! k = Some x →
           capable_runner dbnow runnerPresenceMaxSec x = false) →
   failed "isolation_unavailable" (reapIsolationUnavailableTasks now' dbnow db1).2).
Proof.
  intros Hpause Hstatus Hbeat Ha Hpend Hp Hs Ht Htp failed.
  destruct (heartbeat_row _ _ _ _ _ _ _ Hbeat) as (row & Hid & Hrow & Hst & [Fp Fs Ft _ Fa]).
  rewrite Hstatus in Hst.
  destruct (paused_incapable dbnow runnerPresenceMaxSec _ _ _ Hpause Hst) as [Hinc Hina].
  assert (execution_attempts db1 !! id = Some a) as Ha1 by (apply Fa; [exact Ha|by rewrite Hpend]).
  split.
  - intros Hreq Hres. eapply (resume_pass now' dbnow db1 id a p s t (i_RunnerId info));
      rewrite ?Fp, ?Fs, ?Ft; try done.
    unfold runner_missing. rewrite Hrow, lookup_insert_eq.
    by rewrite (bool_decide_eq_false_2 (r_status row = "active")).
  - intros Hiso Hothers. eapply (isolation_pass now' dbnow db1 id a p s t);
      rewrite ?Fp, ?Fs, ?Ft; try done.
    apply exists_row_false. intros k x. rewrite Hrow.
    intros [[<- <-]|[Hne Hk]]%lookup_insert_Some; [done|]. by eapply Hothers.
Qed.

(** The slots of the loop: one more is in use after an iteration exactly when it
    started a task, and it starts one only on a healthy host and not while
    draining; a task claimed while a drain began is given up, still claimed. *)
Lemma claimLoop_slots cfg d1 snap d2 resp d3 sem last it sem' last' :
  claimLoop_step cfg d1 snap d2 resp d3 sem last = (it, sem', last') →
  sem' = sem + match it with Started _ => 1 | _ => 0 end ∧
  (∀ t, it = Started t → resp = RespTask t ∧ d1 = false ∧ d2 = false ∧ d3 = false ∧
                         pause_reason cfg snap = "") ∧
  (∀ t, it = Abandoned t → resp = RespTask t ∧ d3 = true).
Proof.
  unfold claimLoop_step. destruct d1; [intros [= <- <- <-]; split; [lia|done]|]. cbv zeta.
  destruct (bool_decide_reflect (pause_reason cfg snap = "")) as [Hp|]; simpl;
    [|intros [= <- <- <-]; split; [lia|done]].
  destruct d2; [intros [= <- <- <-]; split; [lia|done]|].
  destruct resp as [[]|[]|t]; [intros [= <- <- <-]; split; [lia|done]..|].
  destruct d3; intros [= <- <- <-]; (split; [lia|]); split; [done| | |done];
    intros t' [= <-]; done.
Qed.

(** ** Witnesses *)

Definition low_memory : resourceSnapshot := mkSnapshot (Some 536870912) None.
Definition default_runner_config : RunnerConfig := mkRunnerConfig 1024 0.

Definition waiting_session : AgentSession :=
  (sample_session "t1"){{ s_status := "resuming"; s_isolation_required := true }}.
Definition waiting_attempt : ExecutionAttempt := pending_attempt "p1" 1 (Some "r2") 600 0 0.
Definition waiting_db : DB :=
  sample_db{{ agent_sessions := {[ "s1" := waiting_session ]};
              execution_attempts := {[ "a1" := waiting_attempt ]} }}.

Definition pressed_info : RunnerInfo :=
  mkRunnerInfo "r2" (heartbeatStatus default_runner_config false low_memory)
    "" "" "" 1 0 1 true 0 0 0 None 0 [].

Lemma pressure_fails_waiting_work_witness :
  ∃ db1 a1 a2,
    (Heartbeat false false (seconds 1) pressed_info waiting_db).2 = db1 ∧
    execution_attempts (reapUnavailablePinnedResumeTasks (seconds 2) (seconds 2) db1).2 !! "a1" = Some a1 ∧
    a_status a1 = "error" ∧
    execution_attempts (reapIsolationUnavailableTasks (seconds 2) (seconds 2) db1).2 !! "a1" = Some a2 ∧
    a_status a2 = "error".
Proof.
  destruct (Heartbeat false false (seconds 1) pressed_info waiting_db) as [[e|cmds] db1] eqn:E;
    [vm_compute in E; discriminate|].
  destruct (pressure_fails_waiting_work default_runner_config low_memory false false (seconds 1)
    pressed_info waiting_db cmds db1 (seconds 2) (seconds 2) "a1" waiting_attempt
    (sample_prompt "s1" "t1") waiting_session sample_task) as [Hres Hiso];
    [by vm_compute|reflexivity|exact E|reflexivity|reflexivity|reflexivity|reflexivity|reflexivity|
     reflexivity|].
  destruct Hres as [(a1 & Ha1 & Hs1 & _) _]; [reflexivity|reflexivity|].
  destruct Hiso as [(a2 & Ha2 & Hs2 & _) _]; [reflexivity| |].
  - intros k x Hk Hx. change (runners waiting_db) with
      ({[ "r1" := sample_runner false 0; "r2" := sample_runner true 0 ]} : gmap string Runner) in Hx.
    apply lookup_insert_Some in Hx as [[<- <-]|[_ Hx]]; [by vm_compute|].
    apply lookup_singleton_Some in Hx as [<- _]. by destruct Hk.
  - exists db1, a1, a2. split; [reflexivity|]. done.
Defined.
