(* ===== verification/Ssrf.v ===== *)
(** * Destinations of outbound webhooks

    [internal/ssrf]: which URLs and which addresses the delivery client may
    reach. An address of [net/netip] is its family and its value, without a
    zone, which the package strips. Reading an address, a prefix or a URL from
    text and resolving a host name are parameters. An error is its [Reason];
    the detail is text for humans. *)
From S2P Require Import Prelude GoStrings Status.

(** ** Addresses and prefixes *)

Inductive Addr := V4 (a : Z) | V6 (a : Z).

#[export] Instance addr_eq_dec : EqDecision Addr.
Proof. solve_decision. Defined.

(** The values an address of each family has. *)
Definition valid_addr (x : Addr) : Prop :=
  match x with V4 a => 0 <= a < 2 ^ 32 | V6 a => 0 <= a < 2 ^ 128 end.

Inductive Prefix := P4 (a bits : Z) | P6 (a bits : Z).

(** [Prefix.Contains]: same family and same leading bits. *)
Definition Contains (p : Prefix) (x : Addr) : bool :=
  match p, x with
  | P4 b bits, V4 a => Z.shiftr a (32 - bits) =? Z.shiftr b (32 - bits)
  | P6 b bits, V6 a => Z.shiftr a (128 - bits) =? Z.shiftr b (128 - bits)
  | _, _ => false
  end.

Definition Masked (p : Prefix) : Prefix :=
  match p with
  | P4 b bits => P4 (Z.shiftl (Z.shiftr b (32 - bits)) (32 - bits)) bits
  | P6 b bits => P6 (Z.shiftl (Z.shiftr b (128 - bits)) (128 - bits)) bits
  end.

(** An IPv4-mapped IPv6 address as the IPv4 address it is. *)
Definition Unmap (x : Addr) : Addr :=
  match x with
  | V4 a => V4 a
  | V6 a => if Z.shiftr a 32 =? 0xffff then V4 (Z.land a 0xffffffff) else V6 a
  end.

Definition ip4 (a b c d : Z) : Z := ((a * 256 + b) * 256 + c) * 256 + d.
(** An IPv6 address from its first two groups. *)
Definition ip6 (g1 g2 : Z) : Z := Z.shiftl (g1 * 65536 + g2) 96.

Definition IsUnspecified (x : Addr) : bool := match x with V4 a | V6 a => a =? 0 end.
Definition IsLoopback (x : Addr) : bool :=
  match x with V4 a => Z.shiftr a 24 =? 127 | V6 a => a =? 1 end.
Definition IsMulticast (x : Addr) : bool :=
  match x with V4 a => Z.shiftr a 28 =? 0xe | V6 a => Z.shiftr a 120 =? 0xff end.
Definition IsLinkLocalUnicast (x : Addr) : bool :=
  match x with V4 a => Z.shiftr a 16 =? 169 * 256 + 254 | V6 a => Z.shiftr a 118 =? 0x3fa end.
Definition IsPrivate (x : Addr) : bool :=
  match x with
  | V4 a => (Z.shiftr a 24 =? 10) || (Z.shiftr a 20 =? 172 * 16 + 1) ||
            (Z.shiftr a 16 =? 192 * 256 + 168)
  | V6 a => Z.shiftr a 121 =? 0x7e
  end.

Definition blockedRanges : list (Prefix * string) :=
  [(P4 (ip4 0 0 0 0) 8, "reserved"); (P4 (ip4 100 64 0 0) 10, "shared");
   (P4 (ip4 192 0 0 0) 24, "reserved"); (P4 (ip4 192 0 2 0) 24, "documentation");
   (P4 (ip4 198 18 0 0) 15, "benchmarking"); (P4 (ip4 198 51 100 0) 24, "documentation");
   (P4 (ip4 203 0 113 0) 24, "documentation"); (P4 (ip4 240 0 0 0) 4, "reserved");
   (P6 (ip6 0x2001 0xdb8) 32, "documentation"); (P6 (ip6 0x2001 0x10) 28, "reserved");
   (P6 (ip6 0x2002 0) 16, "reserved"); (P6 (ip6 0xfec0 0) 10, "site_local")].

(** The class of an address that must not be reached; [None] for a public one. *)
Definition blockInfo (x : Addr) : option string :=
  let x := Unmap x in
  if IsUnspecified x then Some "unspecified"
  else if IsLoopback x then Some "loopback"
  else if IsMulticast x then Some "multicast"
  else if IsLinkLocalUnicast x then Some "link_local"
  else if IsPrivate x then Some "private_network"
  else snd <$> List.find (λ r, Contains r.1 x) blockedRanges.

(** ** The policy *)

Record Policy := mkPolicy { AllowHTTP : bool; AllowPrivate : bool; Allowlist : list string }.

Record compiledPolicy := mkCompiled {
  allowHTTP : bool;
  allowPrivate : bool;
  allowPrefixes : list Prefix;
  allowHosts : list string;
}.

Definition normalizeHost (host : string) : string :=
  trimPrefix (trimSuffix (toLower (trimSpace host)) ".") ".".

Definition host_char (c : ascii) : bool :=
  in_range 97 122 c || in_range 48 57 c || (c == ".")%char || (c == "-")%char.

Definition one_of_bytes (codes : list N) (c : ascii) : bool :=
  existsb (N.eqb (N_of_ascii c)) codes.

Definition validHostnameEntry (host : string) : bool :=
  negb (host == "") && (Z.of_nat (String.length host) <=? 253) &&
  forallb host_char (String.list_ascii_of_string host).

(** A parsed URL, as far as the checks read it: scheme, host with port, host
    name, and whether it has userinfo or a fragment. *)
Record URL := mkURL {
  u_Scheme : string;
  u_Host : string;
  u_Hostname : string;
  u_HasUser : bool;
  u_HasFragment : bool;
}.

Definition blockedHostClass (host : string) : option string :=
  let host := normalizeHost host in
  if (host == "localhost") || hasSuffix host ".localhost" then Some "localhost"
  else if hasSuffix host ".local" then Some "mdns"
  else if (host == "metadata.google.internal") || hasSuffix host ".metadata.google.internal"
  then Some "metadata"
  else None.

Definition hostAllowed (cp : compiledPolicy) (host : string) : bool :=
  let host := normalizeHost host in
  existsb (λ entry, (host == entry) || hasSuffix host ("." ^^ entry)) (allowHosts cp).

Definition addrAllowed (cp : compiledPolicy) (x : Addr) : bool :=
  existsb (λ p, Contains p x) (allowPrefixes cp).

(** The reason of the rejection, or [None]. *)
Definition checkAddr (x : Addr) (cp : compiledPolicy) : option string :=
  if allowPrivate cp || addrAllowed cp x then None else blockInfo x.

Section net.
(** [netip.ParseAddr], [netip.ParsePrefix] and [url.Parse]. *)
Variable ParseAddr : string → option Addr.
Variable ParsePrefix : string → option Prefix.
Variable url_Parse : string → option URL.

(** The part of a host before its last percent sign. *)
Definition strip_zone (host : string) : string :=
  match cut "%"%char (rev_string host) with
  | None => host
  | Some (_, before) => rev_string before
  end.

Definition parseIPLiteral (host : string) : option Addr := ParseAddr (strip_zone host).

Fixpoint compile_entries (entries : list string) (cp : compiledPolicy) : option compiledPolicy :=
  match entries with
  | [] => Some cp
  | raw :: rest =>
    let entry := trimSpace raw in
    if entry == "" then None
    else if existsb (λ c, one_of_bytes [32; 9; 13; 10]%N c) (String.list_ascii_of_string entry) then None
    else if contains entry "/" then
      match ParsePrefix entry with
      | None => None
      | Some p => compile_entries rest (cp{{ allowPrefixes := allowPrefixes cp ++ [Masked p] }})
      end
    else match ParseAddr entry with
    | Some (V4 a) => compile_entries rest (cp{{ allowPrefixes := allowPrefixes cp ++ [P4 a 32] }})
    | Some (V6 a) => compile_entries rest (cp{{ allowPrefixes := allowPrefixes cp ++ [P6 a 128] }})
    | None =>
      let host := normalizeHost entry in
      if validHostnameEntry host
      then compile_entries rest (cp{{ allowHosts := allowHosts cp ++ [host] }}) else None
    end
  end.

(** [None] is a malformed allowlist. *)
Definition compile (p : Policy) : option compiledPolicy :=
  compile_entries (Allowlist p) (mkCompiled (AllowHTTP p) (AllowPrivate p) [] []).

Definition checkURL (u : URL) (cp : compiledPolicy) : option string :=
  if negb ((u_Scheme u == "https") || (u_Scheme u == "http") && allowHTTP cp) then Some "scheme"
  else if u_Host u == "" then Some "invalid_url"
  else if u_HasUser u then Some "credentials"
  else if u_HasFragment u then Some "fragment"
  else
    let host := normalizeHost (u_Hostname u) in
    if host == "" then Some "invalid_url"
    else match (if hostAllowed cp host then None else blockedHostClass host) with
    | Some class => Some class
    | None => match parseIPLiteral host with
              | None => None
              | Some ip => checkAddr ip cp
              end
    end.

Definition ValidateDestination (rawURL : string) (pol : Policy) : option string :=
  match compile pol with
  | None => Some "policy_invalid"
  | Some cp => match url_Parse rawURL with
               | None => Some "invalid_url"
               | Some u => checkURL u cp
               end
  end.

(** [DialContext] on the host of an address: the address it dials, or why it
    does not. [lookup] is one resolution of the name; a literal is not looked
    up. *)
Definition resolveAddrs (lookup : string → option (list Addr)) (host : string) : option (list Addr) :=
  match parseIPLiteral host with
  | Some ip => Some [ip]
  | None => map Unmap <$> lookup host
  end.

Definition first_rejected (cp : compiledPolicy) (ips : list Addr) : option string :=
  head (omap (λ ip, checkAddr ip cp) ips).

Definition DialContext (cp : option compiledPolicy) (lookup : string → option (list Addr))
    (host : string) : string + Addr :=
  match cp with
  | None => inl "policy_invalid"
  | Some cp =>
    if host == "" then inl "invalid_url"
    else match resolveAddrs lookup host with
    | None | Some [] => inl "resolution"
    | Some (ip :: ips) =>
      match (if hostAllowed cp host then None else first_rejected cp (ip :: ips)) with
      | Some reason => inl reason
      | None => inr ip
      end
    end
  end.

(** One request of the client: the URL is checked, then the transport dials the
    host of that URL; redirects are not followed. *)
Definition RoundTrip (pol : Policy) (lookup : string → option (list Addr)) (u : URL) : string + Addr :=
  match compile pol with
  | None => inl "policy_invalid"
  | Some cp => match checkURL u cp with
               | Some reason => inl reason
               | None => DialContext (Some cp) lookup (u_Hostname u)
               end
  end.
End net.

(** ** Lemmas *)

Lemma shiftr_eqb a k c :
  0 <= k → (Z.shiftr a k =? c) = (c * 2 ^ k <=? a) && (a <? (c + 1) * 2 ^ k).
Proof.
  intros Hk. rewrite Z.shiftr_div_pow2 by done.
  assert (0 < 2 ^ k) as Hp by (apply Z.pow_pos_nonneg; lia).
  destruct (Z.eqb_spec (a / 2 ^ k) c) as [<-|Hne]; symmetry.
  - apply andb_true_iff. rewrite Z.leb_le, Z.ltb_lt.
    pose proof (Z.mul_div_le a (2 ^ k) Hp). pose proof (Z.mul_succ_div_gt a (2 ^ k) Hp). lia.
  - apply andb_false_iff. rewrite Z.leb_gt, Z.ltb_ge.
    destruct (Z_lt_ge_dec a (c * 2 ^ k)); [by left|]. destruct (Z_lt_ge_dec a ((c + 1) * 2 ^ k)); [|right; lia].
    exfalso. apply Hne. symmetry. apply (Z.div_unique_pos _ _ _ (a - c * 2 ^ k)); lia.
Qed.

(** The special-purpose ranges, as first and last address. *)
Definition special4 : list (Z * Z) :=
  [(ip4 0 0 0 0, ip4 0 255 255 255); (ip4 10 0 0 0, ip4 10 255 255 255);
   (ip4 100 64 0 0, ip4 100 127 255 255); (ip4 127 0 0 0, ip4 127 255 255 255);
   (ip4 169 254 0 0, ip4 169 254 255 255); (ip4 172 16 0 0, ip4 172 31 255 255);
   (ip4 192 0 0 0, ip4 192 0 0 255); (ip4 192 0 2 0, ip4 192 0 2 255);
   (ip4 192 168 0 0, ip4 192 168 255 255); (ip4 198 18 0 0, ip4 198 19 255 255);
   (ip4 198 51 100 0, ip4 198 51 100 255); (ip4 203 0 113 0, ip4 203 0 113 255);
   (ip4 224 0 0 0, ip4 239 255 255 255); (ip4 240 0 0 0, ip4 255 255 255 255)].

Definition special6 : list (Z * Z) :=
  [(0, 0); (1, 1); (ip6 0x2001 0x10, ip6 0x2001 0x20 - 1); (ip6 0x2001 0xdb8, ip6 0x2001 0xdb9 - 1);
   (ip6 0x2002 0, ip6 0x2003 0 - 1); (ip6 0xfc00 0, ip6 0xfe00 0 - 1);
   (ip6 0xfe80 0, ip6 0xfec0 0 - 1); (ip6 0xfec0 0, ip6 0xff00 0 - 1);
   (ip6 0xff00 0, 2 ^ 128 - 1)].

Definition within (table : list (Z * Z)) (a : Z) : bool :=
  existsb (λ r, (r.1 <=? a) && (a <=? r.2)) table.

Definition special (x : Addr) : bool :=
  match Unmap x with V4 a => within special4 a | V6 a => within special6 a end.

Definition tests : list (Addr → bool) :=
  [IsUnspecified; IsLoopback; IsMulticast; IsLinkLocalUnicast; IsPrivate;
   λ x, existsb (λ r, Contains r.1 x) blockedRanges].

Lemma blockInfo_tests x : bool_decide (is_Some (blockInfo x)) = existsb (λ t, t (Unmap x)) tests.
Proof.
  unfold blockInfo, tests. cbv zeta. cbn [existsb]. generalize (Unmap x). intros y.
  destruct (IsUnspecified y), (IsLoopback y), (IsMulticast y), (IsLinkLocalUnicast y), (IsPrivate y);
    try done. cbn [orb]. rewrite orb_false_r. generalize blockedRanges. intros l.
  induction l as [|r l IH]; [done|]. simpl. by destruct (Contains r.1 y).
Qed.

(** Both sides as disjunctions of intervals with numerals for bounds. *)
Ltac intervals :=
  unfold tests, within, special4, special6, blockedRanges;
  cbn [existsb fst snd Contains IsUnspecified IsLoopback IsMulticast IsLinkLocalUnicast IsPrivate];
  rewrite ?shiftr_eqb by lia;
  repeat match goal with
  | |- context [Z.shiftr ?x ?y] =>
      let v := eval vm_compute in (Z.shiftr x y) in change (Z.shiftr x y) with v
  | |- context [ip4 ?a ?b ?c ?d] =>
      let v := eval vm_compute in (ip4 a b c d) in change (ip4 a b c d) with v
  | |- context [ip6 ?a ?b] =>
      let v := eval vm_compute in (ip6 a b) in change (ip6 a b) with v
  | |- context [2 ^ ?k] => let v := eval vm_compute in (2 ^ k) in change (2 ^ k) with v
  end;
  apply Bool.eq_iff_eq_true;
  repeat rewrite ?orb_true_iff, ?andb_true_iff, ?Z.leb_le, ?Z.ltb_lt, ?Z.eqb_eq;
  split; intros Hi;
  repeat match type of Hi with _ ∨ _ => destruct Hi as [Hi|Hi] end; try done.

Ltac pick := first [lia | left; pick | right; pick].

Lemma tests_special4 a :
  0 <= a < 2 ^ 32 → existsb (λ t, t (V4 a)) tests = within special4 a.
Proof. intros Ha. change (2 ^ 32) with 4294967296 in Ha. intervals; pick. Qed.

Lemma tests_special6 a :
  0 <= a < 2 ^ 128 → existsb (λ t, t (V6 a)) tests = within special6 a.
Proof.
  intros Ha. assert (a < 340282366920938463463374607431768211456) as Ha' by lia.
  destruct Ha as [Ha _]. intervals; pick.
Qed.

Lemma valid_unmap x : valid_addr x → valid_addr (Unmap x).
Proof.
  destruct x as [a|a]; cbn [valid_addr Unmap]; [done|]. intros Ha. destruct (_ =? _); [|done].
  cbn [valid_addr].
  change 0xffffffff with (Z.ones 32). rewrite Z.land_ones by lia. apply Z.mod_pos_bound. lia.
Qed.

Lemma blockInfo_None x : blockInfo x = None ↔ existsb (λ t, t (Unmap x)) tests = false.
Proof.
  pose proof (blockInfo_tests x) as H. revert H.
  generalize (existsb (λ t : Addr → bool, t (Unmap x)) tests). generalize (blockInfo x).
  intros o b <-. rewrite bool_decide_eq_false. apply eq_None_not_Some.
Qed.

Section properties.
Variable ParseAddr : string → option Addr.
Variable ParsePrefix : string → option Prefix.

Lemma first_rejected_None cp ips :
  first_rejected cp ips = None ↔ ∀ ip, ip ∈ ips → checkAddr ip cp = None.
Proof.
  unfold first_rejected. induction ips as [|ip ips IH]; simpl.
  { split; [by intros _ ip ?%elem_of_nil|done]. }
  destruct (checkAddr ip cp) as [r|] eqn:E; simpl.
  - split; [done|]. intros Hall. specialize (Hall ip (list_elem_of_here _ _)). congruence.
  - rewrite IH. split; [|intros Hall x Hx; apply Hall; by right].
    intros Hall x [->|Hx]%elem_of_cons; [done|by apply Hall].
Qed.

Lemma checkAddr_None x cp :
  checkAddr x cp = None ↔ allowPrivate cp = true ∨ addrAllowed cp x = true ∨ blockInfo x = None.
Proof.
  unfold checkAddr. destruct (allowPrivate cp); simpl; [naive_solver|].
  destruct (addrAllowed cp x); simpl; naive_solver.
Qed.

(** The compiled policy keeps the flags, and has no exemption without entries. *)
Lemma compile_entries_flags entries : ∀ cp cp',
  compile_entries ParseAddr ParsePrefix entries cp = Some cp' →
  allowHTTP cp' = allowHTTP cp ∧ allowPrivate cp' = allowPrivate cp.
Proof.
  induction entries as [|raw rest IH]; intros cp cp'; cbn [compile_entries]; cbv zeta; [by intros [= <-]|].
  destruct (_ == _); [done|]. destruct (existsb _ _); [done|].
  destruct (contains _ _).
  - destruct (ParsePrefix _) as [p|]; [|done]. by intros [? ?]%IH.
  - destruct (ParseAddr _) as [[a|a]|]; [by intros [? ?]%IH..|].
    destruct (validHostnameEntry _); [|done]. by intros [? ?]%IH.
Qed.

(** C14. What the delivery client can reach: whenever a request gets as far as
    dialling, the policy was well formed, the URL had no credentials and no
    fragment and used https (or http, where the operator allows it), and either
    the operator exempted the host by name, or every address the name resolved
    to - in the very resolution the dialled address was taken from - is public,
    exempted by the operator, or the operator turned the range check off. In
    particular a name that resolves to a public and to an internal address is
    never dialled. *)
Theorem client_reaches_only_allowed pol lookup u ip :
  RoundTrip ParseAddr ParsePrefix pol lookup u = inr ip →
  ∃ cp ips, compile ParseAddr ParsePrefix pol = Some cp ∧
    (u_Scheme u = "https" ∨ u_Scheme u = "http" ∧ AllowHTTP pol = true) ∧
    u_HasUser u = false ∧ u_HasFragment u = false ∧
    resolveAddrs ParseAddr lookup (u_Hostname u) = Some ips ∧ ip ∈ ips ∧
    (hostAllowed cp (u_Hostname u) = true ∨
     ∀ x, x ∈ ips → AllowPrivate pol = true ∨ addrAllowed cp x = true ∨ blockInfo x = None).
Proof.
  unfold RoundTrip. destruct (compile _ _ pol) as [cp|] eqn:Ec; [|done].
  pose proof (compile_entries_flags _ _ _ Ec) as [Hh Hpr]. simpl in Hh, Hpr.
  destruct (checkURL _ _ _) eqn:Eu; [done|]. intros Hdial. exists cp.
  unfold checkURL in Eu. destruct (negb _) eqn:Es; [done|]. destruct (u_Host u == ""); [done|].
  destruct (u_HasUser u); [done|]. destruct (u_HasFragment u); [done|]. clear Eu.
  apply negb_false_iff, orb_true_iff in Es. rewrite andb_true_iff, !bool_decide_eq_true, Hh in Es.
  unfold DialContext in Hdial. destruct (u_Hostname u == ""); [done|].
  destruct (resolveAddrs ParseAddr lookup (u_Hostname u)) as [[|ip' ips]|]; [done| |done].
  exists (ip' :: ips). destruct (hostAllowed cp (u_Hostname u)).
  - injection Hdial as <-. repeat (split; [done|]). split; [left|by left].
  - destruct (first_rejected cp (ip' :: ips)) eqn:Ef; [done|]. injection Hdial as <-.
    rewrite first_rejected_None in Ef. repeat (split; [done|]). split; [left|right].
    intros x Hx. rewrite <- Hpr. by apply checkAddr_None, Ef.
Qed.
End properties.

(** The classification of addresses, by prefixes and by the predicates of
    net/netip, is the table of special-purpose ranges: an address is let
    through exactly when it lies in none of them, an IPv4-mapped IPv6 address
    being judged as the IPv4 address it carries. *)
Theorem blockInfo_spec x : valid_addr x → blockInfo x = None ↔ special x = false.
Proof.
  intros Hv%valid_unmap. rewrite blockInfo_None. unfold special.
  destruct (Unmap x) as [a|a]; [by rewrite tests_special4|by rewrite tests_special6].
Qed.

(** The gap of the classification: an IPv6 address that embeds an IPv4
    address in the NAT64 prefix 64:ff9b::/96, or as an IPv4-compatible address
    other than :: and ::1, is let through whatever IPv4 address it embeds,
    though a translator on the way delivers it there. *)
Theorem embedded_ipv4_passes a :
  0 <= a < 2 ^ 32 →
  blockInfo (V6 (ip6 0x64 0xff9b + a)) = None ∧ (1 < a → blockInfo (V6 a) = None).
Proof.
  intros Ha. change (2 ^ 32) with 4294967296 in Ha.
  assert (∀ b, 0 <= b < 2 ^ 128 → Z.shiftr b 32 =? 0xffff = false → within special6 b = false →
          blockInfo (V6 b) = None) as Hgen.
  { intros b Hb Hm Hw. apply blockInfo_None. unfold Unmap. rewrite Hm. by rewrite tests_special6. }
  change (ip6 0x64 0xff9b) with 524413980667603649783483181312245760.
  split; [|intros H1]; apply Hgen; try lia;
    try (rewrite shiftr_eqb by lia; change (2 ^ 32) with 4294967296; lia).
  - unfold within, special6, ip6. cbn [existsb fst snd].
    repeat match goal with
    | |- context [Z.shiftl ?x ?y] =>
        let v := eval vm_compute in (Z.shiftl x y) in change (Z.shiftl x y) with v end.
    repeat (apply orb_false_iff; split); [apply andb_false_iff; rewrite ?Z.leb_gt; lia..|done].
  - unfold within, special6, ip6. cbn [existsb fst snd].
    repeat match goal with
    | |- context [Z.shiftl ?x ?y] =>
        let v := eval vm_compute in (Z.shiftl x y) in change (Z.shiftl x y) with v end.
    repeat (apply orb_false_iff; split); [apply andb_false_iff; rewrite ?Z.leb_gt; lia..|done].
Qed.

(** ** Witnesses *)

Definition no_literals (_ : string) : option Addr := None.
Definition no_prefixes (_ : string) : option Prefix := None.
Definition default_policy : Policy := mkPolicy false false [].
Definition hook_url : URL := mkURL "https" "hooks.example.com" "hooks.example.com" false false.
Definition hook_addr : Addr := V4 (ip4 93 184 216 34).
Definition hook_lookup (_ : string) : option (list Addr) := Some [hook_addr].

Lemma client_reaches_only_allowed_witness :
  RoundTrip no_literals no_prefixes default_policy hook_lookup hook_url = inr hook_addr ∧
  blockInfo hook_addr = None.
Proof.
  destruct (RoundTrip no_literals no_prefixes default_policy hook_lookup hook_url) as [e|ip] eqn:E;
    [vm_compute in E; discriminate|].
  destruct (client_reaches_only_allowed no_literals no_prefixes default_policy hook_lookup hook_url ip E)
    as (cp & ips & Hc & _ & _ & _ & _ & Hin & Hall).
  assert (ip = hook_addr) as Hip by (vm_compute in E; injection E as E'; by rewrite <- E').
  assert (hostAllowed cp (u_Hostname hook_url) = false ∧ addrAllowed cp hook_addr = false) as [Hh Ha].
  { vm_compute in Hc. injection Hc as Hc. rewrite <- Hc. by vm_compute. }
  rewrite Hip in Hin |- *. split; [reflexivity|].
  destruct Hall as [Hall|Hall]; [congruence|].
  destruct (Hall _ Hin) as [Hp|[Hp|Hp]]; [discriminate Hp|congruence|exact Hp].
Defined.

Lemma blockInfo_spec_witness : blockInfo (V4 (ip4 169 254 169 254)) ≠ None.
Proof.
  assert (valid_addr (V4 (ip4 169 254 169 254))) as Hv by (split; by vm_compute).
  intros H. apply (proj1 (blockInfo_spec _ Hv)) in H. vm_compute in H. discriminate.
Defined.

Lemma embedded_ipv4_passes_witness : blockInfo (V6 (ip6 0x64 0xff9b + ip4 169 254 169 254)) = None.
Proof.
  assert (0 <= ip4 169 254 169 254 < 2 ^ 32) as Hr by (split; by vm_compute).
  exact (proj1 (embedded_ipv4_passes (ip4 169 254 169 254) Hr)).
Defined.
