(* ===== verification/Inbound.v ===== *)
(** * Inbound webhooks: the receiver

    [internal/inbound/handler.go] and the store behind it in
    [internal/service/inbound_webhooks.go]: a signed request is written to the
    inbox before it is answered. The inbox and the endpoints are two tables of
    their own; the limiter is the memory of one process.

    The digest is a parameter, and so is the environment the secrets are read
    from. *)
From S2P Require Import Prelude GoStrings Status Queries Submission TxRetry.

(** ** Rows *)

Record WebhookEndpoint := mkWebhookEndpoint {
  w_public_id : string;
  w_name : string;
  w_team_id : option string;
  w_enabled : bool;
  w_auth_type : string;
  w_secret_env : string;
  w_signature_header : option string;
  w_signature_prefix : option string;
  w_delivery_id_header : option string;
  w_event_type_header : option string;
  w_accepted_events : option (list string);
  w_action_type : string;
  w_action_prompt : string;
  w_action_agent : option string;
  w_action_timeout_sec : option Z;
}.

Record InboundDelivery := mkInboundDelivery {
  b_endpoint_id : string;
  b_team_id : option string;
  b_delivery_id : option string;
  b_event_type : option string;
  b_source_ip : string;
  b_payload : string;
  b_status : string;
  b_attempts : Z;
  b_max_attempts : Z;
  b_error : option string;
  b_task_id : option string;
  b_lease_expires_at : option time;
  b_next_attempt_at : option time;
  b_processed_at : option time;
  b_created_at : time;
  b_updated_at : time;
}.

Record Inbox := mkInbox {
  webhook_endpoints : gmap string WebhookEndpoint;
  inbound_deliveries : gmap string InboundDelivery;
}.

Definition defaultInboundDeliveryMaxAttempts : Z := 3.

(** ** The store *)

(** The endpoint the receiver works with, its identifier first. *)
Definition GetEndpointByPublicID (publicID : string) (ib : Inbox) : option (string * WebhookEndpoint) :=
  List.find (λ kv, (w_public_id kv.2 == publicID) && w_enabled kv.2) (map_to_list (webhook_endpoints ib)).

Record DeliveryInsert := mkDeliveryInsert {
  di_EndpointID : string;
  di_TeamID : string;
  di_DeliveryID : string;
  di_EventType : string;
  di_SourceIP : string;
  di_Payload : string;
}.

Definition new_inbound (x : DeliveryInsert) (now : time) : InboundDelivery :=
  mkInboundDelivery (di_EndpointID x) (nullString (di_TeamID x)) (nullString (di_DeliveryID x))
    (nullString (di_EventType x)) (di_SourceIP x) (di_Payload x) "pending" 0
    defaultInboundDeliveryMaxAttempts None None None (Some now) None now now.

(** The unique key (endpoint_id, delivery_id), in which NULLs are distinct. *)
Definition same_inbound_key (b b' : InboundDelivery) : bool :=
  (b_endpoint_id b == b_endpoint_id b') &&
  match b_delivery_id b, b_delivery_id b' with Some i, Some i' => i == i' | _, _ => false end.

(** [id] is the random identifier of the row; the boolean is [created]. *)
Definition InsertDelivery (id : string) (x : DeliveryInsert) (now : time) (ib : Inbox)
    : (err + bool) * Inbox :=
  match insert_unique "inbound_deliveries" same_inbound_key id (new_inbound x now)
          (inbound_deliveries ib) with
  | inr m => (inr true, ib{{ inbound_deliveries := m }})
  | inl e => (if isDuplicateKeyError (App e) then inr false else inl e, ib)
  end.

Definition is_pending (endpointID : string) (b : InboundDelivery) : bool :=
  (b_endpoint_id b == endpointID) && one_of ["pending"; "processing"; "retry_wait"] (b_status b).

Definition PendingDeliveryCount (endpointID : string) (ib : Inbox) : Z :=
  Z.of_nat (length (List.filter (λ kv, is_pending endpointID kv.2) (map_to_list (inbound_deliveries ib)))).

(** ** The receiver *)

(** [Config] with its defaults filled in. *)
Record Config := mkConfig {
  MaxBodyBytes : Z;
  RateLimit : Z;
  RateWindow : Z;
  MaxPending : Z;
  SecretEnv : string → option string;
}.

Definition withDefaults (c : Config) : Config :=
  mkConfig (if MaxBodyBytes c <=? 0 then Z.shiftl 1 20 else MaxBodyBytes c)
    (if RateLimit c <=? 0 then 60 else RateLimit c)
    (if RateWindow c <=? 0 then seconds 60 else RateWindow c)
    (if MaxPending c <=? 0 then 200 else MaxPending c)
    (SecretEnv c).

Definition MaxDeliveryIDLength : nat := 128.
Definition MaxEventTypeLength : nat := 128.

Record fixedWindow := mkWindow { start : time; count : Z }.

(** The limiter admits a request, and its state after it. *)
Definition allow (cfg : Config) (publicID : string) (now : time) (limiter : gmap string fixedWindow)
    : bool * gmap string fixedWindow :=
  let fresh := match limiter !! publicID with
               | None => true
               | Some entry => RateWindow cfg <=? now - start entry
               end in
  let entry := if fresh then mkWindow now 0 else default (mkWindow now 0) (limiter !! publicID) in
  let limiter :=
    if fresh
    then <[publicID := entry]> (if (4096 <? size limiter)%nat then ∅ else limiter)
    else limiter in
  if RateLimit cfg <=? count entry then (false, limiter)
  else (true, <[publicID := mkWindow (start entry) (count entry + 1)]> limiter).

(** A request: the body is [None] when reading it fails, a header that is
    absent is empty. *)
Record Request := mkRequest {
  r_path : string;
  r_method : string;
  r_header : string → string;
  r_body : option string;
  r_client : string;
}.

(** Whether each call of the store fails. *)
Record StoreFaults := mkFaults { ff_resolve : bool; ff_count : bool; ff_insert : bool }.

Definition headerValue (r : Request) (name : string) : string :=
  if name == "" then "" else trimSpace (r_header r name).

Definition json_media (contentType : string) : bool :=
  let first := match cut ";"%char contentType with None => contentType | Some (a, _) => a end in
  let mediaType := toLower (trimSpace first) in
  (mediaType == "application/json") || (mediaType == "application/*+json") || hasSuffix mediaType "+json".

Definition clip (n : nat) (s : string) : string :=
  if (n <? String.length s)%nat then take_bytes n s else s.

Section receiver.
Variable hmacSHA256Hex : string → string → string.

Definition authenticated (e : WebhookEndpoint) (secret : string) (r : Request) (body : string) : bool :=
  if w_auth_type e == "hmac_sha256" then
    r_header r (str_of (w_signature_header e))
      == str_of (w_signature_prefix e) ^^ hmacSHA256Hex secret body
  else if w_auth_type e == "bearer" then
    let authz := r_header r "Authorization" in
    hasPrefix authz "Bearer " && (trimSpace (trimPrefix authz "Bearer ") == secret)
  else false.

Definition delivery_of (eid : string) (e : WebhookEndpoint) (r : Request) (body : string) : DeliveryInsert :=
  mkDeliveryInsert eid (str_of (w_team_id e))
    (clip MaxDeliveryIDLength (headerValue r (str_of (w_delivery_id_header e))))
    (clip MaxEventTypeLength (headerValue r (str_of (w_event_type_header e))))
    (r_client r) body.

(** The status code, and the limiter and the inbox after the request. [now] is
    the clock of the limiter, [stamp] that of the row. *)
Definition ServeHTTP (cfg : Config) (ff : StoreFaults) (r : Request) (id : string) (now stamp : time)
    (limiter : gmap string fixedWindow) (ib : Inbox) : Z * gmap string fixedWindow * Inbox :=
  let publicID := trim_slashes (trimPrefix (r_path r) "/hooks/inbound/") in
  if (publicID == "") || contains publicID "/" || (128 <? String.length publicID)%nat
  then (404, limiter, ib)
  else if negb (r_method r == "POST") then (405, limiter, ib)
  else if negb (json_media (r_header r "Content-Type")) then (415, limiter, ib)
  else if ff_resolve ff then (503, limiter, ib)
  else match GetEndpointByPublicID publicID ib with
  | None => (404, limiter, ib)
  | Some (eid, e) =>
    let '(ok, limiter) := allow cfg publicID now limiter in
    if negb ok then (429, limiter, ib)
    else match r_body r with
    | None => (400, limiter, ib)
    | Some full =>
      let body := take_bytes (Z.to_nat (MaxBodyBytes cfg + 1)) full in
      if MaxBodyBytes cfg <? Z.of_nat (String.length body) then (413, limiter, ib)
      else if body == "" then (400, limiter, ib)
      else match SecretEnv cfg (w_secret_env e) with
      | None | Some EmptyString => (503, limiter, ib)
      | Some secret =>
        if negb (authenticated e secret r body) then (401, limiter, ib)
        else if ff_count ff then (503, limiter, ib)
        else if MaxPending cfg <=? PendingDeliveryCount eid ib then (429, limiter, ib)
        else if ff_insert ff then (503, limiter, ib)
        else match InsertDelivery id (delivery_of eid e r body) stamp ib with
             | (inl _, ib') => (503, limiter, ib')
             | (inr _, ib') => (202, limiter, ib')
             end
      end
    end
  end.
End receiver.

(** ** Lemmas: the store *)

Lemma find_endpoint publicID ib eid e :
  GetEndpointByPublicID publicID ib = Some (eid, e) →
  webhook_endpoints ib !! eid = Some e ∧ w_public_id e = publicID ∧ w_enabled e = true.
Proof.
  intros H. apply find_some in H as [Hin Hp]. apply list_elem_of_In, elem_of_map_to_list in Hin.
  by apply andb_true_iff in Hp as [?%bool_decide_eq_true ?].
Qed.

Definition unique_inbound (ib : Inbox) : Prop :=
  ∀ i j b b', inbound_deliveries ib !! i = Some b → inbound_deliveries ib !! j = Some b' →
    same_inbound_key b b' = true → i = j.

Lemma same_inbound_key_spec b b' :
  same_inbound_key b b' = true ↔
  b_endpoint_id b = b_endpoint_id b' ∧ ∃ k, b_delivery_id b = Some k ∧ b_delivery_id b' = Some k.
Proof.
  unfold same_inbound_key. rewrite andb_true_iff, bool_decide_eq_true.
  destruct (b_delivery_id b), (b_delivery_id b'); rewrite ?bool_decide_eq_true; naive_solver.
Qed.

(** An insertion writes the row, or finds the delivery (or the row's identifier)
    in the inbox; it never fails. *)
Lemma InsertDelivery_cases id x now ib r ib' :
  InsertDelivery id x now ib = (r, ib') →
  r = inr true ∧ inbound_deliveries ib !! id = None ∧
    (∀ j b, inbound_deliveries ib !! j = Some b → same_inbound_key (new_inbound x now) b = false) ∧
    ib' = ib{{ inbound_deliveries := <[id := new_inbound x now]> (inbound_deliveries ib) }} ∨
  r = inr false ∧ ib' = ib ∧
    (is_Some (inbound_deliveries ib !! id) ∨
     ∃ j b, inbound_deliveries ib !! j = Some b ∧ same_inbound_key (new_inbound x now) b = true).
Proof.
  unfold InsertDelivery. destruct (insert_unique _ _ _ _ _) as [e|m] eqn:E.
  - intros H. right. assert (e = EDuplicateKey "inbound_deliveries" ∧
      (is_Some (inbound_deliveries ib !! id) ∨
       ∃ j b, inbound_deliveries ib !! j = Some b ∧ same_inbound_key (new_inbound x now) b = true))
      as [-> Hor].
    { unfold insert_unique in E. destruct (exists_row _ _) eqn:Ex.
      - injection E as <-. split; [done|right]. by apply exists_row_spec in Ex.
      - unfold insert_pk in E. destruct (inbound_deliveries ib !! id); [|done].
        injection E as <-. split; [done|left]. by eexists. }
    assert (isDuplicateKeyError (App (EDuplicateKey "inbound_deliveries")) = true) as Hdup by reflexivity.
    rewrite Hdup in H. by injection H as <- <-.
  - intros [= <- <-]. left. by apply insert_unique_inr in E as (? & ? & ->).
Qed.

Lemma insert_replay id x now ib ib' id' now' :
  InsertDelivery id x now ib = (inr true, ib') → di_DeliveryID x ≠ "" →
  ∀ y, di_EndpointID y = di_EndpointID x → di_DeliveryID y = di_DeliveryID x →
  InsertDelivery id' y now' ib' = (inr false, ib').
Proof.
  intros H Hne y He Hd. destruct (InsertDelivery id' y now' ib') as [r ib2] eqn:E.
  destruct (InsertDelivery_cases _ _ _ _ _ _ H) as [(_ & _ & _ & ->)|([=] & _)].
  destruct (InsertDelivery_cases _ _ _ _ _ _ E) as [(_ & _ & Hno & _)|(-> & -> & _)]; [|done].
  specialize (Hno id _ (lookup_insert_eq _ _ _)).
  assert (same_inbound_key (new_inbound y now') (new_inbound x now) = true) as Hc; [|by rewrite Hc in Hno].
  apply same_inbound_key_spec. split; [done|]. exists (di_DeliveryID x).
  cbn [b_delivery_id new_inbound]. unfold nullString, nullif_empty. rewrite Hd.
  by rewrite bool_decide_eq_false_2.
Qed.

Lemma insert_unique_inbound id x now ib r ib' :
  unique_inbound ib → InsertDelivery id x now ib = (r, ib') → unique_inbound ib'.
Proof.
  intros Hu [(_ & Hn & Hno & ->)|(_ & -> & _)]%InsertDelivery_cases; [|done].
  intros i j b b'.
  change (<[id := new_inbound x now]> (inbound_deliveries ib) !! i = Some b →
          <[id := new_inbound x now]> (inbound_deliveries ib) !! j = Some b' →
          same_inbound_key b b' = true → i = j).
  intros [[<- <-]|[Hi Hb]]%lookup_insert_Some [[<- <-]|[Hj Hb']]%lookup_insert_Some Hs; [done| | |by eapply Hu].
  - by rewrite (Hno _ _ Hb') in Hs.
  - apply same_inbound_key_spec in Hs as (He & k & H1 & H2).
    assert (same_inbound_key (new_inbound x now) b = true) as Hc
      by (apply same_inbound_key_spec; split; [done|by exists k]).
    by rewrite (Hno _ _ Hb) in Hc.
Qed.

Lemma pending_count_insert id x now ib :
  inbound_deliveries ib !! id = None →
  PendingDeliveryCount (di_EndpointID x)
    (ib{{ inbound_deliveries := <[id := new_inbound x now]> (inbound_deliveries ib) }})
  = PendingDeliveryCount (di_EndpointID x) ib + 1.
Proof.
  intros Hn. unfold PendingDeliveryCount.
  change (inbound_deliveries (ib{{ inbound_deliveries := ?m }})) with m.
  rewrite (filter_length_perm _ _ _ (map_to_list_insert _ _ _ Hn)). cbn [List.filter snd].
  assert (is_pending (di_EndpointID x) (new_inbound x now) = true) as ->.
  { unfold is_pending. cbn. by rewrite bool_decide_eq_true_2. }
  cbn [length]. lia.
Qed.

Lemma take_bytes_all n s : (String.length (take_bytes n s) < n)%nat → take_bytes n s = s.
Proof.
  unfold take_bytes. revert n.
  induction s as [|c s IH]; intros [|n]; simpl; intros H; try done; [lia|].
  f_equal. apply IH. lia.
Qed.

Lemma authenticated_spec hmac e secret r body :
  authenticated hmac e secret r body = true ↔
  w_auth_type e = "hmac_sha256" ∧
    r_header r (str_of (w_signature_header e)) = str_of (w_signature_prefix e) ^^ hmac secret body ∨
  w_auth_type e = "bearer" ∧ hasPrefix (r_header r "Authorization") "Bearer " = true ∧
    trimSpace (trimPrefix (r_header r "Authorization") "Bearer ") = secret.
Proof.
  unfold authenticated. case_bool_decide as H1; [rewrite bool_decide_eq_true; naive_solver congruence|].
  case_bool_decide as H2; [rewrite andb_true_iff, bool_decide_eq_true; naive_solver congruence|].
  naive_solver.
Qed.

(** What a request that reaches the inbox has passed, and what it does there. *)
Lemma ServeHTTP_cases hmac cfg ff r id now stamp lim ib code lim' ib' :
  ServeHTTP hmac cfg ff r id now stamp lim ib = (code, lim', ib') →
  code ≠ 202 ∧ ib' = ib ∨
  code = 202 ∧ ∃ eid e body secret created,
    GetEndpointByPublicID (trim_slashes (trimPrefix (r_path r) "/hooks/inbound/")) ib = Some (eid, e) ∧
    r_body r = Some body ∧ body ≠ "" ∧ Z.of_nat (String.length body) <= MaxBodyBytes cfg ∧
    SecretEnv cfg (w_secret_env e) = Some secret ∧ secret ≠ "" ∧
    authenticated hmac e secret r body = true ∧
    PendingDeliveryCount eid ib < MaxPending cfg ∧
    InsertDelivery id (delivery_of eid e r body) stamp ib = (inr created, ib').
Proof.
  unfold ServeHTTP. set (publicID := trim_slashes _).
  destruct ((publicID == "") || _ || _); [intros [= <- _ <-]; by left|].
  destruct (negb (r_method r == "POST")); [intros [= <- _ <-]; by left|].
  destruct (negb (json_media _)); [intros [= <- _ <-]; by left|].
  destruct (ff_resolve ff); [intros [= <- _ <-]; by left|].
  destruct (GetEndpointByPublicID publicID ib) as [[eid e]|] eqn:Ee; [|intros [= <- _ <-]; by left].
  destruct (allow cfg publicID now lim) as [ok lim1].
  destruct (negb ok); [intros [= <- _ <-]; by left|].
  destruct (r_body r) as [full|] eqn:Eb; [|intros [= <- _ <-]; by left].
  destruct (Z.ltb_spec (MaxBodyBytes cfg) (Z.of_nat (String.length
    (take_bytes (Z.to_nat (MaxBodyBytes cfg + 1)) full)))) as [|Hlen]; [intros [= <- _ <-]; by left|].
  rewrite take_bytes_all in * by lia.
  destruct (full == "") eqn:Enil; [intros [= <- _ <-]; by left|]. apply bool_decide_eq_false in Enil.
  destruct (SecretEnv cfg (w_secret_env e)) as [secret|] eqn:Es; [|intros [= <- _ <-]; by left].
  destruct (decide (secret = "")) as [->|Hsec]; [intros [= <- _ <-]; by left|].
  intros H. assert ((if negb (authenticated hmac e secret r full) then (401, lim1, ib)
    else if ff_count ff then (503, lim1, ib)
    else if MaxPending cfg <=? PendingDeliveryCount eid ib then (429, lim1, ib)
    else if ff_insert ff then (503, lim1, ib)
    else match InsertDelivery id (delivery_of eid e r full) stamp ib with
         | (inl _, ib') => (503, lim1, ib')
         | (inr _, ib') => (202, lim1, ib')
         end) = (code, lim', ib')) as H' by (by destruct secret). clear H. revert H'.
  destruct (authenticated hmac e secret r full) eqn:Ea; [|intros [= <- _ <-]; by left]. cbn [negb].
  destruct (ff_count ff); [intros [= <- _ <-]; by left|].
  destruct (Z.leb_spec (MaxPending cfg) (PendingDeliveryCount eid ib)); [intros [= <- _ <-]; by left|].
  destruct (ff_insert ff); [intros [= <- _ <-]; by left|].
  destruct (InsertDelivery _ _ _ _) as [[err|created] ib1] eqn:Ei; intros [= <- _ <-].
  - by destruct (InsertDelivery_cases _ _ _ _ _ _ Ei) as [([=] & _)|([=] & _)].
  - right. split; [done|]. exists eid, e, full, secret, created. done.
Qed.

(** ** Properties *)

(** A request is answered 202 only when it is in the inbox: it then came
    for an enabled endpoint, whole, with the endpoint's secret behind its
    signature or its token; the inbox holds the request as a pending row, or
    held one under the same delivery id before; the endpoint's backlog stays
    within its limit; and the same delivery id sent again adds nothing. Every
    other answer leaves the inbox as it was. No two rows ever share a key. *)
Theorem accepted_is_durable hmac cfg ff r id now stamp lim ib code lim' ib' :
  ServeHTTP hmac cfg ff r id now stamp lim ib = (code, lim', ib') →
  inbound_deliveries ib !! id = None →
  (code ≠ 202 → ib' = ib) ∧ (unique_inbound ib → unique_inbound ib') ∧
  (code = 202 → ∃ eid e body secret,
    webhook_endpoints ib !! eid = Some e ∧ w_enabled e = true ∧ r_body r = Some body ∧
    SecretEnv cfg (w_secret_env e) = Some secret ∧ secret ≠ "" ∧
    (w_auth_type e = "hmac_sha256" ∧
       r_header r (str_of (w_signature_header e)) = str_of (w_signature_prefix e) ^^ hmac secret body ∨
     w_auth_type e = "bearer" ∧ hasPrefix (r_header r "Authorization") "Bearer " = true ∧
       trimSpace (trimPrefix (r_header r "Authorization") "Bearer ") = secret) ∧
    PendingDeliveryCount eid ib' <= MaxPending cfg ∧
    let x := delivery_of eid e r body in
    (∃ j b, inbound_deliveries ib' !! j = Some b ∧ b_endpoint_id b = eid ∧
       (j = id ∧ b = new_inbound x stamp ∨
        ib' = ib ∧ di_DeliveryID x ≠ "" ∧ b_delivery_id b = Some (di_DeliveryID x))) ∧
    (di_DeliveryID x ≠ "" → ∀ id2 now2, (InsertDelivery id2 x now2 ib').2 = ib')).
Proof.
  intros H Hid. destruct (ServeHTTP_cases _ _ _ _ _ _ _ _ _ _ _ _ H)
    as [[Hc ->]|(-> & eid & e & body & secret & created & Hf & Hb & _ & _ & Hs & Hne & Ha & Hp & Hi)].
  { done. }
  destruct (find_endpoint _ _ _ _ Hf) as (He & _ & Hen). split; [done|].
  split; [intros Hu; by eapply insert_unique_inbound|]. intros _. exists eid, e, body, secret.
  do 5 (split; [done|]). split; [by apply authenticated_spec in Ha|].
  set (x := delivery_of eid e r body) in *.
  destruct (InsertDelivery_cases _ _ _ _ _ _ Hi)
    as [([= ->] & Hn & _ & ->)|([= ->] & -> & [[y Hy]|(j & b & Hj & Hsame)])]; [|congruence|].
  - split; [pose proof (pending_count_insert id x stamp ib Hn); simpl in *; lia|]. split.
    + exists id, (new_inbound x stamp). split; [apply lookup_insert_eq|]. split; [done|by left].
    + intros Hd id2 now2. by rewrite (insert_replay _ _ _ _ _ id2 now2 Hi Hd x).
  - split; [lia|]. apply same_inbound_key_spec in Hsame as (Heid & k & Hk & Hbk).
    assert (di_DeliveryID x ≠ "" ∧ k = di_DeliveryID x) as [Hd ->].
    { cbn [b_delivery_id new_inbound] in Hk. unfold nullString, nullif_empty in Hk.
      by case_bool_decide; [|injection Hk as <-]. }
    split; [exists j, b; split; [done|]; split; [by rewrite <- Heid|right; done]|].
    intros _ id2 now2. destruct (InsertDelivery id2 x now2 ib) as [r2 ib2] eqn:E2.
    destruct (InsertDelivery_cases _ _ _ _ _ _ E2) as [(_ & _ & Hno & _)|(_ & -> & _)]; [|done].
    specialize (Hno _ _ Hj).
    assert (same_inbound_key (new_inbound x now2) b = true) as Hc; [|by rewrite Hc in Hno].
    apply same_inbound_key_spec. split; [done|]. exists (di_DeliveryID x). split; [|done]. exact Hk.
Qed.

(** A flaw: a delivery id is cut to 128 bytes before it is compared, so two
    different events whose ids agree that far are one delivery. Once the first
    is in the inbox, the second changes nothing, though it may be answered
    202. *)
Theorem long_ids_collide hmac cfg ff1 ff2 r1 r2 id1 id2 now1 now2 stamp1 stamp2 lim1 lim2 ib
    code2 lim1' lim2' ib1 ib2 eid e h :
  ServeHTTP hmac cfg ff1 r1 id1 now1 stamp1 lim1 ib = (202, lim1', ib1) →
  inbound_deliveries ib !! id1 = None →
  GetEndpointByPublicID (trim_slashes (trimPrefix (r_path r1) "/hooks/inbound/")) ib = Some (eid, e) →
  r_path r2 = r_path r1 → w_delivery_id_header e = Some h → h ≠ "" →
  (128 < String.length (trimSpace (r_header r1 h)))%nat →
  (128 < String.length (trimSpace (r_header r2 h)))%nat →
  take_bytes 128 (trimSpace (r_header r1 h)) = take_bytes 128 (trimSpace (r_header r2 h)) →
  ServeHTTP hmac cfg ff2 r2 id2 now2 stamp2 lim2 ib1 = (code2, lim2', ib2) →
  ib2 = ib1.
Proof.
  intros H1 Hid He Hpath Hh Hne Hl1 Hl2 Heq H2.
  assert (∀ r body, (128 < String.length (trimSpace (r_header r h)))%nat →
    di_DeliveryID (delivery_of eid e r body) = take_bytes 128 (trimSpace (r_header r h))) as Hcut.
  { intros r body Hl. cbn [di_DeliveryID delivery_of]. rewrite Hh. unfold headerValue, clip.
    cbn [str_of default from_option]. rewrite bool_decide_eq_false_2 by done.
    by rewrite (proj2 (Nat.ltb_lt _ _)) by exact Hl. }
  destruct (ServeHTTP_cases _ _ _ _ _ _ _ _ _ _ _ _ H1)
    as [[Hc _]|(_ & eid1 & e1 & body1 & secret1 & created1 & Hf1 & _ & _ & _ & _ & _ & _ & _ & Hi1)];
    [done|].
  rewrite He in Hf1. injection Hf1 as <- <-.
  destruct (ServeHTTP_cases _ _ _ _ _ _ _ _ _ _ _ _ H2)
    as [[_ ->]|(_ & eid2 & e2 & body2 & secret2 & created2 & Hf2 & _ & _ & _ & _ & _ & _ & _ & Hi2)];
    [done|].
  assert (webhook_endpoints ib1 = webhook_endpoints ib) as Hwe
    by (destruct (InsertDelivery_cases _ _ _ _ _ _ Hi1) as [(_ & _ & _ & ->)|(_ & -> & _)]; done).
  unfold GetEndpointByPublicID in Hf2. rewrite Hwe, Hpath in Hf2.
  unfold GetEndpointByPublicID in He. rewrite He in Hf2. injection Hf2 as <- <-.
  assert (di_DeliveryID (delivery_of eid e r1 body1) ≠ "") as Hnil.
  { rewrite Hcut by done. intros Hz. apply (f_equal String.length) in Hz. revert Hz.
    unfold take_bytes. rewrite substring_length by lia. done. }
  destruct (InsertDelivery_cases _ _ _ _ _ _ Hi1) as [([= ->] & _)|([= ->] & -> & Hold)].
  - assert (InsertDelivery id2 (delivery_of eid e r2 body2) stamp2 ib1 = (inr false, ib1)) as Hr.
    { apply (insert_replay _ _ _ _ _ id2 stamp2 Hi1 Hnil); [done|]. by rewrite !Hcut. }
    rewrite Hr in Hi2. by injection Hi2 as _ <-.
  - destruct Hold as [[y Hy]|(j & b & Hj & Hsame)]; [congruence|].
    destruct (InsertDelivery_cases _ _ _ _ _ _ Hi2) as [(_ & _ & Hno & _)|(_ & -> & _)]; [|done].
    specialize (Hno _ _ Hj). apply same_inbound_key_spec in Hsame as (Hb & k & Hk & Hbk).
    assert (same_inbound_key (new_inbound (delivery_of eid e r2 body2) stamp2) b = true) as Hc;
      [|by rewrite Hc in Hno].
    apply same_inbound_key_spec. split; [done|]. exists k. split; [|done]. rewrite <- Hk.
    cbn [b_delivery_id new_inbound]. f_equal. by rewrite !Hcut.
Qed.

(** ** The limiter *)

(** The requests of a process, each with its endpoint and its time, and the
    times at which those of one endpoint were admitted. *)
Fixpoint admitted (cfg : Config) (p : string) (rs : list (string * time))
    (limiter : gmap string fixedWindow) : list time :=
  match rs with
  | [] => []
  | (q, now) :: rest =>
    let '(ok, limiter) := allow cfg q now limiter in
    (if (ok : bool) && (q == p) then [now] else []) ++ admitted cfg p rest limiter
  end.

Definition in_interval (t w : Z) (x : Z) : bool := (t <=? x) && (x <? t + w).
Definition admitted_within (t w : Z) (l : list time) : Z :=
  Z.of_nat (length (List.filter (in_interval t w) l)).

Lemma admitted_within_app t w l k :
  admitted_within t w (l ++ k) = admitted_within t w l + admitted_within t w k.
Proof. unfold admitted_within. by rewrite List.filter_app, length_app, Nat2Z.inj_add. Qed.

Lemma admitted_within_one t w x : admitted_within t w [x] = if in_interval t w x then 1 else 0.
Proof. unfold admitted_within. simpl. by destruct (in_interval t w x). Qed.

(** The requests left to an interval of the length of a window, by the window
    the limiter is in. *)
Definition left_over (cfg : Config) (t : Z) (entry : option fixedWindow) : Z :=
  match entry with
  | None => 2 * RateLimit cfg
  | Some e =>
    if start e <=? t - RateWindow cfg then 2 * RateLimit cfg
    else if start e <=? t then 2 * RateLimit cfg - count e
    else if start e <? t + RateWindow cfg then RateLimit cfg - count e
    else 0
  end.

Definition window_ok (cfg : Config) (now : time) (entry : option fixedWindow) : Prop :=
  match entry with None => True | Some e => start e <= now ∧ 0 <= count e <= RateLimit cfg end.

(** A request of another endpoint leaves the window alone while the map does
    not overflow. *)
Lemma allow_other cfg p q now limiter ok limiter' :
  allow cfg q now limiter = (ok, limiter') → q ≠ p → (size limiter <= 4096)%nat →
  limiter' !! p = limiter !! p.
Proof.
  unfold allow. intros H Hne Hsize.
  assert ((4096 <? size limiter)%nat = false) as Hf by (apply Nat.ltb_ge; lia). rewrite Hf in H.
  destruct (match limiter !! q with None => true | Some e => RateWindow cfg <=? now - start e end);
    destruct (_ <=? _); injection H as _ <-; by rewrite ?lookup_insert_ne by done.
Qed.

Lemma allow_dom cfg q now limiter ok limiter' :
  allow cfg q now limiter = (ok, limiter') → dom limiter' ⊆ {[ q ]} ∪ dom limiter.
Proof.
  unfold allow. intros H.
  destruct (match limiter !! q with None => true | Some e => RateWindow cfg <=? now - start e end);
    destruct (_ <=? _); injection H as _ <-; rewrite ?dom_insert_L;
    destruct (4096 <? size limiter)%nat; rewrite ?dom_empty_L; set_solver.
Qed.

Ltac window_cases :=
  cbn [window_ok left_over start count andb]; split; [lia|];
  repeat match goal with |- context [?a <=? ?b] => destruct (Z.leb_spec a b)
                       | |- context [?a <? ?b] => destruct (Z.ltb_spec a b) end;
  cbn [andb]; lia.

(** A request of the endpoint itself pays from what is left. *)
Lemma allow_pays cfg p t now limiter ok limiter' :
  0 < RateLimit cfg → 0 < RateWindow cfg → window_ok cfg now (limiter !! p) →
  allow cfg p now limiter = (ok, limiter') →
  window_ok cfg now (limiter' !! p) ∧
  (if ok && in_interval t (RateWindow cfg) now then 1 else 0) + left_over cfg t (limiter' !! p)
    <= left_over cfg t (limiter !! p).
Proof.
  intros HL HW Hok. unfold allow, in_interval.
  destruct (limiter !! p) as [[s c]|] eqn:E;
    cbn [start count default from_option window_ok id] in *.
  - destruct (Z.leb_spec (RateWindow cfg) (now - s)) as [Hw|Hw]; cbn [start count].
    + rewrite (proj2 (Z.leb_gt (RateLimit cfg) 0)) by lia. intros [= <- <-].
      rewrite lookup_insert_eq. window_cases.
    + destruct (Z.leb_spec (RateLimit cfg) c) as [Hc|Hc]; intros [= <- <-].
      * rewrite E. split; [done|]. cbn [andb]. lia.
      * rewrite lookup_insert_eq. window_cases.
  - rewrite (proj2 (Z.leb_gt (RateLimit cfg) 0)) by lia. intros [= <- <-].
    rewrite lookup_insert_eq. window_cases.
Qed.

Fixpoint ordered (from : time) (rs : list (string * time)) : Prop :=
  match rs with [] => True | (_, now) :: rest => from <= now ∧ ordered now rest end.

Lemma window_later cfg now now' entry :
  now <= now' → window_ok cfg now entry → window_ok cfg now' entry.
Proof. destruct entry as [e|]; simpl; [lia|done]. Qed.

Lemma left_over_nonneg cfg t now entry :
  0 < RateLimit cfg → window_ok cfg now entry → 0 <= left_over cfg t entry.
Proof.
  intros HL. destruct entry as [e|]; cbn [left_over window_ok]; [|lia]. intros [_ Hc].
  repeat match goal with |- context [if ?b then _ else _] => destruct b end; lia.
Qed.

Lemma admitted_budget cfg p t (names : gset string) rs : ∀ from limiter,
  0 < RateLimit cfg → 0 < RateWindow cfg → (size names <= 4096)%nat →
  (∀ q now, (q, now) ∈ rs → q ∈ names) → dom limiter ⊆ names →
  ordered from rs → window_ok cfg from (limiter !! p) →
  admitted_within t (RateWindow cfg) (admitted cfg p rs limiter) <= left_over cfg t (limiter !! p).
Proof.
  induction rs as [|[q now] rs IH]; intros from limiter HL HW Hn Hin Hdom Hord Hok.
  { simpl. by eapply left_over_nonneg. }
  destruct Hord as [Hle Hord]. apply (window_later _ _ now) in Hok; [|done]. cbn [admitted].
  destruct (allow cfg q now limiter) as [ok limiter'] eqn:E.
  assert (dom limiter' ⊆ names) as Hdom'.
  { apply allow_dom in E. assert (q ∈ names) by (eapply Hin; left). set_solver. }
  assert (∀ q now, (q, now) ∈ rs → q ∈ names) as Hin' by (intros; eapply Hin; by right).
  rewrite admitted_within_app. destruct (decide (q = p)) as [->|Hne].
  - destruct (allow_pays cfg p t now limiter ok limiter' HL HW Hok E) as [Hok' Hpay].
    specialize (IH now limiter' HL HW Hn Hin' Hdom' Hord Hok').
    rewrite (bool_decide_eq_true_2 (p = p)) by done. rewrite andb_true_r.
    destruct ok; [rewrite admitted_within_one|]; cbn [andb] in Hpay; [lia|].
    change (admitted_within t (RateWindow cfg) []) with 0. lia.
  - rewrite (bool_decide_eq_false_2 (q = p)) by done. rewrite andb_false_r.
    change (admitted_within t (RateWindow cfg) []) with 0.
    assert (size limiter <= 4096)%nat as Hs
      by (rewrite <- size_dom; etrans; [by apply subseteq_size|done]).
    assert (limiter' !! p = limiter !! p) as Heq by (by eapply allow_other).
    rewrite <- Heq. apply (IH now); try done. by rewrite Heq.
Qed.

(** The rate limit holds in every stretch of time, not only in the windows
    the limiter counts in: between any two moments that are a window apart, at
    most twice the configured number of requests of an endpoint pass, whatever
    the requests of the other endpoints, as long as the process has seen no
    more than 4096 of them. *)
Theorem rate_limit_bounds cfg p t (names : gset string) rs from :
  (size names <= 4096)%nat → (∀ q now, (q, now) ∈ rs → q ∈ names) → ordered from rs →
  let cfg := withDefaults cfg in
  admitted_within t (RateWindow cfg) (admitted cfg p rs ∅) <= 2 * RateLimit cfg.
Proof.
  intros Hn Hin Hord cfg'.
  assert (0 < RateLimit cfg' ∧ 0 < RateWindow cfg') as [HL HW].
  { unfold cfg', withDefaults. cbn [RateLimit RateWindow]. unfold seconds.
    destruct (Z.leb_spec (RateLimit cfg) 0), (Z.leb_spec (RateWindow cfg) 0); lia. }
  pose proof (admitted_budget cfg' p t names rs from ∅ HL HW Hn Hin) as H.
  rewrite lookup_empty in H. cbn [left_over] in H. apply H; [set_solver|done|done].
Qed.

(** ** Witnesses *)

Definition sample_endpoint : WebhookEndpoint :=
  mkWebhookEndpoint "pub1" "deploys" (Some "team1") true "hmac_sha256" "HOOK_SECRET" (Some "X-Sig")
    (Some "sha256=") (Some "X-Id") (Some "X-Event") None "create_task" "look into it" None None.

Definition sample_inbox (ds : gmap string InboundDelivery) : Inbox :=
  mkInbox {[ "e1" := sample_endpoint ]} ds.

Definition sample_hook : Config :=
  withDefaults (mkConfig 0 2 0 0 (λ name, if name == "HOOK_SECRET" then Some "k" else None)).

Definition toy_digest (secret body : string) : string := secret ^^ ":" ^^ body.

Definition hook_request (deliveryID : string) : Request :=
  mkRequest "/hooks/inbound/pub1" "POST"
    (λ name, if name == "Content-Type" then "application/json"
             else if name == "X-Sig" then "sha256=k:{}"
             else if name == "X-Id" then deliveryID
             else if name == "X-Event" then "deploy" else "")
    (Some "{}") "10.0.0.1".

Definition no_faults : StoreFaults := mkFaults false false false.

(** 130 bytes, of which the last is given. *)
Definition long_id (c : ascii) : string :=
  String.concat "" (replicate 129 "x") ^^ String c "".

Lemma accepted_is_durable_witness :
  ∃ lim ib, ServeHTTP toy_digest sample_hook no_faults (hook_request "d1") "row1" 5 6 ∅ (sample_inbox ∅)
      = (202, lim, ib) ∧
    ∃ b, inbound_deliveries ib !! "row1" = Some b ∧ b_status b = "pending".
Proof.
  destruct (ServeHTTP toy_digest sample_hook no_faults (hook_request "d1") "row1" 5 6 ∅ (sample_inbox ∅))
    as [[code lim] ib] eqn:E.
  destruct (accepted_is_durable toy_digest sample_hook no_faults (hook_request "d1") "row1" 5 6 ∅
    (sample_inbox ∅) code lim ib E eq_refl) as (_ & _ & Hacc).
  assert (code = 202) as ->.
  { apply (f_equal (λ r, r.1.1)) in E. vm_compute in E. by rewrite <- E. }
  exists lim, ib. split; [reflexivity|].
  destruct (Hacc eq_refl) as (eid & e & body & secret & _ & _ & _ & _ & _ & _ & _ &
    (j & b & Hj & _ & [[-> ->]|(-> & _)]) & _); [by eexists|discriminate].
Defined.

Lemma long_ids_collide_witness :
  long_id "a" ≠ long_id "b" ∧
  ∃ lim1 ib1 lim2,
    ServeHTTP toy_digest sample_hook no_faults (hook_request (long_id "a")) "row1" 5 6 ∅ (sample_inbox ∅)
      = (202, lim1, ib1) ∧
    ServeHTTP toy_digest sample_hook no_faults (hook_request (long_id "b")) "row2" 7 8 lim1 ib1
      = (202, lim2, ib1).
Proof.
  split; [by vm_compute|].
  destruct (ServeHTTP toy_digest sample_hook no_faults (hook_request (long_id "a")) "row1" 5 6 ∅
    (sample_inbox ∅)) as [[code1 lim1] ib1] eqn:E1.
  assert (code1 = 202) as ->.
  { apply (f_equal (λ r, r.1.1)) in E1. vm_compute in E1. by rewrite <- E1. }
  exists lim1, ib1.
  destruct (ServeHTTP toy_digest sample_hook no_faults (hook_request (long_id "b")) "row2" 7 8 lim1 ib1)
    as [[code2 lim2] ib2] eqn:E2.
  assert (code2 = 202) as ->.
  { pose proof (f_equal (λ r, r.1.2) E1) as Hl. pose proof (f_equal snd E1) as Hi.
    cbn [fst snd] in Hl, Hi. rewrite <- Hl, <- Hi in E2.
    apply (f_equal (λ r, r.1.1)) in E2. vm_compute in E2. by rewrite <- E2. }
  exists lim2. split; [reflexivity|]. repeat f_equal.
  apply (long_ids_collide toy_digest sample_hook no_faults no_faults (hook_request (long_id "a"))
    (hook_request (long_id "b")) "row1" "row2" 5 7 6 8 ∅ lim1 (sample_inbox ∅) 202 lim1 lim2 ib1 ib2
    "e1" sample_endpoint "X-Id" E1); [reflexivity..|discriminate| | |reflexivity|exact E2];
    vm_compute; lia.
Defined.

Lemma rate_limit_bounds_witness :
  admitted_within 0 (RateWindow sample_hook)
    (admitted sample_hook "pub1" [("pub1", 1); ("pub1", 2); ("pub1", 3)] ∅) = 2 ∧
  admitted_within 0 (RateWindow sample_hook)
    (admitted sample_hook "pub1" [("pub1", 1); ("pub1", 2); ("pub1", 3)] ∅) <= 4.
Proof.
  split; [reflexivity|].
  apply (rate_limit_bounds sample_hook "pub1" 0 {[ "pub1" ]} [("pub1", 1); ("pub1", 2); ("pub1", 3)] 0).
  - vm_compute. lia.
  - intros q now Hin. apply list_elem_of_In in Hin. simpl in Hin. set_solver.
  - simpl. lia.
Defined.
