(* ===== verification/Lifecycle.v ===== *)
(** * The life of a task

    The control plane as one transition system: every handler and every pass of
    the reaper that writes to the task tables is a step, in any order and with
    any arguments. What holds of every run of it is proved here by induction on
    the run, from the preorders of Evolution.v. *)
From S2P Require Import Prelude GoStrings Status Repos Redact Db Queries Auth Outbox Sample.
From S2P Require Import Evolution Claim RunnerEvent Heartbeat Reaper Validation Submission Cancel.
From S2P Require Import CallbackDelivery.

Lemma attempt_status_not_pending st : executionAttemptStatus st ≠ "pending".
Proof. unfold executionAttemptStatus. by repeat case_match. Qed.

Lemma redacted_status p e : event_status (redacted p e) = event_status e.
Proof. unfold redacted. by destruct (cachedRedactSet _ _). Qed.

(** ** The transition system *)

Section system.
Context `{Outbox}.

(** [allowed] is what the runners report. *)
Inductive step (allowed : string → Prop) (db : DB) : DB → Prop :=
| step_claim peekFails skip runnerID lease now eventID claimID ids r db' pub :
    claimOnce peekFails skip runnerID lease now eventID claimID ids db = (r, db', pub) →
    step allowed db db'
| step_event runnerID eventID chkID now dbnow ids e p r db' p' pub :
    allowed (event_status e) →
    recordTaskEvent runnerID eventID chkID now dbnow ids e db p = (r, db', p', pub) →
    step allowed db db'
| step_heartbeat auditing dbFails now info cmds db' :
    Heartbeat auditing dbFails now info db = (cmds, db') → step allowed db db'
| step_register auditing now info :
    step allowed db (RegisterRunner auditing now info db).2
| step_drain now runnerID : step allowed db (RequestDrain now runnerID db)
| step_reap_drains now grace : step allowed db (reapStaleRunnerDrains now grace db).2
| step_reap_leases autoRecovery draws now r db' :
    reapExpiredLeases autoRecovery draws now db = (r, db') → step allowed db db'
| step_reap_resumes now dbnow r db' :
    reapUnavailablePinnedResumeTasks now dbnow db = (r, db') → step allowed db db'
| step_reap_isolation now dbnow r db' :
    reapIsolationUnavailableTasks now dbnow db = (r, db') → step allowed db db'
| step_reap_prompts dbnow : step allowed db (reapStaleUserPrompts dbnow db)
| step_reap_sessions now : step allowed db (reapExpiredSessions now db).2
| step_reap_artifacts dbnow ttl : step allowed db (reapExpiredSessionArtifacts dbnow ttl db).2
| step_reap_stale now dbnow grace : step allowed db (ReapStaleTasks now dbnow grace db).2
| step_submit cfg L scope trigger ids now q sets r sets' db' :
    SubmitTask cfg L scope trigger ids now q sets db = (r, sets', db') → step allowed db db'
| step_recover cfg scope outside taskID custom ids draws now r db' :
    RecoverTask cfg scope outside taskID custom ids draws now db = (r, db') → step allowed db db'
| step_rerun cfg scope outside taskID ids now r db' :
    RerunTask cfg scope outside taskID ids now db = (r, db') → step allowed db db'
| step_resume cfg L scope dbnow outside sessionID prompt timeout ids now r db' :
    ResumeAgentSession cfg L scope dbnow outside sessionID prompt timeout ids now db = (r, db') →
    step allowed db db'
| step_cancel scope outside taskID reason now tf r db' :
    CancelTask scope outside taskID reason now tf db = (r, db') → step allowed db db'
| step_extend scope outside taskID sec now r db' :
    ExtendTaskTimeout scope outside taskID sec now db = (r, db') → step allowed db db'
| step_clear scope now r db' : ClearQueue scope now db = (r, db') → step allowed db db'
| step_claim_deliveries skip now : step allowed db (claimDueCallbackDeliveries skip now db).2
| step_deliver_http id d answer now : step allowed db (deliver_http id d answer now db)
| step_deliver_task sp taskIDOf ids id d snapshot now sets :
    step allowed db (deliverCreateTaskCallback sp taskIDOf ids id d snapshot now sets db).2
| step_retry_delivery scope deliveryID now :
    step allowed db (RetryCallbackDelivery scope deliveryID now db).2.

Definition reaches (allowed : string → Prop) : DB → DB → Prop := rtc (step allowed).

(** ** The transactions follow [evolves] *)

#[local] Instance ev_claim skip runnerID iso lease now eventID claimID ids :
  Follows evolves (claim_tx skip runnerID iso lease now eventID claimID ids).
Proof. unfold claim_tx, claim_select, claim_mark. follow. Qed.

#[local] Instance ev_pause status runnerID ck cn now e :
  Follows evolves (pause_session status runnerID ck cn now e).
Proof. unfold pause_session. follow. Qed.

#[local] Instance ev_finish runnerID chkID now e rs ss :
  Follows evolves (finish_run runnerID chkID now e rs ss).
Proof. unfold finish_run. follow. Qed.

#[local] Instance ev_store_event runnerID eventID now ids e :
  Follows evolves (store_event runnerID eventID now ids e).
Proof. unfold store_event. follow. Qed.

#[local] Instance ev_record runnerID eventID chkID now dbnow ids skip e :
  Follows evolves (record_tx runnerID eventID chkID now dbnow ids skip e).
Proof.
  pose proof (ev_UpdateAttempt dbnow (attempt_params runnerID now e)
                (attempt_status_not_pending (event_status e))).
  unfold record_tx, check_owner. follow.
Qed.

#[local] Instance ev_reclaim outside d now c : Follows evolves (reclaim_one outside d now c).
Proof. unfold reclaim_one, reclaim_rows, reclaim_events. follow. Qed.

#[local] Instance ev_reclaim_all outside draws n now cs :
  Follows evolves (reclaim_all outside draws n now cs).
Proof. revert n. induction cs; intros n; simpl; follow. Qed.

#[local] Instance ev_reap_leases auto outside draws now :
  Follows evolves (reap_leases_tx auto outside draws now).
Proof. unfold reap_leases_tx. follow. Qed.

#[local] Instance ev_submit_rows cfg p ids now : Follows evolves (submit_rows cfg p ids now).
Proof. unfold submit_rows. follow. Qed.

#[local] Instance ev_recover_rows cfg taskID teamID prompt ids draws now :
  Follows evolves (recover_rows cfg taskID teamID prompt ids draws now).
Proof. unfold recover_rows. follow. Qed.

#[local] Instance ev_rerun_rows orig session timeout ids now :
  Follows evolves (rerun_rows orig session timeout ids now).
Proof. unfold rerun_rows. follow. Qed.

#[local] Instance ev_resume_rows sessionID taskID prompt runnerID timeout ids now :
  Follows evolves (resume_rows sessionID taskID prompt runnerID timeout ids now).
Proof. unfold resume_rows. follow. Qed.

#[local] Instance ev_cancel taskID reason now : Follows evolves (cancel_tx taskID reason now).
Proof. unfold cancel_tx. follow. Qed.

(** ** The steps that move no task and no attempt to another status *)

Lemma calm_upsert auditing now info db : calm db (upsertRunner auditing now info db).2.
Proof. unfold upsertRunner. destruct (_ == _); [reflexivity|by apply calm_tables]. Qed.

Lemma calm_execution_command runnerID now rows x db :
  calm db (execution_command runnerID now rows x db).2.
Proof.
  unfold execution_command. destruct (List.find _ _) as [row|]; [|reflexivity].
  destruct (negb _); [reflexivity|]. destruct (stop_reason row); [reflexivity|].
  destruct (RenewExecutionAttemptLease _ _ _ _ _ _ db) as [n db'] eqn:E. simpl.
  change db' with (n, db').2. rewrite <- E. apply calm_stmt; exact _.
Qed.

Lemma calm_execution_commands runnerID now rows xs : ∀ db,
  calm db (execution_commands runnerID now rows xs db).2.
Proof.
  induction xs as [|x xs IH]; intros db; simpl; [reflexivity|].
  pose proof (calm_execution_command runnerID now rows x db) as H1.
  destruct (execution_command _ _ _ _ _) as [cmds db1].
  pose proof (IH db1) as H2. destruct (execution_commands _ _ _ _ _) as [cmds' db2].
  by transitivity db1.
Qed.

Lemma calm_heartbeat auditing dbFails now info db :
  calm db (Heartbeat auditing dbFails now info db).2.
Proof.
  unfold Heartbeat. pose proof (calm_upsert auditing now info db) as H1.
  destruct (upsertRunner _ _ _ _) as [[e|r] db1]; [done|]. transitivity db1; [done|].
  unfold runnerCommands.
  destruct (drain_commands_frame dbFails info db1) as [m Hm].
  destruct (drain_commands _ _ _) as [cmds db2]. simpl in Hm.
  assert (calm db1 db2) as H2 by (rewrite Hm; by apply calm_tables).
  destruct (i_CurrentExecutions info) as [|x xs]; [done|]. transitivity db2; [done|].
  pose proof (calm_execution_commands (i_RunnerId info) now
    (ListExecutionAttemptsForHeartbeat (runningExecutionAttemptIDs (x :: xs)) (i_RunnerId info) db2)
    (x :: xs) db2) as H3.
  destruct (execution_commands _ _ _ _ _) as [cmds' db3]. done.
Qed.

Lemma calm_three u1 u2 u3 db :
  StmtFollows calm u1 → StmtFollows calm u2 → StmtFollows calm u3 →
  calm db (u3 (u2 (u1 db).2).2).2.
Proof. intros H1 H2 H3. by rewrite <- (H3 _), <- (H2 _), <- (H1 _). Qed.

Lemma calm_prompts dbnow db : calm db (reapStaleUserPrompts dbnow db).
Proof.
  exact (calm_three (ReapStaleUserPrompts dbnow) (RevertOrphanedRunningUserPrompts dbnow)
           (ReapStaleSessionsForTerminalRuns dbnow) db _ _ _).
Qed.

Lemma calm_artifacts dbnow ttl db : calm db (reapExpiredSessionArtifacts dbnow ttl db).2.
Proof.
  unfold reapExpiredSessionArtifacts. destruct (_ <=? _); [reflexivity|].
  exact (calm_three (ClearExpiredSessionCheckpoints dbnow (ttl / seconds 1))
           (ClearExpiredUserPromptExports dbnow (ttl / seconds 1))
           (ClearExpiredExecutionAttemptExports dbnow (ttl / seconds 1)) db _ _ _).
Qed.

Lemma calm_run {A} (m : tx DB A) db r db' :
  Follows calm m → run_tx m db = (r, db') → calm db db'.
Proof. apply follows_run; exact _. Qed.

#[local] Instance calm_extend x up id : Follows calm (ExtendActiveExecutionAttemptTimeout x up id).
Proof.
  intros db n db' Hx. split.
  - by apply (ev_Extend x up id db n).
  - by apply (quiet_extend x up id db n).
Qed.

Lemma calm_extend_task scope outside taskID sec now db r db' :
  ExtendTaskTimeout scope outside taskID sec now db = (r, db') → calm db db'.
Proof.
  unfold ExtendTaskTimeout. destruct (_ <=? _); [by intros [= _ <-]|].
  destruct (taskForToolAccess _ _ _); [by intros [= _ <-]|].
  destruct (run_tx _ _) as [[e|rows] db1] eqn:E; apply calm_run in E; try exact _.
  - by intros [= _ <-].
  - by destruct (rows =? 0); intros [= _ <-].
Qed.

(** Deliveries are no part of the work. *)
Lemma calm_deliveries u : StmtFollows calm (on_deliveries u).
Proof. intros db. by apply calm_tables. Qed.

Lemma calm_claim_deliveries skip now db : calm db (claimDueCallbackDeliveries skip now db).2.
Proof.
  unfold claimDueCallbackDeliveries. simpl. generalize (select_due skip now db).
  intros l. revert db. induction l as [|x l IH]; intros db; simpl; [reflexivity|].
  rewrite <- IH. apply calm_deliveries.
Qed.

Lemma calm_complete id child now db : calm db (completeCallbackDelivery id child now db).
Proof. apply calm_deliveries. Qed.

Lemma calm_fail id d now terminal cause db : calm db (failCallbackDelivery id d now terminal cause db).
Proof. apply calm_deliveries. Qed.

Lemma calm_deliver_http id d answer now db : calm db (deliver_http id d answer now db).
Proof. destruct answer; [apply calm_complete|apply calm_fail..]. Qed.

Lemma calm_retry scope deliveryID now db : calm db (RetryCallbackDelivery scope deliveryID now db).2.
Proof.
  unfold RetryCallbackDelivery. cbv zeta. destruct (negb _); [reflexivity|].
  destruct (_ == _); [reflexivity|]. destruct (_ !! _); [|reflexivity].
  pose proof (calm_deliveries (update_pk (trimSpace deliveryID)
    (λ d, one_of ["failed"; "dead_letter"] (d_status d)) (reset_for_retry now)) db) as Hc.
  destruct (_ =? 0); exact Hc.
Qed.

(** ** Every step evolves *)

Lemma ev_run {A} (m : tx DB A) db r db' :
  Follows evolves m → run_tx m db = (r, db') → evolves db db'.
Proof. apply follows_run; exact _. Qed.

#[local] Instance ev_admission {A} cfg (m : tx DB A) :
  Follows evolves m → Follows evolves (withPendingTaskAdmission cfg m).
Proof. intros Hm. unfold withPendingTaskAdmission. follow. Qed.

Lemma ev_trigger_rows p trigger run db : evolves db (record_trigger_run p trigger run db).
Proof. unfold record_trigger_run. by destruct (_ && _); apply evolves_tables. Qed.

Lemma ev_submit cfg L scope trigger ids now q sets db r sets' db' :
  SubmitTask cfg L scope trigger ids now q sets db = (r, sets', db') → evolves db db'.
Proof.
  unfold SubmitTask. destruct (prepare_submission _ _ _ _ _) as [e|p]; [by intros [= _ _ <-]|].
  destruct (run_tx _ _) as [[e|t] db1] eqn:E; apply ev_run in E; try exact _; intros [= _ _ <-];
    [done|]. etransitivity; [exact E|apply ev_trigger_rows].
Qed.

Lemma ev_spawn sp ids now ev name cfg taskID sets db r sets' db' :
  spawnCreateTaskFromEvent sp ids now ev name cfg taskID sets db = (r, sets', db') → evolves db db'.
Proof.
  unfold spawnCreateTaskFromEvent. destruct (_ == _); [by intros [= _ _ <-]|].
  destruct (sp_render _ _ _) as [e|prompt]; [by intros [= _ _ <-]|].
  destruct (GetTaskByID _ _) as [source|]; [|by intros [= _ _ <-]]. cbv zeta.
  destruct (_ && _).
  - destruct (run_tx _ _) as [[e|u] db1] eqn:E; apply ev_run in E; try exact _;
      by intros [= _ _ <-].
  - destruct (SubmitTask _ _ _ _ _ _ _ _ _) as [[[e|t] sets1] db1] eqn:E; apply ev_submit in E;
      by intros [= _ _ <-].
Qed.

Lemma ev_deliver_task sp taskIDOf ids id d snapshot now sets db :
  evolves db (deliverCreateTaskCallback sp taskIDOf ids id d snapshot now sets db).2.
Proof.
  unfold deliverCreateTaskCallback. destruct snapshot as [sn|]; [|apply calm_fail].
  destruct (spawnCreateTaskFromEvent _ _ _ _ _ _ _ _ _) as [[[e|u] sets1] db1] eqn:E;
    apply ev_spawn in E; (etransitivity; [exact E|]); [|apply calm_complete].
  destruct (_ && _); [apply calm_complete|apply calm_fail].
Qed.

Lemma ev_cancel_task scope outside taskID reason now tf db r db' :
  CancelTask scope outside taskID reason now tf db = (r, db') → evolves db db'.
Proof.
  unfold CancelTask. destruct (taskForToolAccess _ _ _); [by intros [= _ <-]|].
  destruct (run_tx _ _) as [[e|u] db1] eqn:E; apply ev_run in E; try exact _; intros [= _ <-];
    [done|]. etransitivity; [exact E|]. by destruct tf; apply evolves_tables.
Qed.

Lemma ev_reap_stale now dbnow grace db : evolves db (ReapStaleTasks now dbnow grace db).2.
Proof.
  unfold ReapStaleTasks. cbv zeta. etransitivity; [|apply evolves_tasks_where; intros ? ?; by case_match].
  apply evolves_attempts_where. intros id a _ [Ha%bool_decide_eq_true _]%andb_true_iff.
  by apply le_running.
Qed.

Lemma ev_recover cfg scope outside taskID custom ids draws now db r db' :
  RecoverTask cfg scope outside taskID custom ids draws now db = (r, db') → evolves db db'.
Proof.
  unfold RecoverTask. destruct (taskForToolAccess _ _ _); [by intros [= _ <-]|].
  destruct (negb _); [by intros [= _ <-]|]. apply ev_run. exact _.
Qed.

Lemma ev_rerun cfg scope outside taskID ids now db r db' :
  RerunTask cfg scope outside taskID ids now db = (r, db') → evolves db db'.
Proof.
  unfold RerunTask. destruct (taskForToolAccess _ _ _); [by intros [= _ <-]|].
  destruct (negb _); [by intros [= _ <-]|].
  destruct (GetAgentSessionByTaskID _ _); [|by intros [= _ <-]].
  destruct (GetUserPromptByTaskID _ _); [|by intros [= _ <-]]. apply ev_run. exact _.
Qed.

Lemma ev_resume cfg L scope dbnow outside sessionID prompt timeout ids now db r db' :
  ResumeAgentSession cfg L scope dbnow outside sessionID prompt timeout ids now db = (r, db') →
  evolves db db'.
Proof.
  intros [(e & _ & ->)|(s & t & run & tm & _ & _ & Hr & _)]%resume_cases; [reflexivity|].
  by eapply (ev_resume_rows _ _ _ _ _ _ _ db t).
Qed.

Lemma step_evolves allowed db db' : step allowed db db' → evolves db db'.
Proof.
  destruct 1.
  - (* claim *)
    revert H0. unfold claimOnce. destruct (_ == _); [by intros [= _ <- _]|].
    destruct (_ && _); [by intros [= _ <- _]|]. cbv zeta.
    destruct (run_tx _ _) as [[e|c] db1] eqn:E; apply ev_run in E; try exact _;
      by intros [= _ <- _].
  - destruct r as [er|].
    + apply recordTaskEvent_cases in H1 as [(_ & -> & _)|(? & _)]; [reflexivity|done].
    + apply recordTaskEvent_cases in H1 as [(_ & -> & _)|(_ & _ & skip & b & Htx & _)]; [reflexivity|].
      by eapply (ev_record runnerID eventID chkID now dbnow ids skip _ db b).
  - pose proof (calm_heartbeat auditing dbFails now info db) as [He _]. by rewrite H0 in He.
  - apply calm_upsert.
  - unfold RequestDrain, requestRunnerDrainDB. destruct (_ !! _); by apply evolves_tables.
  - by apply evolves_tables.
  - eapply ev_run; [|exact H0]. exact _.
  - eapply ev_run; [|exact H0]. follow.
  - eapply ev_run; [|exact H0]. follow.
  - apply calm_prompts.
  - apply (ev_ExpirePausedSessions now now now db).
  - apply calm_artifacts.
  - apply ev_reap_stale.
  - by eapply ev_submit.
  - by eapply ev_recover.
  - by eapply ev_rerun.
  - by eapply ev_resume.
  - by eapply ev_cancel_task.
  - by eapply calm_extend_task.
  - revert H0. unfold ClearQueue. destruct (negb _); [by intros [= _ <-]|]. apply ev_run. follow.
  - apply calm_claim_deliveries.
  - apply calm_deliver_http.
  - apply ev_deliver_task.
  - apply calm_retry.
Qed.

Lemma reaches_evolves allowed db db' : reaches allowed db db' → evolves db db'.
Proof.
  induction 1 as [|db db1 db2 Hs _ IH]; [reflexivity|].
  etransitivity; [by eapply step_evolves|exact IH].
Qed.

(** ** Every step keeps the work coherent *)

Lemma not_live st : st ≠ "pending" → st ≠ "running" → ¬ live st.
Proof. by intros ? ? []. Qed.

Lemma coherent_claim skip runnerID claimID eventID iso lease now db db' c :
  claim_effect skip runnerID claimID eventID iso lease now db db' c →
  evolves db db' → coherent db → coherent db'.
Proof.
  intros [Hsel Hatt Htk _ _] He Hc. destruct Hsel as [Ha Ht Hp _ (Hl1 & Hl2 & _) _ _ _ _ _ _ _].
  apply (coherent_one (ce_TaskID c) db); [done..| | |].
  - intros k Hk. rewrite Htk. by apply other_tasks.
  - intros id a Hid Hn. rewrite Hatt. destruct (decide (id = ce_AttemptID c)) as [->|Hne].
    + destruct Hn. assert (a = ce_Attempt c) as -> by congruence.
      apply task_of_Some. exists (ce_Prompt c). by rewrite Hl1.
    + by rewrite lookup_insert_ne, Hid.
  - intros t' Ht' Hlive. rewrite Htk, lookup_insert_eq in Ht'. injection Ht' as <-.
    destruct (ev_prompts _ _ He _ _ Hp) as (p' & Hp' & Htid & _). rewrite <- Hl2, <- Htid.
    eapply (working_intro _ (ce_AttemptID c) _ (ce_PromptID c));
      [rewrite Hatt; apply lookup_insert_eq|done|exact Hl1|exact Hp'].
Qed.

Lemma coherent_record runnerID now dbnow skip eventID e db db' a pr t :
  event_status e ≠ "pending" →
  accepted runnerID dbnow e db a pr t →
  record_effect runnerID now dbnow skip eventID e db db' a t →
  evolves db db' → coherent db → coherent db'.
Proof.
  intros Hst [Ha Hp (Hl1 & _ & Hl3) _ Ht _] [Hatt _ (t1 & Ht1 & Heq) Hother _ _] He Hc.
  assert (t_status t1 = event_status e) as Ht1s by (by rewrite Heq).
  apply (coherent_one (re_TaskId e) db); [done..| | |].
  - intros k Hk. by rewrite Hother.
  - intros id b Hid Hn. rewrite Hatt. destruct (decide (id = re_ExecutionId e)) as [->|Hne].
    + destruct Hn. assert (b = a) as -> by congruence. apply task_of_Some. by exists pr.
    + by rewrite lookup_insert_ne, Hid.
  - intros t' Ht' Hlive. assert (t' = t1) as -> by congruence. rewrite Ht1s in Hlive |- *.
    destruct Hlive as [?|Hrun]; [done|].
    destruct (ev_prompts _ _ He _ _ Hp) as (p' & Hp' & Htid & _). rewrite <- Hl1, <- Htid.
    eapply (working_intro _ (re_ExecutionId e) _ (a_user_prompt_id a));
      [rewrite Hatt; apply lookup_insert_eq| |done|exact Hp'].
    change (executionAttemptStatus (event_status e) = event_status e). by rewrite Hrun.
Qed.

Lemma coherent_reclaimed d now c n db db' :
  reclaimed d now c n db db' → evolves db db' →
  (∀ a, execution_attempts db !! rc_ExecutionAttemptID c = Some a → task_of db a = Some (rc_TaskID c)) →
  coherent db → coherent db'.
Proof.
  intros [(a & Ha & _ & Hnew & Hatt) (t & Ht & _ & Htk) _ (p & Hp & _ & Hpt & _) _ _] He Hof Hc.
  apply (coherent_one (rc_TaskID c) db); [done..| | |].
  - intros k Hk. rewrite Htk. by apply other_tasks.
  - intros id b Hid Hn. rewrite Hatt, lookup_insert_ne by congruence.
    rewrite lookup_insert_ne; [by rewrite Hid|]. intros <-. by apply Hn, Hof.
  - intros t' Ht' _. rewrite Htk, lookup_insert_eq in Ht'. injection Ht' as <-.
    rewrite <- Hpt. eapply (working_intro _ (rd_attemptID d) _ (rd_promptID d));
      [rewrite Hatt; apply lookup_insert_eq|done|done|exact Hp].
Qed.

Lemma coherent_reclaim_all outside draws now : ∀ cs n db evs db',
  (∀ c a, c ∈ cs → execution_attempts db !! rc_ExecutionAttemptID c = Some a →
          task_of db a = Some (rc_TaskID c)) →
  (∀ c, c ∈ cs → is_Some (execution_attempts db !! rc_ExecutionAttemptID c)) →
  reclaim_all outside draws n now cs db = inr (evs, db') → coherent db → coherent db'.
Proof.
  induction cs as [|c cs IH]; intros n db evs db' Hof Hex Htx Hc; simpl in Htx.
  { by apply tx_ret_inr in Htx as [_ ->]. }
  apply tx_bind_inr in Htx as (ev1 & db1 & H1 & Htx).
  apply tx_bind_inr in Htx as (ev2 & db2 & H2 & Htx). apply tx_ret_inr in Htx as [_ ->].
  assert (evolves db db1) as He by by eapply (ev_reclaim outside (draws n) now c db ev1).
  eapply IH; [| |exact H2|].
  - intros c' a' Hc' Ha'.
    destruct (Hex c') as [a Ha]; [by right|].
    destruct (ev_attempts _ _ He _ _ Ha) as (a2 & Ha2 & Hle).
    assert (a2 = a') as -> by congruence.
    eapply evolves_task_of; [exact He|by eapply Hof; [right|]|by apply attempt_le_prompt].
  - intros c' Hc'. destruct (Hex c') as [a Ha]; [by right|].
    destruct (ev_attempts _ _ He _ _ Ha) as (a2 & Ha2 & _). by exists a2.
  - apply reclaim_one_inr in H1 as [(_ & -> & _)|(_ & Hrec)]; [done|].
    eapply coherent_reclaimed; [exact Hrec|exact He| |exact Hc].
    intros a Ha. eapply Hof; [left|exact Ha].
Qed.

Lemma expired_fails e u b a err :
  lease_expired b a = true → expired_timeout b (fail_attempt err "timeout" e u a) = true.
Proof. unfold lease_expired, expired_timeout. by intros [_ ?]%andb_true_iff. Qed.

(** The tail of a lease cycle. *)
Lemma coherent_leases (auto : bool) now db :
  coherent db →
  coherent (FailExpiredLeases now now now
    ((if auto then FailExpiredExecutionAttempts now now now
      else FailAllExpiredExecutionAttempts now now now) db).2).2.
Proof.
  intros Hc. destruct auto; apply (coherent_sweep "running"); try done.
  - exact (ev_FailExpired now now now db).
  - by intros id a [?%lease_expired_running _]%andb_true_iff.
  - intros tid t. by case_match.
  - intros tid t [_ [a Ha]%bool_decide_eq_true]%andb_true_iff. rewrite Ha. by apply not_live.
  - intros id a tid t Ha Hp Hat Ht Hst. rewrite Hst. simpl.
    eapply swept_joined; [exact Ha|exact Hp|exact Hat| |].
    + by destruct (task_row_of db a) as [[? ?]|].
    + apply andb_true_iff in Hp as [Hp Hr].
      destruct (task_row_of db a) as [[? ?]|]; [by apply expired_fails|done].
  - exact (ev_FailAllExpired now now now db).
  - by intros id a ?%lease_expired_running.
  - intros tid t. by case_match.
  - intros tid t [_ [a Ha]%bool_decide_eq_true]%andb_true_iff. rewrite Ha. by apply not_live.
  - intros id a tid t Ha Hp Hat Ht Hst. rewrite Hst. simpl.
    eapply swept_joined; [exact Ha|exact Hp|exact Hat|done|]. by apply expired_fails.
Qed.

Lemma coherent_pinned dbnow now stale db :
  coherent db →
  coherent (FailPendingResumeTasksForMissingRunner now now
    (FailPendingExecutionAttemptsForMissingRunner dbnow now now stale db).2).2.
Proof.
  intros Hc. apply (coherent_sweep "pending"); try done.
  - exact (ev_FailPendingMissing dbnow now now stale db).
  - by intros id a [[?%bool_decide_eq_true _]%andb_true_iff _]%andb_true_iff.
  - intros tid t. by case_match.
  - intros tid t [_ [a Ha]%bool_decide_eq_true]%andb_true_iff. rewrite Ha. by apply not_live.
  - intros id a tid t Ha Hp Hat Ht Hst. rewrite Hst. simpl.
    eapply swept_joined; [exact Ha|exact Hp|exact Hat|done|]. apply failed_with_fail.
Qed.

Lemma coherent_isolation dbnow now stale db :
  coherent db →
  coherent (FailPendingIsolationTasks now now
    (FailPendingIsolationAttemptsWithoutCapableRunner dbnow now now stale db).2).2.
Proof.
  intros Hc. apply (coherent_sweep "pending"); try done.
  - exact (ev_FailPendingIsolation dbnow now now stale db).
  - by intros id a [[?%bool_decide_eq_true _]%andb_true_iff _]%andb_true_iff.
  - intros tid t _. by apply not_live.
  - intros id a tid t Ha Hp Hat Ht Hst. rewrite Hst. simpl.
    eapply swept_joined; [exact Ha|exact Hp|exact Hat|done|]. apply failed_with_fail.
Qed.

Lemma coherent_stale now dbnow grace db : coherent db → coherent (ReapStaleTasks now dbnow grace db).2.
Proof.
  intros Hc. apply (coherent_sweep "running"); try done.
  - apply evolves_attempts_where. intros id a _ [Ha%bool_decide_eq_true _]%andb_true_iff.
    by apply le_running.
  - by intros id a [?%bool_decide_eq_true _]%andb_true_iff.
  - intros tid t. by case_match.
  - intros tid t [_ [a Ha]%bool_decide_eq_true]%andb_true_iff. rewrite Ha. by apply not_live.
  - intros id a tid t Ha Hp Hat Ht Hst. rewrite Hst. simpl.
    eapply swept_joined; [exact Ha|exact Hp|exact Hat|done|]. unfold ended_now.
    rewrite failed_with_fail. simpl. by rewrite bool_decide_eq_true_2.
Qed.

Lemma coherent_clear reason now db :
  coherent db →
  coherent (ClearPendingTasks reason now now (CancelPendingExecutionAttempts reason now now db).2).2.
Proof.
  intros Hc. apply (coherent_sweep "pending"); try done.
  - exact (ev_CancelPending reason now now db).
  - by intros id a ?%bool_decide_eq_true.
  - intros tid t _. by apply not_live.
  - intros id a tid t _ _ _ _ Hst. by rewrite Hst.
Qed.

Lemma coherent_cancel taskID reason now db u db' :
  cancel_tx taskID reason now db = inr (u, db') → coherent db → coherent db'.
Proof.
  intros Htx Hc. assert (evolves db db') as He by by eapply (ev_cancel taskID reason now db u).
  apply cancel_tx_inr in Htx as ((t & Ht & _ & Htk) & Hatt & _ & _).
  apply (coherent_one taskID db); [done..| | |].
  - intros k Hk. rewrite Htk. by apply other_tasks.
  - intros id a Ha Hn. rewrite Hatt, Ha. simpl. by rewrite bool_decide_eq_false_2.
  - intros t' Ht' Hl. rewrite Htk, lookup_insert_eq in Ht'. injection Ht' as <-.
    by destruct (not_live (t_status (cancel_task_row reason now now t))).
Qed.

(** A task that enters the queue with a new prompt and a new attempt. *)
Lemma coherent_enqueued tid t pid p aid a db db' :
  evolves db db' → coherent db →
  tasks db' = <[tid := t]> (tasks db) → t_status t = "pending" →
  user_prompts db' !! pid = Some p → p_task_id p = tid →
  execution_attempts db !! aid = None →
  execution_attempts db' = <[aid := a]> (execution_attempts db) →
  a_status a = "pending" → a_user_prompt_id a = pid →
  coherent db'.
Proof.
  intros He Hc Htk Hts Hp Hpt Hfresh Hatt Has Hap. apply (coherent_one tid db); [done..| | |].
  - intros k Hk. rewrite Htk. by apply other_tasks.
  - intros id b Hb _. rewrite Hatt, lookup_insert_ne by congruence. by rewrite Hb.
  - intros t' Ht' _. rewrite Htk, lookup_insert_eq in Ht'. injection Ht' as <-.
    rewrite Hts, <- Hpt. eapply (working_intro _ aid a pid p); [|done..].
    rewrite Hatt. apply lookup_insert_eq.
Qed.

Lemma coherent_submit cfg L scope trigger ids now q sets db r sets' db' :
  SubmitTask cfg L scope trigger ids now q sets db = (r, sets', db') → coherent db → coherent db'.
Proof.
  intros Hs Hc. pose proof (ev_submit _ _ _ _ _ _ _ _ _ _ _ _ Hs) as He.
  destruct r as [e|t]; [by apply submit_error in Hs as [-> _]|].
  apply SubmitTask_inr in Hs as (p & db1 & _ & _ & Hrows & -> & _).
  apply submit_rows_inr in Hrows as (H1 & H2 & H3 & H4 & _ & ->).
  assert (∀ d, user_prompts (record_trigger_run p trigger (id_run ids) d) = user_prompts d ∧
               tasks (record_trigger_run p trigger (id_run ids) d) = tasks d ∧
               execution_attempts (record_trigger_run p trigger (id_run ids) d) = execution_attempts d)
    as Hfr by (intros d; unfold record_trigger_run; by destruct (_ && _)).
  eapply (coherent_enqueued (pp_task p) _ (id_prompt ids) _ (id_attempt ids) _ db);
    [exact He|exact Hc|rewrite (proj1 (proj2 (Hfr _))); reflexivity|done|
     rewrite (proj1 (Hfr _)); apply lookup_insert_eq|reflexivity|exact H4|
     rewrite (proj2 (proj2 (Hfr _))); reflexivity|done|done].
Qed.

Lemma coherent_reopened now taskID sessionID promptID attemptID t s p a db db' :
  reopened_with now taskID sessionID promptID attemptID t s p a db db' →
  evolves db db' → coherent db → coherent db'.
Proof.
  intros [_ [_ Hf] (Htk & _ & Hpr & Hatt) (_ & Hpt & _ & Hap) [_ Has] _] He Hc.
  eapply (coherent_enqueued taskID _ promptID p attemptID a db);
    [exact He|exact Hc|exact Htk|done| |exact Hpt|exact Hf|exact Hatt|exact Has|exact Hap].
  rewrite Hpr. apply lookup_insert_eq.
Qed.

Lemma coherent_recover cfg scope outside taskID custom ids draws now db r db' :
  RecoverTask cfg scope outside taskID custom ids draws now db = (r, db') →
  coherent db → coherent db'.
Proof.
  intros Hr Hc. pose proof (ev_recover _ _ _ _ _ _ _ _ _ _ _ Hr) as He.
  destruct r as [e|ev]; [by apply recover_error in Hr as ->|].
  apply RecoverTask_inr in Hr as (orig & prompt & _ & _ & _ & Hrows).
  apply recover_rows_inr in Hrows as (oS & oP & t & _ & _ & _ & _ & _ & _ & _ & Hre).
  by eapply coherent_reopened.
Qed.

Lemma coherent_rerun cfg scope outside taskID ids now db r db' :
  RerunTask cfg scope outside taskID ids now db = (r, db') → coherent db → coherent db'.
Proof.
  intros Hr Hc. pose proof (ev_rerun _ _ _ _ _ _ _ _ _ Hr) as He.
  destruct r as [e|[]]; [by apply rerun_error in Hr as ->|].
  apply RerunTask_inr in Hr as (orig & s & p & _ & _ & _ & _ & _ & _ & _ & Hf & ->).
  eapply (coherent_enqueued (id_task ids) _ (id_prompt ids) _ (id_attempt ids) _ db);
    [exact He|exact Hc|reflexivity|done|apply lookup_insert_eq|reflexivity|exact Hf|reflexivity|
     done|done].
Qed.

Lemma resume_attempt sessionID taskID prompt runnerID timeout ids now db t db' :
  resume_rows sessionID taskID prompt runnerID timeout ids now db = inr (t, db') →
  execution_attempts db !! id_attempt ids = None ∧
  execution_attempts db' = <[id_attempt ids :=
    pending_attempt (id_prompt ids) 1 (Some (str_of runnerID)) (int32_of timeout) now now]>
    (execution_attempts db).
Proof.
  unfold resume_rows. intros Hr. tx_inv.
  match goal with H : RequeueTaskForPrompt _ _ _ = (?n, _), Hn : (?n =? 0) = false |- _ =>
    apply (fun h => requeue_inr _ _ _ _ _ h Hn) in H as (t0 & _ & _ & ->) end.
  match goal with H : InsertUserPrompt _ _ _ = _ |- _ => apply insert_prompt_inr in H as (_ & _ & ->) end.
  match goal with H : InsertPendingExecutionAttempt _ _ _ _ _ _ _ _ = _ |- _ =>
    apply insert_attempt_inr in H as (Hf & _ & ->) end.
  match goal with H : MarkAgentSessionResuming _ _ _ _ = _ |- _ =>
    unfold MarkAgentSessionResuming, on_sessions in H; injection H as _ <- end. done.
Qed.

Lemma coherent_resume cfg L scope dbnow outside sessionID prompt timeout ids now db r db' :
  ResumeAgentSession cfg L scope dbnow outside sessionID prompt timeout ids now db = (r, db') →
  coherent db → coherent db'.
Proof.
  intros Hr Hc. pose proof (ev_resume _ _ _ _ _ _ _ _ _ _ _ _ _ Hr) as He.
  apply resume_cases in Hr as [(e & _ & ->)|(s & t & run & tm & _ & _ & Hrows & _)]; [done|].
  pose proof (resume_attempt _ _ _ _ _ _ _ _ _ _ Hrows) as [Hf Hatt].
  apply resume_rows_inr in Hrows as (t0 & s0 & _ & _ & _ & _ & _ & _ & _ & Hpr & _ & Htk).
  eapply (coherent_enqueued (s_task_id s) _ (id_prompt ids) _ (id_attempt ids) _ db);
    [exact He|exact Hc|exact Htk|done|rewrite Hpr; apply lookup_insert_eq|reflexivity|exact Hf|
     exact Hatt|done|done].
Qed.

Lemma coherent_calm db db' : calm db db' → coherent db → coherent db'.
Proof. intros [He Hq]. by apply coherent_quiet. Qed.

Lemma coherent_spawn sp ids now ev name cfg taskID sets db r sets' db' :
  spawnCreateTaskFromEvent sp ids now ev name cfg taskID sets db = (r, sets', db') →
  coherent db → coherent db'.
Proof.
  unfold spawnCreateTaskFromEvent. intros Hs Hc. revert Hs.
  destruct (_ == _); [by intros [= _ _ <-]|].
  destruct (sp_render _ _ _) as [e|prompt]; [by intros [= _ _ <-]|].
  destruct (GetTaskByID _ _) as [source|]; [|by intros [= _ _ <-]]. cbv zeta.
  destruct (_ && _).
  - destruct (run_tx _ _) as [[e|u] db1] eqn:E; intros [= _ _ <-].
    + by apply run_tx_error in E as ->.
    + apply run_tx_ok in E. apply (coherent_calm db); [|done].
      split; [by apply ev_event_row in E|by apply quiet_event_row in E].
  - destruct (SubmitTask _ _ _ _ _ _ _ _ _) as [[[e|t] sets1] db1] eqn:E;
      apply coherent_submit in E; try done; by intros [= _ _ <-].
Qed.

Lemma coherent_deliver_task sp taskIDOf ids id d snapshot now sets db :
  coherent db → coherent (deliverCreateTaskCallback sp taskIDOf ids id d snapshot now sets db).2.
Proof.
  intros Hc. unfold deliverCreateTaskCallback.
  destruct snapshot as [sn|]; [|exact (coherent_calm _ _ (calm_fail _ _ _ _ _ _) Hc)].
  destruct (spawnCreateTaskFromEvent _ _ _ _ _ _ _ _ _) as [[[e|u] sets1] db1] eqn:E;
    apply (fun h => coherent_spawn _ _ _ _ _ _ _ _ _ _ _ _ h Hc) in E;
    [|exact (coherent_calm _ _ (calm_complete _ _ _ _) E)].
  destruct (_ && _);
    [exact (coherent_calm _ _ (calm_complete _ _ _ _) E)|
     exact (coherent_calm _ _ (calm_fail _ _ _ _ _ _) E)].
Qed.

Lemma coherent_reap_leases auto draws now db r db' :
  reapExpiredLeases auto draws now db = (r, db') → coherent db → coherent db'.
Proof.
  unfold reapExpiredLeases. intros Hr Hc. destruct r as [e|v]; [by apply run_tx_error in Hr as ->|].
  apply run_tx_ok in Hr. unfold reap_leases_tx in Hr.
  apply tx_bind_inr in Hr as (cs & s & H1 & Hr). apply tx_read_inr in H1 as [-> ->].
  apply tx_bind_inr in Hr as (evs & db1 & H2 & Hr).
  apply tx_bind_inr in Hr as (n1 & db2 & H3 & Hr). apply tx_rows_inr in H3.
  apply tx_bind_inr in Hr as (n2 & db3 & H4 & Hr). apply tx_rows_inr in H4.
  apply tx_ret_inr in Hr as [_ ->].
  assert (coherent db1) as Hc1.
  { destruct auto; [|by apply tx_ret_inr in H2 as [_ ->]].
    eapply coherent_reclaim_all; [| |exact H2|exact Hc].
    - intros c a Hin Ha. apply reclaimable_spec in Hin as (b & tid & t & Hb & _ & Ht & _ & ->).
      simpl in Hb, Ha |- *. congruence.
    - intros c Hin. apply reclaimable_spec in Hin as (b & tid & t & Hb & _). by exists b. }
  pose proof (coherent_leases auto now db1 Hc1) as Hc3. rewrite H3 in Hc3. cbn [snd] in Hc3. by rewrite H4 in Hc3.
Qed.

Lemma coherent_two {A} (u v : DB → Z * DB) (rest : tx DB A) db r db' :
  run_tx (tx_rows u ≫= λ _, tx_rows v ≫= λ _, rest) db = (r, db') →
  Follows calm rest → (coherent db → coherent (v (u db).2).2) → coherent db → coherent db'.
Proof.
  intros Hr Hrest Huv Hc. destruct r as [e|x]; [by apply run_tx_error in Hr as ->|].
  apply run_tx_ok in Hr. apply tx_bind_inr in Hr as (n1 & db1 & H1 & Hr). apply tx_rows_inr in H1.
  apply tx_bind_inr in Hr as (n2 & db2 & H2 & Hr). apply tx_rows_inr in H2.
  specialize (Huv Hc). rewrite H1 in Huv. cbn [snd] in Huv. rewrite H2 in Huv. eapply coherent_calm; [|exact Huv].
  by eapply Hrest.
Qed.

Lemma step_coherent db db' : step (λ st, st ≠ "pending") db db' → coherent db → coherent db'.
Proof.
  intros Hs Hc. pose proof (step_evolves _ _ _ Hs) as He. destruct Hs.
  - revert H0. unfold claimOnce. destruct (_ == _); [by intros [= _ <- _]|].
    destruct (_ && _); [by intros [= _ <- _]|]. cbv zeta.
    destruct (run_tx _ _) as [[e|v] db1] eqn:E; intros [= _ <- _].
    + by apply run_tx_error in E as ->.
    + apply run_tx_ok, claim_tx_inr in E as (c & _ & Hef). by eapply coherent_claim.
  - apply recordTaskEvent_cases in H1 as [(_ & -> & _)|(_ & _ & skip & b & Htx & _)]; [done|].
    apply record_tx_inr in Htx as (a & pr & t & Hacc & Hef).
    eapply coherent_record; [|exact Hacc|exact Hef|exact He|exact Hc].
    by rewrite redacted_status.
  - eapply coherent_calm; [|exact Hc]. pose proof (calm_heartbeat auditing dbFails now info db) as Hh.
    by rewrite H0 in Hh.
  - eapply coherent_calm; [apply calm_upsert|exact Hc].
  - eapply coherent_calm; [|exact Hc]. unfold RequestDrain, requestRunnerDrainDB.
    destruct (_ !! _); by apply calm_tables.
  - eapply coherent_calm; [|exact Hc]. by apply calm_tables.
  - by eapply coherent_reap_leases.
  - eapply coherent_two; [exact H0| |apply coherent_pinned|exact Hc]. follow.
  - eapply coherent_two; [exact H0| |apply coherent_isolation|exact Hc]. follow.
  - eapply coherent_calm; [apply calm_prompts|exact Hc].
  - eapply coherent_calm; [|exact Hc]. exact (calm_stmt (ExpirePausedSessions now now now) _ _ db).
  - eapply coherent_calm; [apply calm_artifacts|exact Hc].
  - by apply coherent_stale.
  - by eapply coherent_submit.
  - by eapply coherent_recover.
  - by eapply coherent_rerun.
  - by eapply coherent_resume.
  - revert H0. unfold CancelTask. destruct (taskForToolAccess _ _ _); [by intros [= _ <-]|].
    destruct (run_tx _ _) as [[e|u] db1] eqn:E; intros [= _ <-]; [by apply run_tx_error in E as ->|].
    apply run_tx_ok in E. pose proof (coherent_cancel _ _ _ _ _ _ E Hc) as Hc1.
    destruct tf; [done|]. eapply coherent_calm; [|exact Hc1]. by apply calm_tables.
  - eapply coherent_calm; [by eapply calm_extend_task|exact Hc].
  - revert H0. unfold ClearQueue. destruct (negb _); [by intros [= _ <-]|]. intros Hr.
    destruct r as [e|x]; [by apply run_tx_error in Hr as ->|]. apply run_tx_ok in Hr.
    apply tx_bind_inr in Hr as (n1 & db1 & H1 & Hr). apply tx_rows_inr in H1.
    apply tx_rows_inr in Hr. pose proof (coherent_clear clear_queue_reason now db Hc) as Hc1.
    rewrite H1 in Hc1. cbn [snd] in Hc1. by rewrite Hr in Hc1.
  - eapply coherent_calm; [apply calm_claim_deliveries|exact Hc].
  - eapply coherent_calm; [apply calm_deliver_http|exact Hc].
  - by apply coherent_deliver_task.
  - eapply coherent_calm; [apply calm_retry|exact Hc].
Qed.
End system.

(** ** Counting attempts *)

Lemma attempts_of_task_ids db tid k :
  k ∈ map fst (attempts_of_task db tid) ↔
  ∃ a, execution_attempts db !! k = Some a ∧ task_of db a = Some tid.
Proof.
  rewrite list_elem_of_fmap. split.
  - intros ([k' a] & -> & ?%attempts_of_task_elem). by exists a.
  - intros (a & ?%attempts_of_task_elem). by exists (k, a).
Qed.

(** What is among the attempts of a task stays among them. *)
Lemma evolves_attempts_of db db' tid k :
  evolves db db' → k ∈ map fst (attempts_of_task db tid) → k ∈ map fst (attempts_of_task db' tid).
Proof.
  intros He (a & Ha & Ht)%attempts_of_task_ids. apply attempts_of_task_ids.
  destruct (ev_attempts _ _ He _ _ Ha) as (a' & Ha' & Hle). exists a'. split; [done|].
  eapply evolves_task_of; [exact He|exact Ht|]. by apply attempt_le_prompt.
Qed.

Lemma count_ids db tid :
  CountExecutionAttemptsByTask tid db = Z.of_nat (length (map fst (attempts_of_task db tid))).
Proof. unfold CountExecutionAttemptsByTask. by rewrite length_map. Qed.

Lemma attempts_of_task_NoDup db tid : NoDup (map fst (attempts_of_task db tid)).
Proof. apply NoDup_fst_filter, NoDup_fst_map_to_list. Qed.

Lemma evolves_count db db' tid :
  evolves db db' → CountExecutionAttemptsByTask tid db <= CountExecutionAttemptsByTask tid db'.
Proof.
  intros He. rewrite !count_ids. apply inj_le, submseteq_length, NoDup_submseteq;
    [apply attempts_of_task_NoDup|]. intros k. by apply evolves_attempts_of.
Qed.

(** A new attempt of the task counts. *)
Lemma evolves_count_new db db' tid aid a :
  evolves db db' → execution_attempts db !! aid = None →
  execution_attempts db' !! aid = Some a → task_of db' a = Some tid →
  CountExecutionAttemptsByTask tid db < CountExecutionAttemptsByTask tid db'.
Proof.
  intros He Hf Ha Ht. rewrite !count_ids.
  enough (length (aid :: map fst (attempts_of_task db tid)) ≤
          length (map fst (attempts_of_task db' tid)))%nat by (simpl in *; lia).
  apply submseteq_length, NoDup_submseteq.
  - apply NoDup_cons. split; [|apply attempts_of_task_NoDup].
    intros (b & Hb & _)%attempts_of_task_ids. congruence.
  - intros k [->|Hk]%elem_of_cons; [apply attempts_of_task_ids; by exists a|].
    by eapply evolves_attempts_of.
Qed.

(** ** Properties *)

(** C2. The life of an execution attempt, over every interleaving of the
    handlers and the reaper: its row is never deleted and never moves to another
    prompt or task; it goes from pending to running to an end and never back;
    the runner and the claim it got when it left pending are its runner and
    claim for good; and once it ended its status is final. *)
Theorem attempt_automaton `{Outbox} allowed db db' id a :
  reaches allowed db db' → execution_attempts db !! id = Some a →
  ∃ a', execution_attempts db' !! id = Some a' ∧
    (a_status a' = "pending" → a_status a = "pending") ∧
    (a_status a' = "running" → attempt_active (a_status a) = true) ∧
    (attempt_done (a_status a) = true → a_status a' = a_status a) ∧
    (a_status a ≠ "pending" → a_claim_id a' = a_claim_id a ∧ a_runner_id a' = a_runner_id a) ∧
    (∀ tid, task_of db a = Some tid → task_of db' a' = Some tid).
Proof.
  intros Hr%reaches_evolves Ha. destruct (ev_attempts _ _ Hr _ _ Ha) as (a' & Ha' & Hle).
  exists a'. split; [done|].
  assert (∀ tid, task_of db a = Some tid → task_of db' a' = Some tid) as Hof
    by (intros tid Ht; eapply evolves_task_of; [exact Hr|exact Ht|by apply attempt_le_prompt]).
  assert (attempt_done (a_status a) = true → a_status a' = a_status a) as Hdone
    by (by intros [? _]%(attempt_le_done _ _ Hle)).
  split; [|split; [|split; [exact Hdone|split; [|exact Hof]]]];
    destruct Hle as [Hs Hc _|Hs _|Hs Hn Hc _]; rewrite ?Hs; try done.
  by intros ->.
Qed.

(** C3. Fencing is for good: once an attempt ended, or runs under some claim,
    no event that names another runner or another claim - and, once it ended,
    no event at all - is ever accepted for it again, in any later state of the
    system. Such a call reports an error, stores nothing and publishes
    nothing. *)
Theorem stale_claim_never_accepted `{Outbox} allowed db db' a runnerID eventID chkID now dbnow ids e
    p r db2 p' pub :
  reaches allowed db db' →
  execution_attempts db !! re_ExecutionId e = Some a →
  attempt_done (a_status a) = true ∨
    a_status a ≠ "pending" ∧ (a_claim_id a ≠ re_ClaimId e ∨ a_runner_id a ≠ Some runnerID) →
  recordTaskEvent runnerID eventID chkID now dbnow ids e db' p = (r, db2, p', pub) →
  is_Some r ∧ db2 = db' ∧ pub = [].
Proof.
  intros Hr%reaches_evolves Ha Hstale Hrec.
  apply recordTaskEvent_cases in Hrec as [?|(_ & _ & skip & b & Htx & _)]; [done|exfalso].
  destruct (ev_attempts _ _ Hr _ _ Ha) as (a' & Ha' & Hle).
  rewrite record_tx_not_owned in Htx; [done|]. unfold not_owned.
  assert (re_ExecutionId (redacted p e) = re_ExecutionId e ∧
          re_ClaimId (redacted p e) = re_ClaimId e) as [-> ->]
    by (pose proof (redacted_ids p e) as [=]; done).
  rewrite Ha'. left. unfold live_claim.
  destruct Hstale as [Hd|[Hn Hne]].
  - destruct (attempt_le_done _ _ Hle Hd) as [Hs _]. rewrite Hs.
    rewrite (bool_decide_eq_false_2 (a_status a = "running")); [by rewrite andb_false_r|].
    intros Hrun. by rewrite Hrun in Hd.
  - assert (same_claim a a') as [Hc Hu] by (by destruct Hle).
    rewrite Hc, Hu. destruct Hne as [Hne|Hne]; rewrite (bool_decide_eq_false_2 _ Hne).
    + by rewrite andb_false_r.
    + done.
Qed.

(** C1. No task is lost: as long as the runners report statuses they know
    (anything but pending), every task that waits has an attempt that waits, and
    every task that runs has an attempt that runs, in every state the system can
    reach - through claims, events, retries, recoveries, resumptions,
    cancellations and all passes of the reaper, in any order. *)
Theorem no_task_lost `{Outbox} db db' :
  reaches (λ st, st ≠ "pending") db db' → coherent db →
  ∀ tid t, tasks db' !! tid = Some t → t_status t = "pending" ∨ t_status t = "running" →
  ∃ id a, execution_attempts db' !! id = Some a ∧ a_status a = t_status t ∧
          task_of db' a = Some tid.
Proof.
  intros Hr Hc tid t Ht Hst. revert tid t Ht Hst.
  enough (coherent db') as Hc' by (intros tid t Ht Hst; by eapply Hc').
  clear - Hr Hc. induction Hr as [|d d1 d2 Hs _ IH]; [done|]. by apply IH, (step_coherent d).
Qed.

(** A recovery does not reset the attempt limit: when the task already used
    up its attempts, [RecoverTask] queues one more, and no claim will ever take
    the task again - in no state reachable afterwards. *)
Theorem recover_over_limit `{Outbox} allowed cfg scope outside taskID custom ids draws now db t ev
    db1 db' peekFails skip runnerID lease now' eventID claimID ids' v db2 pub :
  tasks db !! taskID = Some t →
  t_max_attempts t <= CountExecutionAttemptsByTask taskID db →
  RecoverTask cfg scope outside taskID custom ids draws now db = (inr ev, db1) →
  reaches allowed db1 db' →
  claimOnce peekFails skip runnerID lease now' eventID claimID ids' db' = (inr v, db2, pub) →
  ce_TaskID v ≠ taskID.
Proof.
  intros Ht Hmax Hrec Hr%reaches_evolves Hcl Heq.
  pose proof (ev_recover _ _ _ _ _ _ _ _ _ _ _ Hrec) as He.
  apply claimOnce_ok_inv in Hcl as (_ & _ & _ & (c & -> & [Hsel _ _ _ _])%claim_tx_inr).
  apply RecoverTask_inr in Hrec as (orig & prompt & _ & _ & _ & Hrows).
  apply recover_rows_inr in Hrows as (oS & oP & t0 & _ & _ & _ & _ & _ & _ & _ & Hre).
  destruct Hre as [_ [_ Hf] (_ & _ & Hpr & Hatt) (_ & Hpt & _ & Hap) _ _].
  assert (CountExecutionAttemptsByTask taskID db < CountExecutionAttemptsByTask taskID db1) as Hlt.
  { eapply evolves_count_new; [exact He|exact Hf|rewrite Hatt; apply lookup_insert_eq|].
    apply task_of_Some. eexists. split; [rewrite Hpr; apply lookup_insert_eq|done]. }
  pose proof (evolves_count _ _ taskID Hr) as Hle.
  assert (evolves db db') as Hall by (by etrans).
  destruct (ev_tasks _ _ Hall _ _ Ht) as (t' & Ht' & Hlim).
  change (ce_TaskID c = taskID) in Heq.
  pose proof (sel_task _ _ _ _ _ Hsel) as Hst. rewrite Heq, Ht' in Hst. injection Hst as Hst.
  pose proof (sel_limit _ _ _ _ _ Hsel) as Hlimit.
  rewrite (sel_number _ _ _ _ _ Hsel), Heq, <- Hst, Hlim in Hlimit. lia.
Qed.

(** *** An old timeout against a new run *)

Lemma reclaim_all_tasks `{Outbox} outside draws now tid : ∀ cs n db evs db',
  tid ∉ map rc_TaskID cs → reclaim_all outside draws n now cs db = inr (evs, db') →
  tasks db' !! tid = tasks db !! tid.
Proof.
  induction cs as [|c cs IH]; intros n db evs db' Hn Htx; simpl in Htx.
  { by apply tx_ret_inr in Htx as [_ ->]. }
  apply tx_bind_inr in Htx as (ev1 & db1 & H1 & Htx).
  apply tx_bind_inr in Htx as (ev2 & db2 & H2 & Htx). apply tx_ret_inr in Htx as [_ ->].
  simpl in Hn. apply not_elem_of_cons in Hn as [Hne Hn].
  rewrite (IH _ _ _ _ Hn H2).
  apply reclaim_one_inr in H1 as [(_ & -> & _)|(_ & [_ (t & _ & _ & Htk) _ _ _ _])]; [done|].
  rewrite Htk. by apply lookup_insert_ne.
Qed.

Lemma joined_attempt_pred db tid pr a : joined_attempt db tid pr = Some a → pr a = true.
Proof.
  unfold joined_attempt. intros (x & Hx & ->)%fmap_Some. apply head_Some_elem_of in Hx.
  rewrite list_elem_of_In in Hx. by apply filter_In in Hx as [_ ?].
Qed.

(** The rows of a task none of whose leases ran out, through a lease cycle. *)
Lemma reap_leases_bystander `{Outbox} auto draws now db v db' tid t :
  reapExpiredLeases auto draws now db = (inr v, db') →
  tasks db !! tid = Some t → t_status t = "running" →
  (∀ id a, execution_attempts db !! id = Some a → task_of db a = Some tid →
           lease_expired now a = false) →
  (∀ id a, execution_attempts db !! id = Some a → task_of db a = Some tid →
           execution_attempts db' !! id = Some a) ∧
  ((∃ id a, execution_attempts db !! id = Some a ∧ task_of db a = Some tid ∧
            expired_timeout now a = true) →
   ∃ t', tasks db' !! tid = Some t' ∧ t_status t' = "error" ∧ t_error_category t' = Some "timeout").
Proof.
  unfold reapExpiredLeases. intros Hr%run_tx_ok Ht Hst Hno. unfold reap_leases_tx in Hr.
  apply tx_bind_inr in Hr as (cs & s & H1 & Hr). apply tx_read_inr in H1 as [-> ->].
  apply tx_bind_inr in Hr as (evs & db1 & H2 & Hr).
  apply tx_bind_inr in Hr as (n1 & db2 & H3 & Hr). apply tx_rows_inr in H3.
  apply tx_bind_inr in Hr as (n2 & db3 & H4 & Hr). apply tx_rows_inr in H4.
  apply tx_ret_inr in Hr as [_ ->].
  assert (evolves db db1 ∧ tasks db1 !! tid = tasks db !! tid ∧
          ∀ id a, execution_attempts db !! id = Some a → task_of db a = Some tid →
                  execution_attempts db1 !! id = Some a) as (He1 & Htk1 & Hatt1).
  { destruct auto; [|by apply tx_ret_inr in H2 as [_ ->]].
    split; [by eapply (ev_reclaim_all db draws 0 now _ db evs)|]. split.
    - eapply reclaim_all_tasks; [|exact H2]. intros (c & Hc & Hin)%list_elem_of_fmap.
      apply reclaimable_spec in Hin as (a & tid' & t' & Ha & Hl & Hat & _ & Hceq).
      assert (rc_TaskID c = tid') as Hct by (by rewrite Hceq). rewrite <- Hct, <- Hc in Hat.
      rewrite (Hno _ _ Ha Hat) in Hl. done.
    - eapply (reclaim_all_spec _ _ _ db) in H2 as (_ & _ & Hkeep & _);
        [|intros c (b & ? & ? & ? & ? & _)%reclaimable_spec; by exists b|
         apply reclaimable_keys_NoDup|apply reaping_refl|done].
      intros id a Ha Hat. apply Hkeep; [|done]. intros (c & Hc & Hin)%list_elem_of_fmap.
      apply reclaimable_spec in Hin as (b & tid' & t' & Hb & Hl & _). rewrite <- Hc, Ha in Hb.
      injection Hb as <-. rewrite (Hno _ _ Ha Hat) in Hl. done. }
  pose proof (fail_statements_inr _ _ _ _ _ _ _ H3 H4) as Hfail.
  assert (∀ id a, execution_attempts db !! id = Some a → task_of db a = Some tid →
                  execution_attempts db3 !! id = Some a) as Hatt3.
  { intros id a Ha Hat. specialize (Hfail id a (Hatt1 _ _ Ha Hat)). by rewrite (Hno _ _ Ha Hat) in Hfail. }
  split; [exact Hatt3|]. intros (id & a & Ha & Hat & Hexp).
  assert (execution_attempts db3 = execution_attempts db2 ∧ user_prompts db2 = user_prompts db1 ∧
          tasks db2 = tasks db1) as (Ea & Ep & Et).
  { apply on_tasks_where_inr in H4 as [[m ->] _].
    destruct auto; apply on_attempts_where_inr in H3 as [[m' ->] _]; done. }
  assert (bool_decide (is_Some (joined_attempt db2 tid (expired_timeout now))) = true) as Hj.
  { eapply joined_attempt_is_Some; [rewrite <- Ea; by apply Hatt3| |exact Hexp].
    apply (evolves_task_of _ _ a a _ He1) in Hat; [|done].
    revert Hat. rewrite !task_of_Some, Ep. done. }
  apply on_tasks_where_inr in H4 as [_ Hlk]. rewrite Hlk, Et, Htk1, Ht. simpl. rewrite Hst, Hj. simpl.
  apply bool_decide_eq_true in Hj as [b Hb]. rewrite Hb. eexists. split; [reflexivity|done].
Qed.

(** An attempt of the task ended in a lease timeout, now or long ago. *)
Definition timed_out_once (now : time) (db : DB) (tid : string) : Prop :=
  ∃ id a, execution_attempts db !! id = Some a ∧ task_of db a = Some tid ∧ expired_timeout now a = true.

(** No attempt of the task runs past its lease. *)
Definition lease_kept (now : time) (db : DB) (tid : string) : Prop :=
  ∀ id a, execution_attempts db !! id = Some a → task_of db a = Some tid → lease_expired now a = false.

(** An old timeout kills a new run: when a running task has an attempt that
    once ended in a lease timeout - it was recovered, rerun by a resumption, or
    restarted since - the next lease cycle marks the task as timed out, although
    its current attempt runs under a live lease, which the cycle leaves running.
    From then on the server refuses every event of that run but another
    error. *)
Theorem stale_timeout_kills_new_run `{Outbox} auto draws now db v db' tid t new n
    runnerID eventID chkID now2 dbnow ids e p r db2 p' pub :
  reapExpiredLeases auto draws now db = (inr v, db') →
  tasks db !! tid = Some t → t_status t = "running" →
  lease_kept now db tid → timed_out_once now db tid →
  execution_attempts db !! new = Some n → task_of db n = Some tid →
  recordTaskEvent runnerID eventID chkID now2 dbnow ids e db' p = (r, db2, p', pub) →
  re_TaskId e = tid → event_status e ≠ "error" →
  (∃ t', tasks db' !! tid = Some t' ∧ t_status t' = "error" ∧ t_error_category t' = Some "timeout") ∧
  execution_attempts db' !! new = Some n ∧
  is_Some r ∧ db2 = db'.
Proof.
  intros Hreap Ht Hst Hno Hold Hn Hnt Hrec Htid Hev.
  destruct (reap_leases_bystander _ _ _ _ _ _ _ _ Hreap Ht Hst Hno) as [Hatt Hkill].
  destruct Hkill as (t' & Ht' & Hst' & Hcat); [exact Hold|].
  split; [by exists t'|]. split; [by apply Hatt|].
  apply recordTaskEvent_cases in Hrec as [(? & ? & _)|(_ & _ & skip & b & Htx & _)]; [done|exfalso].
  apply record_tx_inr in Htx as (a & pr & t2 & [_ _ _ _ Ht2 Hs2] & _).
  assert (re_TaskId (redacted p e) = tid) as Hid by (pose proof (redacted_ids p e) as [=]; congruence).
  rewrite Hid in Ht2. rewrite redacted_status in Hs2. destruct Hs2; congruence.
Qed.

(** ** Witnesses *)

Definition finished_db : DB :=
  (@recordTaskEvent no_outbox "r1" "evt_2" "chk_1" 10 10 sample_ids (RunnerEvent.sample_event "done" "clm_1")
     claimed_db empty_proc).1.1.2.

Lemma sample_claims : @step no_outbox (λ st, st ≠ "pending") sample_db claimed_db.
Proof.
  destruct (@claimOnce no_outbox false no_skip "r1" (seconds 120) 5 "evt_1" "clm_1" sample_ids
              sample_db) as [[r d] pub] eqn:E.
  assert (claimed_db = d) as -> by (unfold claimed_db; by rewrite E).
  by eapply step_claim.
Qed.

Lemma claimed_finishes : @step no_outbox (λ st, st ≠ "pending") claimed_db finished_db.
Proof.
  destruct (@recordTaskEvent no_outbox "r1" "evt_2" "chk_1" 10 10 sample_ids
     (RunnerEvent.sample_event "done" "clm_1") claimed_db empty_proc) as [[[r d] p'] pub] eqn:E.
  assert (finished_db = d) as -> by (unfold finished_db; by rewrite E).
  by eapply step_event; [|exact E].
Qed.

Lemma attempt_automaton_witness :
  ∃ a a', execution_attempts claimed_db !! "a1" = Some a ∧ a_status a = "running" ∧
    execution_attempts finished_db !! "a1" = Some a' ∧ a_status a' = "succeeded" ∧
    a_claim_id a' = a_claim_id a.
Proof.
  destruct (execution_attempts claimed_db !! "a1") as [a|] eqn:Ea; [|vm_compute in Ea; discriminate].
  destruct (@attempt_automaton no_outbox _ _ _ "a1" a (rtc_once _ _ claimed_finishes) Ea)
    as (a' & Ha' & _ & _ & _ & Hc & _).
  assert (a_status a = "running") as Hs by (vm_compute in Ea; injection Ea as <-; reflexivity).
  exists a, a'. split; [reflexivity|]. split; [exact Hs|]. split; [exact Ha'|].
  split; [vm_compute in Ha'; injection Ha' as <-; reflexivity|].
  apply Hc. rewrite Hs. discriminate.
Defined.

Lemma stale_claim_never_accepted_witness :
  ∃ err p', @recordTaskEvent no_outbox "r1" "evt_3" "chk_2" 20 20 sample_ids
      (RunnerEvent.sample_event "running" "clm_0") finished_db empty_proc = (Some err, finished_db, p', []).
Proof.
  destruct (@recordTaskEvent no_outbox "r1" "evt_3" "chk_2" 20 20 sample_ids
      (RunnerEvent.sample_event "running" "clm_0") finished_db empty_proc) as [[[r db2] p'] pub] eqn:E.
  destruct (execution_attempts claimed_db !! "a1") as [a|] eqn:Ea; [|vm_compute in Ea; discriminate].
  destruct (@stale_claim_never_accepted no_outbox _ claimed_db finished_db a "r1" "evt_3" "chk_2" 20 20
              sample_ids (RunnerEvent.sample_event "running" "clm_0") empty_proc r db2 p' pub
              (rtc_once _ _ claimed_finishes) Ea) as ([er ->] & -> & ->).
  - right. vm_compute in Ea. injection Ea as <-. split; [discriminate|left; discriminate].
  - exact E.
  - exists er, p'. reflexivity.
Defined.

Lemma sample_coherent : coherent sample_db.
Proof.
  intros st tid t _ Ht <-. change (tasks sample_db) with ({[ "t1" := sample_task ]} : gmap string Task) in Ht.
  apply lookup_singleton_Some in Ht as [<- <-]. eexists "a1", _. split; [reflexivity|]. by split.
Qed.

Lemma no_task_lost_witness :
  ∃ id a, execution_attempts claimed_db !! id = Some a ∧ a_status a = "running" ∧
          task_of claimed_db a = Some "t1".
Proof.
  exact (@no_task_lost no_outbox sample_db claimed_db (rtc_once _ _ sample_claims) sample_coherent
           "t1" (claimed_task 5 sample_task) eq_refl (or_intror eq_refl)).
Defined.

(** A report of "pending" strands the task: no attempt of it waits. *)
Lemma pending_report_strands :
  let db' := (@recordTaskEvent no_outbox "r1" "evt_2" "chk_1" 10 10 sample_ids
                (RunnerEvent.sample_event "pending" "clm_1") claimed_db empty_proc).1.1.2 in
  ¬ coherent db'.
Proof.
  intros db' Hc.
  destruct (tasks db' !! "t1") as [t|] eqn:Et; [|vm_compute in Et; discriminate].
  assert (t_status t = "pending") as Hs by (vm_compute in Et; injection Et as <-; reflexivity).
  destruct (Hc "pending" "t1" t (or_introl eq_refl) Et Hs) as (id & a & Ha & Hst & _).
  vm_compute (execution_attempts db') in Ha.
  match type of Ha with ?m !! id = _ =>
    assert (map_Forall (λ _ x, a_status x ≠ "pending") m) as Hall
      by (refine (bool_decide_eq_true_1 _ _); by vm_compute) end.
  by apply (Hall id a Ha).
Qed.

(** A task that used up its only attempt, next to one that waits. *)
Definition spent_task : Task := sample_task{{ t_status := "done"; t_max_attempts := 1 }}.
Definition spent_db : DB :=
  paused_db{{ tasks := {[ "t1" := spent_task; "t2" := sample_task ]};
              agent_sessions := {[ "s1" := paused_session; "s2" := sample_session "t2" ]};
              user_prompts := <["p2" := sample_prompt "s2" "t2"]> (user_prompts paused_db);
              execution_attempts := <["a2" := pending_attempt "p2" 1 None 600 0 0]>
                                      (execution_attempts paused_db) }}.

Lemma recover_over_limit_witness :
  ∃ ev db1 v db2 pub,
    @RecoverTask no_outbox (sample_config 9) None spent_db "t1" "again" (fresh_ids "y") sample_ids 9
      spent_db = (inr ev, db1) ∧
    @claimOnce no_outbox false no_skip "r1" (seconds 120) 12 "evt_1" "clm_1" sample_ids db1 =
      (inr v, db2, pub) ∧ ce_TaskID v ≠ "t1".
Proof.
  destruct (@RecoverTask no_outbox (sample_config 9) None spent_db "t1" "again" (fresh_ids "y")
    sample_ids 9 spent_db) as [[e|ev] db1] eqn:E; [vm_compute in E; discriminate|].
  assert (db1 = (@RecoverTask no_outbox (sample_config 9) None spent_db "t1" "again" (fresh_ids "y")
    sample_ids 9 spent_db).2) as Hdb by (by rewrite E).
  destruct (@claimOnce no_outbox false no_skip "r1" (seconds 120) 12 "evt_1" "clm_1" sample_ids db1)
    as [[[e|v] db2] pub] eqn:Ec; [rewrite Hdb in Ec; vm_compute in Ec; discriminate|].
  exists ev, db1, v, db2, pub. split; [reflexivity|]. split; [exact Ec|].
  refine (@recover_over_limit no_outbox (λ _, True) (sample_config 9) None spent_db "t1" "again"
           (fresh_ids "y") sample_ids 9 spent_db spent_task ev db1 db1 false no_skip "r1" (seconds 120)
           12 "evt_1" "clm_1" sample_ids v db2 pub _ _ E (rtc_refl _ _) Ec).
  - by vm_compute.
  - by vm_compute.
Defined.

(** A run that timed out once and runs again under a live lease. *)
Definition retried_db : DB :=
  claimed_db{{ user_prompts := <["p0" := sample_prompt "s1" "t1"]> (user_prompts claimed_db);
               execution_attempts := <["a0" := fail_attempt "runner lease expired" "timeout" 3 3
                 ((pending_attempt "p0" 1 None 600 0 0){{ a_lease_expires_at := Some 2 }})]>
                 (execution_attempts claimed_db) }}.

Lemma stale_timeout_kills_new_run_witness :
  ∃ v db' err p', @reapExpiredLeases no_outbox true sample_draws 50 retried_db = (inr v, db') ∧
    @recordTaskEvent no_outbox "r1" "evt_2" "chk_1" 60 60 sample_ids
      (RunnerEvent.sample_event "done" "clm_1") db' empty_proc = (Some err, db', p', []).
Proof.
  destruct (@reapExpiredLeases no_outbox true sample_draws 50 retried_db) as [[e|v] db'] eqn:E;
    [vm_compute in E; discriminate|].
  destruct (@recordTaskEvent no_outbox "r1" "evt_2" "chk_1" 60 60 sample_ids
      (RunnerEvent.sample_event "done" "clm_1") db' empty_proc) as [[[r db2] p'] pub] eqn:Er.
  destruct (tasks retried_db !! "t1") as [t|] eqn:Et; [|vm_compute in Et; discriminate].
  destruct (execution_attempts retried_db !! "a1") as [n|] eqn:En; [|vm_compute in En; discriminate].
  destruct (@stale_timeout_kills_new_run no_outbox true sample_draws 50 retried_db v db' "t1" t
    "a1" n "r1" "evt_2" "chk_1" 60 60 sample_ids (RunnerEvent.sample_event "done" "clm_1") empty_proc r
    db2 p' pub E Et) with (4 := En) as (_ & _ & [er ->] & ->).
  - vm_compute in Et. injection Et as <-. reflexivity.
  - intros id a Ha _. vm_compute (execution_attempts retried_db) in Ha.
    match type of Ha with ?m !! id = _ =>
      assert (map_Forall (λ _ x, lease_expired 50 x = false) m) as Hall
        by (refine (bool_decide_eq_true_1 _ _); by vm_compute) end.
    exact (Hall id a Ha).
  - destruct (execution_attempts retried_db !! "a0") as [o|] eqn:Eo; [|vm_compute in Eo; discriminate].
    exists "a0", o. split; [exact Eo|]. vm_compute in Eo. injection Eo as <-. by vm_compute.
  - vm_compute in En. injection En as <-. by vm_compute.
  - exact Er.
  - reflexivity.
  - discriminate.
  - exists v, db', er, p'. split; [reflexivity|].
    assert (pub = []) as -> by
      (apply recordTaskEvent_cases in Er as [(_ & _ & ?)|([=] & _)]; done). exact Er.
Defined.
