(* ===== verification/InboundDelivery.v ===== *)
(** * Inbound webhooks: the worker

    [internal/service/inbound_deliveries.go] and [RetryInboundDelivery] of
    [inbound_webhooks.go]: the inbox's rows are claimed under a lease, turned
    into tasks and settled. The state is the inbox next to the control plane's
    tables; rendering a prompt and the digest that names a task are
    parameters. *)
From S2P Require Import Prelude GoStrings Status Redact Db Queries Outbox Sample Evolution Auth.
From S2P Require Import Submission TxRetry Inbound Lifecycle.

Definition inboundDeliveryLease : Z := seconds 60.
Definition inboundDeliveryClaimLimit : nat := 50.

Definition inboundDeliveryBackoff (attempts : Z) : Z :=
  if 4 <=? attempts then seconds 30
  else if attempts =? 3 then seconds 15
  else if attempts =? 2 then seconds 5
  else seconds 1.

(** ** Claiming *)

Definition inbound_due (now : time) (b : InboundDelivery) : bool :=
  one_of ["pending"; "retry_wait"] (b_status b) &&
    match b_next_attempt_at b with None => false | Some t => t <=? now end ||
  (b_status b == "processing") && sql_lt (b_lease_expires_at b) (Some now).

(** [ORDER BY next_attempt_at ASC]; NULL comes first. *)
Definition inbound_key (kv : string * InboundDelivery) : Z :=
  match b_next_attempt_at kv.2 with None => -1 | Some t => Z.max 0 t end.

Definition select_inbound (skip : string → bool) (now : time) (ib : Inbox)
    : list (string * InboundDelivery) :=
  take inboundDeliveryClaimLimit (sort_by inbound_key
    (List.filter (λ kv, negb (skip kv.1) && inbound_due now kv.2) (map_to_list (inbound_deliveries ib)))).

(** An UPDATE by primary key. *)
Definition update_inbound (id : string) (p : InboundDelivery → bool)
    (f : InboundDelivery → InboundDelivery) (ib : Inbox) : Z * Inbox :=
  let r := update_pk id p f (inbound_deliveries ib) in (r.1, ib{{ inbound_deliveries := r.2 }}).

Definition processing_until (attempt lease : Z) (now : time) (b : InboundDelivery) : InboundDelivery :=
  b{{ b_status := "processing"; b_attempts := attempt; b_lease_expires_at := Some lease;
      b_updated_at := now }}.

Definition mark_processing (now : time) (ib : Inbox) (kv : string * InboundDelivery) : Inbox :=
  (update_inbound kv.1 (λ _, true)
     (processing_until (b_attempts kv.2 + 1) (now + inboundDeliveryLease) now) ib).2.

(** The claimed rows as they were read, with their attempt counted. *)
Definition claimDueInboundDeliveries (skip : string → bool) (now : time) (ib : Inbox)
    : list (string * InboundDelivery) * Inbox :=
  let items := select_inbound skip now ib in
  (map (λ kv, (kv.1, kv.2{{ b_attempts := b_attempts kv.2 + 1 }})) items,
   foldl (mark_processing now) ib items).

(** ** Settling *)

Definition succeeded (taskID : string) (now : time) (b : InboundDelivery) : InboundDelivery :=
  b{{ b_status := "succeeded"; b_error := None; b_task_id := nullString taskID;
      b_lease_expires_at := None; b_next_attempt_at := None; b_processed_at := Some now;
      b_updated_at := now }}.

Definition markInboundDeliverySucceeded (id taskID : string) (now : time) (ib : Inbox) : Inbox :=
  (update_inbound id (λ _, true) (succeeded taskID now) ib).2.

Definition failed (status errMsg : string) (next : option time) (now : time) (b : InboundDelivery)
    : InboundDelivery :=
  b{{ b_status := status; b_error := Some (truncateTo500 errMsg); b_lease_expires_at := None;
      b_next_attempt_at := next; b_updated_at := now }}.

Definition markInboundDeliveryFailed (id status errMsg : string) (next : option time) (now : time)
    (ib : Inbox) : Inbox :=
  (update_inbound id (λ _, true) (failed status errMsg next now) ib).2.

(** [d] is the delivery as it was claimed. *)
Definition finishInboundDelivery (id : string) (d : InboundDelivery) (status errMsg : string)
    (now : time) (ib : Inbox) : Inbox :=
  if status == "failed_permanent" then markInboundDeliveryFailed id status errMsg None now ib
  else if b_max_attempts d <=? b_attempts d
  then markInboundDeliveryFailed id "dead_letter" errMsg None now ib
  else markInboundDeliveryFailed id "retry_wait" errMsg
         (Some (now + inboundDeliveryBackoff (int32_of (b_attempts d)))) now ib.

(** ** Processing *)

(** What the worker needs besides the tables. *)
Record InboundEnv := mkInboundEnv {
  in_config : ServiceConfig;
  in_lookups : Lookups;
  renderInboundPrompt : WebhookEndpoint → InboundDelivery → string + string;
  sha256_hex : string → string;
}.

Definition inboundDeliveryTaskID (env : InboundEnv) (deliveryRowID : string) : string :=
  "task_" ^^ take_bytes 32 (sha256_hex env ("inbound_delivery:" ^^ deliveryRowID)).

Definition inbound_request (e : WebhookEndpoint) (prompt taskID : string)
    : SubmitTaskRequest :=
  mkSubmitTaskRequest (str_of (w_team_id e)) "" prompt "" "" [] "" 0 "" (str_of (w_action_agent e))
    "" "" "" "" [] [] ∅ (default 0 (w_action_timeout_sec e)) "" "inbound_webhook" "inbound_webhook"
    "" 0 taskID "" "" "" "" "" "" 0 "".

Definition accepts (e : WebhookEndpoint) (d : InboundDelivery) : bool :=
  match w_accepted_events e with
  | None | Some [] => true
  | Some events => one_of events (str_of (b_event_type d))
  end.

(** [SubmitTask], or an outage of the database that leaves no effect. *)
Definition submit_or_outage (env : InboundEnv) (ids : SubmitIDs) (now : time)
    (outage : option DBError) (q : SubmitTaskRequest) (sets : redactSets) (db : DB)
    : (DBError + Task) * redactSets * DB :=
  match outage with
  | Some e => (inl e, sets, db)
  | None =>
    match SubmitTask (in_config env) (in_lookups env) None false ids now q sets db with
    | (inl e, sets', db') => (inl (App e), sets', db')
    | (inr t, sets', db') => (inr t, sets', db')
    end
  end.

(** [now] is the clock of the submission, [after] that of the outcome. *)
Definition processInboundDelivery (env : InboundEnv) (ids : SubmitIDs) (now after : time)
    (outage : option DBError) (id : string) (d : InboundDelivery) (sets : redactSets) (db : DB) (ib : Inbox)
    : redactSets * DB * Inbox :=
  match webhook_endpoints ib !! b_endpoint_id d with
  | None => (sets, db, finishInboundDelivery id d "failed_permanent" "endpoint no longer exists" after ib)
  | Some e =>
    if negb (w_enabled e)
    then (sets, db, finishInboundDelivery id d "failed_permanent" "endpoint disabled" after ib)
    else if negb (accepts e d) then (sets, db, markInboundDeliverySucceeded id "" after ib)
    else if negb (w_action_type e == "create_task")
    then (sets, db, finishInboundDelivery id d "failed_permanent"
                      (sprintf "unsupported action type %q" [w_action_type e]) after ib)
    else match renderInboundPrompt env e d with
    | inl msg => (sets, db, finishInboundDelivery id d "failed_permanent"
                              ("render action prompt: " ^^ msg) after ib)
    | inr prompt =>
      let taskID := inboundDeliveryTaskID env id in
      match submit_or_outage env ids now outage (inbound_request e prompt taskID) sets db with
      | (inr _, sets', db') => (sets', db', markInboundDeliverySucceeded id taskID after ib)
      | (inl err, sets', db') =>
        (sets', db',
         if isDuplicateKeyError err && bool_decide (is_Some (GetTaskByID taskID db'))
         then markInboundDeliverySucceeded id taskID after ib
         else finishInboundDelivery id d
                (if isInboundPermanentTaskError err then "failed_permanent" else "retry_wait")
                ("create task: " ^^ error_text err) after ib)
      end
    end
  end.

(** ** The operator's redelivery *)

Definition inboundVisibleToScope (scope : option Scope) (teamID : string) : bool :=
  match scope with
  | None => true
  | Some s => Admin s || negb (teamID == "") && HasTeam s teamID
  end.

Definition reset_for_retry (now : time) (b : InboundDelivery) : InboundDelivery :=
  b{{ b_status := "pending"; b_attempts := 0; b_error := None; b_lease_expires_at := None;
      b_next_attempt_at := Some now; b_processed_at := None; b_updated_at := now }}.

Definition ResetInboundDeliveryForRetry (now : time) (id : string) : Inbox → Z * Inbox :=
  update_inbound id (λ b, one_of ["failed_permanent"; "dead_letter"] (b_status b)) (reset_for_retry now).

Definition RetryInboundDelivery (scope : option Scope) (deliveryID : string) (now : time) (ib : Inbox)
    : (err + unit) * Inbox :=
  let id := trimSpace deliveryID in
  if id == "" then (inl (EMsg "delivery_id is required"), ib)
  else match inbound_deliveries ib !! id with
  | None => (inl (EFmt "inbound delivery %q not found" [id]), ib)
  | Some b =>
    if negb (inboundVisibleToScope scope (str_of (b_team_id b)))
    then (inl (EFmt "inbound delivery %q not found" [id]), ib)
    else if negb (one_of ["failed_permanent"; "dead_letter"] (b_status b))
    then (inl (EFmt "inbound delivery %q cannot be retried from status %q (only failed_permanent or dead_letter deliveries can be retried)" [id; b_status b]), ib)
    else let r := ResetInboundDeliveryForRetry now id ib in
         if r.1 =? 0 then (inl (EFmt "inbound delivery %q is no longer retryable" [id]), r.2)
         else (inr tt, r.2)
  end.

(** ** The inbox and the control plane as one system

    The label of a step is the delivery whose processing made a task. The
    receiver, any worker on any snapshot of a row, an operator and every step
    of the control plane interleave freely; a worker that dies takes no step. *)
Record World := mkWorld { wd_db : DB; wd_inbox : Inbox }.

Section system.
Context `{Outbox} (allowed : string → Prop) (env : InboundEnv).

Inductive inbound_step (w : World) : option string → World → Prop :=
| in_receive hmac cfg ff r id now stamp lim code lim' ib' :
    ServeHTTP hmac cfg ff r id now stamp lim (wd_inbox w) = (code, lim', ib') →
    inbound_step w None (mkWorld (wd_db w) ib')
| in_claim skip now :
    inbound_step w None (mkWorld (wd_db w) (claimDueInboundDeliveries skip now (wd_inbox w)).2)
| in_process ids now after outage id d sets sets' db' ib' :
    processInboundDelivery env ids now after outage id d sets (wd_db w) (wd_inbox w) = (sets', db', ib') →
    inbound_step w
      (if bool_decide (tasks (wd_db w) !! inboundDeliveryTaskID env id = None) &&
          bool_decide (is_Some (tasks db' !! inboundDeliveryTaskID env id)) then Some id else None)
      (mkWorld db' ib')
| in_retry scope id now :
    inbound_step w None (mkWorld (wd_db w) (RetryInboundDelivery scope id now (wd_inbox w)).2)
| in_control db' :
    step allowed (wd_db w) db' → inbound_step w None (mkWorld db' (wd_inbox w)).

Inductive inbound_run (w : World) : list string → World → Prop :=
| run_refl : inbound_run w [] w
| run_step made w1 label w2 :
    inbound_run w made w1 → inbound_step w1 label w2 →
    inbound_run w (made ++ match label with Some id => [id] | None => [] end) w2.
End system.

(** ** Lemmas: rows *)

Record inbound_ok (env : InboundEnv) (db : DB) (id : string) (b : InboundDelivery) : Prop := {
  ik_status : b_status b ∈
    ["pending"; "processing"; "succeeded"; "retry_wait"; "failed_permanent"; "dead_letter"];
  ik_attempts : 0 <= b_attempts b;
  ik_due : b_status b ∈ ["pending"; "retry_wait"] → is_Some (b_next_attempt_at b);
  ik_lease : b_status b = "processing" ↔ is_Some (b_lease_expires_at b);
  ik_task : ∀ t, b_task_id b = Some t →
    t = inboundDeliveryTaskID env id ∧ is_Some (tasks db !! t);
}.

Definition inbox_ok (env : InboundEnv) (db : DB) (ib : Inbox) : Prop :=
  ∀ id b, inbound_deliveries ib !! id = Some b → inbound_ok env db id b.

Ltac status_in := repeat (rewrite elem_of_cons || rewrite elem_of_nil); naive_solver.

Lemma new_inbound_ok env db id x now : inbound_ok env db id (new_inbound x now).
Proof. constructor; simpl; [status_in|lia|by eexists|split; [done|by intros []]|done]. Qed.

Lemma processing_ok env db id attempt lease now b :
  inbound_ok env db id b → 0 <= attempt → inbound_ok env db id (processing_until attempt lease now b).
Proof.
  intros [_ _ _ _ Ht] Ha. constructor; simpl; [status_in|done|status_in|split; [by eexists|done]|].
  exact Ht.
Qed.

Lemma inbound_succeeded_ok env db id taskID now b :
  inbound_ok env db id b →
  (taskID ≠ "" → taskID = inboundDeliveryTaskID env id ∧ is_Some (tasks db !! taskID)) →
  inbound_ok env db id (succeeded taskID now b).
Proof.
  intros [_ Ha _ _ _] Ht. constructor; simpl; [status_in|done|status_in|split; [done|by intros []]|].
  intros t. unfold nullString, nullif_empty. case_bool_decide; [done|]. intros [= <-]. by apply Ht.
Qed.

Lemma inbound_failed_ok env db id status msg next now b :
  inbound_ok env db id b →
  status = "retry_wait" ∧ is_Some next ∨ status ∈ ["failed_permanent"; "dead_letter"] →
  inbound_ok env db id (failed status msg next now b).
Proof.
  intros [_ Ha _ _ Ht] Hs. constructor; simpl; [|done| |split; [|by intros []]|exact Ht].
  - destruct Hs as [[-> _]|Hs]; [status_in|]. revert Hs. status_in.
  - intros Hs2. destruct Hs as [[_ ?]|Hs]; [done|]. revert Hs Hs2. status_in.
  - intros ->. destruct Hs as [[? _]|Hs]; [done|]. revert Hs. status_in.
Qed.

Lemma inbound_reset_ok env db id now b : inbound_ok env db id b → inbound_ok env db id (reset_for_retry now b).
Proof.
  intros [_ _ _ _ Ht]. constructor; simpl; [status_in|lia|by eexists|split; [done|by intros []]|exact Ht].
Qed.

Lemma inbound_ok_mono env db db' id b :
  (∀ t, is_Some (tasks db !! t) → is_Some (tasks db' !! t)) →
  inbound_ok env db id b → inbound_ok env db' id b.
Proof.
  intros Hm [H1 H2 H3 H4 H5]. constructor; try done.
  intros t Ht. destruct (H5 t Ht). split; [done|auto].
Qed.

Lemma update_inbound_cases id p f ib :
  ((update_inbound id p f ib).1 = 0 ∧ (update_inbound id p f ib).2 = ib ∧
   ∀ b, inbound_deliveries ib !! id = Some b → p b = false) ∨
  ∃ b, (update_inbound id p f ib).1 = 1 ∧ inbound_deliveries ib !! id = Some b ∧ p b = true ∧
    (update_inbound id p f ib).2
      = ib{{ inbound_deliveries := <[id := f b]> (inbound_deliveries ib) }}.
Proof.
  unfold update_inbound. destruct (update_pk_rows id p f (inbound_deliveries ib))
    as [(Hn & v & Hv & Hp & Hu)|(Hn & Hu & Hno)]; [right|left].
  - exists v. split; [done|]. split; [done|]. split; [done|]. simpl. by rewrite Hu.
  - split; [done|]. split; [|done]. simpl. rewrite Hu. by destruct ib.
Qed.

Lemma inbound_inserted id b ib j b' :
  inbound_deliveries (ib{{ inbound_deliveries := <[id := b]> (inbound_deliveries ib) }}) !! j = Some b' →
  j = id ∧ b' = b ∨ j ≠ id ∧ inbound_deliveries ib !! j = Some b'.
Proof.
  change (<[id := b]> (inbound_deliveries ib) !! j = Some b' →
          j = id ∧ b' = b ∨ j ≠ id ∧ inbound_deliveries ib !! j = Some b').
  intros [[-> ->]|[? ?]]%lookup_insert_Some; [by left|right]. split; [by intros ->|done].
Qed.

Lemma update_inbound_ok env db id p f ib :
  inbox_ok env db ib →
  (∀ b, inbound_deliveries ib !! id = Some b → p b = true → inbound_ok env db id (f b)) →
  inbox_ok env db (update_inbound id p f ib).2.
Proof.
  intros Hok Hf. destruct (update_inbound_cases id p f ib) as [(_ & -> & _)|(b & _ & Hb & Hp & ->)]; [done|].
  intros j b' [[-> ->]|[_ ?]]%inbound_inserted; [by apply Hf|by eapply Hok].
Qed.

(** ** Lemmas: processing *)

(** The ways a delivery is settled. *)
Inductive settled (env : InboundEnv) (id : string) (after : time) (db' : DB)
    : (InboundDelivery → InboundDelivery) → Prop :=
| settled_ignored : settled env id after db' (succeeded "" after)
| settled_task :
    is_Some (tasks db' !! inboundDeliveryTaskID env id) →
    settled env id after db' (succeeded (inboundDeliveryTaskID env id) after)
| settled_waiting msg t : settled env id after db' (failed "retry_wait" msg (Some t) after)
| settled_dead status msg :
    status ∈ ["failed_permanent"; "dead_letter"] →
    settled env id after db' (failed status msg None after).

Lemma settled_ok env id after db f b :
  settled env id after db f → inbound_ok env db id b → inbound_ok env db id (f b).
Proof.
  destruct 1 as [|Ht|msg t|status msg Hs]; intros Hb.
  - by apply inbound_succeeded_ok.
  - by apply inbound_succeeded_ok.
  - apply inbound_failed_ok; [done|]. left. by eauto.
  - apply inbound_failed_ok; [done|by right].
Qed.

Lemma finish_settled env db' id d status msg after ib :
  status ∈ ["failed_permanent"; "retry_wait"] →
  ∃ f, settled env id after db' f ∧
       finishInboundDelivery id d status msg after ib = (update_inbound id (λ _, true) f ib).2.
Proof.
  intros Hs. unfold finishInboundDelivery, markInboundDeliveryFailed.
  destruct (status == "failed_permanent") eqn:E.
  { apply bool_decide_eq_true in E as ->. eexists. split; [|reflexivity]. constructor. status_in. }
  destruct (_ <=? _); eexists; (split; [|reflexivity]); constructor. status_in.
Qed.

Lemma task_id_nonempty env id : inboundDeliveryTaskID env id ≠ "".
Proof. discriminate. Qed.

(** One processing: it settles its own row, and either leaves the control plane
    alone or submits the one task that is named after the row. *)
Lemma process_settled `{Outbox} allowed env ids now after outage id d sets db ib sets' db' ib' :
  processInboundDelivery env ids now after outage id d sets db ib = (sets', db', ib') →
  ∃ f, settled env id after db' f ∧ ib' = (update_inbound id (λ _, true) f ib).2 ∧
    (db' = db ∨
     tasks db !! inboundDeliveryTaskID env id = None ∧
     (∃ t, tasks db' = <[inboundDeliveryTaskID env id := t]> (tasks db)) ∧ step allowed db db' ∧
     f = succeeded (inboundDeliveryTaskID env id) after).
Proof.
  assert (∀ msg, ∃ f, settled env id after db f ∧
    finishInboundDelivery id d "failed_permanent" msg after ib = (update_inbound id (λ _, true) f ib).2 ∧
    (db = db ∨ tasks db !! inboundDeliveryTaskID env id = None ∧
      (∃ t, tasks db = <[inboundDeliveryTaskID env id := t]> (tasks db)) ∧ step allowed db db ∧
      f = succeeded (inboundDeliveryTaskID env id) after)) as Hperm.
  { intros msg. destruct (finish_settled env db id d "failed_permanent" msg after ib) as (f & ? & ?);
      [status_in|]. exists f. eauto. }
  unfold processInboundDelivery.
  destruct (webhook_endpoints ib !! b_endpoint_id d) as [e|]; [|intros [= _ <- <-]; apply Hperm].
  destruct (negb (w_enabled e)); [intros [= _ <- <-]; apply Hperm|].
  destruct (negb (accepts e d)).
  { intros [= _ <- <-]. exists (succeeded "" after). split; [constructor|by eauto]. }
  destruct (negb (w_action_type e == "create_task")); [intros [= _ <- <-]; apply Hperm|].
  destruct (renderInboundPrompt env e d) as [msg|prompt]; [intros [= _ <- <-]; apply Hperm|].
  set (tid := inboundDeliveryTaskID env id).
  destruct (submit_or_outage _ _ _ _ _ _ _) as [[[err|t] sets1] db1] eqn:Es; intros [= _ <- <-].
  - assert (db1 = db) as ->.
    { unfold submit_or_outage in Es. destruct outage; [congruence|].
      destruct (SubmitTask _ _ _ _ _ _ _ _ _) as [[[?|?] ?] ?] eqn:E2; [|done].
      apply submit_error in E2 as [-> _]. congruence. }
    destruct (_ && _) eqn:Edup.
    + apply andb_true_iff in Edup as [_ Ht%bool_decide_eq_true].
      exists (succeeded tid after). split; [by constructor|by eauto].
    + destruct (finish_settled env db id d (if isInboundPermanentTaskError err then "failed_permanent"
        else "retry_wait") ("create task: " ^^ error_text err) after ib) as (f & ? & ?);
        [destruct (isInboundPermanentTaskError err); status_in|].
      exists f. eauto.
  - unfold submit_or_outage in Es. destruct outage; [done|].
    destruct (SubmitTask _ _ _ _ _ _ _ _ _) as [[[?|t1] sets2] db2] eqn:E2; [done|].
    injection Es as -> -> ->. pose proof (step_submit allowed _ _ _ _ _ _ _ _ _ _ _ _ E2) as Hstep.
    apply SubmitTask_inr in E2 as (p & db2 & Hp & _ & Hrows & Hdb & _).
    apply submit_rows_inr in Hrows as (Hnone & _ & _ & _ & _ & Hnew).
    assert (pp_task p = tid) as Hpt.
    { destruct (pf_task _ _ _ (prepare_inr _ _ _ _ _ _ Hp)) as [->|Hnil]; [done|].
      by apply task_id_nonempty in Hnil. }
    rewrite Hpt in Hnone, Hnew.
    assert (tasks db1 = <[tid := submitted_task p now]> (tasks db)) as Htasks
      by (rewrite Hdb, record_trigger_run_tasks, Hnew; reflexivity).
    exists (succeeded tid after). split; [|split; [done|right]].
    + constructor. fold tid. rewrite Htasks, lookup_insert_eq. by eexists.
    + split; [done|]. split; [by eexists|done].
Qed.

(** ** Lemmas: claiming *)

Definition claimed (now : time) (b : InboundDelivery) : InboundDelivery :=
  processing_until (b_attempts b + 1) (now + inboundDeliveryLease) now b.

Lemma select_inbound_elem skip now ib id b :
  (id, b) ∈ select_inbound skip now ib →
  inbound_deliveries ib !! id = Some b ∧ skip id = false ∧ inbound_due now b = true.
Proof.
  intros (i & Hi & _)%elem_of_take. apply list_elem_of_lookup_2, sort_by_elem in Hi.
  rewrite list_elem_of_In, filter_In, <- list_elem_of_In in Hi. destruct Hi as [Hi Hb].
  apply elem_of_map_to_list in Hi. by apply andb_true_iff in Hb as [?%negb_true_iff ?].
Qed.

Lemma select_inbound_NoDup skip now ib : NoDup (select_inbound skip now ib).*1.
Proof.
  unfold select_inbound. rewrite fmap_take. eapply sublist_NoDup; [|apply sublist_take].
  rewrite sort_by_perm. apply NoDup_fst_filter, NoDup_fst_map_to_list.
Qed.

Lemma claim_fold now items : ∀ ib,
  (∀ id b, (id, b) ∈ items → inbound_deliveries ib !! id = Some b) → NoDup items.*1 →
  let ib' := foldl (mark_processing now) ib items in
  (∀ id b, (id, b) ∈ items → inbound_deliveries ib' !! id = Some (claimed now b)) ∧
  (∀ id, id ∉ items.*1 → inbound_deliveries ib' !! id = inbound_deliveries ib !! id).
Proof.
  induction items as [|[k v] items IH]; intros ib Hin Hnd; cbn [foldl]; [split; [set_solver|done]|].
  apply NoDup_cons in Hnd as [Hk Hnd].
  assert (inbound_deliveries ib !! k = Some v) as Hkv by (apply Hin; left).
  assert (mark_processing now ib (k, v)
    = ib{{ inbound_deliveries := <[k := claimed now v]> (inbound_deliveries ib) }}) as ->.
  { destruct (update_inbound_cases k (λ _, true)
      (processing_until (b_attempts v + 1) (now + inboundDeliveryLease) now) ib)
      as [(_ & _ & Hno)|(b & _ & Hb & _ & Heq)]; [by specialize (Hno v Hkv)|].
    assert (b = v) as -> by congruence. exact Heq. }
  set (ib1 := ib{{ inbound_deliveries := _ }}).
  assert (∀ j, j ≠ k → inbound_deliveries ib1 !! j = inbound_deliveries ib !! j) as Hne
    by (intros j Hj; exact (lookup_insert_ne _ _ _ _ (not_eq_sym Hj))).
  assert (∀ id b, (id, b) ∈ items → id ≠ k) as Hkeys.
  { intros id b Hb ->. apply Hk. apply list_elem_of_fmap. by exists (k, b). }
  destruct (IH ib1) as [Hhit Hmiss]; [|done|].
  { intros id b Hb. rewrite Hne by (by eapply Hkeys). apply Hin. by right. }
  split.
  - intros id b [[= -> ->]|Hb]%elem_of_cons; [|by apply Hhit].
    rewrite Hmiss by done. exact (lookup_insert_eq _ _ _).
  - intros id [Hid Hrest]%not_elem_of_cons. rewrite Hmiss by done. by apply Hne.
Qed.

Lemma claim_spec skip now ib :
  let r := claimDueInboundDeliveries skip now ib in
  (∀ id d, (id, d) ∈ r.1 → ∃ b, inbound_deliveries ib !! id = Some b ∧ skip id = false ∧
     inbound_due now b = true ∧ b_attempts d = b_attempts b + 1 ∧
     inbound_deliveries r.2 !! id = Some (claimed now b)) ∧
  (∀ id, id ∉ r.1.*1 → inbound_deliveries r.2 !! id = inbound_deliveries ib !! id).
Proof.
  unfold claimDueInboundDeliveries. cbn [fst snd]. set (items := select_inbound skip now ib).
  destruct (claim_fold now items ib) as [Hhit Hmiss];
    [by intros id b (? & _)%select_inbound_elem|apply select_inbound_NoDup|]. split.
  - intros id d ([k b] & [= -> ->] & Hb)%list_elem_of_fmap. exists b.
    destruct (select_inbound_elem _ _ _ _ _ Hb) as (? & ? & ?).
    do 4 (split; [done|]). by apply Hhit.
  - intros id Hid. apply Hmiss. contradict Hid. apply list_elem_of_fmap in Hid as ([k b] & -> & Hb).
    apply list_elem_of_fmap. eexists. split; [|apply list_elem_of_fmap; by exists (k, b)]. done.
Qed.

Lemma claim_row skip now ib id b :
  inbound_deliveries (claimDueInboundDeliveries skip now ib).2 !! id = Some b →
  inbound_deliveries ib !! id = Some b ∨
  ∃ b0, inbound_deliveries ib !! id = Some b0 ∧ inbound_due now b0 = true ∧ b = claimed now b0.
Proof.
  destruct (claim_spec skip now ib) as [Hhit Hmiss]. intros Hb.
  destruct (decide (id ∈ (claimDueInboundDeliveries skip now ib).1.*1)) as [Hin|Hout].
  - right. apply list_elem_of_fmap in Hin as ([k d] & -> & Hd).
    destruct (Hhit _ _ Hd) as (b0 & H0 & _ & Hdue & _ & H1). exists b0. do 2 (split; [done|]).
    cbn [fst] in Hb. congruence.
  - left. by rewrite <- Hmiss.
Qed.

(** ** Lemmas: the system *)

(** The rows of [ib'] are rows of [ib] under their keys. *)
Definition keeps_keys (ib ib' : Inbox) : Prop :=
  ∀ id b', inbound_deliveries ib' !! id = Some b' →
  ∃ b, inbound_deliveries ib !! id = Some b ∧ b_endpoint_id b' = b_endpoint_id b ∧
       b_delivery_id b' = b_delivery_id b.

Lemma unique_keeps ib ib' : keeps_keys ib ib' → unique_inbound ib → unique_inbound ib'.
Proof.
  intros Hk Hu i j b b' Hi Hj [He (k & H1 & H2)]%same_inbound_key_spec.
  destruct (Hk _ _ Hi) as (c & Hc & Ec & Dc), (Hk _ _ Hj) as (c' & Hc' & Ec' & Dc').
  eapply Hu; [exact Hc|exact Hc'|]. apply same_inbound_key_spec. split; [congruence|].
  exists k. split; congruence.
Qed.

Lemma keeps_update id p f ib :
  (∀ b, b_endpoint_id (f b) = b_endpoint_id b ∧ b_delivery_id (f b) = b_delivery_id b) →
  keeps_keys ib (update_inbound id p f ib).2.
Proof.
  intros Hf. destruct (update_inbound_cases id p f ib) as [(_ & -> & _)|(b & _ & Hb & _ & ->)].
  { intros j b Hj. by exists b. }
  intros j b' [[-> ->]|[_ Hj]]%inbound_inserted; [exists b|exists b']; split; try done; apply Hf.
Qed.

Lemma settled_keys env id after db f b :
  settled env id after db f →
  b_endpoint_id (f b) = b_endpoint_id b ∧ b_delivery_id (f b) = b_delivery_id b.
Proof. by destruct 1. Qed.

Lemma retry_cases scope id now ib :
  (RetryInboundDelivery scope id now ib).2 = ib ∨
  (RetryInboundDelivery scope id now ib).2 = (ResetInboundDeliveryForRetry now (trimSpace id) ib).2.
Proof.
  unfold RetryInboundDelivery. destruct (_ == ""); [by left|].
  destruct (inbound_deliveries ib !! trimSpace id); [|by left].
  destruct (negb _); [by left|]. destruct (negb _); [by left|]. right. by destruct (_ =? 0).
Qed.

Definition world_ok (env : InboundEnv) (w : World) : Prop :=
  inbox_ok env (wd_db w) (wd_inbox w) ∧ unique_inbound (wd_inbox w).

Lemma inbox_ok_mono env db db' ib :
  (∀ t, is_Some (tasks db !! t) → is_Some (tasks db' !! t)) → inbox_ok env db ib → inbox_ok env db' ib.
Proof. intros Hm Hok id b Hb. eapply inbound_ok_mono; [exact Hm|by apply Hok]. Qed.

(** What one step keeps, and what its label says. *)
Lemma inbound_step_spec `{Outbox} allowed env w label w' :
  world_ok env w → inbound_step allowed env w label w' →
  world_ok env w' ∧ (∀ t, is_Some (tasks (wd_db w) !! t) → is_Some (tasks (wd_db w') !! t)) ∧
  (∀ id, label = Some id → tasks (wd_db w) !! inboundDeliveryTaskID env id = None ∧
     is_Some (tasks (wd_db w') !! inboundDeliveryTaskID env id)).
Proof.
  intros [Hok Hu]. destruct 1 as [hmac cfg ff r id now stamp lim code lim' ib' HS|skip now
    |ids now after outage id d sets sets' db' ib' HP|scope id now|db' HC]; cbn [wd_db wd_inbox].
  - split; [|by split]. destruct (ServeHTTP_cases _ _ _ _ _ _ _ _ _ _ _ _ HS)
      as [[_ ->]|(_ & eid & e & body & secret & created & _ & _ & _ & _ & _ & _ & _ & _ & Hi)];
      [done|]. split; [|by eapply insert_unique_inbound]. cbn [wd_db wd_inbox].
    destruct (InsertDelivery_cases _ _ _ _ _ _ Hi) as [(_ & _ & _ & ->)|(_ & -> & _)]; [|done].
    intros j b [[-> ->]|[_ ?]]%inbound_inserted; [apply new_inbound_ok|by apply Hok].
  - split; [|by split]. split; cbn [wd_db wd_inbox].
    + intros id b [Hb|(b0 & Hb & _ & ->)]%claim_row; [by apply Hok|].
      apply processing_ok; [by apply Hok|]. pose proof (ik_attempts _ _ _ _ (Hok _ _ Hb)). lia.
    + eapply unique_keeps, Hu. intros id b [Hb|(b0 & Hb & _ & ->)]%claim_row; eauto.
  - destruct (process_settled allowed _ _ _ _ _ _ _ _ _ _ _ _ _ HP) as (f & Hf & -> & Hdb).
    assert (∀ t, is_Some (tasks (wd_db w) !! t) → is_Some (tasks db' !! t)) as Hm.
    { destruct Hdb as [-> | (_ & [t Ht] & _)]; [done|]. intros j Hj. rewrite Ht.
      destruct (decide (j = inboundDeliveryTaskID env id)) as [->|Hne];
        [rewrite lookup_insert_eq; by eexists|by rewrite lookup_insert_ne]. }
    split; [split; cbn [wd_db wd_inbox]|split; [exact Hm|]].
    + apply update_inbound_ok; [by eapply inbox_ok_mono|]. intros b Hb _.
      eapply settled_ok; [exact Hf|]. eapply inbound_ok_mono; [exact Hm|]. by apply Hok.
    + eapply unique_keeps, Hu. apply keeps_update. intros b. by eapply settled_keys.
    + intros i. destruct (_ && _) eqn:E; [|done]. intros [= <-].
      by apply andb_true_iff in E as [?%bool_decide_eq_true ?%bool_decide_eq_true].
  - split; [|by split]. destruct (retry_cases scope id now (wd_inbox w)) as [-> | ->]; [by split|].
    split; cbn [wd_db wd_inbox].
    + apply update_inbound_ok; [done|]. intros b Hb _. apply inbound_reset_ok. by apply Hok.
    + eapply unique_keeps, Hu. by apply keeps_update.
  - pose proof (step_evolves _ _ _ HC) as [_ _ _ Ht].
    assert (∀ t, is_Some (tasks (wd_db w) !! t) → is_Some (tasks db' !! t)) as Hm.
    { intros t [x Hx]. destruct (Ht _ _ Hx) as (x' & -> & _). by eexists. }
    split; [split; [by eapply inbox_ok_mono|done]|by split].
Qed.

(** ** Properties *)


(** The conditions under which a delivery reaches the submission. *)
Record submits (env : InboundEnv) (ids : SubmitIDs) (id : string) (d : InboundDelivery)
    (e : WebhookEndpoint) (prompt : string) (ib : Inbox) : Prop := {
  su_endpoint : webhook_endpoints ib !! b_endpoint_id d = Some e;
  su_enabled : w_enabled e = true;
  su_accepts : accepts e d = true;
  su_action : w_action_type e = "create_task";
  su_prompt : renderInboundPrompt env e d = inr prompt;
  su_valid : is_ok (prepare_submission (in_config env) (in_lookups env) None ids
               (inbound_request e prompt (inboundDeliveryTaskID env id))) = true;
}.

Lemma process_submits env ids now after outage id d e prompt sets db ib :
  submits env ids id d e prompt ib →
  processInboundDelivery env ids now after outage id d sets db ib =
  match submit_or_outage env ids now outage
          (inbound_request e prompt (inboundDeliveryTaskID env id)) sets db with
  | (inr _, sets', db') =>
      (sets', db', markInboundDeliverySucceeded id (inboundDeliveryTaskID env id) after ib)
  | (inl err, sets', db') =>
      (sets', db',
       if isDuplicateKeyError err && bool_decide (is_Some (GetTaskByID (inboundDeliveryTaskID env id) db'))
       then markInboundDeliverySucceeded id (inboundDeliveryTaskID env id) after ib
       else finishInboundDelivery id d
              (if isInboundPermanentTaskError err then "failed_permanent" else "retry_wait")
              ("create task: " ^^ error_text err) after ib)
  end.
Proof.
  intros [He Hen Hac Hact Hp _]. unfold processInboundDelivery.
  rewrite He, Hen, Hac, Hact, Hp. reflexivity.
Qed.

Lemma update_inbound_row id f ib b :
  inbound_deliveries ib !! id = Some b →
  inbound_deliveries (update_inbound id (λ _, true) f ib).2 !! id = Some (f b).
Proof.
  intros Hb. destruct (update_inbound_cases id (λ _, true) f ib) as [(_ & _ & Hno)|(b' & _ & Hb' & _ & ->)].
  - by specialize (Hno b Hb).
  - assert (b' = b) as -> by congruence. exact (lookup_insert_eq _ _ _).
Qed.

(** A submission that the queue has no room for. *)
Lemma submit_full cfg L ids now q sets db :
  is_ok (prepare_submission cfg L None ids q) = true →
  0 < MaxPendingTasks cfg <= CountPendingTasks db →
  SubmitTask cfg L None false ids now q sets db
  = (inl (ECapacity (MaxPendingTasks cfg) (CountPendingTasks db)), sets, db).
Proof.
  intros Hprep [Hpos Hfull]. unfold SubmitTask.
  destruct (prepare_submission cfg L None ids q) as [e|p]; [done|].
  assert (withPendingTaskAdmission cfg (submit_rows cfg p ids now) db
    = inl (ECapacity (MaxPendingTasks cfg) (CountPendingTasks db))) as Htx.
  { unfold withPendingTaskAdmission. rewrite (proj2 (Z.leb_gt (MaxPendingTasks cfg) 0)) by lia.
    unfold mbind, tx_bind, tx_read. by rewrite (proj2 (Z.leb_le _ _)) by lia. }
  unfold run_tx. by rewrite Htx.
Qed.

(** A flaw: backpressure loses accepted events. A delivery whose turn comes
    while the queue is full is failed for good on that first try, however many
    tries it had left, though the sender was answered 202 and the refusal asks
    to retry; and a delivery that already succeeded, when a slow worker takes
    it up again, is turned into a failed one, though its task is there. *)
Theorem full_queue_discards env ids now after id b d e prompt sets db ib sets' db' ib' :
  inbound_deliveries ib !! id = Some b → submits env ids id d e prompt ib →
  0 < MaxPendingTasks (in_config env) <= CountPendingTasks db →
  processInboundDelivery env ids now after None id d sets db ib = (sets', db', ib') →
  db' = db ∧ ∃ b', inbound_deliveries ib' !! id = Some b' ∧ b_status b' = "failed_permanent" ∧
    b_next_attempt_at b' = None ∧ b_attempts b' = b_attempts b.
Proof.
  intros Hb Hs Hfull. rewrite (process_submits _ _ _ _ _ _ _ _ _ _ _ _ Hs).
  unfold submit_or_outage. rewrite (submit_full _ _ _ _ _ _ _ (su_valid _ _ _ _ _ _ _ Hs) Hfull).
  destruct (capacity_is_permanent (MaxPendingTasks (in_config env)) (CountPendingTasks db)) as [-> ->].
  cbn [andb]. unfold finishInboundDelivery. rewrite (bool_decide_eq_true_2 (_ = _)) by done.
  intros [= _ <- <-]. split; [done|].
  eexists. split; [by apply update_inbound_row|]. done.
Qed.

(** An outage of the database is retried, and after the last attempt the
    delivery is set aside for an operator. *)
Theorem outage_retries env ids now after id b d e prompt err sets db ib sets' db' ib' :
  inbound_deliveries ib !! id = Some b → submits env ids id d e prompt ib →
  IsTransientError err = true → isDuplicateKeyError err = false →
  processInboundDelivery env ids now after (Some err) id d sets db ib = (sets', db', ib') →
  db' = db ∧ ∃ b', inbound_deliveries ib' !! id = Some b' ∧
    (b_attempts d < b_max_attempts d → b_status b' = "retry_wait" ∧
       b_next_attempt_at b' = Some (after + inboundDeliveryBackoff (int32_of (b_attempts d)))) ∧
    (b_max_attempts d <= b_attempts d → b_status b' = "dead_letter").
Proof.
  intros Hb Hs Htr Hdup. rewrite (process_submits _ _ _ _ _ _ _ _ _ _ _ _ Hs).
  cbn [submit_or_outage]. rewrite Hdup. cbn [andb].
  assert (isInboundPermanentTaskError err = false) as ->
    by (unfold isInboundPermanentTaskError; rewrite Htr; by destruct (isRetryableTxError err)).
  unfold finishInboundDelivery. rewrite (bool_decide_eq_false_2 (_ = _)) by done.
  intros [= _ <- <-]. split; [done|].
  destruct (Z.leb_spec (b_max_attempts d) (b_attempts d));
    (eexists; split; [by apply update_inbound_row|]).
  - split; [lia|done].
  - split; [done|lia].
Qed.

(** Claims whose worker dies: each one lease and a bit after the last. *)
Fixpoint crashes (n : nat) (now : time) (ib : Inbox) : Inbox :=
  match n with
  | O => ib
  | S n' => crashes n' (now + inboundDeliveryLease + 1) (claimDueInboundDeliveries no_skip now ib).2
  end.

(** A flaw: the limit of three attempts is only looked at when a failure is
    recorded. A delivery whose worker dies or runs out of its two minutes is
    claimed again whenever its lease is over, any number of times, past every
    limit. *)
Theorem crashed_claims_unbounded n : ∀ now ib id b,
  inbound_deliveries ib !! id = Some b → inbound_due now b = true →
  (size (inbound_deliveries ib) <= inboundDeliveryClaimLimit)%nat →
  ∃ b', inbound_deliveries (crashes n now ib) !! id = Some b' ∧
    b_attempts b' = b_attempts b + Z.of_nat n ∧ b_max_attempts b' = b_max_attempts b ∧
    inbound_due (now + Z.of_nat n * (inboundDeliveryLease + 1)) b' = true.
Proof.
  induction n as [|n IH]; intros now ib id b Hb Hdue Hsize.
  { exists b. split; [done|]. split; [lia|]. split; [done|]. rewrite <- Hdue. f_equal. lia. }
  cbn [crashes]. destruct (claim_spec no_skip now ib) as [Hhit Hmiss].
  assert (inbound_deliveries (claimDueInboundDeliveries no_skip now ib).2 !! id = Some (claimed now b))
    as Hrow.
  { assert ((id, b) ∈ select_inbound no_skip now ib) as Hin.
    { unfold select_inbound. rewrite take_ge.
      - apply sort_by_elem. rewrite list_elem_of_In, filter_In, <- list_elem_of_In.
        split; [by apply elem_of_map_to_list|exact Hdue].
      - rewrite sort_by_perm. etrans; [apply List.filter_length_le|].
        by rewrite length_map_to_list. }
    destruct (Hhit id (b{{ b_attempts := b_attempts b + 1 }})) as (b0 & H0 & _ & _ & _ & H1).
    { apply list_elem_of_fmap. by exists (id, b). }
    congruence. }
  destruct (IH (now + inboundDeliveryLease + 1) _ _ _ Hrow) as (b' & Hb' & Ha & Hm & Hd).
  - unfold inbound_due, claimed, processing_until, sql_lt. cbn. apply Z.ltb_lt. lia.
  - rewrite <- size_dom. etrans; [|exact Hsize]. rewrite <- size_dom. apply subseteq_size.
    intros i [x Hx]%elem_of_dom. apply elem_of_dom.
    destruct (claim_row _ _ _ _ _ Hx) as [?|(? & ? & _)]; by eexists.
  - exists b'. split; [exact Hb'|]. cbn [b_attempts b_max_attempts claimed processing_until] in Ha, Hm.
    split; [rewrite Ha; change (b_attempts (claimed now b)) with (b_attempts b + 1); lia|].
    split; [exact Hm|]. rewrite <- Hd. f_equal. lia.
Qed.

(** ** Witnesses *)

Definition inbound_env (limit : Z) : InboundEnv :=
  mkInboundEnv (sample_config limit) sample_lookups (λ _ _, inr "look into it") (λ s, s).

Definition waiting_row : InboundDelivery :=
  new_inbound (mkDeliveryInsert "e1" "team1" "d1" "deploy" "10.0.0.1" "{}") 5.

Definition waiting_inbox : Inbox := sample_inbox {[ "row1" := waiting_row ]}.

Lemma waiting_row_ok limit db : inbox_ok (inbound_env limit) db waiting_inbox.
Proof.
  intros id b Hb. change (({["row1" := waiting_row]} : gmap string InboundDelivery) !! id = Some b) in Hb.
  apply lookup_singleton_Some in Hb as [<- <-]. apply new_inbound_ok.
Qed.

Lemma waiting_unique : unique_inbound waiting_inbox.
Proof.
  intros i j b b' Hb Hb' _.
  change (({["row1" := waiting_row]} : gmap string InboundDelivery) !! i = Some b) in Hb.
  change (({["row1" := waiting_row]} : gmap string InboundDelivery) !! j = Some b') in Hb'.
  apply lookup_singleton_Some in Hb as [<- _], Hb' as [<- _]. done.
Qed.

Lemma sample_submits limit : submits (inbound_env limit) (fresh_ids "x") "row1" (claimed 9 waiting_row)
  sample_endpoint "look into it" waiting_inbox.
Proof. constructor; vm_compute; reflexivity. Qed.

Definition claimed_world : World :=
  mkWorld sample_db (claimDueInboundDeliveries no_skip 9 waiting_inbox).2.


Lemma full_queue_discards_witness :
  ∃ sets ib' b',
    processInboundDelivery (inbound_env 1) (fresh_ids "x") 10 11 None "row1" (claimed 9 waiting_row) ∅
      sample_db waiting_inbox = (sets, sample_db, ib') ∧
    inbound_deliveries ib' !! "row1" = Some b' ∧ b_status b' = "failed_permanent".
Proof.
  destruct (processInboundDelivery (inbound_env 1) (fresh_ids "x") 10 11 None "row1"
    (claimed 9 waiting_row) ∅ sample_db waiting_inbox) as [[sets db'] ib'] eqn:E.
  assert (inbound_deliveries waiting_inbox !! "row1" = Some waiting_row) as Hrow by reflexivity.
  assert (0 < MaxPendingTasks (in_config (inbound_env 1)) <= CountPendingTasks sample_db) as Hfull
    by (split; [|apply Z.leb_le]; vm_compute; reflexivity).
  destruct (full_queue_discards (inbound_env 1) (fresh_ids "x") 10 11 "row1" waiting_row
    (claimed 9 waiting_row) sample_endpoint "look into it" ∅ sample_db waiting_inbox sets db' ib'
    Hrow (sample_submits 1) Hfull E) as [Hdb (b' & Hb' & Hst & _)]. subst db'.
  exists sets, ib', b'. split; [reflexivity|]. split; [exact Hb'|exact Hst].
Defined.

Lemma crashed_claims_unbounded_witness :
  ∃ b', inbound_deliveries (crashes 7 9 waiting_inbox) !! "row1" = Some b' ∧
    b_attempts b' = 7 ∧ b_max_attempts b' = 3.
Proof.
  assert (inbound_due 9 waiting_row = true) as Hdue by (vm_compute; reflexivity).
  assert (size (inbound_deliveries waiting_inbox) <= inboundDeliveryClaimLimit)%nat as Hsize
    by (apply Nat.leb_le; vm_compute; reflexivity).
  assert (inbound_deliveries waiting_inbox !! "row1" = Some waiting_row) as Hrow by reflexivity.
  destruct (crashed_claims_unbounded 7 9 waiting_inbox "row1" waiting_row Hrow Hdue Hsize)
    as (b' & Hb & Ha & Hm & _).
  exists b'. split; [exact Hb|]. split; [exact Ha|exact Hm].
Defined.
