(* ===== verification/WebhookDelivery.v ===== *)
(** * GitHub webhooks: ingress, delivery rows and retries

    [ServeHTTP] and [ProcessDelivery] of [internal/webhook/handler.go], the
    memory of recent deliveries of [dedup.go], and the rows and the retry worker
    of [internal/service/webhook_deliveries.go], composed into one system: a
    request leaves a row and a job; jobs and retries run the event handlers of
    GithubWebhook.v; a restart of the process loses the jobs and the memory. *)
From S2P Require Import Prelude Effects GoStrings Queries Inbound GithubEvents GithubWebhook.

(** ** Recent deliveries ([dedup.go]) *)

Record RecentDeliveries := mkRecent {
  entries : gmap string time;
  ttl : Z;
  maxSize : Z;
}.

Definition NewRecentDeliveries (ttl maxSize : Z) : RecentDeliveries :=
  mkRecent ∅ (if ttl <=? 0 then seconds 300 else ttl) (if maxSize <=? 0 then 1024 else maxSize).

Definition evictExpired (now : time) (r : RecentDeliveries) : RecentDeliveries :=
  r{{ entries := filter (λ kv, now - kv.2 < ttl r) (entries r) }}.

(** The first entry of the least time; the code's order among equal times is that
    of a map iteration. *)
Definition oldest_entry (m : gmap string time) : option (string * time) :=
  best (λ a b, a.2 <? b.2) (map_to_list m).

Fixpoint evict_loop (fuel : nat) (max : Z) (m : gmap string time) : gmap string time :=
  match fuel with
  | O => m
  | S fuel' =>
    if max <? Z.of_nat (size m) then
      match oldest_entry m with
      | None => m
      | Some (id, _) => evict_loop fuel' max (delete id m)
      end
    else m
  end.

(** Each round deletes an entry: as many rounds as there are entries. *)
Definition evictOldest (r : RecentDeliveries) : RecentDeliveries :=
  r{{ entries := evict_loop (size (entries r)) (maxSize r) (entries r) }}.

Definition Seen (id : string) (now : time) (r : RecentDeliveries) : bool * RecentDeliveries :=
  if id == "" then (false, r)
  else
    let r := evictExpired now r in
    if match entries r !! id with Some prev => now - prev <? ttl r | None => false end then (true, r)
    else
      let r := r{{ entries := <[id := now]> (entries r) }} in
      (false, if maxSize r <? Z.of_nat (size (entries r)) then evictOldest (evictExpired now r) else r).

(** ** Rows ([webhook_deliveries.go]) *)

Record WebhookDelivery := mkWebhookDelivery {
  v_delivery_id : string;
  v_event_type : string;
  v_event_action : string;
  v_payload : string;
  v_status : string;
  v_attempts : Z;
  v_max_attempts : Z;
  v_error : option string;
  v_next_attempt_at : option time;
  v_processed_at : option time;
  v_created_at : time;
  v_updated_at : time;
}.

Notation Deliveries := (gmap string WebhookDelivery).

(** Whether each statement of the store fails. *)
Record RowFaults := mkRowFaults {
  rf_record : bool;
  rf_processing : bool;
  rf_failed : bool;
  rf_completed : bool;
}.

Definition no_faults : RowFaults := mkRowFaults false false false false.

Definition same_delivery (v v' : WebhookDelivery) : bool := v_delivery_id v == v_delivery_id v'.

Definition RecordDelivery (fault : bool) (id deliveryID event action payload : string) (now : time)
    (m : Deliveries) : (err + bool) * Deliveries :=
  if fault then (inl (EMsg "insert webhook delivery"), m)
  else match insert_unique "webhook_deliveries" same_delivery id
               (mkWebhookDelivery deliveryID event action payload "received" 0 3 None None None now now) m with
       | inl _ => (inr false, m)
       | inr m' => (inr true, m')
       end.

Definition on_delivery (deliveryID : string) (f : WebhookDelivery → WebhookDelivery) (m : Deliveries)
    : Deliveries :=
  (update_where (λ _ v, v_delivery_id v == deliveryID) (λ _, f) m).2.

Definition MarkDeliveryProcessing (deliveryID : string) (now : time) : Deliveries → Deliveries :=
  on_delivery deliveryID (λ v, v{{ v_status := "processing" }}{{ v_updated_at := now }}).

Definition MarkDeliveryCompleted (deliveryID : string) (now : time) : Deliveries → Deliveries :=
  on_delivery deliveryID (λ v, v{{ v_status := "completed" }}{{ v_processed_at := Some now }}
                                {{ v_updated_at := now }}).

Definition backoff (attempts : Z) : Z :=
  if attempts =? 0 then seconds 1 else if attempts =? 1 then seconds 5 else seconds 15.

Definition failed_delivery (errMsg : string) (now : time) (v : WebhookDelivery) : WebhookDelivery :=
  let newAttempts := v_attempts v + 1 in
  let dead := v_max_attempts v <=? newAttempts in
  v{{ v_status := if dead then "dead_letter" else "failed" }}{{ v_attempts := newAttempts }}
   {{ v_error := Some errMsg }}
   {{ v_next_attempt_at := if dead then None else Some (now + backoff (v_attempts v)) }}
   {{ v_updated_at := now }}.

(** The SELECT finds no row: the error of the scan, and nothing is written. *)
Definition MarkDeliveryFailed (deliveryID errMsg : string) (now : time) : Deliveries → Deliveries :=
  on_delivery deliveryID (failed_delivery errMsg now).

(** ** Processing ([handler.go]) *)

Record HandlerConfig := mkHandlerConfig {
  Disabled : bool;
  WebhookSecret : string;
  cfg_MaxBodyBytes : Z;
}.

(** A request that was answered and is still to be processed. *)
Record Job := mkJob { j_event : string; j_body : string; j_delivery : string }.

Section process.
Context {W : Type} `{SV : Services W}.
Variable h : Handler.
Variable D : Decoders.
Variable errText : err → string.

(** The result, the events of the handler, the world and the rows. A panic of the
    handler would be an error of the delivery; no handler of the model panics. *)
Definition ProcessDelivery (ff : RowFaults) (j : Job) (now : time) (w : W) (m : Deliveries)
    : (err + unit) * list effect * W * Deliveries :=
  if rf_processing ff then (inl (EMsg "mark processing"), [], w, m)
  else
    let m1 := MarkDeliveryProcessing (j_delivery j) now m in
    let '(r, es, w') := handle h D errText (j_event j) (j_body j) (j_delivery j) w in
    match r with
    | inl e => (inl e, es, w', if rf_failed ff then m1
                               else MarkDeliveryFailed (j_delivery j) (errText e) now m1)
    | inr _ => if rf_completed ff then (inl (EMsg "mark completed"), es, w', m1)
               else (inr tt, es, w', MarkDeliveryCompleted (j_delivery j) now m1)
    end.

(** *** The retry worker *)

Definition is_due (now : time) (v : WebhookDelivery) : bool :=
  (v_status v == "failed") && match v_next_attempt_at v with Some t => t <=? now | None => false end.

(** [ORDER BY next_attempt_at ASC LIMIT 10] *)
Definition due_deliveries (now : time) (m : Deliveries) : list (string * WebhookDelivery) :=
  take 10 (sort_by (λ kv, default 0 (v_next_attempt_at kv.2))
             (List.filter (λ kv, is_due now kv.2) (map_to_list m))).

Fixpoint retry_all (ff : RowFaults) (l : list (string * WebhookDelivery)) (now : time) (w : W)
    (m : Deliveries) : list effect * W * Deliveries :=
  match l with
  | [] => ([], w, m)
  | (_, v) :: l' =>
    let '(_, es, w1, m1) :=
      ProcessDelivery ff (mkJob (v_event_type v) (v_payload v) (v_delivery_id v)) now w m in
    let '(es', w2, m2) := retry_all ff l' now w1 m1 in
    (es ++ es', w2, m2)
  end.

(** One tick. *)
Definition retryFailedDeliveries (ff : RowFaults) (now : time) (w : W) (m : Deliveries)
    : list effect * W * Deliveries :=
  retry_all ff (due_deliveries now m) now w m.
End process.

(** ** Ingress *)

Section ingress.
Variable hmacSHA256Hex : string → string → string.
(** The [action] field of a payload, where it decodes. *)
Variable parseEventAction : string → option string.

Definition verifySignature (secret body header : string) : bool :=
  if (secret == "") || (header == "") then false
  else if negb (hasPrefix header "sha256=") then false
  else header == "sha256=" ^^ hmacSHA256Hex secret body.

(** The answer, the memory, the rows, and the job of an accepted delivery. [id] is
    the random identifier of the row. *)
Definition ServeHTTP (cfg : HandlerConfig) (ff : RowFaults) (r : Request) (id : string) (now : time)
    (recent : RecentDeliveries) (m : Deliveries) : Z * RecentDeliveries * Deliveries * option Job :=
  if Disabled cfg then (200, recent, m, None)
  else if negb (r_method r == "POST") then (405, recent, m, None)
  else
    let maxBody := if cfg_MaxBodyBytes cfg =? 0 then 5 * 1024 * 1024 else cfg_MaxBodyBytes cfg in
    match r_body r with
    | None => (400, recent, m, None)
    | Some full =>
      let body := take_bytes (Z.to_nat maxBody) full in
      if negb (verifySignature (WebhookSecret cfg) body (r_header r "X-Hub-Signature-256"))
      then (401, recent, m, None)
      else
        let deliveryID := r_header r "X-GitHub-Delivery" in
        let event := r_header r "X-GitHub-Event" in
        let '(seen, recent) := Seen deliveryID now recent in
        if (seen : bool) then (200, recent, m, None)
        else match RecordDelivery (rf_record ff) id deliveryID event
                     (str_of (parseEventAction body)) body now m with
             | (inl _, m') => (503, recent, m', None)
             | (inr false, m') => (200, recent, m', None)
             | (inr true, m') => (200, recent, m', Some (mkJob event body deliveryID))
             end
    end.
End ingress.

(** ** The system *)

(** One process with its memory, its rows, the jobs it has answered for and not
    yet processed, and the world behind the handlers. [y_runs] records whose
    handler ran, in order; the code does not have it. *)
Record Sys (W : Type) := mkSys {
  y_recent : RecentDeliveries;
  y_rows : Deliveries;
  y_jobs : list Job;
  y_world : W;
  y_runs : list string;
}.
Arguments mkSys {W}.
Arguments y_recent {W}.
Arguments y_rows {W}.
Arguments y_jobs {W}.
Arguments y_world {W}.
Arguments y_runs {W}.

(** A request; the goroutine of the [k]-th job; a tick of the worker; and the end
    of the process, which comes back with no job and no memory. *)
Inductive action :=
| AReq (ff : RowFaults) (r : Request) (id : string) (now : time)
| ARun (ff : RowFaults) (k : nat) (now : time)
| ATick (ff : RowFaults) (now : time)
| ARestart.

Definition runs_of (d : string) (runs : list string) : nat := length (List.filter (λ x, x == d) runs).

Section system.
Context {W : Type} `{SV : Services W}.
Variable hmacSHA256Hex : string → string → string.
Variable parseEventAction : string → option string.
Variable cfg : HandlerConfig.
Variable h : Handler.
Variable D : Decoders.
Variable errText : err → string.

Definition ran (ff : RowFaults) (ds : list string) : list string := if rf_processing ff then [] else ds.

Definition sys_step (a : action) (s : Sys W) : Sys W :=
  match a with
  | AReq ff r id now =>
      let '(_, recent, m, job) :=
        ServeHTTP hmacSHA256Hex parseEventAction cfg ff r id now (y_recent s) (y_rows s) in
      mkSys recent m (y_jobs s ++ option_list job) (y_world s) (y_runs s)
  | ARun ff k now =>
      match y_jobs s !! k with
      | None => s
      | Some j =>
        let '(_, _, w, m) := ProcessDelivery h D errText ff j now (y_world s) (y_rows s) in
        mkSys (y_recent s) m (delete k (y_jobs s)) w (y_runs s ++ ran ff [j_delivery j])
      end
  | ATick ff now =>
      let due := due_deliveries now (y_rows s) in
      let '(_, w, m) := retryFailedDeliveries h D errText ff now (y_world s) (y_rows s) in
      mkSys (y_recent s) m (y_jobs s) w (y_runs s ++ ran ff (map (λ kv, v_delivery_id kv.2) due))
  | ARestart => mkSys (NewRecentDeliveries (seconds 300) 4096) (y_rows s) [] (y_world s) (y_runs s)
  end.

Definition sys_run (l : list action) (s : Sys W) : Sys W := foldl (λ s a, sys_step a s) s l.

Definition sys_start (w : W) : Sys W := mkSys (NewRecentDeliveries (seconds 300) 4096) ∅ [] w [].
End system.

(** ** Lemmas: rows *)

Lemma on_delivery_lookup d f m i :
  on_delivery d f m !! i = (λ v, if v_delivery_id v == d then f v else v) <$> m !! i.
Proof. unfold on_delivery. by rewrite update_where_lookup. Qed.

Lemma on_delivery_compose d f g m :
  (∀ v, v_delivery_id (g v) = v_delivery_id v) →
  on_delivery d f (on_delivery d g m) = on_delivery d (λ v, f (g v)) m.
Proof.
  intros Hg. apply map_eq. intros i. rewrite !on_delivery_lookup.
  destruct (m !! i) as [v|]; [|done]. cbn. f_equal.
  destruct (v_delivery_id v == d) eqn:E; [by rewrite Hg, E|by rewrite E].
Qed.

(** What processing does to the row of the delivery. *)
Definition processing (now : time) (v : WebhookDelivery) : WebhookDelivery :=
  v{{ v_status := "processing" }}{{ v_updated_at := now }}.
Definition completed (now : time) (v : WebhookDelivery) : WebhookDelivery :=
  v{{ v_status := "completed" }}{{ v_processed_at := Some now }}{{ v_updated_at := now }}.

Inductive outcome (ff : RowFaults) (now : time) : (WebhookDelivery → WebhookDelivery) → Prop :=
| outcome_none : rf_processing ff = true → outcome ff now (λ v, v)
| outcome_lost : rf_processing ff = false → outcome ff now (processing now)
| outcome_failed msg : rf_processing ff = false →
    outcome ff now (λ v, failed_delivery msg now (processing now v))
| outcome_completed : rf_processing ff = false → outcome ff now (λ v, completed now (processing now v)).

Lemma outcome_id ff now f : outcome ff now f → ∀ v, v_delivery_id (f v) = v_delivery_id v.
Proof. by intros [] v. Qed.

Lemma on_delivery_same d m : on_delivery d (λ v, v) m = m.
Proof.
  apply map_eq. intros i. rewrite on_delivery_lookup. destruct (m !! i) as [v|]; [|done].
  cbn. by destruct (_ == d).
Qed.

Lemma process_outcome {W} `{SV : Services W} h D errText ff j now (w : W) m r es w' m' :
  ProcessDelivery h D errText ff j now w m = (r, es, w', m') →
  ∃ f, outcome ff now f ∧ m' = on_delivery (j_delivery j) f m.
Proof.
  unfold ProcessDelivery. destruct (rf_processing ff) eqn:Ep.
  - intros [= <- <- <- <-]. exists (λ v, v). by rewrite on_delivery_same; split; [constructor|].
  - destruct (handle _ _ _ _ _ _ w) as [[[e|[]] es1] w1].
    + destruct (rf_failed ff); intros [= <- <- <- <-].
      * exists (processing now). split; [by constructor|done].
      * exists (λ v, failed_delivery (errText e) now (processing now v)). split; [by constructor|].
        unfold MarkDeliveryFailed, MarkDeliveryProcessing. by rewrite on_delivery_compose.
    + destruct (rf_completed ff); intros [= <- <- <- <-].
      * exists (processing now). split; [by constructor|done].
      * exists (λ v, completed now (processing now v)). split; [by constructor|].
        unfold MarkDeliveryCompleted, MarkDeliveryProcessing. by rewrite on_delivery_compose.
Qed.

(** ** The invariant *)

Definition unique_deliveries (m : Deliveries) : Prop :=
  ∀ i j v v', m !! i = Some v → m !! j = Some v' → v_delivery_id v = v_delivery_id v' → i = j.

(** A row whose handler ran [n] times. *)
Definition row_ok (n : nat) (v : WebhookDelivery) : Prop :=
  v_max_attempts v = 3 ∧
  ((v_status v = "received" ∧ v_attempts v = 0 ∧ n = 0%nat) ∨
   (v_status v = "failed" ∧ v_attempts v = Z.of_nat n ∧ (1 <= n <= 2)%nat ∧ is_Some (v_next_attempt_at v)) ∨
   ((v_status v = "processing" ∨ v_status v = "completed") ∧
      Z.of_nat n = v_attempts v + 1 ∧ (1 <= n <= 3)%nat) ∨
   (v_status v = "dead_letter" ∧ v_attempts v = 3 ∧ n = 3%nat ∧ v_next_attempt_at v = None)).

Definition row_for (j : Job) (v : WebhookDelivery) : Prop :=
  v_delivery_id v = j_delivery j ∧ v_event_type v = j_event j ∧ v_payload v = j_body j.

Record sys_inv {W} (s : Sys W) : Prop := {
  inv_unique : unique_deliveries (y_rows s);
  inv_rows : ∀ i v, y_rows s !! i = Some v → row_ok (runs_of (v_delivery_id v) (y_runs s)) v;
  inv_jobs_distinct : NoDup (map j_delivery (y_jobs s));
  inv_jobs : ∀ j, j ∈ y_jobs s →
    ∃ i v, y_rows s !! i = Some v ∧ row_for j v ∧ v_status v = "received";
  inv_runs : ∀ d, d ∈ y_runs s → ∃ i v, y_rows s !! i = Some v ∧ v_delivery_id v = d;
}.

Lemma runs_of_app d l l' : runs_of d (l ++ l') = (runs_of d l + runs_of d l')%nat.
Proof. unfold runs_of. by rewrite List.filter_app, length_app. Qed.

Lemma runs_of_one d d' : runs_of d [d'] = if d' == d then 1%nat else 0%nat.
Proof. unfold runs_of. cbn. by destruct (d' == d). Qed.

Lemma runs_of_none d l : d ∉ l → runs_of d l = 0%nat.
Proof.
  intros Hd. unfold runs_of. induction l as [|x l IH]; [done|]. cbn.
  rewrite bool_decide_eq_false_2 by set_solver. apply IH. set_solver.
Qed.

Lemma failed_delivery_ok msg now n v :
  v_max_attempts v = 3 → v_attempts v = Z.of_nat n → (n <= 2)%nat →
  let v' := failed_delivery msg now v in
  (v_status v' = "received" ∧ v_attempts v' = 0 ∧ S n = 0%nat) ∨
  (v_status v' = "failed" ∧ v_attempts v' = Z.of_nat (S n) ∧ (1 <= S n <= 2)%nat ∧
     is_Some (v_next_attempt_at v')) ∨
  ((v_status v' = "processing" ∨ v_status v' = "completed") ∧
     Z.of_nat (S n) = v_attempts v' + 1 ∧ (1 <= S n <= 3)%nat) ∨
  (v_status v' = "dead_letter" ∧ v_attempts v' = 3 ∧ S n = 3%nat ∧ v_next_attempt_at v' = None).
Proof.
  intros Hmax Ha Hn. cbn zeta.
  change (v_attempts (failed_delivery msg now v)) with (v_attempts v + 1).
  change (v_status (failed_delivery msg now v)) with
    (if v_max_attempts v <=? v_attempts v + 1 then "dead_letter" else "failed").
  change (v_next_attempt_at (failed_delivery msg now v)) with
    (if v_max_attempts v <=? v_attempts v + 1 then None else Some (now + backoff (v_attempts v))).
  rewrite Hmax. destruct (Z.leb_spec 3 (v_attempts v + 1)).
  - right. right. right. split_and!; [done|lia|lia|done].
  - right. left. split_and!; [done|lia|lia|lia|done].
Qed.

(** Rows change only by processing, which keeps them well formed. *)
Lemma row_ok_outcome ff now f n v :
  outcome ff now f → row_ok n v → v_status v = "received" ∨ v_status v = "failed" →
  row_ok (if rf_processing ff then n else S n) (f v).
Proof.
  intros Hf [Hmax Hv] Hst.
  assert (v_attempts v = Z.of_nat n ∧ (n <= 2)%nat) as [Ha Hn].
  { destruct Hv as [(? & ? & ->)|[(? & ? & ? & ?)|[([?|?] & ?)|(? & ?)]]]; [lia|lia|..].
    all: destruct Hst; congruence. }
  destruct Hf as [Hp|Hp|msg Hp|Hp]; rewrite Hp; [by split|..]; (split; [exact Hmax|]).
  - right. right. left. change (v_attempts (processing now v)) with (v_attempts v).
    split; [by left|]. lia.
  - change (v_attempts v) with (v_attempts (processing now v)) in Ha.
    change (v_max_attempts v) with (v_max_attempts (processing now v)) in Hmax.
    by apply failed_delivery_ok.
  - right. right. left. change (v_attempts (completed now (processing now v))) with (v_attempts v).
    split; [by right|]. lia.
Qed.

Lemma on_delivery_inv d f m i v' :
  on_delivery d f m !! i = Some v' →
  ∃ v, m !! i = Some v ∧ v' = if v_delivery_id v == d then f v else v.
Proof. rewrite on_delivery_lookup. destruct (m !! i) as [v|]; [intros [= <-]; by exists v|done]. Qed.

Lemma on_delivery_id d f m i v' ff now :
  outcome ff now f → on_delivery d f m !! i = Some v' →
  ∃ v, m !! i = Some v ∧ v_delivery_id v' = v_delivery_id v ∧ (v_delivery_id v ≠ d → v' = v).
Proof.
  intros Hf (v & Hv & ->)%on_delivery_inv. exists v. split; [done|].
  case_bool_decide as E; [|done]. split; [by eapply outcome_id|]. by intros [].
Qed.

Lemma process_inv {W} (s : Sys W) recent (w : W) d f ff now jobs' :
  sys_inv s → outcome ff now f →
  (∃ i v, y_rows s !! i = Some v ∧ v_delivery_id v = d ∧ (v_status v = "received" ∨ v_status v = "failed")) →
  NoDup (map j_delivery jobs') → (∀ j, j ∈ jobs' → j ∈ y_jobs s ∧ j_delivery j ≠ d) →
  sys_inv (mkSys recent (on_delivery d f (y_rows s)) jobs' w (y_runs s ++ ran ff [d])).
Proof.
  intros Hs Hf (i0 & v0 & Hv0 & Hd0 & Hst0) Hnd Hjobs.
  constructor; cbn [y_rows y_runs y_jobs].
  - intros i j v v' Hi Hj Hid.
    destruct (on_delivery_id _ _ _ _ _ _ _ Hf Hi) as (u & Hu & Eu & _).
    destruct (on_delivery_id _ _ _ _ _ _ _ Hf Hj) as (u' & Hu' & Eu' & _).
    apply (inv_unique _ Hs _ _ _ _ Hu Hu'). congruence.
  - intros i v' Hv'. destruct (on_delivery_inv _ _ _ _ _ Hv') as (v & Hv & ->).
    pose proof (inv_rows _ Hs _ _ Hv) as Hok. rewrite runs_of_app. case_bool_decide as E.
    + rewrite (outcome_id _ _ _ Hf v), E in *.
      pose proof (inv_unique _ Hs _ _ _ _ Hv Hv0 ltac:(congruence)) as ->. simplify_eq.
      pose proof (row_ok_outcome _ _ _ _ _ Hf Hok Hst0) as Hr. revert Hr. unfold ran.
      destruct (rf_processing ff); [by rewrite Nat.add_0_r|].
      by rewrite runs_of_one, bool_decide_eq_true_2, Nat.add_1_r by done.
    + unfold ran. destruct (rf_processing ff); [by rewrite Nat.add_0_r|].
      by rewrite runs_of_one, bool_decide_eq_false_2, Nat.add_0_r by congruence.
  - exact Hnd.
  - intros j Hj. destruct (Hjobs j Hj) as [Hj' Hne].
    destruct (inv_jobs _ Hs _ Hj') as (i & v & Hv & Hrow & Hst). exists i, v.
    split; [|done]. rewrite on_delivery_lookup, Hv. cbn.
    destruct Hrow as [Hid _]. by rewrite bool_decide_eq_false_2 by congruence.
  - intros d' [Hd'|Hd']%elem_of_app.
    + destruct (inv_runs _ Hs _ Hd') as (i & v & Hv & Hid). eexists i, _.
      rewrite on_delivery_lookup, Hv. cbn. split; [done|].
      destruct (_ == _); [by rewrite (outcome_id _ _ _ Hf)|done].
    + assert (d' = d) as ->. { revert Hd'. unfold ran. destruct (rf_processing ff); set_solver. }
      eexists i0, _. rewrite on_delivery_lookup, Hv0. cbn. split; [done|].
      destruct (_ == _); [by rewrite (outcome_id _ _ _ Hf)|done].
Qed.

(** The rest of a tick: the rows still to retry are as the query saw them. *)
Lemma retry_inv {W} `{SV : Services W} h D errText ff l now (s : Sys W) es w m :
  sys_inv s → NoDup l.*1 →
  (∀ i v, (i, v) ∈ l → y_rows s !! i = Some v ∧ v_status v = "failed") →
  retry_all h D errText ff l now (y_world s) (y_rows s) = (es, w, m) →
  sys_inv (mkSys (y_recent s) m (y_jobs s) w
             (y_runs s ++ ran ff (map (λ kv, v_delivery_id kv.2) l))).
Proof.
  revert s es w m. induction l as [|[i v] l IH]; intros s es w m Hs Hnd Hl; cbn [retry_all map].
  - intros [= <- <- <-]. destruct s as [rc rows jobs wd runs]. unfold ran.
    destruct (rf_processing ff); by rewrite app_nil_r.
  - destruct (ProcessDelivery _ _ _ ff _ now _ _) as [[[r es1] w1] m1] eqn:Ep.
    destruct (retry_all h D errText ff l now w1 m1) as [[es2 w2] m2] eqn:Er. intros [= <- <- <-].
    apply process_outcome in Ep as (f & Hf & ->). cbn [j_delivery] in *.
    destruct (Hl i v) as [Hv Hst]; [by left|]. apply NoDup_cons in Hnd as [Hni Hnd].
    assert (sys_inv (mkSys (y_recent s) (on_delivery (v_delivery_id v) f (y_rows s)) (y_jobs s) w1
              (y_runs s ++ ran ff [v_delivery_id v]))) as Hs1.
    { apply (process_inv _ _ _ _ _ _ now); [done|done|by exists i, v; auto|apply (inv_jobs_distinct _ Hs)|].
      intros j Hj. split; [done|]. intros E.
      destruct (inv_jobs _ Hs _ Hj) as (i' & v' & Hv' & [Hid _] & Hst').
      pose proof (inv_unique _ Hs _ _ _ _ Hv Hv' ltac:(congruence)) as ->. congruence. }
    specialize (IH _ es2 w2 m2 Hs1 Hnd). cbn [y_rows y_world y_runs y_recent y_jobs] in IH.
    rewrite <- app_assoc in IH.
    assert (ran ff [v_delivery_id v] ++ ran ff (map (λ kv, v_delivery_id kv.2) l) =
            ran ff (v_delivery_id v :: map (λ kv : string * WebhookDelivery, v_delivery_id kv.2) l)) as Happ.
    { unfold ran. by destruct (rf_processing ff). }
    rewrite Happ in IH. apply IH; [|exact Er].
    intros i' v' Hin. destruct (Hl i' v') as [Hv' Hst']; [by right|]. split; [|done].
    rewrite on_delivery_lookup, Hv'. cbn. rewrite bool_decide_eq_false_2; [done|].
    intros E. apply Hni. rewrite (inv_unique _ Hs _ _ _ _ Hv Hv' (eq_sym E)).
    apply list_elem_of_fmap. by exists (i', v').
Qed.

Lemma due_spec now m i v :
  (i, v) ∈ due_deliveries now m → m !! i = Some v ∧ is_due now v = true.
Proof.
  intros H. apply elem_of_take in H as (k & Hk & _). apply list_elem_of_lookup_2 in Hk.
  apply sort_by_elem, list_elem_of_In, filter_In in Hk as [Hin Hd].
  split; [|exact Hd]. by apply elem_of_map_to_list, list_elem_of_In.
Qed.

Lemma due_nodup now m : NoDup (due_deliveries now m).*1.
Proof.
  unfold due_deliveries. rewrite fmap_take. eapply sublist_NoDup; [|apply sublist_take].
  rewrite sort_by_perm. apply NoDup_fst_filter, NoDup_fst_map_to_list.
Qed.

Lemma is_due_failed now v : is_due now v = true → v_status v = "failed".
Proof. by intros [H%bool_decide_eq_true _]%andb_prop. Qed.

(** The steps preserve the invariant. *)
Section invariant.
Context {W : Type} `{SV : Services W}.
Variable hmac : string → string → string.
Variable act : string → option string.
Variable cfg : HandlerConfig.
Variable h : Handler.
Variable D : Decoders.
Variable errText : err → string.
Notation step := (sys_step (W := W) hmac act cfg h D errText).

(** What a request leaves: nothing, or a new row and its job. *)
Lemma endpoint_cases ff r id now rc m code rc' m' job :
  ServeHTTP hmac act cfg ff r id now rc m = (code, rc', m', job) →
  (m' = m ∧ job = None) ∨
  (code = 200 ∧ m !! id = None ∧
   (∀ i v, m !! i = Some v → v_delivery_id v ≠ r_header r "X-GitHub-Delivery") ∧
   ∃ body, let event := r_header r "X-GitHub-Event" in
     m' = <[id := mkWebhookDelivery (r_header r "X-GitHub-Delivery") event (str_of (act body)) body
                    "received" 0 3 None None None now now]> m ∧
     job = Some (mkJob event body (r_header r "X-GitHub-Delivery")) ∧
     verifySignature hmac (WebhookSecret cfg) body (r_header r "X-Hub-Signature-256") = true).
Proof.
  unfold ServeHTTP. destruct (Disabled cfg); [intros [= <- <- <- <-]; by left|].
  destruct (r_method r == "POST"); [|intros [= <- <- <- <-]; by left]. cbn [negb].
  destruct (r_body r) as [full|]; [|intros [= <- <- <- <-]; by left].
  set (body := take_bytes _ full).
  destruct (verifySignature hmac (WebhookSecret cfg) body _) eqn:Es; [|intros [= <- <- <- <-]; by left].
  cbn [negb]. destruct (Seen _ now rc) as [[|] rc1]; [intros [= <- <- <- <-]; by left|].
  unfold RecordDelivery. destruct (rf_record ff); [intros [= <- <- <- <-]; by left|].
  unfold insert_unique. destruct (exists_row m _) eqn:Ex; [intros [= <- <- <- <-]; by left|].
  destruct (insert_pk _ _ _ m) as [e|m1] eqn:Ei; [intros [= <- <- <- <-]; by left|].
  apply insert_pk_inr in Ei as [Hid ->]. intros [= <- <- <- <-]. right. split_and!; [done|done| |].
  - intros i v Hv Hd. pose proof (proj1 (exists_row_false _ _) Ex i v Hv) as Hne. revert Hne.
    unfold same_delivery. cbn [v_delivery_id]. by rewrite Hd, bool_decide_eq_true_2.
  - by exists body.
Qed.

Lemma sys_start_inv (w : W) : sys_inv (sys_start w).
Proof.
  constructor; cbn [sys_start y_rows y_runs y_jobs map].
  - intros i j v v' Hi. by rewrite lookup_empty in Hi.
  - intros i v Hi. by rewrite lookup_empty in Hi.
  - apply NoDup_nil_2.
  - intros j []%not_elem_of_nil.
  - intros d []%not_elem_of_nil.
Qed.

Lemma step_inv a s : sys_inv s → sys_inv (step a s).
Proof.
  intros Hs. destruct a as [ff r id now|ff k now|ff now|].
  - cbn [sys_step]. destruct (ServeHTTP _ _ _ _ _ _ _ _ _) as [[[code rc] m] job] eqn:E.
    apply endpoint_cases in E as [[-> ->]|(_ & Hid & Hfresh & body & -> & -> & _)].
    { cbn [option_list]. rewrite app_nil_r. by destruct s, Hs. }
    set (d := r_header r "X-GitHub-Delivery") in *. cbn [option_list].
    assert (∀ i v, y_rows s !! i = Some v → i ≠ id) as Hne.
    { intros i v Hv ->. congruence. }
    assert (d ∉ y_runs s) as Hnr.
    { intros Hd. destruct (inv_runs _ Hs _ Hd) as (i & v & Hv & Hvd). by apply (Hfresh i v). }
    constructor; cbn [y_rows y_runs y_jobs].
    + intros i j v v' Hi Hj Hvv. destruct (decide (i = id)) as [->|Hi'], (decide (j = id)) as [->|Hj'].
      * done.
      * rewrite lookup_insert_eq in Hi. rewrite lookup_insert_ne in Hj by done. simplify_eq.
        by destruct (Hfresh j v').
      * rewrite lookup_insert_eq in Hj. rewrite lookup_insert_ne in Hi by done. simplify_eq.
        by destruct (Hfresh i v).
      * rewrite lookup_insert_ne in Hi, Hj by done. by apply (inv_unique _ Hs i j v v').
    + intros i v Hi. destruct (decide (i = id)) as [->|Hi'].
      * rewrite lookup_insert_eq in Hi. simplify_eq. cbn [v_delivery_id]. rewrite runs_of_none by done.
        split; [done|]. by left.
      * rewrite lookup_insert_ne in Hi by done. by apply (inv_rows _ Hs i v).
    + rewrite map_app. apply NoDup_app. split_and!; [apply (inv_jobs_distinct _ Hs)| |apply NoDup_singleton].
      intros d' (j & -> & Hj)%list_elem_of_fmap Hin. apply list_elem_of_singleton in Hin. cbn in Hin.
      destruct (inv_jobs _ Hs j Hj) as (i & v & Hv & [Hid' _] & _). apply (Hfresh i v Hv). congruence.
    + intros j [Hj|Hj]%elem_of_app.
      * destruct (inv_jobs _ Hs j Hj) as (i & v & Hv & Hrest). exists i, v.
        rewrite lookup_insert_ne by (by apply not_eq_sym, (Hne i v)). done.
      * apply list_elem_of_singleton in Hj as ->. eexists id, _. rewrite lookup_insert_eq. done.
    + intros d' Hd'. destruct (inv_runs _ Hs d' Hd') as (i & v & Hv & Hvd). exists i, v.
      rewrite lookup_insert_ne by (by apply not_eq_sym, (Hne i v)). done.
  - cbn [sys_step]. destruct (y_jobs s !! k) as [j|] eqn:Ej; [|done].
    destruct (ProcessDelivery _ _ _ ff j now _ _) as [[[r es] w] m] eqn:Ep.
    apply process_outcome in Ep as (f & Hf & ->).
    apply (process_inv _ _ _ _ _ _ now); [done|done| | |].
    + destruct (inv_jobs _ Hs j) as (i & v & Hv & [Hid _] & Hst); [by eapply list_elem_of_lookup_2|].
      exists i, v. auto.
    + eapply sublist_NoDup; [apply (inv_jobs_distinct _ Hs)|].
      apply (fmap_sublist j_delivery), sublist_delete.
    + intros j' Hj'. apply list_elem_of_lookup in Hj' as [n Hn].
      assert (∃ n', y_jobs s !! n' = Some j' ∧ n' ≠ k) as (n' & Hn' & Hnk).
      { destruct (decide (n < k)%nat).
        - rewrite list_lookup_delete_lt in Hn by done. exists n. split; [done|lia].
        - rewrite list_lookup_delete_ge in Hn by lia. exists (S n). split; [done|lia]. }
      split; [by eapply list_elem_of_lookup_2|]. intros E. apply Hnk.
      apply (NoDup_lookup _ _ _ (j_delivery j) (inv_jobs_distinct _ Hs)).
      * rewrite list_lookup_fmap, Hn'. cbn. by rewrite E.
      * by rewrite list_lookup_fmap, Ej.
  - cbn [sys_step]. unfold retryFailedDeliveries.
    destruct (retry_all _ _ _ ff _ now _ _) as [[es w] m] eqn:Er.
    apply (retry_inv _ _ _ _ _ _ _ es w m Hs) in Er; [done|apply due_nodup|].
    intros i v [Hv Hd]%due_spec. split; [done|by eapply is_due_failed].
  - cbn [sys_step]. constructor; cbn [y_rows y_runs y_jobs];
      [apply (inv_unique _ Hs)|apply (inv_rows _ Hs)|apply NoDup_nil_2| |apply (inv_runs _ Hs)].
    intros j []%not_elem_of_nil.
Qed.

Lemma sys_run_inv l s : sys_inv s → sys_inv (sys_run (W := W) hmac act cfg h D errText l s).
Proof. revert s. induction l as [|a l IH]; intros s Hs; [done|]. cbn. apply IH, step_inv, Hs. Qed.
End invariant.

(** ** What the system guarantees *)


Section stranded.
Context {W : Type} `{SV : Services W}.
Variable hmac : string → string → string.
Variable act : string → option string.
Variable cfg : HandlerConfig.
Variable h : Handler.
Variable D : Decoders.
Variable errText : err → string.
Notation step := (sys_step (W := W) hmac act cfg h D errText).
Notation run := (sys_run (W := W) hmac act cfg h D errText).

(** Processing other deliveries leaves a row as it is. *)
Lemma process_other ff j now w m r es w' m' i v :
  ProcessDelivery (W := W) h D errText ff j now w m = (r, es, w', m') →
  m !! i = Some v → v_delivery_id v ≠ j_delivery j → m' !! i = Some v.
Proof.
  intros (f & _ & ->)%process_outcome Hv Hne. rewrite on_delivery_lookup, Hv. cbn.
  by rewrite bool_decide_eq_false_2.
Qed.

Lemma retry_other ff l now w m es w' m' i v :
  m !! i = Some v → (∀ kv, kv ∈ l → v_delivery_id kv.2 ≠ v_delivery_id v) →
  retry_all (W := W) h D errText ff l now w m = (es, w', m') →
  m' !! i = Some v.
Proof.
  revert w m es w' m'. induction l as [|[j u] l IH]; intros w m es w' m' Hv Hl; cbn [retry_all].
  - by intros [= <- <- <-].
  - destruct (ProcessDelivery _ _ _ ff _ now w m) as [[[r es1] w1] m1] eqn:Ep.
    destruct (retry_all h D errText ff l now w1 m1) as [[es2 w2] m2] eqn:Er. intros [= <- <- <-].
    apply (IH w1 m1 es2 w2 m2); [|intros kv Hkv; apply Hl; by right|exact Er].
    apply (process_other _ _ _ _ _ _ _ _ _ _ _ Ep Hv). cbn. apply not_eq_sym, (Hl (j, u)). by left.
Qed.

(** A row without a job that waits for no retry. *)
Definition idle_row (i : string) (v : WebhookDelivery) (s : Sys W) : Prop :=
  y_rows s !! i = Some v ∧ v_status v ≠ "failed" ∧
  ∀ j, j ∈ y_jobs s → j_delivery j ≠ v_delivery_id v.

Lemma idle_step a s i v :
  sys_inv s → idle_row i v s →
  idle_row i v (step a s) ∧
  runs_of (v_delivery_id v) (y_runs (step a s)) = runs_of (v_delivery_id v) (y_runs s).
Proof.
  intros Hs (Hv & Hst & Hj). unfold idle_row. destruct a as [ff r id now|ff k now|ff now|]; cbn [sys_step].
  - destruct (ServeHTTP _ _ _ _ _ _ _ _ _) as [[[code rc] m] job] eqn:E. cbn [y_rows y_jobs y_runs].
    apply endpoint_cases in E as [[-> ->]|(_ & Hid & Hfresh & body & -> & -> & _)].
    + cbn [option_list]. by rewrite app_nil_r.
    + split; [|done]. split_and!; [rewrite lookup_insert_ne; [done|congruence]|done|].
      intros j [Hin|Hin]%elem_of_app; [by apply Hj|]. apply list_elem_of_singleton in Hin as ->.
      apply not_eq_sym, (Hfresh i v Hv).
  - destruct (y_jobs s !! k) as [j|] eqn:Ej; [|done].
    destruct (ProcessDelivery _ _ _ ff j now _ _) as [[[r es] w] m] eqn:Ep. cbn [y_rows y_jobs y_runs].
    assert (j_delivery j ≠ v_delivery_id v) as Hne by (apply Hj; by eapply list_elem_of_lookup_2).
    split_and!; [by eapply process_other|done| |].
    + intros j' Hj'. apply Hj. eapply sublist_subseteq; [apply sublist_delete|exact Hj'].
    + rewrite runs_of_app. unfold ran. destruct (rf_processing ff); [by rewrite Nat.add_0_r|].
      by rewrite runs_of_one, bool_decide_eq_false_2, Nat.add_0_r.
  - unfold retryFailedDeliveries. destruct (retry_all _ _ _ ff _ now _ _) as [[es w] m] eqn:Er.
    cbn [y_rows y_jobs y_runs].
    assert (∀ kv, kv ∈ due_deliveries now (y_rows s) → v_delivery_id kv.2 ≠ v_delivery_id v) as Hdue.
    { intros [k u] [Hk Hd]%due_spec E. cbn in *. pose proof (inv_unique _ Hs _ _ _ _ Hk Hv E) as ->.
      simplify_eq. by apply Hst, (is_due_failed now). }
    split_and!; [by eapply retry_other|done|exact Hj|]. rewrite runs_of_app. unfold ran.
    destruct (rf_processing ff); [by rewrite Nat.add_0_r|].
    rewrite (runs_of_none _ (map _ _)); [by rewrite Nat.add_0_r|].
    intros (kv & E & Hkv)%list_elem_of_fmap. by apply (Hdue kv).
  - split; [|done]. split_and!; [done|done|]. by intros j ?%elem_of_nil.
Qed.

(** Only failed rows are retried. A delivery that was answered 200 and whose job
    was lost, by a restart or because its row could not be marked, is never
    processed again: whatever requests, ticks and restarts follow, redeliveries of
    the same event included, its row stays as it is and no handler runs for it. *)
Theorem lost_jobs_never_retried l l' (w : W) i v :
  let s := run l (sys_start w) in
  y_rows s !! i = Some v →
  v_status v = "received" ∨ v_status v = "processing" →
  (∀ j, j ∈ y_jobs s → j_delivery j ≠ v_delivery_id v) →
  y_rows (run l' s) !! i = Some v ∧
  runs_of (v_delivery_id v) (y_runs (run l' s)) = runs_of (v_delivery_id v) (y_runs s).
Proof.
  intros s Hv Hst Hj.
  assert (sys_inv s) as Hs by apply sys_run_inv, sys_start_inv.
  assert (idle_row i v s) as Hidle. { split_and!; [done| |done]. destruct Hst; congruence. }
  clearbody s. clear Hv Hst Hj. revert s Hs Hidle. induction l' as [|a l' IH]; intros s Hs Hidle.
  - split; [apply Hidle|done].
  - cbn. destruct (idle_step a s i v Hs Hidle) as [Hidle' Hruns].
    destruct (IH (step a s) (step_inv _ _ _ _ _ _ _ _ Hs) Hidle') as [H1 H2].
    split; [exact H1|]. unfold sys_run in H2. by rewrite H2.
Qed.
End stranded.

(** ** Ingress *)

Lemma Seen_fresh id now r :
  id ≠ "" → Z.of_nat (size (entries (evictExpired now r))) < maxSize r →
  (Seen id now r).1 = false →
  (Seen id now r).2 = (evictExpired now r){{ entries := <[id := now]> (entries (evictExpired now r)) }}.
Proof.
  intros Hid Hsize. unfold Seen. rewrite (bool_decide_eq_false_2 _ Hid).
  set (r1 := evictExpired now r) in *. destruct (match entries r1 !! id with Some _ => _ | None => _ end); [done|].
  intros _. cbn [snd]. set (r2 := r1{{ entries := _ }}).
  assert (size (entries r2) <= S (size (entries r1)))%nat.
  { change (size (<[id := now]> (entries r1)) <= S (size (entries r1)))%nat.
    destruct (entries r1 !! id) as [x|] eqn:E;
      [rewrite map_size_insert_Some by (by eexists)|rewrite map_size_insert_None by done]; lia. }
  change (maxSize r2) with (maxSize r). destruct (Z.ltb_spec (maxSize r) (Z.of_nat (size (entries r2)))); [lia|done].
Qed.

(** A delivery whose identifier the memory holds for less than its time to live
    is a duplicate. *)
Lemma Seen_again id now now' r :
  id ≠ "" → entries r !! id = Some now → now' - now < ttl r → (Seen id now' r).1 = true.
Proof.
  intros Hid Hr Ht. unfold Seen. rewrite (bool_decide_eq_false_2 _ Hid).
  assert (entries (evictExpired now' r) !! id = Some now) as ->.
  { change (filter (λ kv, now' - kv.2 < ttl r) (entries r) !! id = Some now).
    by apply map_lookup_filter_Some. }
  change (ttl (evictExpired now' r)) with (ttl r).
  by rewrite (proj2 (Z.ltb_lt _ _) Ht).
Qed.

Section ingress_spec.
Variable hmac : string → string → string.
Variable act : string → option string.
Variable cfg : HandlerConfig.

(** A request that the handler admits. *)
Definition admitted (r : Request) (body : string) : Prop :=
  Disabled cfg = false ∧ r_method r = "POST" ∧
  (∃ full, r_body r = Some full ∧
     body = take_bytes (Z.to_nat (if cfg_MaxBodyBytes cfg =? 0 then 5 * 1024 * 1024
                                  else cfg_MaxBodyBytes cfg)) full) ∧
  WebhookSecret cfg ≠ "" ∧
  r_header r "X-Hub-Signature-256" = "sha256=" ^^ hmac (WebhookSecret cfg) body.

Lemma hasPrefix_app p s : hasPrefix (p ^^ s) p = true.
Proof. apply prefix_app. by exists s. Qed.

Lemma verifySignature_spec secret body header :
  verifySignature hmac secret body header = true ↔
  secret ≠ "" ∧ header = "sha256=" ^^ hmac secret body.
Proof.
  unfold verifySignature. case_bool_decide as E1; cbn [orb]; [naive_solver|].
  case_bool_decide as E2; [subst; naive_solver|].
  destruct (hasPrefix header "sha256=") eqn:Ep; cbn [negb].
  - rewrite bool_decide_eq_true. naive_solver.
  - split; [done|]. intros [_ ->]. by rewrite hasPrefix_app in Ep.
Qed.

(** C22. Without a valid signature, and when disabled, nothing at all changes; an
    admitted request is refused only when its row cannot be written; and a 200
    with a job means that this request wrote the row of its delivery, with the
    payload and the event that the job has. *)
Theorem webhook_accepts_only_signed ff r id now rc m code rc' m' job :
  ServeHTTP hmac act cfg ff r id now rc m = (code, rc', m', job) →
  ((∀ body, ¬ admitted r body) → rc' = rc ∧ m' = m ∧ job = None) ∧
  (∀ j, job = Some j →
     code = 200 ∧ admitted r (j_body j) ∧ m !! id = None ∧
     ∃ v, m' = <[id := v]> m ∧ row_for j v ∧ v_status v = "received") ∧
  ((∃ body, admitted r body) → rf_record ff = false → code = 200).
Proof.
  unfold ServeHTTP, admitted.
  destruct (Disabled cfg); [intros [= <- <- <- <-]; split_and!; [done|done|naive_solver]|].
  case_bool_decide as Em; cbn [negb];
    [|intros [= <- <- <- <-]; split_and!; [done|done|naive_solver]].
  destruct (r_body r) as [full|]; [|intros [= <- <- <- <-]; split_and!; [done|done|naive_solver]].
  set (body := take_bytes _ full).
  destruct (verifySignature hmac (WebhookSecret cfg) body _) eqn:Es; cbn [negb].
  - apply verifySignature_spec in Es as [Hs Hh].
    assert (∃ full0, Some full = Some full0 ∧ body = take_bytes
      (Z.to_nat (if cfg_MaxBodyBytes cfg =? 0 then 5 * 1024 * 1024 else cfg_MaxBodyBytes cfg)) full0)
      as Hbody by (by exists full).
    destruct (Seen _ now rc) as [[|] rc1].
    { intros [= <- <- <- <-]. split_and!; [|done|done]. intros Hn. by destruct (Hn body). }
    unfold RecordDelivery. destruct (rf_record ff).
    { intros [= <- <- <- <-]. split_and!; [|done|done]. intros Hn. by destruct (Hn body). }
    unfold insert_unique. destruct (exists_row m _).
    { intros [= <- <- <- <-]. split_and!; [|done|done]. intros Hn. by destruct (Hn body). }
    destruct (insert_pk _ _ _ m) as [e|m1] eqn:Ei.
    { intros [= <- <- <- <-]. split_and!; [|done|done]. intros Hn. by destruct (Hn body). }
    apply insert_pk_inr in Ei as [Hid ->]. intros [= <- <- <- <-]. split_and!; [|intros j [= <-]|done].
    + intros Hn. by destruct (Hn body).
    + split_and!; [done|done|done|exact Hbody|done|exact Hh|done|]. by eexists.
  - intros [= <- <- <- <-]. split_and!; [done|done|]. intros (b & _ & _ & (full' & [= <-] & ->) & Hs & Hh) _.
    apply not_true_iff_false in Es. destruct Es. by apply verifySignature_spec.
Qed.

(** The memory takes the identifier before the row is written. When the write
    fails, GitHub gets a 503; when it sends the delivery again, within the time to
    live of the entry, it is answered 200 as a duplicate, although the table has
    no row for it and no job will ever process it. *)
Theorem redelivery_after_503_lost ff ff' r r' body body' id id' now now' rc m :
  admitted r body → rf_record ff = true →
  let d := r_header r "X-GitHub-Delivery" in
  d ≠ "" → (Seen d now rc).1 = false →
  Z.of_nat (size (entries (evictExpired now rc))) < maxSize rc →
  admitted r' body' → r_header r' "X-GitHub-Delivery" = d → now' - now < ttl rc →
  (∀ i v, m !! i = Some v → v_delivery_id v ≠ d) →
  ∃ rc1 rc2,
    ServeHTTP hmac act cfg ff r id now rc m = (503, rc1, m, None) ∧
    ServeHTTP hmac act cfg ff' r' id' now' rc1 m = (200, rc2, m, None).
Proof.
  intros (Hdis & Hpost & (full & Hbody & ->) & Hsec & Hsig) Hff d Hd Hseen Hsize
    (_ & Hpost' & (full' & Hbody' & ->) & _ & Hsig') Hd' Ht Hfresh.
  pose proof (Seen_fresh d now rc Hd Hsize Hseen) as Hrc1.
  set (rc1 := (Seen d now rc).2) in *. exists rc1, (Seen d now' rc1).2. split.
  - unfold ServeHTTP. rewrite Hdis, Hpost, Hbody. cbn [negb].
    rewrite bool_decide_eq_true_2 by done. cbn [negb].
    rewrite (proj2 (verifySignature_spec _ _ _) (conj Hsec Hsig)). cbn [negb]. fold d.
    destruct (Seen d now rc) as [b rc1'] eqn:E. cbn in Hseen. subst b rc1. cbn [snd].
    unfold RecordDelivery. by rewrite Hff.
  - unfold ServeHTTP. rewrite Hdis, Hpost', Hbody'. cbn [negb].
    rewrite bool_decide_eq_true_2 by done. cbn [negb].
    rewrite (proj2 (verifySignature_spec _ _ _) (conj Hsec Hsig')), Hd'. cbn [negb].
    assert ((Seen d now' rc1).1 = true) as Hag.
    { apply (Seen_again d now); [done| |by rewrite Hrc1]. rewrite Hrc1. apply lookup_insert_eq. }
    destruct (Seen d now' rc1) as [b rc2]. cbn in Hag. by subst b.
Qed.
End ingress_spec.

(** ** The memory is bounded *)

Lemma evict_loop_size fuel max m :
  0 <= max → (size m <= fuel)%nat → Z.of_nat (size (evict_loop fuel max m)) <= max.
Proof.
  intros Hmax. revert m. induction fuel as [|fuel IH]; intros m Hfuel; cbn [evict_loop]; [lia|].
  destruct (Z.ltb_spec max (Z.of_nat (size m))) as [Hlt|]; [|lia].
  unfold oldest_entry. destruct (best _ _) as [[id t]|] eqn:E.
  - apply IH. apply best_elem, elem_of_map_to_list in E.
    rewrite map_size_delete_Some by (by exists t). lia.
  - apply best_None, map_to_list_empty_iff in E as ->. rewrite map_size_empty in *. lia.
Qed.

Lemma evict_loop_subseteq fuel max m : evict_loop fuel max m ⊆ m.
Proof.
  revert m. induction fuel as [|fuel IH]; intros m; cbn [evict_loop]; [done|].
  destruct (max <? _); [|done]. destruct (oldest_entry m) as [[id t]|]; [|done].
  etrans; [apply IH|]. apply delete_subseteq.
Qed.

(** The memory of recent deliveries never holds more than its maximum, and after
    a lookup it holds no expired entry. *)
Theorem recent_bounded id now r :
  0 < maxSize r → Z.of_nat (size (entries r)) <= maxSize r → 0 < ttl r →
  let r' := (Seen id now r).2 in
  Z.of_nat (size (entries r')) <= maxSize r' ∧ maxSize r' = maxSize r ∧
  (id ≠ "" → ∀ d t, entries r' !! d = Some t → now - t < ttl r).
Proof.
  intros Hmax Hsize Httl. cbn zeta. unfold Seen. case_bool_decide as Hid; [by split_and!|].
  set (r1 := evictExpired now r).
  assert (∀ d t, entries r1 !! d = Some t → now - t < ttl r) as Hyoung.
  { intros d t Hd. change (filter (λ kv, now - kv.2 < ttl r) (entries r) !! d = Some t) in Hd.
    by apply map_lookup_filter_Some in Hd as [_ ?]. }
  assert (size (entries r1) <= size (entries r))%nat as Hs1.
  { apply map_subseteq_size, map_filter_subseteq. }
  change (maxSize r1) with (maxSize r). change (ttl r1) with (ttl r).
  destruct (match entries r1 !! id with Some _ => _ | None => _ end).
  { cbn [snd]. change (maxSize r1) with (maxSize r). split_and!; [lia|done|auto]. }
  cbn [snd]. set (r2 := r1{{ entries := _ }}).
  assert (∀ d t, entries r2 !! d = Some t → now - t < ttl r) as Hyoung2.
  { intros d t Hd. change (<[id := now]> (entries r1) !! d = Some t) in Hd.
    apply lookup_insert_Some in Hd as [[_ <-]|[_ Hd]]; [lia|by apply (Hyoung d)]. }
  change (maxSize r2) with (maxSize r).
  destruct (Z.ltb_spec (maxSize r) (Z.of_nat (size (entries r2)))).
  - set (r3 := evictExpired now r2).
    assert (entries (evictOldest r3) ⊆ entries r2) as Hsub.
    { etrans; [apply evict_loop_subseteq|]. apply map_filter_subseteq. }
    split_and!; [|done|].
    + change (Z.of_nat (size (evict_loop (size (entries r3)) (maxSize r) (entries r3))) <= maxSize r).
      apply evict_loop_size; lia.
    + intros _ d t Hd. apply (Hyoung2 d). by apply (lookup_weaken _ _ _ _ Hd).
  - split_and!; [done|done|auto].
Qed.

(** ** Errors of submissions *)

Lemma issues_result {W} `{SV : Services W} h D errText body d ev (w : W) :
  decode_issues D body = inr ev → h_github h = true → 0 < ie_Installation ev →
  (∀ w : W, ∃ l, (ListEnabledIssueTriggersByRepo (er_FullName (ie_Repository ev)) w).1 = inr l) →
  result_of (handleIssues h D errText body d) w = inr tt.
Proof.
  intros Hdec Hg Hi Hl. unfold handleIssues, clientForEvent. rewrite Hdec, Hg. cbn [negb].
  rewrite (proj2 (Z.leb_gt _ _) Hi). destruct (negb _); [done|].
  rewrite !result_bind. set (w1 := world_of _ _). destruct (Hl w1) as [l El].
  assert (result_of (E := effect)
    (ask (ListEnabledIssueTriggersByRepo (er_FullName (ie_Repository ev)))) w1 = inr l) as ->.
  { unfold result_of, ask. by destruct (ListEnabledIssueTriggersByRepo _ w1). }
  destruct (List.filter _ l); [done|]. by rewrite result_bind.
Qed.

(** The handler of issue events drops the errors of its submissions: where the
    triggers can be listed, its delivery is completed and will not be retried,
    even if the service took none of the tasks. *)
Theorem issue_tasks_lost_on_error {W} `{SV : Services W} h D errText body d ev (w : W) now m i v :
  decode_issues D body = inr ev → h_github h = true → 0 < ie_Installation ev →
  (∀ w : W, ∃ l, (ListEnabledIssueTriggersByRepo (er_FullName (ie_Repository ev)) w).1 = inr l) →
  m !! i = Some v → v_delivery_id v = d →
  ∃ es w' m',
    ProcessDelivery h D errText no_faults (mkJob EventTypeIssues body d) now w m = (inr tt, es, w', m') ∧
    es = trace_of (handleIssues h D errText body d) w ∧
    ∃ v', m' !! i = Some v' ∧ v_status v' = "completed".
Proof.
  intros Hdec Hg Hi Hl Hm Hd.
  pose proof (issues_result h D errText body d ev w Hdec Hg Hi Hl) as Hres.
  unfold ProcessDelivery. cbn [rf_processing no_faults j_event j_body j_delivery].
  change (handle h D errText EventTypeIssues body d w) with (handleIssues h D errText body d w).
  unfold result_of, trace_of in *. destruct (handleIssues h D errText body d w) as [[r es] w'].
  cbn in Hres. subst r. cbn [rf_completed no_faults]. eexists es, w', _. split; [reflexivity|]. split; [done|].
  exists (completed now (processing now v)). split; [|done].
  unfold MarkDeliveryCompleted, MarkDeliveryProcessing.
  rewrite on_delivery_compose by done. rewrite on_delivery_lookup, Hm. cbn.
  by rewrite bool_decide_eq_true_2.
Qed.

(** ** Witnesses and a run *)

(** Services that remember the tasks they took; submissions of the named triggers
    fail. *)
Definition memory_services (s : Static) : Services (list string) := {|
  AppLogin w := (inr (sw_login s), w);
  CheckUserHasWriteAccess _ repo user w :=
    (inr (existsb (λ ru, (ru.1 == repo) && (ru.2 == user)) (sw_writers s)), w);
  GetPullRequest _ _ _ w := (inr ("fix", "main", "https://github.com/org/app.git"), w);
  CreateIssueComment _ _ _ _ w := (inr tt, w);
  HasLabel _ _ _ _ w := (inr true, w);
  AddIssueLabel _ _ _ _ w := (inr tt, w);
  ListEnabledPRReviewTriggersByRepo _ w := (inr (sw_review_triggers s), w);
  ListEnabledIssueTriggersByRepo _ w := (inr (sw_issue_triggers s), w);
  SubmitTask q w :=
    match static_submit s q with
    | inl e => (inl e, w)
    | inr _ => (inr tt, w ++ [wr_TriggerName q])
    end;
  ResumeSessionForPR _ _ w := (inr tt, w);
  LogAuditEvent _ w := (inr tt, w);
  RecordArtifact _ w := (inr tt, w);
|}.

Definition sample_pr : PullRequestEvent :=
  mkPullRequestEvent "synchronize" 7
    (mkPullRequest 7 "open" "t" "b" (mkPRBranch "fix" "sha" "org/app" "https://github.com/org/app.git")
       (mkPRBranch "main" "sha" "org/app" "https://github.com/org/app.git") "alice" [])
    None (mkEventRepository "org/app" "app" "org") 42 "alice".

Definition sample_issue : IssueEvent :=
  mkIssueEvent "opened" (mkIssueData 3 "t" "open" "b" "u" "bob" []) None
    (mkEventRepository "org/app" "app" "org") 42.

Definition delivery_decoders : Decoders :=
  mkDecoders (λ _, inr sample_pr) decode_fail (λ _, inr sample_issue) decode_fail decode_fail.

(** The second of two triggers fails. *)
Definition half_down : Static :=
  mkStatic "chetter[bot]" [("org/app", "alice")]
    [sample_trigger "lint" ""; sample_trigger "review" ""]
    [sample_trigger "triage" ""] ["review"; "triage"].

Definition sample_hmac (secret body : string) : string := "00".
Definition sample_cfg : HandlerConfig := mkHandlerConfig false "s3cret" 0.

Definition signed (d event : string) : Request :=
  mkRequest "/webhook/github" "POST"
    (λ n, if n == "X-Hub-Signature-256" then "sha256=00" else if n == "X-GitHub-Delivery" then d
          else if n == "X-GitHub-Event" then event else "")
    (Some "{}") "192.0.2.1".

Definition half_down_step : action → Sys (list string) → Sys (list string) :=
  sys_step (SV := memory_services half_down) sample_hmac (λ _, None) sample_cfg sample_handler
    delivery_decoders (λ _, "").

Definition half_down_run (l : list action) : Sys (list string) :=
  foldl (λ s a, half_down_step a s) (sys_start []) l.

(** A pull request with two triggers, of which the second cannot be submitted: each
    retry of the delivery submits the first one again. After the last attempt the
    delivery is a dead letter and the first trigger has three tasks. *)
Example partial_failure_repeats :
  let s := half_down_run
    [AReq no_faults (signed "d1" "pull_request") "dvr_1" 0; ARun no_faults 0 0;
     ATick no_faults (seconds 10); ATick no_faults (seconds 20)] in
  y_world s = ["lint"; "lint"; "lint"] ∧
  v_status <$> y_rows s !! "dvr_1" = Some "dead_letter".
Proof. vm_compute. by split. Qed.

Lemma lost_jobs_never_retried_witness :
  let s := half_down_run [AReq no_faults (signed "d1" "pull_request") "dvr_1" 0; ARestart] in
  let l' := [ATick no_faults (seconds 10); AReq no_faults (signed "d1" "pull_request") "dvr_2" (seconds 9000)] in
  v_status <$> y_rows s !! "dvr_1" = Some "received" ∧
  y_rows (foldl (λ s a, half_down_step a s) s l') !! "dvr_1" = y_rows s !! "dvr_1".
Proof.
  cbn zeta.
  set (l := [AReq no_faults (signed "d1" "pull_request") "dvr_1" 0; ARestart]).
  set (l' := [ATick no_faults (seconds 10); AReq no_faults (signed "d1" "pull_request") "dvr_2" (seconds 9000)]).
  assert (∃ v, y_rows (half_down_run l) !! "dvr_1" = Some v ∧ v_status v = "received") as (v & Hv & Hst).
  { eexists. split; [vm_compute; reflexivity|reflexivity]. }
  rewrite Hv. split; [cbn; by rewrite Hst|].
  assert (∀ j, j ∈ y_jobs (half_down_run l) → j_delivery j ≠ v_delivery_id v) as Hj.
  { assert (y_jobs (half_down_run l) = []) as -> by (vm_compute; reflexivity). by intros j ?%elem_of_nil. }
  exact (proj1 (lost_jobs_never_retried (SV := memory_services half_down) sample_hmac (λ _, None) sample_cfg
    sample_handler delivery_decoders (λ _, "") l l' [] "dvr_1" v Hv (or_introl Hst) Hj)).
Defined.

Lemma webhook_accepts_only_signed_witness :
  admitted sample_hmac sample_cfg (signed "d1" "issues") "{}" ∧
  ∃ j v, j_delivery j = "d1" ∧ row_for j v ∧
    (ServeHTTP sample_hmac (λ _, None) sample_cfg no_faults (signed "d1" "issues") "dvr_1" 0
       (NewRecentDeliveries 0 0) ∅).1.2 = <["dvr_1" := v]> ∅.
Proof.
  destruct (ServeHTTP sample_hmac (λ _, None) sample_cfg no_faults (signed "d1" "issues") "dvr_1" 0
       (NewRecentDeliveries 0 0) ∅) as [[[code rc'] m'] job] eqn:E.
  destruct (webhook_accepts_only_signed sample_hmac (λ _, None) sample_cfg no_faults (signed "d1" "issues")
    "dvr_1" 0 (NewRecentDeliveries 0 0) ∅ code rc' m' job E) as (_ & Hjob & _).
  assert (job = Some (mkJob "issues" "{}" "d1")) as -> by (vm_compute in E; congruence).
  destruct (Hjob _ eq_refl) as (_ & Hadm & _ & v & -> & Hrow & _).
  split; [exact Hadm|]. exists (mkJob "issues" "{}" "d1"), v. done.
Defined.

Lemma redelivery_after_503_lost_witness :
  ∃ rc1 rc2,
    ServeHTTP sample_hmac (λ _, None) sample_cfg (mkRowFaults true false false false)
      (signed "d1" "issues") "dvr_1" 0 (NewRecentDeliveries 0 0) ∅ = (503, rc1, ∅, None) ∧
    ServeHTTP sample_hmac (λ _, None) sample_cfg no_faults
      (signed "d1" "issues") "dvr_2" (seconds 60) rc1 ∅ = (200, rc2, ∅, None).
Proof.
  assert (admitted sample_hmac sample_cfg (signed "d1" "issues") "{}") as Hadm.
  { split_and!; [done|done|by exists "{}"|done|done]. }
  apply (redelivery_after_503_lost sample_hmac (λ _, None) sample_cfg (mkRowFaults true false false false)
    no_faults (signed "d1" "issues") (signed "d1" "issues") "{}" "{}" "dvr_1" "dvr_2" 0 (seconds 60)
    (NewRecentDeliveries 0 0) ∅ Hadm eq_refl ltac:(done) eq_refl ltac:(vm_compute; reflexivity) Hadm eq_refl
    ltac:(vm_compute; reflexivity)).
  intros i v Hv. by rewrite lookup_empty in Hv.
Defined.

Lemma recent_bounded_witness :
  Z.of_nat (size (entries (Seen "d9" 7 (mkRecent {["d1" := 0; "d2" := 1]} 100 2)).2)) <= 2.
Proof.
  assert (Z.of_nat (size (entries (mkRecent {["d1" := 0; "d2" := 1]} 100 2))) <= 2) as H
    by (vm_compute; discriminate).
  exact (proj1 (recent_bounded "d9" 7 (mkRecent {["d1" := 0; "d2" := 1]} 100 2) eq_refl H eq_refl)).
Defined.

Definition sample_row : WebhookDelivery :=
  mkWebhookDelivery "d1" "issues" "opened" "{}" "received" 0 3 None None None 0 0.
Definition sample_rows : Deliveries := {[ "dvr_1" := sample_row ]}.

Lemma issue_tasks_lost_on_error_witness :
  ∃ es w' m',
    ProcessDelivery (SV := memory_services half_down) sample_handler delivery_decoders (λ _, "") no_faults
      (mkJob EventTypeIssues "{}" "d1") 5 [] sample_rows = (inr tt, es, w', m') ∧
    (∃ q, ETask q (inl (EMsg "database is down")) ∈ es) ∧
    v_status <$> m' !! "dvr_1" = Some "completed".
Proof.
  assert (sample_rows !! "dvr_1" = Some sample_row) as Hrow by (vm_compute; reflexivity).
  destruct (issue_tasks_lost_on_error (SV := memory_services half_down) sample_handler delivery_decoders
    (λ _, "") "{}" "d1" sample_issue [] 5 sample_rows "dvr_1" sample_row
    eq_refl eq_refl eq_refl (λ _, ex_intro _ _ eq_refl) Hrow eq_refl)
    as (es & w' & m' & Hp & Hes & v' & Hv' & Hst).
  exists es, w', m'. split; [exact Hp|]. split; [|by rewrite Hv'; cbn; rewrite Hst].
  eexists. subst es. apply list_elem_of_lookup_2 with (i := 1%nat). vm_compute. reflexivity.
Defined.
