(* ===== verification/GithubAction.v ===== *)
(** * GitHub actions of runners

    [internal/service/runner_github_rpc.go] and the signatures of
    [internal/service/github_tools.go]: a runner asks the control plane to act on
    GitHub for the task it runs, or for a token; the fence of
    [authorizeGitHubAction] decides. The database, GitHub and the clock are the
    class [ActionServer]: between two calls other processes may have changed any of
    them. *)
From S2P Require Import Prelude Effects GoStrings Status Repos GithubRepo Db Queries Submission GithubEvents GithubWebhook Artifacts Sample.

(** The connect errors of these handlers. *)
Inductive rpc_err :=
| InvalidArgument (msg : string)
| PermissionDenied (msg : string)
| FailedPrecondition (msg : string)
| Unavailable (msg : string)
| Internal (msg : string).

(** ** Signatures *)

Definition trimRightSlash : string → string := trim_right (λ c, (c == "/")%char).

(** [session] is the answer of the session query. *)
Definition githubToolSignatureForContext (webURL : string) (session : option AgentSession)
    (taskID agentSessionID userPromptID executionAttemptID : string) : string :=
  let taskLink := if negb (webURL == "")
                  then "[" ^^ taskID ^^ "](" ^^ trimRightSlash webURL ^^ "/tasks/" ^^ taskID ^^ ")"
                  else taskID in
  let field (name value : string) := if negb (value == "") then [name ^^ value] else [] in
  let described := match session with
                   | None => []
                   | Some s => field "Agent: " (trimSpace (str_of (s_agent s))) ++
                               field "Model: " (trimSpace (str_of (s_model_id s)))
                   end in
  "---" ^^ LF ^^ join " | " (["Task: " ^^ taskLink] ++ field "Session: " agentSessionID ++
     field "Prompt: " userPromptID ++ ["Attempt: " ^^ executionAttemptID] ++ described).

(** [strings.Index] and [strings.LastIndex]: what comes before the first and
    before the last occurrence. *)
Fixpoint before_first (sub s : string) : option string :=
  if String.prefix sub s then Some EmptyString
  else match s with
       | EmptyString => None
       | String c s' => match before_first sub s' with Some p => Some (String c p) | None => None end
       end.

Fixpoint before_last (sub s : string) : option string :=
  match s with
  | EmptyString => if String.prefix sub s then Some EmptyString else None
  | String c s' =>
    match before_last sub s' with
    | Some p => Some (String c p)
    | None => if String.prefix sub s then Some EmptyString else None
    end
  end.

Definition stripExistingChetterSignature (body : string) : string :=
  match before_last ("---" ^^ LF ^^ "Task:") body with
  | Some p => trimSpace p
  | None => match before_first ("---" ^^ LF ^^ "Generated by [Chetter]") body with
            | Some p => trimSpace p
            | None => body
            end
  end.

Definition appendChetterSignature (body signature : string) : string :=
  let body := trimSpace (stripExistingChetterSignature body) in
  if body == "" then signature else body ^^ LF2 ^^ signature.

(** ** What an attempt may act on *)

Record GetGitHubExecutionContextRow := mkExecutionContext {
  gx_ExecutionAttemptID : string;
  gx_UserPromptID : string;
  gx_AgentSessionID : string;
  gx_TaskID : string;
  gx_RunnerID : option string;
  gx_ExecutionStatus : string;
  gx_LeaseExpiresAt : option time;
  gx_TaskStatus : string;
  gx_GithubRepo : option string;
  gx_Repos : option (list RepoRef);
  gx_GithubInstallationID : option Z;
  gx_ClaimID : string;
}.

Definition GetGitHubExecutionContext (id : string) (db : DB) : option GetGitHubExecutionContextRow :=
  match execution_attempts db !! id with
  | None => None
  | Some a =>
    match prompt_of db a with
    | None => None
    | Some p =>
      match tasks db !! p_task_id p with
      | None => None
      | Some t => Some (mkExecutionContext id (a_user_prompt_id a) (p_agent_session_id p) (p_task_id p)
                          (a_runner_id a) (a_status a) (a_lease_expires_at a) (t_status t)
                          (t_github_repo t) (t_repos t) (t_github_installation_id t) (a_claim_id a))
      end
    end
  end.

Definition PinTaskGitHubInstallation (installation : Z) (now : time) (id : string) : DB → Z * DB :=
  on_tasks (update_pk id (λ t, match t_github_installation_id t with None => true | Some _ => false end)
    (λ t, t{{ t_github_installation_id := Some installation; t_updated_at := now }})).

Section fence.
Variable url_Parse : string → option URL.
Notation Parse := (Parse url_Parse).

Definition repoInTaskRepoSet (raw : option (list RepoRef)) (requested : Repository) : bool :=
  match raw with
  | None => false
  | Some refs =>
    existsb (λ ref, match Parse (Repos.URL ref) with
                    | Some other => Normalized other == Normalized requested
                    | None => false
                    end) refs
  end.

(** The part of the check that looks at the row: the task's own repository. *)
Definition check_context (x : GetGitHubExecutionContextRow) (now : time)
    (taskID runnerID claimID : string) : rpc_err + Repository :=
  if negb (gx_TaskID x == taskID) then
    inl (PermissionDenied "execution attempt does not belong to task")
  else if negb (gx_ExecutionStatus x == "running") then
    inl (FailedPrecondition "execution attempt is not running")
  else if negb (gx_TaskStatus x == "running") then inl (FailedPrecondition "task is not running")
  else match gx_LeaseExpiresAt x with
  | None => inl (FailedPrecondition "execution attempt has no active lease")
  | Some lease =>
    if lease <=? now then inl (FailedPrecondition "execution attempt lease has expired")
    else if negb (gx_RunnerID x == Some runnerID) then
      inl (PermissionDenied "runner does not own execution attempt")
    else if negb (gx_ClaimID x == claimID) then
      inl (PermissionDenied "claim does not own execution attempt")
    else if trimSpace (str_of (gx_GithubRepo x)) == "" then
      inl (FailedPrecondition "task has no GitHub repository identity")
    else match Parse (str_of (gx_GithubRepo x)) with
         | None => inl (Internal "task has invalid GitHub repository identity")
         | Some taskRepo => inr taskRepo
         end
  end.
End fence.

(** ** The server *)

Record PRDetails := mkPRDetails { pd_State : string; pd_Merged : bool; pd_URL : string }.

(** Reads and statements on the database, the GitHub clients, and the records. A
    client is the number of its installation. *)
Class ActionServer (W : Type) := {
  gs_read : W → (err + DB) * W;
  gs_exec : (DB → Z * DB) → W → (err + Z) * W;
  gs_clock : W → time;
  gs_ClientForInstallation : Z → W → (err + Z) * W;
  gs_ClientForRepo : string → W → (err + Z) * W;
  gs_CreateIssue : Z → string → string → string → list string → W → (err + Z * string) * W;
  gs_CreateIssueComment : Z → string → Z → string → W → (err + string) * W;
  gs_CreatePullRequest : Z → string → string → string → string → string → bool → W →
    (err + Z * string) * W;
  gs_CreatePullRequestReview : Z → string → Z → string → string → W → (err + string) * W;
  gs_GetPullRequestDetails : Z → string → Z → W → (err + PRDetails) * W;
  gs_MergePullRequest : Z → string → Z → string → W → (err + string) * W;
  gs_ClosePullRequest : Z → string → Z → W → (err + string) * W;
  gs_CloseIssue : Z → string → Z → W → (err + string) * W;
  gs_AddIssueLabels : Z → string → Z → list string → W → (err + list string) * W;
  gs_CredentialForRepo : Z → string → W → (err + string * time) * W;
  gs_RecordArtifact : RecordArtifactParams → W → (err + unit) * W;
  gs_LogAudit : string → string → W → (err + unit) * W;
}.

(** What a runner can have done, as the trace shows it. *)
Inductive GitHubOp :=
| OpCreateIssue (title body : string) (labels : list string)
| OpIssueComment (number : Z) (body : string)
| OpCreatePR (title body head base : string) (draft : bool)
| OpPRReview (number : Z) (event body : string)
| OpPRDetails (number : Z)
| OpMergePR (number : Z) (method : string)
| OpClosePR (number : Z)
| OpCloseIssue (number : Z)
| OpAddLabels (number : Z) (labels : list string)
| OpCredential.

(** [GFence] is the state and the time on which a request passed the fence. *)
Inductive gh_event :=
| GFence (db : DB) (now : time)
| GCall (op : GitHubOp) (installation : Z) (repo : string)
| GArtifact (p : RecordArtifactParams)
| GAudit (eventType target : string).

(** The identity a request names. *)
Record Identity := mkIdentity {
  rq_TaskId : string;
  rq_ExecutionId : string;
  rq_RunnerId : string;
  rq_Repo : string;
  rq_ClaimId : string;
}.

Record githubActionAuthorization := mkAuthorization {
  az_client : Z;
  az_repo : string;
  az_installationID : Z;
  az_signature : string;
}.

Section actions.
Context {W : Type} `{SV : ActionServer W}.
Variable url_Parse : string → option URL.
(** Whether the server has a GitHub App manager, and its web address. *)
Variable configured : bool.
Variable webURL : string.

Notation M := (eff W gh_event).
Notation Parse := (Parse url_Parse).

Definition wrap {A} (f : err → rpc_err) (m : M (err + A)) : M (rpc_err + A) :=
  m ≫= λ r, mret (match r with inl e => inl (f e) | inr a => inr a end).

Definition fail {A} (e : rpc_err) : M (rpc_err + A) := mret (inl e).
Definition ok {A} (a : A) : M (rpc_err + A) := mret (inr a).

Definition blank (s : string) : bool := trimSpace s == "".

Definition githubClientForExecution (x : GetGitHubExecutionContextRow) (repo : string)
    : M (rpc_err + Z * Z) :=
  match gx_GithubInstallationID x with
  | Some i =>
    if i <=? 0 then fail (Internal "task has invalid GitHub installation ID")
    else
      or_fail (wrap (λ _, Unavailable "resolve pinned GitHub installation")
                 (ask (gs_ClientForInstallation i))) (λ client, ok (client, i))
  | None =>
    or_fail (wrap (λ _, Unavailable "resolve GitHub repository installation") (ask (gs_ClientForRepo repo)))
      (λ client : Z,
    ask (λ w, (gs_clock w, w)) ≫= λ now,
    or_fail (wrap (λ _, Internal "pin task GitHub installation")
               (ask (gs_exec (PinTaskGitHubInstallation client now (gx_TaskID x))))) (λ rows : Z,
    if rows =? 0 then
      or_fail (wrap (λ _, Internal "reload task GitHub installation") (ask gs_read)) (λ db,
      match GetGitHubExecutionContext (gx_ExecutionAttemptID x) db with
      | None => fail (Internal "reload task GitHub installation")
      | Some y => if gx_GithubInstallationID y == Some client then ok (client, client)
                  else fail (FailedPrecondition
                    "task GitHub installation was pinned concurrently to a different installation")
      end)
    else ok (client, client)))
  end.

(** The signature reads the session once more; an error leaves its fields out. *)
Definition signature_for (x : GetGitHubExecutionContextRow) (taskID executionID : string) : M string :=
  ask gs_read ≫= λ r,
  let session := match r with inl _ => None | inr db => agent_sessions db !! gx_AgentSessionID x end in
  mret (githubToolSignatureForContext webURL session taskID (gx_AgentSessionID x) (gx_UserPromptID x)
          executionID).

Definition authorizeGitHubAction (q : Identity) : M (rpc_err + githubActionAuthorization) :=
  if blank (rq_TaskId q) || blank (rq_ExecutionId q) || blank (rq_RunnerId q) || blank (rq_Repo q) ||
     blank (rq_ClaimId q)
  then fail (InvalidArgument "task_id, execution_id, runner_id, repo, and claim_id are required")
  else match Parse (rq_Repo q) with
  | None => fail (InvalidArgument "invalid repo")
  | Some requested =>
    if negb configured then fail (Unavailable "GitHub App is not configured on this server")
    else
      or_fail (wrap (λ _, Internal "get GitHub execution context") (ask gs_read)) (λ db,
      match GetGitHubExecutionContext (rq_ExecutionId q) db with
      | None => fail (PermissionDenied "execution attempt is not authorized for task")
      | Some x =>
        ask (λ w, (gs_clock w, w)) ≫= λ now,
        match check_context url_Parse x now (rq_TaskId q) (rq_RunnerId q) (rq_ClaimId q) with
        | inl e => fail e
        | inr taskRepo =>
          signature_for x (rq_TaskId q) (rq_ExecutionId q) ≫= λ signature,
          if Normalized requested == Normalized taskRepo then
            call (λ w, (tt, w)) (λ _, GFence db now) ≫= λ _,
            or_fail (githubClientForExecution x (FullName taskRepo)) (λ found : Z * Z,
            ok (mkAuthorization found.1 (FullName taskRepo) found.2 signature))
          else if negb (repoInTaskRepoSet url_Parse (gx_Repos x) requested) then
            fail (PermissionDenied "requested repository is not part of task")
          else
            call (λ w, (tt, w)) (λ _, GFence db now) ≫= λ _,
            or_fail (wrap (λ _, Unavailable "resolve GitHub repository installation")
                       (ask (gs_ClientForRepo (FullName requested)))) (λ client,
            ok (mkAuthorization client (FullName requested) client signature))
        end
      end)
  end.

(** One call to GitHub under an authorization. *)
Definition github {A} (az : githubActionAuthorization) (op : GitHubOp) (msg : string)
    (f : Z → string → W → (err + A) * W) : M (rpc_err + A) :=
  wrap (λ _, Unavailable msg) (call (f (az_client az) (az_repo az)) (λ _, GCall op (az_client az) (az_repo az))).

Definition recordGitHubRPCArtifact (q : Identity) (artifactType repo : string) (number : Z)
    (url ref : string) : M (rpc_err + unit) :=
  let p := mkRecordArtifactParams (rq_TaskId q) "" "" (rq_ExecutionId q) artifactType repo number url
             ref "" "rpc_tool" in
  or_fail (wrap (λ _, Internal "record GitHub artifact") (call (gs_RecordArtifact p) (λ _, GArtifact p)))
    (λ _ : unit,
  wrap (λ _, Internal "log GitHub artifact audit event")
    (call (gs_LogAudit "github_artifact_created" (target repo number))
       (λ _, GAudit "github_artifact_created" (target repo number)))).

Definition logGitHubRPCAction (eventType repo : string) (number : Z) : M (rpc_err + unit) :=
  wrap (λ _, Internal "log GitHub action audit event")
    (call (gs_LogAudit eventType (target repo number)) (λ _, GAudit eventType (target repo number))).

(** ** The requests *)

Definition GitHubCreateIssue (q : Identity) (title body : string) (labels : list string)
    : M (rpc_err + Z * string) :=
  if blank title then fail (InvalidArgument "title is required")
  else
    or_fail (authorizeGitHubAction q) (λ az,
    let text := appendChetterSignature body (az_signature az) in
    or_fail (github az (OpCreateIssue title text labels) "create GitHub issue"
               (λ i repo, gs_CreateIssue i repo title text labels)) (λ created : Z * string,
    or_fail (recordGitHubRPCArtifact q "issue" (az_repo az) created.1 created.2 "") (λ _ : unit,
    ok (int32_of created.1, created.2)))).

Definition GitHubIssueComment (q : Identity) (number : Z) (body : string) : M (rpc_err + string) :=
  if (number <=? 0) || blank body then fail (InvalidArgument "issue_number and body are required")
  else
    or_fail (authorizeGitHubAction q) (λ az,
    let text := appendChetterSignature body (az_signature az) in
    or_fail (github az (OpIssueComment number text) "create GitHub issue comment"
               (λ i repo, gs_CreateIssueComment i repo number text)) (λ url : string,
    or_fail (recordGitHubRPCArtifact q "issue_comment" (az_repo az) number url "") (λ _ : unit, ok url))).

Definition GitHubCreatePR (q : Identity) (title body head base : string) (draft : bool)
    : M (rpc_err + Z * string) :=
  if blank title || blank head || blank base
  then fail (InvalidArgument "title, head, and base are required")
  else
    or_fail (authorizeGitHubAction q) (λ az,
    let text := appendChetterSignature body (az_signature az) in
    or_fail (github az (OpCreatePR title text head base draft) "create GitHub pull request"
               (λ i repo, gs_CreatePullRequest i repo title text head base draft)) (λ created : Z * string,
    or_fail (recordGitHubRPCArtifact q "pr" (az_repo az) created.1 created.2 head) (λ _ : unit,
    ok (int32_of created.1, created.2)))).

Definition GitHubPRReview (q : Identity) (number : Z) (event body : string) : M (rpc_err + string) :=
  if (number <=? 0) || blank body then fail (InvalidArgument "pr_number and body are required")
  else
    let event := toUpper (trimSpace event) in
    let event := if event == "" then "COMMENT" else event in
    if negb (one_of ["COMMENT"; "APPROVE"; "REQUEST_CHANGES"] event)
    then fail (InvalidArgument "event must be COMMENT, APPROVE, or REQUEST_CHANGES")
    else
      or_fail (authorizeGitHubAction q) (λ az,
      let text := appendChetterSignature body (az_signature az) in
      or_fail (github az (OpPRReview number event text) "create GitHub PR review"
                 (λ i repo, gs_CreatePullRequestReview i repo number event text)) (λ url : string,
      or_fail (recordGitHubRPCArtifact q "pr_review" (az_repo az) number url "") (λ _ : unit, ok url))).

(** The URL, the merge commit and the method. *)
Definition GitHubMergePR (q : Identity) (number : Z) (mergeMethod : string)
    : M (rpc_err + string * string * string) :=
  if number <=? 0 then fail (InvalidArgument "pr_number is required")
  else
    let method := toUpper (trimSpace mergeMethod) in
    let method := if method == "" then "MERGE" else method in
    if negb (one_of ["MERGE"; "SQUASH"; "REBASE"] method)
    then fail (InvalidArgument "merge_method must be MERGE, SQUASH, or REBASE")
    else
      or_fail (authorizeGitHubAction q) (λ az,
      or_fail (github az (OpPRDetails number) "get GitHub pull request"
                 (λ i repo, gs_GetPullRequestDetails i repo number)) (λ details,
      if pd_Merged details then fail (FailedPrecondition "pull request is already merged")
      else if negb (pd_State details == "open") then fail (FailedPrecondition "pull request is not open")
      else
        or_fail (github az (OpMergePR number method) "merge GitHub pull request"
                   (λ i repo, gs_MergePullRequest i repo number method)) (λ sha : string,
        or_fail (logGitHubRPCAction "github_pr_merged" (az_repo az) number) (λ _ : unit,
        ok (pd_URL details, sha, method))))).

Definition GitHubClosePR (q : Identity) (number : Z) : M (rpc_err + string) :=
  if number <=? 0 then fail (InvalidArgument "pr_number is required")
  else
    or_fail (authorizeGitHubAction q) (λ az,
    or_fail (github az (OpClosePR number) "close GitHub pull request"
               (λ i repo, gs_ClosePullRequest i repo number)) (λ url : string,
    or_fail (logGitHubRPCAction "github_pr_closed" (az_repo az) number) (λ _ : unit, ok url))).

Definition GitHubCloseIssue (q : Identity) (number : Z) : M (rpc_err + string) :=
  if number <=? 0 then fail (InvalidArgument "issue_number is required")
  else
    or_fail (authorizeGitHubAction q) (λ az,
    or_fail (github az (OpCloseIssue number) "close GitHub issue"
               (λ i repo, gs_CloseIssue i repo number)) (λ url : string,
    or_fail (logGitHubRPCAction "github_issue_closed" (az_repo az) number) (λ _ : unit, ok url))).

Definition compactLabelList (labels : list string) : list string :=
  omap (λ l, let t := trimSpace l in if t == "" then None else Some t) labels.

Definition GitHubAddIssueLabels (q : Identity) (number : Z) (labels : list string)
    : M (rpc_err + list string) :=
  if (number <=? 0) || (length (compactLabelList labels) =? 0)%nat
  then fail (InvalidArgument "issue_number and at least one label are required")
  else
    or_fail (authorizeGitHubAction q) (λ az,
    or_fail (github az (OpAddLabels number (compactLabelList labels)) "add GitHub issue labels"
               (λ i repo, gs_AddIssueLabels i repo number (compactLabelList labels))) (λ out : list string,
    or_fail (logGitHubRPCAction "github_issue_labels_added" (az_repo az) number) (λ _ : unit, ok out))).

(** The user name is the constant [x-access-token]. *)
Definition GetGitHubCredential (q : Identity) : M (rpc_err + string * time) :=
  if blank (rq_RunnerId q) || blank (rq_TaskId q) || blank (rq_ExecutionId q) || blank (rq_Repo q) ||
     blank (rq_ClaimId q)
  then fail (InvalidArgument "runner_id, task_id, execution_id, repo, and claim_id are required")
  else
    or_fail (authorizeGitHubAction q) (λ az,
    or_fail (github az OpCredential "issue repository-restricted GitHub credential"
               gs_CredentialForRepo) (λ credential : string * time,
    or_fail (authorizeGitHubAction q) (λ _, ok credential))).
End actions.

(** ** What the fence grants *)

Section spec.
Variable url_Parse : string → option URL.

(** The repositories of a task: its own, and those of its set, up to case. *)
Definition task_repo (t : Task) (repo : string) : Prop :=
  ∃ r, repo = FullName r ∧
    ((∃ own, Parse url_Parse (str_of (t_github_repo t)) = Some own ∧ Normalized r = Normalized own) ∨
     (∃ refs ref other, t_repos t = Some refs ∧ ref ∈ refs ∧
        Parse url_Parse (Repos.URL ref) = Some other ∧ Normalized other = Normalized r)).

(** The runner of the request holds, under the claim of the request and with a
    lease that has not run out, a running attempt of the running task it names. *)
Definition may_act (db : DB) (now : time) (q : Identity) (repo : string) : Prop :=
  ∃ a p t lease,
    execution_attempts db !! rq_ExecutionId q = Some a ∧
    user_prompts db !! a_user_prompt_id a = Some p ∧ p_task_id p = rq_TaskId q ∧
    tasks db !! rq_TaskId q = Some t ∧
    a_status a = "running" ∧ t_status t = "running" ∧
    a_lease_expires_at a = Some lease ∧ now < lease ∧
    a_runner_id a = Some (rq_RunnerId q) ∧ a_claim_id a = rq_ClaimId q ∧
    task_repo t repo.

Lemma check_context_inr x now taskID runnerID claimID r :
  check_context url_Parse x now taskID runnerID claimID = inr r ↔
  gx_TaskID x = taskID ∧ gx_ExecutionStatus x = "running" ∧ gx_TaskStatus x = "running" ∧
  (∃ lease, gx_LeaseExpiresAt x = Some lease ∧ now < lease) ∧
  gx_RunnerID x = Some runnerID ∧ gx_ClaimID x = claimID ∧
  trimSpace (str_of (gx_GithubRepo x)) ≠ "" ∧ Parse url_Parse (str_of (gx_GithubRepo x)) = Some r.
Proof.
  unfold check_context. repeat (case_bool_decide; cbn [negb]; [|split; [done|naive_solver]]).
  destruct (gx_LeaseExpiresAt x) as [lease|]; [|split; [done|naive_solver]].
  destruct (Z.leb_spec lease now) as [Hl|Hl].
  { split; [done|]. intros (_ & _ & _ & (? & [= <-] & ?) & _). lia. }
  case_bool_decide; cbn [negb]; [|split; [done|naive_solver]].
  case_bool_decide; cbn [negb]; [|split; [done|naive_solver]].
  case_bool_decide as Hb; [split; [done|naive_solver]|].
  destruct (Parse _ _) as [own|]; [|split; [done|naive_solver]].
  split; [intros [= <-]; naive_solver|naive_solver].
Qed.

Lemma context_may_act db now q x own requested :
  GetGitHubExecutionContext (rq_ExecutionId q) db = Some x →
  check_context url_Parse x now (rq_TaskId q) (rq_RunnerId q) (rq_ClaimId q) = inr own →
  (Normalized requested = Normalized own → may_act db now q (FullName own)) ∧
  (repoInTaskRepoSet url_Parse (gx_Repos x) requested = true → may_act db now q (FullName requested)).
Proof.
  unfold GetGitHubExecutionContext. destruct (execution_attempts db !! _) as [a|] eqn:Ea; [|done].
  unfold prompt_of. destruct (user_prompts db !! _) as [p|] eqn:Ep; [|done].
  destruct (tasks db !! p_task_id p) as [t|] eqn:Et; [|done]. intros [= <-].
  intros (Htask & Hst & Htst & (lease & Hlease & Hnow) & Hrun & Hclaim & _ & Hown)%check_context_inr.
  cbn in *.
  assert (∀ repo, task_repo t repo → may_act db now q repo) as Hact.
  { intros repo Hrepo. exists a, p, t, lease. rewrite Htask in Et. by split_and!. }
  split.
  - intros _. apply Hact. exists own. split; [done|]. left. by exists own.
  - intros Hset. apply Hact. exists requested. split; [done|]. right.
    unfold repoInTaskRepoSet in Hset. destruct (t_repos t) as [refs|]; [|done].
    apply existsb_exists in Hset as (ref & Hin & Href).
    destruct (Parse url_Parse (Repos.URL ref)) as [other|] eqn:Eo; [|done].
    exists refs, ref, other. split_and!; [done|by apply list_elem_of_In|done|by apply bool_decide_eq_true in Href].
Qed.
End spec.

(** ** What the requests do *)

(** The artifact types of the requests. *)
Definition rpc_artifact_types : list string := ["issue"; "issue_comment"; "pr"; "pr_review"].

Section fenced.
Context {W : Type} `{SV : ActionServer W}.
Variable url_Parse : string → option URL.
Variable configured : bool.
Variable webURL : string.
Variable q : Identity.

(** The request passed the fence for [repo], the repository it names up to
    case. *)
Definition fenced (repo : string) (past : list gh_event) : Prop :=
  ∃ db now, GFence db now ∈ past ∧ may_act url_Parse db now q repo ∧
  ∃ named r, Parse url_Parse (rq_Repo q) = Some named ∧ repo = FullName r ∧
             Normalized r = Normalized named.

#[global] Instance fenced_stable repo : Stable (fenced repo).
Proof. intros past es (db & now & Hin & H). exists db, now. split; [set_solver|done]. Qed.

Definition fence_allows (past : list gh_event) (e : gh_event) : Prop :=
  match e with
  | GCall _ _ repo => fenced repo past
  | GArtifact p => fenced (ra_Repo p) past ∧ ra_TaskID p = rq_TaskId q ∧
                   ra_ExecutionAttemptID p = rq_ExecutionId q ∧ ra_ArtifactType p ∈ rpc_artifact_types
  | _ => True
  end.

Notation keeps := (under (W := W) fence_allows).
Notation triple := (triple (W := W) fence_allows).

Lemma keeps_wrap {A} P (f : err → rpc_err) (m : eff W gh_event (err + A)) : keeps P m → keeps P (wrap f m).
Proof. intros Hm. apply under_bind; [done|]. intros [e|a]; apply under_ret. Qed.

Ltac fence_tac :=
  repeat (under_step || apply keeps_wrap
          || match goal with |- under _ _ (fail _) => apply under_ret
                           | |- under _ _ (ok _) => apply under_ret end).

Lemma keeps_client P x repo : keeps P (githubClientForExecution x repo).
Proof.
  unfold githubClientForExecution. destruct (gx_GithubInstallationID x); fence_tac.
  destruct (GetGitHubExecutionContext _ _); fence_tac.
Qed.

Lemma keeps_signature P x taskID executionID : keeps P (signature_for webURL x taskID executionID).
Proof. unfold signature_for. fence_tac. Qed.

(** What the client lookups leave of a passed fence. *)
Lemma passed_fence {A} P `{!Stable P} db now repo (m : eff W gh_event (rpc_err + A))
    (k : A → githubActionAuthorization) named r :
  keeps (λ past, P past ∧ fenced repo past) m → (∀ a, az_repo (k a) = repo) →
  may_act url_Parse db now q repo → Parse url_Parse (rq_Repo q) = Some named →
  repo = FullName r → Normalized r = Normalized named →
  triple P (call (λ w, (tt, w)) (λ _, GFence db now) ≫= λ _, or_fail m (λ a, ok (k a)))
    (λ z past, P past ∧ ∀ az, z = inr az → fenced (az_repo az) past).
Proof.
  intros Hm Hk Hact Hn Hr Heq.
  eapply (triple_bind _ _ (λ _ past, P past ∧ fenced repo past)).
  - apply triple_call. intros _ past HP. split; [exact I|]. split; [by apply stable|].
    exists db, now. split; [set_solver|]. split; [done|]. by exists named, r.
  - intros _. eapply triple_or_fail; [exact Hm| |].
    + intros e past [HP _]. by split.
    + intros a. apply triple_ret. intros past [HP Hf]. split; [done|]. intros az [= <-]. by rewrite Hk.
Qed.

Lemma authorize_triple P `{!Stable P} :
  triple P (authorizeGitHubAction url_Parse configured webURL q)
    (λ z past, P past ∧ ∀ az, z = inr az → fenced (az_repo az) past).
Proof.
  assert (∀ e, triple P (@fail W githubActionAuthorization e)
                 (λ z past, P past ∧ ∀ az, z = inr az → fenced (az_repo az) past)) as Hfail.
  { intros e. by apply triple_ret. }
  unfold authorizeGitHubAction. destruct (_ || _); [done|].
  destruct (Parse url_Parse (rq_Repo q)) as [named|] eqn:En; [|done].
  destruct configured; cbn [negb]; [|done].
  eapply triple_or_fail; [by apply keeps_wrap, triple_ask|done|]. intros db. cbn beta.
  destruct (GetGitHubExecutionContext (rq_ExecutionId q) db) as [x|] eqn:Ex; [|done].
  eapply triple_bind; [apply triple_ask|]. intros now. cbn beta.
  destruct (check_context _ x now _ _ _) as [e|own] eqn:Ec; [done|].
  pose proof (context_may_act url_Parse db now q x own named Ex Ec) as [Hown Hset].
  eapply triple_bind; [apply keeps_signature|]. intros signature. cbn beta.
  case_bool_decide as Heq.
  - eapply (passed_fence P db now (FullName own) _ _ named); [apply keeps_client|done|by apply Hown|done|done|done].
  - destruct (repoInTaskRepoSet _ _ _) eqn:Eset; cbn [negb]; [|done].
    eapply (passed_fence P db now (FullName named) _ _ named); [by fence_tac|done|by apply Hset|done|done|done].
Qed.

(** A request under its authorization. *)
Lemma keeps_authorized {A} P `{!Stable P} (k : githubActionAuthorization → eff W gh_event (rpc_err + A)) :
  (∀ az, keeps (λ past, P past ∧ fenced (az_repo az) past) (k az)) →
  keeps P (or_fail (authorizeGitHubAction url_Parse configured webURL q) k).
Proof.
  intros Hk. eapply triple_or_fail; [by apply authorize_triple|by intros e past [? _]|].
  intros az. eapply triple_conseq; [apply Hk| |].
  - intros past [HP Hf]. split; [done|by apply Hf].
  - by intros a past [? _].
Qed.

Lemma keeps_github {A} P `{!Stable P} az op msg (f : Z → string → W → (err + A) * W) :
  (∀ past, P past → fenced (az_repo az) past) → keeps P (github az op msg f).
Proof. intros HP. apply keeps_wrap, under_call; [done|]. intros a past Hp. by apply HP. Qed.

Lemma github_trace {A} az op msg (f : Z → string → W → (err + A) * W) w :
  trace_of (github az op msg f) w = [GCall op (az_client az) (az_repo az)].
Proof. unfold github, wrap. by rewrite trace_bind, trace_call. Qed.

Lemma keeps_artifact P `{!Stable P} ty repo n url ref :
  (∀ past, P past → fenced repo past) → ty ∈ rpc_artifact_types →
  keeps P (recordGitHubRPCArtifact q ty repo n url ref).
Proof.
  intros HP Hty. unfold recordGitHubRPCArtifact. fence_tac.
  - apply under_call; [done|]. intros a past Hp. split_and!; [by apply HP|done|done|done].
  - by apply under_call.
Qed.

Lemma keeps_action P `{!Stable P} ty repo n : keeps P (logGitHubRPCAction ty repo n).
Proof. apply keeps_wrap. by apply under_call. Qed.

(** ** The nine requests *)

Definition forget {A} (m : eff W gh_event (rpc_err + A)) : eff W gh_event (rpc_err + unit) :=
  or_fail m (λ _, ok tt).

Lemma keeps_forget {A} P (m : eff W gh_event (rpc_err + A)) : keeps P m → keeps P (forget m).
Proof. intros Hm. apply under_or_fail; [done|]. intros a. apply under_ret. Qed.

Lemma keeps_authorized_top {A} (k : githubActionAuthorization → eff W gh_event (rpc_err + A)) :
  (∀ az, keeps (fenced (az_repo az)) (k az)) →
  keeps (λ _, True) (or_fail (authorizeGitHubAction url_Parse configured webURL q) k).
Proof.
  intros Hk. apply keeps_authorized; [exact _|]. intros az. eapply triple_conseq; [apply Hk| |done].
  by intros past [_ H].
Qed.
End fenced.

(** A request of the nine, and its handler. *)
Inductive GitHubRequest :=
| CreateIssueRequest (title body : string) (labels : list string)
| IssueCommentRequest (number : Z) (body : string)
| CreatePRRequest (title body head base : string) (draft : bool)
| PRReviewRequest (number : Z) (event body : string)
| MergePRRequest (number : Z) (mergeMethod : string)
| ClosePRRequest (number : Z)
| CloseIssueRequest (number : Z)
| AddIssueLabelsRequest (number : Z) (labels : list string)
| CredentialRequest.

Section serve.
Context {W : Type} `{SV : ActionServer W}.
Variable url_Parse : string → option URL.
Variable configured : bool.
Variable webURL : string.

Definition serve (q : Identity) (r : GitHubRequest) : eff W gh_event (rpc_err + unit) :=
  match r with
  | CreateIssueRequest title body labels =>
      forget (GitHubCreateIssue url_Parse configured webURL q title body labels)
  | IssueCommentRequest n body => forget (GitHubIssueComment url_Parse configured webURL q n body)
  | CreatePRRequest title body head base draft =>
      forget (GitHubCreatePR url_Parse configured webURL q title body head base draft)
  | PRReviewRequest n event body => forget (GitHubPRReview url_Parse configured webURL q n event body)
  | MergePRRequest n method => forget (GitHubMergePR url_Parse configured webURL q n method)
  | ClosePRRequest n => forget (GitHubClosePR url_Parse configured webURL q n)
  | CloseIssueRequest n => forget (GitHubCloseIssue url_Parse configured webURL q n)
  | AddIssueLabelsRequest n labels => forget (GitHubAddIssueLabels url_Parse configured webURL q n labels)
  | CredentialRequest => forget (GetGitHubCredential url_Parse configured webURL q)
  end.

Ltac served :=
  repeat (match goal with
       | |- under _ _ (fail _) => apply under_ret
       | |- under _ _ (ok _) => apply under_ret
       | |- under _ _ (or_fail (authorizeGitHubAction _ _ _ _) _) =>
           first [apply keeps_authorized_top; intros ? | apply keeps_authorized; [exact _|intros ?]]
       | |- under _ _ (github _ _ _ _) => apply keeps_github; [exact _|tauto]
       | |- under _ _ (recordGitHubRPCArtifact _ _ _ _ _ _) =>
           apply keeps_artifact; [exact _|tauto|set_solver]
       | |- under _ _ (logGitHubRPCAction _ _ _) => apply keeps_action; exact _
       end || under_step).

Lemma serve_fenced q r : under (W := W) (fence_allows url_Parse q) (λ _, True) (serve q r).
Proof.
  destruct r; apply keeps_forget;
    unfold GitHubCreateIssue, GitHubIssueComment, GitHubCreatePR, GitHubPRReview, GitHubMergePR,
      GitHubClosePR, GitHubCloseIssue, GitHubAddIssueLabels, GetGitHubCredential; cbv zeta; served.
Qed.

(** C24. A runner acts on GitHub, and records artifacts, only as its running attempt
    allows: before each call and each record of the nine requests the request
    passed the fence for the very repository, on a state in which the runner
    holds the attempt under the claim it names, with a lease that has not run
    out, the task is running, the repository is the task's own or of its set, and
    the request names it. *)
Theorem github_actions_fenced q r w i e :
  trace_of (serve q r) w !! i = Some e → fence_allows url_Parse q (take i (trace_of (serve q r) w)) e.
Proof. intros Hi. destruct (serve_fenced q r w [] I) as [Hl _]. exact (lawful_at _ _ _ _ _ Hl Hi). Qed.

(** A token is disclosed only after the fence was passed again: if the request for
    a credential answers, its trace has a call for the token and, after it, a
    fence that allows the request some repository it names. *)
Theorem credential_refenced q w c :
  result_of (GetGitHubCredential url_Parse configured webURL q) w = inr c →
  ∃ before i repo after repo',
    trace_of (GetGitHubCredential url_Parse configured webURL q) w =
      before ++ GCall OpCredential i repo :: after ∧
    fenced url_Parse q repo before ∧ fenced url_Parse q repo' after.
Proof.
  unfold GetGitHubCredential. destruct (_ || _); [done|].
  intros (az & H1 & Hr & ->)%or_fail_inr.
  apply or_fail_inr in Hr as (token & H2 & Hr & ->). apply or_fail_inr in Hr as (az' & H3 & _ & ->).
  rewrite github_trace.
  exists (trace_of (authorizeGitHubAction url_Parse configured webURL q) w), (az_client az), (az_repo az).
  eexists _, (az_repo az'). split; [done|]. split.
  - destruct (authorize_triple (W := W) url_Parse configured webURL q (λ _, True) w [] I) as [_ [_ Hf]].
    by apply Hf.
  - apply stable.
    destruct (authorize_triple (W := W) url_Parse configured webURL q (λ _, True)
                (world_of (github az OpCredential "issue repository-restricted GitHub credential"
                   gs_CredentialForRepo)
                   (world_of (authorizeGitHubAction url_Parse configured webURL q) w)) [] I) as [_ [_ Hf]].
    by apply Hf.
Qed.
End serve.

(** ** Witnesses *)

(** A server that answers from its own database, with a clock that stands still
    and installation 42 for every repository. *)
Definition sample_server : ActionServer (DB * time) := {|
  gs_read w := (inr w.1, w);
  gs_exec f w := let '(n, db) := f w.1 in (inr n, (db, w.2));
  gs_clock w := w.2;
  gs_ClientForInstallation i w := (inr i, w);
  gs_ClientForRepo _ w := (inr 42, w);
  gs_CreateIssue _ _ _ _ _ w := (inr (5, "https://github.com/org/app/issues/5"), w);
  gs_CreateIssueComment _ _ _ _ w := (inr "c", w);
  gs_CreatePullRequest _ _ _ _ _ _ _ w := (inr (6, "https://github.com/org/app/pull/6"), w);
  gs_CreatePullRequestReview _ _ _ _ _ w := (inr "r", w);
  gs_GetPullRequestDetails _ _ _ w := (inr (mkPRDetails "open" false "u"), w);
  gs_MergePullRequest _ _ _ _ w := (inr "sha", w);
  gs_ClosePullRequest _ _ _ w := (inr "u", w);
  gs_CloseIssue _ _ _ w := (inr "u", w);
  gs_AddIssueLabels _ _ _ l w := (inr l, w);
  gs_CredentialForRepo _ _ w := (inr ("token", w.2 + 3600), w);
  gs_RecordArtifact _ w := (inr tt, w);
  gs_LogAudit _ _ w := (inr tt, w);
|}.

(** The sample task runs on "r1" under the claim "clm_1", for "org/app". *)
Definition action_db : DB :=
  sample_db{{ tasks := {[ "t1" := sample_task{{ t_status := "running";
                                                t_github_repo := Some "org/app" }} ]};
              execution_attempts :=
                {[ "a1" := (pending_attempt "p1" 1 None 600 0 0){{ a_status := "running";
                     a_runner_id := Some "r1"; a_lease_expires_at := Some 100;
                     a_claim_id := "clm_1" }} ]} }}.

Definition action_identity : Identity := mkIdentity "t1" "a1" "r1" "Org/App" "clm_1".

Definition action_run (r : GitHubRequest) : eff (DB * time) gh_event (rpc_err + unit) :=
  serve (SV := sample_server) (λ _, None) true "https://chetter.example/" action_identity r.

Definition opened_pr : GitHubRequest := CreatePRRequest "Fix" "body" "fix" "main" false.

(** What the run calls and records, and under which text. *)
Example action_trace :
  omap (λ e, match e with
             | GCall (OpCreatePR _ body _ _ _) i repo => Some (body, i, repo)
             | GArtifact p => Some (ra_ArtifactType p, ra_Number p, ra_Repo p)
             | _ => None end) (trace_of (action_run opened_pr) (action_db, 50)) =
  [("body" ^^ LF2 ^^ "---" ^^ LF ^^
    "Task: [t1](https://chetter.example/tasks/t1) | Session: s1 | Prompt: p1 | Attempt: a1", 42, "org/app");
   ("pr", 6, "org/app")].
Proof. vm_compute. reflexivity. Qed.

(** Once the lease has run out, nothing is called. *)
Example action_expired : trace_of (action_run opened_pr) (action_db, 100) = [].
Proof. vm_compute. reflexivity. Qed.

Lemma github_actions_fenced_witness :
  ∃ op, trace_of (action_run opened_pr) (action_db, 50) !! 1%nat = Some (GCall op 42 "org/app") ∧
        fenced (λ _, None) action_identity "org/app" (take 1 (trace_of (action_run opened_pr) (action_db, 50))).
Proof.
  eexists. split; [vm_compute; reflexivity|].
  exact (github_actions_fenced (SV := sample_server) (λ _, None) true "https://chetter.example/"
           action_identity opened_pr (action_db, 50) 1 (GCall _ 42 "org/app") eq_refl).
Defined.

Lemma credential_refenced_witness :
  let m := GetGitHubCredential (SV := sample_server) (λ _, None) true "" action_identity in
  ∃ before i repo after repo',
    trace_of m (action_db, 50) = before ++ GCall OpCredential i repo :: after ∧
    fenced (λ _, None) action_identity repo before ∧ fenced (λ _, None) action_identity repo' after.
Proof.
  exact (credential_refenced (SV := sample_server) (λ _, None) true "" action_identity (action_db, 50)
           ("token", 3650) eq_refl).
Defined.
