(* ===== verification/PrFeedback.v ===== *)
(** * Feedback on the pull requests of paused sessions

    A review or a comment on a pull request should resume the paused session that
    opened it: the webhook asks [ResumeSessionForPR], which looks the session up by
    the artifact of the pull request. This file puts the writers of artifacts -
    the webhook handlers, the requests of runners and the definition proposals -
    beside that lookup. *)
From S2P Require Import Prelude Effects GoStrings Status Repos Db Queries Sample Submission GithubEvents GithubWebhook Artifacts GithubAction.

(** ** The artifacts the webhook records *)

Definition webhook_artifact_types : list string := ["issue"; "issue_comment"].

Section webhook.
Context {W : Type} `{SV : Services W}.
Variable h : Handler.
Variable D : Decoders.
Variable errText : err → string.

Definition artifact_types_ok (e : effect) : Prop :=
  match e with EArtifact p => ra_ArtifactType p ∈ webhook_artifact_types | _ => True end.

Notation typed := (under (W := W) (λ _, artifact_types_ok) (λ _, True)).

Ltac typed_tac := repeat (under_step || (apply under_call; [exact _|intros; exact I])); try done.

Lemma footer_artifact_type text repo n url ty p :
  footer_artifact text repo n url ty = Some p → ra_ArtifactType p = ty.
Proof. unfold footer_artifact. destruct (taskIDFooterRe text); [|done]. by intros [= <-]. Qed.

Lemma typed_discover text repo n url ty :
  ty ∈ webhook_artifact_types → typed (discoverArtifacts h text repo n url ty).
Proof.
  intros Hty. unfold discoverArtifacts. destruct (negb _); [apply under_ret|].
  destruct (footer_artifact _ _ _ _ _) as [p|] eqn:E; [|apply under_ret].
  apply under_bind; [|intros ?; apply under_ret]. apply under_call; [exact _|].
  intros r past _. cbn. by rewrite (footer_artifact_type _ _ _ _ _ _ E).
Qed.

Lemma typed_audit params : typed (logAudit h params).
Proof. unfold logAudit. typed_tac. Qed.

Lemma typed_access gh repo user d : typed (checkAuthorWriteAccess h gh repo user d).
Proof. unfold checkAuthorWriteAccess. typed_tac; apply typed_audit. Qed.

Lemma typed_own user : typed (isOwnBotLogin h user).
Proof. unfold isOwnBotLogin. typed_tac. Qed.

Lemma typed_review ctx gh triggers ev : typed (submitReviewForTrigger ctx gh triggers ev).
Proof.
  assert (∀ l, typed (review_all gh ctx ev l)) as Hall.
  { intros l. unfold review_all, review_label, review_one, SubmitReviewTask, postCommentOnFailure.
    destruct (List.filter _ l); typed_tac. }
  unfold submitReviewForTrigger, postCommentOnFailure. destruct triggers; typed_tac; apply Hall.
Qed.

Lemma typed_issue_one d repo n i prompt tail env t :
  typed (issue_one h errText d repo n i prompt tail env t).
Proof. unfold issue_one, submit_task, issue_audit. typed_tac; apply typed_audit. Qed.

Lemma typed_feedback gh repo n author d et action i :
  typed (resumeSessionForPRFeedback h gh repo n author d et action i).
Proof.
  unfold resumeSessionForPRFeedback, received_audit, resume_session.
  typed_tac; (apply typed_access || apply typed_audit).
Qed.

Ltac typed_all :=
  repeat (under_step || apply typed_audit || apply typed_access || apply typed_own
          || apply typed_review || apply typed_issue_one || apply typed_feedback
          || (apply typed_discover; set_solver)
          || (apply under_call; [exact _|intros; exact I])).

Lemma typed_pull_request body d : typed (handlePullRequest h D body d).
Proof.
  unfold handlePullRequest, received_audit. destruct (decode_pull_request D body); [apply under_ret|].
  destruct (clientForEvent h _ _); typed_all.
Qed.

Lemma typed_pr_comment gh repo d ev : typed (pr_comment h gh repo d ev).
Proof.
  unfold pr_comment, resume_session. typed_all.
Qed.

Lemma typed_issue_comment_branch gh repo d ev : typed (issue_comment h errText gh repo d ev).
Proof.
  unfold issue_comment. typed_all. destruct (List.filter _ _); typed_all.
Qed.

Lemma typed_handle event body d : typed (handle h D errText event body d).
Proof.
  unfold handle. repeat apply under_if.
  - apply typed_pull_request.
  - unfold handleIssueComment, received_audit. destruct (decode_issue_comment D body); [apply under_ret|].
    destruct (clientForEvent h _ _); typed_all; [apply typed_pr_comment|apply typed_issue_comment_branch].
  - unfold handleIssues, received_audit. destruct (decode_issues D body); [apply under_ret|].
    destruct (clientForEvent h _ _); typed_all. destruct (List.filter _ _); typed_all.
  - unfold handlePullRequestReview. destruct (decode_review D body); [apply under_ret|].
    destruct (clientForEvent h _ _); typed_all.
  - unfold handlePullRequestReviewComment. destruct (decode_review_comment D body); [apply under_ret|].
    destruct (clientForEvent h _ _); typed_all.
  - apply under_ret.
Qed.
End webhook.

(** ** Everything that records artifacts *)

(** [recordGitHubToolArtifact], whose one caller records definition proposals. *)
Definition recordGitHubToolArtifact (taskID sessionID promptID executionAttemptID artifactType repo : string)
    (number : Z) (url ref : string) : RecordArtifactParams :=
  mkRecordArtifactParams taskID sessionID promptID executionAttemptID artifactType repo number url ref
    "" "mcp_tool".

Inductive written : RecordArtifactParams → Prop :=
| written_webhook W (SV : Services W) h D errText event body deliveryID w p :
    EArtifact p ∈ trace_of (handle h D errText event body deliveryID) w → written p
| written_runner W (SV : ActionServer W) url_Parse configured webURL q r w p :
    GArtifact p ∈ trace_of (serve url_Parse configured webURL q r) w → written p
| written_proposal taskID sessionID promptID attemptID repo number url branch :
    written (recordGitHubToolArtifact taskID sessionID promptID attemptID "definition_proposal" repo
               number url branch).

(** The records of a run, in order: the new row's identifier, the parameters, the
    time and the database they found. *)
Definition record_all (log : list (string * RecordArtifactParams * time * DB)) : Artifacts :=
  foldl (λ m e, let '(id, p, now, db) := e in (Artifacts.RecordArtifact id p now db m).2) ∅ log.

Lemma written_type p : written p → ra_ArtifactType p ≠ "pull_request".
Proof.
  destruct 1 as [W SV h D errText event body d w p Hin|W SV uP c webURL q r w p Hin|].
  - destruct (typed_handle (W := W) h D errText event body d w [] I) as [Hl _].
    apply (lawful_Forall _ artifact_types_ok) in Hl; [|done].
    rewrite Forall_forall in Hl. specialize (Hl _ Hin). cbn in Hl. intros Heq.
    rewrite Heq in Hl. apply list_elem_of_In in Hl. cbn in Hl. naive_solver.
  - destruct (serve_fenced (W := W) uP c webURL q r w [] I) as [Hl _].
    apply (lawful_Forall _ (λ e, match e with
                               | GArtifact p => ra_ArtifactType p ∈ rpc_artifact_types
                               | _ => True end)) in Hl; [|by intros past [] H; try apply H].
    rewrite Forall_forall in Hl. specialize (Hl _ Hin). cbn in Hl. intros Heq.
    rewrite Heq in Hl. apply list_elem_of_In in Hl. cbn in Hl. naive_solver.
  - done.
Qed.

Lemma record_all_types log k f :
  Forall (λ e, written e.1.1.2) log → record_all log !! k = Some f → f_artifact_type f ≠ "pull_request".
Proof.
  revert k f. unfold record_all. induction log as [|[[[id p] now] db] log IH] using rev_ind.
  { intros k f _. cbn. by rewrite lookup_empty. }
  intros k f [Hlog Hp]%Forall_app. rewrite Forall_singleton in Hp. rewrite foldl_app. cbn.
  set (m := foldl _ _ _) in *. destruct (Artifacts.RecordArtifact id p now db m) as [r m'] eqn:E. cbn.
  intros Hk. destruct (RecordArtifact_types _ _ _ _ _ _ _ _ _ E Hk) as [Hold| ->].
  - by eapply IH.
  - by apply written_type.
Qed.

(** C25. Feedback on a pull request resumes no session: the lookup asks for an artifact
    of the type [pull_request], which nothing records, so over any table of
    artifacts the handlers, the runners' requests and the proposals wrote, for
    every pull request and in every state of the database, the resumption answers
    without an error and changes nothing. *)
Theorem pr_feedback_never_resumes log cfg L dbnow repo prNumber ids now db :
  Forall (λ e, written e.1.1.2) log →
  Artifacts.ResumeSessionForPR cfg L dbnow repo prNumber ids now (record_all log) db = (inr tt, db).
Proof.
  intros Hlog. unfold Artifacts.ResumeSessionForPR.
  destruct (GetPausedSessionByArtifact _ _ _ _ _) as [[sid s]|] eqn:E; [|done].
  apply paused_by_artifact in E as (k & f & Hk & Hty). exfalso. by eapply record_all_types.
Qed.

(** ** Witnesses *)

(** The paused session opens pull request 6. *)
Definition opened_artifact (ty : string) : RecordArtifactParams :=
  mkRecordArtifactParams "t1" "" "" "a1" ty "org/app" 6 "https://github.com/org/app/pull/6" "fix" ""
    "rpc_tool".

Definition feedback_run (ty : string) : (err + unit) * DB :=
  Artifacts.ResumeSessionForPR (sample_config 2) sample_lookups 0 "org/app" 6 (fresh_ids "z") 9
    (record_all [("art1", opened_artifact ty, 1, paused_db)]) paused_db.

(** Under the type the lookup asks for, the session would have run again. *)
Example feedback_would_resume :
  (feedback_run "pull_request").1 = inr tt ∧
  t_status <$> tasks (feedback_run "pull_request").2 !! "t1" = Some "pending".
Proof. split; vm_compute; reflexivity. Qed.

Lemma opened_written : written (opened_artifact "pr").
Proof.
  refine (written_runner _ sample_server (λ _, None) true "" action_identity opened_pr (action_db, 50)
            (opened_artifact "pr") _).
  vm_compute. set_solver.
Qed.

Lemma pr_feedback_never_resumes_witness : feedback_run "pr" = (inr tt, paused_db).
Proof.
  exact (pr_feedback_never_resumes [("art1", opened_artifact "pr", 1, paused_db)] (sample_config 2)
           sample_lookups 0 "org/app" 6 (fresh_ids "z") 9 paused_db
           (Forall_cons_2 _ ("art1", opened_artifact "pr", 1, paused_db) [] opened_written
              (Forall_nil_2 _))).
Defined.
