(* ===== verification/Signatures.v ===== *)
(** * Signatures and footers

    The text a task leaves on GitHub ends with the signature that
    [githubToolSignatureForContext] writes ([internal/service/github_tools.go]);
    the webhook reads the identifiers back with the footer expressions of
    [internal/webhook/handler.go]. *)
From S2P Require Import Prelude GoStrings Db Sample GithubEvents GithubWebhook GithubAction.

Definition footer_labels : list string := ["Task:"; "Session:"; "Prompt:"; "Attempt:"].

(** A text without a footer label in it. *)
Definition plain (s : string) : bool := forallb (λ l, negb (contains s l)) footer_labels.

(** An identifier as [randomID] makes it: a prefix and lower-case hex digits. *)
Definition id_of (kind id : string) : Prop :=
  ∃ hex, id = kind ^^ hex ∧ hex ≠ "" ∧ all_bytes hex_lower hex = true.

(** ** Plain texts *)

(** A byte that no label has. *)
Definition separates (c : ascii) : bool :=
  forallb (λ l, all_bytes (λ d, negb (d == c)) l) footer_labels.

Lemma plain_around u c v : separates c = true → plain (u ^^ String c v) = plain u && plain v.
Proof.
  unfold plain, separates. intros Hc. induction footer_labels as [|l ls IH]; [done|]. cbn [forallb] in *.
  apply andb_true_iff in Hc as [Hl Hls]. rewrite IH by done. rewrite contains_around by done.
  destruct (contains u l), (contains v l); cbn; by rewrite ?andb_false_r.
Qed.

Lemma plain_glue u c v :
  separates c = true → plain u = true → plain v = true → plain (u ^^ String c v) = true.
Proof. intros Hc Hu Hv. by rewrite plain_around, Hu, Hv. Qed.

Lemma contains_head s c w : all_bytes (λ d, negb (d == c)) s = true → contains s (String c w) = false.
Proof.
  induction s as [|d s IH]; [done|]. cbn [all_bytes contains]. intros [Hd Hs]%andb_true_iff.
  rewrite IH by done. apply negb_true_iff, bool_decide_eq_false in Hd. cbn.
  by destruct (ascii_dec c d) as [->|].
Qed.

(** Text without capitals is plain. *)
Lemma plain_lower s : all_bytes (λ c, negb (in_range 65 90 c)) s = true → plain s = true.
Proof.
  intros Hs. unfold plain. cbn [forallb footer_labels]. rewrite !contains_head; [done|..];
    (eapply all_bytes_weaken; [|exact Hs]); intros c Hc; apply negb_true_iff, bool_decide_eq_false;
    intros ->; discriminate.
Qed.

Lemma plain_id kind id :
  id_of kind id → all_bytes (λ c, negb (in_range 65 90 c)) kind = true → plain id = true.
Proof.
  intros (hex & -> & _ & Hhex) Hk. apply plain_lower. rewrite all_bytes_app, Hk.
  eapply all_bytes_weaken; [|exact Hhex]. intros c. unfold hex_lower, in_range.
  intros [Hc|Hc]%orb_true_iff; apply andb_true_iff in Hc as [H1%N.leb_le H2%N.leb_le];
    apply negb_true_iff, andb_false_iff; [left|right]; apply N.leb_gt; lia.
Qed.

(** ** Reading a footer *)

Lemma strip_app p s : strip p (p ^^ s) = Some s.
Proof.
  unfold strip. replace (String.prefix p (p ^^ s)) with true by (symmetry; apply prefix_app; by exists s).
  f_equal. induction p as [|c p IH]; [|exact IH].
  rewrite Nat.sub_0_r. induction s as [|c s IH]; [done|]. change ("" ^^ String c s) with (String c s).
  cbn. f_equal. exact IH.
Qed.

Lemma footer_skip label bracket kind u c v :
  all_bytes (λ d, negb (d == c)) label = true → contains u label = false → label ≠ "" →
  footer label bracket kind (u ^^ String c v) = footer label bracket kind v.
Proof.
  intros Hc Hu Hl.
  assert (∀ s, String.prefix label s = false → footer_at label bracket kind s = None) as Hat.
  { intros s Hs. unfold footer_at, strip. by rewrite Hs. }
  induction u as [|x u IH].
  - change (footer label bracket kind (String c v) = footer label bracket kind v). cbn [footer].
    rewrite Hat; [done|]. destruct label as [|d label]; [done|].
    apply andb_true_iff in Hc as [Hd%negb_true_iff%bool_decide_eq_false _]. cbn.
    by destruct (ascii_dec d c).
  - apply orb_false_iff in Hu as [Hp Hu]. rewrite app_cons. cbn [footer]. rewrite Hat; [by apply IH|].
    rewrite <- app_cons. by rewrite prefix_before.
Qed.

(** The byte after an identifier, if any, is no hex digit. *)
Definition ends_id (s : string) : bool :=
  match s with EmptyString => true | String c _ => negb (hex_lower c) end.

Lemma take_hex hex rest :
  all_bytes hex_lower hex = true → ends_id rest = true → take_while hex_lower (hex ^^ rest) = hex.
Proof.
  induction hex as [|c hex IH].
  - intros _ Hr. destruct rest as [|c rest]; [done|]. apply negb_true_iff in Hr.
    change ((if hex_lower c then String c (take_while hex_lower rest) else "") = ""). by rewrite Hr.
  - intros [Hc Hh]%andb_true_iff Hr. rewrite app_cons. cbn [take_while]. rewrite Hc. by rewrite IH.
Qed.

Lemma footer_at_kind label (bracket : bool) kind i rest s :
  id_of kind i → ends_id rest = true →
  (if bracket then match strip "[" (skip_while re_space s) with
                   | Some s' => s' | None => skip_while re_space s end
   else skip_while re_space s) = i ^^ rest →
  footer_at label bracket kind (label ^^ s) = Some i.
Proof.
  intros (hex & -> & Hne & Hhex) Hr Hs. unfold footer_at. rewrite strip_app. cbv zeta.
  replace (if bracket then default _ _ else _) with ((kind ^^ hex) ^^ rest)
    by (rewrite <- Hs; destruct bracket; [by destruct (strip "[" (skip_while re_space s))|done]).
  rewrite string_app_assoc, strip_app, take_hex by done. by rewrite bool_decide_eq_false_2.
Qed.

Lemma footer_at_word label bracket c kind i rest :
  id_of (String c kind) i → ends_id rest = true → re_space c = false → c ≠ "["%char →
  footer_at label bracket (String c kind) (label ^^ " " ^^ i ^^ rest) = Some i.
Proof.
  intros Hi Hr Hc Hb. eapply footer_at_kind; [exact Hi|exact Hr|]. destruct Hi as (hex & -> & _).
  assert (skip_while re_space (" " ^^ (String c kind ^^ hex) ^^ rest) = (String c kind ^^ hex) ^^ rest) as ->.
  { change (skip_while re_space (String c ((kind ^^ hex) ^^ rest)) = String c ((kind ^^ hex) ^^ rest)).
    cbn [skip_while]. by rewrite Hc. }
  assert (strip "[" ((String c kind ^^ hex) ^^ rest) = None) as ->; [|by destruct bracket].
  unfold strip. change ((String c kind ^^ hex) ^^ rest) with (String c ((kind ^^ hex) ^^ rest)).
  cbn [String.prefix]. destruct (ascii_dec "[" c) as [He|]; [by destruct Hb|done].
Qed.

Lemma footer_at_link label kind i rest :
  id_of kind i → ends_id rest = true →
  footer_at label true kind (label ^^ " [" ^^ i ^^ rest) = Some i.
Proof.
  intros Hi Hr. eapply footer_at_kind; [exact Hi|exact Hr|].
  change (skip_while re_space (" [" ^^ i ^^ rest)) with ("[" ^^ i ^^ rest). by rewrite strip_app.
Qed.

Lemma footer_here label bracket kind s id :
  footer_at label bracket kind s = Some id → footer label bracket kind s = Some id.
Proof. intros H. destruct s; cbn [footer]; by rewrite H. Qed.

(** ** The round trip *)

Section signature.
Variables webURL taskID sessionID promptID attemptID : string.
Variable session : option AgentSession.
Hypothesis task_id : id_of "task_" taskID.
Hypothesis session_id : id_of "sess_" sessionID.
Hypothesis prompt_id : id_of "prompt_" promptID.
Hypothesis attempt_id : id_of "exec_" attemptID.
Hypothesis plain_url : plain (trimRightSlash webURL) = true.

Definition task_link : string :=
  if negb (webURL == "")
  then "[" ^^ taskID ^^ "](" ^^ trimRightSlash webURL ^^ "/tasks/" ^^ taskID ^^ ")" else taskID.

(** What follows the attempt: nothing, or a separator. *)
Definition tail_of (l : list string) : string :=
  match l with [] => "" | _ => " | " ^^ join " | " l end.

Lemma join_cons x l : join " | " (x :: l) = x ^^ tail_of l.
Proof. destruct l; [symmetry; apply string_app_nil_r|done]. Qed.

Lemma tail_ends l : ends_id (tail_of l) = true.
Proof. by destruct l. Qed.

Lemma id_nonempty kind i : kind ≠ "" → id_of kind i → (i == "") = false.
Proof. intros Hk (hex & -> & _). apply bool_decide_eq_false. by destruct kind. Qed.

Lemma signature_shape : ∃ l,
  githubToolSignatureForContext webURL session taskID sessionID promptID attemptID =
  "---" ^^ LF ^^ "Task: " ^^ task_link ^^ " | Session: " ^^ sessionID ^^ " | Prompt: " ^^ promptID ^^
  " | Attempt: " ^^ attemptID ^^ tail_of l.
Proof.
  unfold githubToolSignatureForContext. fold task_link.
  rewrite (id_nonempty "sess_" sessionID), (id_nonempty "prompt_" promptID) by done. cbn [negb].
  cbv zeta. set (l := match session with None => _ | Some _ => _ end). exists l.
  cbn [app]. rewrite join_cons. unfold tail_of at 1. rewrite join_cons. unfold tail_of at 1.
  rewrite join_cons. unfold tail_of at 1. rewrite join_cons, !string_app_assoc. done.
Qed.

Lemma plain_task_link : plain task_link = true.
Proof.
  pose proof (plain_id _ _ task_id eq_refl) as Hid.
  unfold task_link. destruct (webURL == ""); cbn [negb]; [done|].
  change (plain (String "[" (taskID ^^ String "]" (String "(" (trimRightSlash webURL ^^
            String "/" ("tasks" ^^ String "/" (taskID ^^ String ")" "")))))) = true).
  apply (plain_glue "" "["%char); [done|done|]. apply plain_glue; [done|done|].
  apply (plain_glue "" "("%char); [done|done|]. do 3 (apply plain_glue; [done|done|]). done.
Qed.

(** The part before the signature: nothing, or the body and an empty line. *)
Variable pre : string.
Hypothesis pre_ok : plain (pre ^^ "---") = true.

Notation text rest :=
  (pre ^^ "---" ^^ LF ^^ "Task: " ^^ task_link ^^ " | Session: " ^^ sessionID ^^ " | Prompt: " ^^ promptID ^^
   " | Attempt: " ^^ attemptID ^^ rest).

Lemma plain_contains s l : plain s = true → l ∈ footer_labels → contains s l = false.
Proof.
  intros Hs Hl. unfold plain in Hs. rewrite forallb_forall in Hs.
  apply negb_true_iff, Hs. by apply list_elem_of_In.
Qed.

Lemma contains_glue l u c v :
  all_bytes (λ d, negb (d == c)) l = true → contains u l = false → contains v l = false →
  contains (u ^^ String c v) l = false.
Proof. intros Hl Hu Hv. by rewrite contains_around, Hu, Hv. Qed.

Notation before_session := ((pre ^^ "---") ^^ String (ascii_of_nat 10) ("Task: " ^^ task_link ^^ " |")).
Notation before_prompt := (before_session ^^ String " " ("Session: " ^^ sessionID ^^ " |")).
Notation before_attempt := (before_prompt ^^ String " " ("Prompt: " ^^ promptID ^^ " |")).

(** A plain word between spaces. *)
Lemma no_word w l : plain w = true → l ∈ footer_labels → contains (w ^^ " |") l = false.
Proof.
  intros Hw Hl. change (contains (w ^^ String " " "|") l = false).
  assert (l ∈ footer_labels) as Hl' by done. apply list_elem_of_In in Hl'.
  apply contains_glue; [|by apply plain_contains|]; by destruct Hl' as [<-|[<-|[<-|[<-|[]]]]].
Qed.

Lemma no_start l :
  l ∈ ["Session:"; "Prompt:"; "Attempt:"] → contains before_session l = false.
Proof.
  intros Hl. assert (l ∈ footer_labels) as Hin by (unfold footer_labels; set_solver).
  pose proof (no_word task_link l plain_task_link Hin) as Hw. apply list_elem_of_In in Hl.
  destruct Hl as [<-|[<-|[<-|[]]]]; (apply contains_glue; [done|by apply plain_contains|exact Hw]).
Qed.

Lemma no_prompt l : l ∈ ["Prompt:"; "Attempt:"] → contains before_prompt l = false.
Proof.
  intros Hl. assert (l ∈ footer_labels) as Hin by (unfold footer_labels; set_solver).
  pose proof (no_word sessionID l (plain_id _ _ session_id eq_refl) Hin) as Hw.
  pose proof (no_start l ltac:(set_solver)) as Hs. apply list_elem_of_In in Hl.
  destruct Hl as [<-|[<-|[]]]; (apply contains_glue; [done|exact Hs|exact Hw]).
Qed.

Lemma no_attempt : contains before_attempt "Attempt:" = false.
Proof.
  pose proof (no_word promptID "Attempt:" (plain_id _ _ prompt_id eq_refl) ltac:(set_solver)) as Hw.
  apply contains_glue; [done|apply no_prompt; set_solver|exact Hw].
Qed.

Lemma read_task rest : taskIDFooterRe (text rest) = Some taskID.
Proof.
  unfold taskIDFooterRe.
  replace (text rest) with ((pre ^^ "---") ^^ String (ascii_of_nat 10) ("Task:" ^^ " " ^^ task_link ^^
    " | Session: " ^^ sessionID ^^ " | Prompt: " ^^ promptID ^^ " | Attempt: " ^^ attemptID ^^ rest))
    by (rewrite string_app_assoc; reflexivity).
  rewrite footer_skip; [|done|by apply plain_contains; [|set_solver]|done].
  apply footer_here.
  unfold task_link. destruct (webURL == ""); cbn [negb].
  - by apply footer_at_word.
  - rewrite !string_app_assoc. by apply (footer_at_link "Task:" "task_" taskID).
Qed.

Lemma read_session rest : agentSessionIDFooterRe (text rest) = Some sessionID.
Proof.
  unfold agentSessionIDFooterRe.
  replace (text rest) with (before_session ^^ String " " ("Session:" ^^ " " ^^ sessionID ^^
    " | Prompt: " ^^ promptID ^^ " | Attempt: " ^^ attemptID ^^ rest))
    by (repeat rewrite ?string_app_assoc, ?app_cons; reflexivity).
  rewrite footer_skip; [|done|apply no_start; set_solver|done].
  apply footer_here. by apply footer_at_word.
Qed.

Lemma read_prompt rest : userPromptIDFooterRe (text rest) = Some promptID.
Proof.
  unfold userPromptIDFooterRe.
  replace (text rest) with (before_prompt ^^ String " " ("Prompt:" ^^ " " ^^ promptID ^^
    " | Attempt: " ^^ attemptID ^^ rest))
    by (repeat rewrite ?string_app_assoc, ?app_cons; reflexivity).
  rewrite footer_skip; [|done|apply no_prompt; set_solver|done].
  apply footer_here. by apply footer_at_word.
Qed.

Lemma read_attempt rest : ends_id rest = true → executionAttemptIDFooterRe (text rest) = Some attemptID.
Proof.
  intros Hr. unfold executionAttemptIDFooterRe.
  replace (text rest) with (before_attempt ^^ String " " ("Attempt:" ^^ " " ^^ attemptID ^^ rest))
    by (repeat rewrite ?string_app_assoc, ?app_cons; reflexivity).
  rewrite footer_skip; [|done|exact no_attempt|done]. apply footer_here. by apply footer_at_word.
Qed.

Lemma read_footers rest repo n url ty :
  ends_id rest = true →
  footer_artifact (text rest) repo n url ty =
  Some (mkRecordArtifactParams taskID sessionID promptID attemptID ty repo n url "" "" "webhook").
Proof.
  intros Hr. unfold footer_artifact.
  by rewrite read_task, read_session, read_prompt, read_attempt by done.
Qed.
End signature.

(** C26. The webhook reads from a signed text the identifiers the signature was made
    with: for a body that, stripped of an older signature, has no footer label in
    it, and a web address without one, the artifact of the text is that of the
    task, the session, the prompt and the attempt of the signature. *)
Theorem signature_roundtrip webURL session taskID sessionID promptID attemptID body repo n url ty :
  id_of "task_" taskID → id_of "sess_" sessionID → id_of "prompt_" promptID → id_of "exec_" attemptID →
  plain (trimRightSlash webURL) = true →
  plain (trimSpace (stripExistingChetterSignature body)) = true →
  footer_artifact (appendChetterSignature body
    (githubToolSignatureForContext webURL session taskID sessionID promptID attemptID)) repo n url ty =
  Some (mkRecordArtifactParams taskID sessionID promptID attemptID ty repo n url "" "" "webhook").
Proof.
  intros Ht Hs Hp Ha Hurl Hbody.
  destruct (signature_shape webURL taskID sessionID promptID attemptID session Hs Hp) as [l ->].
  unfold appendChetterSignature. set (clean := trimSpace _) in *. cbv zeta.
  case_bool_decide.
  - apply (read_footers webURL taskID sessionID promptID attemptID Ht Hs Hp Ha Hurl "" eq_refl).
    apply tail_ends.
  - rewrite <- (string_app_assoc clean). apply read_footers; [done..| |apply tail_ends].
    rewrite string_app_assoc. apply plain_glue; done.
Qed.

(** A body that names a task keeps the name, and the webhook reads the first one:
    stripping cuts the last signature only, and only at a line [---]. *)
Example forged_footer :
  ra_TaskID <$> footer_artifact (appendChetterSignature ("Task: task_ff" ^^ LF ^^ "---" ^^ LF ^^ "Task: task_aa")
     (githubToolSignatureForContext "" None "task_ab" "sess_1" "prompt_2" "exec_3")) "org/app" 7 "u" "issue" =
  Some "task_ff".
Proof. vm_compute. reflexivity. Qed.

Lemma signature_roundtrip_witness :
  footer_artifact (appendChetterSignature "Done."
    (githubToolSignatureForContext "https://chetter.example/" (Some (sample_session "t1"))
       "task_a1" "sess_b2" "prompt_c3" "exec_d4")) "org/app" 7 "u" "issue" =
  Some (mkRecordArtifactParams "task_a1" "sess_b2" "prompt_c3" "exec_d4" "issue" "org/app" 7 "u" "" ""
          "webhook").
Proof.
  apply (signature_roundtrip "https://chetter.example/" (Some (sample_session "t1"))).
  - exists "a1". by split_and!.
  - exists "b2". by split_and!.
  - exists "c3". by split_and!.
  - exists "d4". by split_and!.
  - vm_compute. reflexivity.
  - vm_compute. reflexivity.
Defined.
