(* ===== verification/Triggers.v ===== *)
(** * Triggers

    The triggers of [internal/service/service.go] (create, update, delete, run,
    the cron registry and the lookups of the webhook), the interval lock of
    [coordination.go], and promotion
    ([trigger_promotion.go]). The tables [triggers] and
    [trigger_locks] are maps of their own. A schedule of the cron library is the
    parameter [cronParse]: the next activation after a time. *)
From S2P Require Import Prelude GoStrings Status Repos Redact Db Queries Auth Validation Sample Submission GithubEvents.

(** ** Rows *)

(** The fields of a trigger's JSON configuration. *)
Record TriggerCfg := mkTriggerCfg {
  tc_Repo : string;
  tc_Event : string;
  tc_MatchLabels : list string;
  tc_SessionMode : string;
  tc_PauseReason : string;
  tc_TTLHours : Z;
  tc_Isolation : string;
}.

Definition zero_cfg : TriggerCfg := mkTriggerCfg "" "" [] "" "" 0 "".

(** A configuration text: empty, not JSON, or an object. *)
Inductive ConfigText :=
| CfgEmpty
| CfgBroken
| CfgObject (c : TriggerCfg).

Definition triggerRuntimeConfigFromJSON (t : ConfigText) : TriggerCfg :=
  match t with CfgObject c => c | _ => zero_cfg end.

(** [json.Unmarshal] and a non-empty repo. *)
Definition cfg_has_repo (t : ConfigText) : bool :=
  match t with CfgObject c => negb (tc_Repo c == "") | _ => false end.

Record Trigger := mkTrigger {
  tr_name : string;
  tr_trigger_type : string;
  tr_trigger_config : ConfigText;
  tr_cron_expr : string;
  tr_prompt : string;
  tr_git_url : option string;
  tr_git_ref : option string;
  tr_agent_image : option string;
  tr_agent : option string;
  tr_provider_id : option string;
  tr_model_id : option string;
  tr_variant_id : option string;
  tr_harness : option string;
  tr_skills : list string;
  tr_timeout_sec : Z;
  tr_enabled : bool;
  tr_created_at : time;
  tr_updated_at : time;
  tr_last_run_at : option time;
  tr_next_run_at : option time;
  tr_team_id : option string;
  tr_source_id : option string;
}.

Notation Triggers := (gmap string Trigger).
(** [last_triggered_at] by trigger. *)
Notation TriggerLocks := (gmap string (option time)).

(** ** Statements *)

Definition same_name (a b : Trigger) : bool := tr_name a == tr_name b.

(** JSON columns refuse a text that is not JSON. *)
Definition CreateTrigger_row (id : string) (t : Trigger) (m : Triggers) : err + Triggers :=
  match tr_trigger_config t with
  | CfgBroken => inl (EMsg "Invalid JSON text")
  | _ => insert_unique "triggers" same_name id t m
  end.

Definition GetTriggerByID (id : string) (m : Triggers) : option Trigger := m !! id.

Definition GetTriggerByName (name : string) (m : Triggers) : option (string * Trigger) :=
  List.find (λ kv, tr_name kv.2 == name) (map_to_list m).

(** UPDATE by name; a new name that another row has is refused. *)
Definition UpdateTrigger_rows (old new : string) (f : Trigger → Trigger) (m : Triggers)
    : err + Triggers :=
  if negb (new == old) && bool_decide (is_Some (GetTriggerByName new m)) &&
     bool_decide (is_Some (GetTriggerByName old m))
  then inl (EDuplicateKey "triggers")
  else inr (update_where (λ _ t, tr_name t == old) (λ _ t, f t) m).2.

Definition DeleteTrigger_rows (name : string) (m : Triggers) : Triggers :=
  filter (λ kv, tr_name kv.2 ≠ name) m.

Definition SetTriggerNextRun (next : option time) (now : time) (id : string) (m : Triggers) : Triggers :=
  (update_pk id (λ _, true) (λ t, t{{ tr_next_run_at := next; tr_updated_at := now }}) m).2.

Definition SetTriggerLastRun (last now : time) (id : string) (m : Triggers) : Triggers :=
  (update_pk id (λ _, true) (λ t, t{{ tr_last_run_at := Some last; tr_updated_at := now }}) m).2.

(** [ORDER BY created_at DESC] *)
Definition newest_first (l : list (string * Trigger)) : list (string * Trigger) :=
  sort_by (λ kv, - tr_created_at kv.2) l.

Definition ListEnabledTriggersByType (ty : string) (m : Triggers) : list (string * Trigger) :=
  newest_first (List.filter (λ kv, tr_enabled kv.2 && (tr_trigger_type kv.2 == ty)) (map_to_list m)).

Definition enabled_by_repo (ty repo : string) (m : Triggers) : list (string * Trigger) :=
  newest_first (List.filter (λ kv, tr_enabled kv.2 && (tr_trigger_type kv.2 == ty) &&
    match tr_trigger_config kv.2 with CfgObject c => tc_Repo c == repo | _ => false end)
    (map_to_list m)).

(** ** Access *)

Definition authorizeTriggerAccess (scope : option Scope) (t : Trigger) : err + unit :=
  if team_visible scope (tr_team_id t) then inr tt else inl (EMsg "trigger not found").

Definition triggerForToolAccess (scope : option Scope) (name : string) (m : Triggers)
    : err + string * Trigger :=
  match GetTriggerByName name m with
  | None => inl ENoRows
  | Some kv => authorizeTriggerAccess scope kv.2 ≫= λ _, inr kv
  end.

(** ** Input *)

Record TriggerInput := mkTriggerInput {
  ti_TeamID : string;
  ti_TeamName : string;
  ti_ID : string;
  ti_Name : string;
  ti_TriggerType : string;
  ti_TriggerConfig : ConfigText;
  ti_CronExpr : string;
  ti_Prompt : string;
  ti_GitURL : string;
  ti_GitRef : string;
  ti_AgentImage : string;
  ti_Agent : string;
  ti_ProviderID : string;
  ti_ModelID : string;
  ti_VariantID : string;
  ti_Harness : string;
  ti_Skills : list string;
  ti_TimeoutSec : Z;
}.

Definition TriggerTypeCron : string := "cron".
Definition TriggerTypePRReview : string := "pr_review".
Definition TriggerTypeIssue : string := "issue".

(** The stored configuration: an absent one is the empty object. *)
Definition stored_config (t : ConfigText) : ConfigText :=
  match t with CfgEmpty => CfgObject zero_cfg | _ => t end.

Definition validateTriggerFields (limits : TaskLimits) (i : TriggerInput) : err + unit :=
  let runtime := triggerRuntimeConfigFromJSON (ti_TriggerConfig i) in
  let repo := if IsGitHubTriggerType (ti_TriggerType i) then trimSpace (tc_Repo runtime) else "" in
  verdict_err (ValidateTriggerInput (ti_TriggerType i) repo
    (mkTaskInput (ti_Harness i) (tc_SessionMode runtime) (tc_PauseReason runtime)
       (tc_TTLHours runtime) (ti_TimeoutSec i)) limits).

(** ** The state *)

(** The tables all replicas share. *)
Record Shared := mkShared {
  h_triggers : Triggers;
  h_locks : TriggerLocks;
  h_db : DB;
}.

(** The cron registry of a replica: the schedule of each trigger it runs. *)
Notation Registry := (gmap string string).

Section handlers.
Variable cfg : ServiceConfig.
Variable L : Lookups.
(** The next activation of a schedule strictly after a time. *)
Variable cronParse : string → option (time → time).

Definition on_triggers (f : Triggers → Triggers) (sh : Shared) : Shared :=
  sh{{ h_triggers := f (h_triggers sh) }}.

(** [next] is the registry's next activation of the entry, once its loop has
    computed it; [fault] is the failure of the statement that stores it. *)
Definition activateTrigger (id expr : string) (next : option time) (fault : option err) (now : time)
    (reg : Registry) (sh : Shared) : (err + unit) * Registry * Shared :=
  match cronParse expr with
  | None => (inl (EFmt "activate trigger %s: %w" [id]), delete id reg, sh)
  | Some _ =>
    let reg := <[id := expr]> reg in
    match next with
    | None => (inr tt, reg, sh)
    | Some at_ =>
      match fault with
      | Some e => (inl e, reg, sh)
      | None => (inr tt, reg, on_triggers (SetTriggerNextRun (Some at_) now id) sh)
      end
    end
  end.

(** *** Create *)

Definition check_trigger_type (i : TriggerInput) : err + unit :=
  if ti_TriggerType i == TriggerTypeCron then
    _ ← err_guard (ti_CronExpr i == "") (EMsg "cron_expr is required for cron triggers");
    err_guard (bool_decide (cronParse (ti_CronExpr i) = None)) (EMsg "parse cron: %w")
  else if ti_TriggerType i == TriggerTypePRReview then
    err_guard (negb (cfg_has_repo (ti_TriggerConfig i)))
      (EMsg "repo is required in trigger_config for pr_review triggers")
  else if ti_TriggerType i == TriggerTypeIssue then
    err_guard (negb (cfg_has_repo (ti_TriggerConfig i)))
      (EMsg "repo is required in trigger_config for issue triggers")
  else inl (EFmt "unknown trigger_type %q" [ti_TriggerType i]).

(** The input with its defaults, once it is accepted; [id] is a random one. *)
Definition prepare_trigger (i : TriggerInput) (id : string) : err + TriggerInput :=
  _ ← err_guard (ti_Name i == "") (EMsg "name is required");
  let i := if ti_TriggerType i == "" then i{{ ti_TriggerType := TriggerTypeCron }} else i in
  _ ← err_guard ((ti_Prompt i == "") && negb (ti_TriggerType i == TriggerTypePRReview) &&
                 negb (ti_TriggerType i == TriggerTypeIssue)) (EMsg "prompt is required");
  let i := if ti_ID i == "" then i{{ ti_ID := id }} else i in
  _ ← err_guard ((ti_AgentImage i == "") && (DefaultAgentImage cfg == ""))
        (EMsg "agent_image is required (no default configured)");
  let image := if ti_AgentImage i == "" then DefaultAgentImage cfg else ti_AgentImage i in
  let i := i{{ ti_AgentImage := resolveAgentImageRef image (AgentImagePrefix cfg) }} in
  let i := if ti_TimeoutSec i =? 0 then i{{ ti_TimeoutSec := DefaultTaskTimeoutSec cfg }} else i in
  _ ← check_trigger_type i;
  _ ← validateTriggerFields (cfg_TaskLimits cfg) i;
  inr i.

Definition new_trigger (i : TriggerInput) (team : string) (now : time) : Trigger :=
  mkTrigger (ti_Name i) (ti_TriggerType i) (stored_config (ti_TriggerConfig i)) (ti_CronExpr i)
    (ti_Prompt i) (nullString (ti_GitURL i)) (nullString (ti_GitRef i))
    (nullString (ti_AgentImage i)) (nullString (ti_Agent i)) (nullString (ti_ProviderID i))
    (nullString (ti_ModelID i)) (nullString (ti_VariantID i)) (nullString (ti_Harness i))
    (ti_Skills i) (int32_of (ti_TimeoutSec i)) true now now None None (nullString team) None.

Definition CreateTrigger (scope : option Scope) (i : TriggerInput) (id : string)
    (next : option time) (fault : option err) (now : time) (reg : Registry) (sh : Shared)
    : (err + string * Trigger) * Registry * Shared :=
  match (i ← prepare_trigger i id;
         team ← resolveOwnerTeamID (Submission.GetTeamByName L) scope (ti_TeamID i) (ti_TeamName i);
         rows ← CreateTrigger_row (ti_ID i) (new_trigger i team now) (h_triggers sh);
         inr (i, rows)) with
  | inl e => (inl e, reg, sh)
  | inr (i, rows) =>
    let sh := sh{{ h_triggers := rows }} in
    if ti_TriggerType i == TriggerTypeCron then
      match activateTrigger (ti_ID i) (ti_CronExpr i) next fault now reg sh with
      | (inl e, reg, sh) => (inl e, reg, sh)
      | (inr _, reg, sh) =>
        match GetTriggerByID (ti_ID i) (h_triggers sh) with
        | None => (inl ENoRows, reg, sh)
        | Some t => (inr (ti_ID i, t), reg, sh)
        end
      end
    else match GetTriggerByID (ti_ID i) (h_triggers sh) with
         | None => (inl ENoRows, reg, sh)
         | Some t => (inr (ti_ID i, t), reg, sh)
         end
  end.

(** *** Update *)

Definition check_update (i : TriggerInput) : err + TriggerInput :=
  _ ← err_guard (ti_Name i == "") (EMsg "name is required");
  _ ← err_guard ((ti_Prompt i == "") && negb (ti_TriggerType i == TriggerTypePRReview))
        (EMsg "prompt is required");
  let i := if ti_TriggerType i == "" then i{{ ti_TriggerType := TriggerTypeCron }} else i in
  _ ← (if ti_TriggerType i == TriggerTypeCron then
         _ ← err_guard (ti_CronExpr i == "") (EMsg "cron_expr is required for cron triggers");
         err_guard (bool_decide (cronParse (ti_CronExpr i) = None)) (EMsg "parse cron: %w")
       else err_guard ((ti_TriggerType i == TriggerTypePRReview) && negb (cfg_has_repo (ti_TriggerConfig i)))
              (EMsg "repo is required in trigger_config for pr_review triggers"));
  _ ← err_guard (ti_AgentImage i == "") (EMsg "agent_image is required");
  let i := i{{ ti_AgentImage := resolveAgentImageRef (ti_AgentImage i) (AgentImagePrefix cfg) }} in
  let i := if ti_TimeoutSec i =? 0 then i{{ ti_TimeoutSec := DefaultTaskTimeoutSec cfg }} else i in
  _ ← validateTriggerFields (cfg_TaskLimits cfg) i;
  inr i.

Definition updated_trigger (i : TriggerInput) (enabled : bool) (now : time) (t : Trigger) : Trigger :=
  t{{ tr_name := ti_Name i; tr_trigger_type := ti_TriggerType i;
      tr_trigger_config := stored_config (ti_TriggerConfig i); tr_cron_expr := ti_CronExpr i;
      tr_prompt := ti_Prompt i; tr_git_url := nullString (ti_GitURL i);
      tr_git_ref := nullString (ti_GitRef i); tr_agent_image := nullString (ti_AgentImage i);
      tr_agent := nullString (ti_Agent i); tr_provider_id := nullString (ti_ProviderID i);
      tr_model_id := nullString (ti_ModelID i); tr_variant_id := nullString (ti_VariantID i);
      tr_harness := nullString (ti_Harness i); tr_skills := ti_Skills i;
      tr_timeout_sec := int32_of (ti_TimeoutSec i); tr_enabled := enabled; tr_updated_at := now }}.

(** [broken] is a failure of the UPDATE itself. *)
Definition UpdateTrigger_stmt (broken : option err) (name : string) (i : TriggerInput)
    (enabled : bool) (now : time) (m : Triggers) : err + Triggers :=
  match broken, ti_TriggerConfig i with
  | Some e, _ => inl e
  | None, CfgBroken => inl (EMsg "Invalid JSON text")
  | None, _ => UpdateTrigger_rows name (ti_Name i) (updated_trigger i enabled now) m
  end.

Definition UpdateTrigger (scope : option Scope) (name : string) (i : TriggerInput) (enabled : bool)
    (broken : option err) (next : option time) (fault : option err) (now : time)
    (reg : Registry) (sh : Shared) : (err + string * Trigger) * Registry * Shared :=
  match (i ← check_update i; existing ← triggerForToolAccess scope name (h_triggers sh);
         inr (i, existing)) with
  | inl e => (inl e, reg, sh)
  | inr (i, existing) =>
    let reg := delete existing.1 reg in
    match UpdateTrigger_stmt broken name i enabled now (h_triggers sh) with
    | inl e => (inl e, reg, sh)
    | inr rows =>
      let sh := sh{{ h_triggers := rows }} in
      match triggerForToolAccess scope (ti_Name i) rows with
      | inl e => (inl e, reg, sh)
      | inr kv =>
        if negb enabled || negb (ti_TriggerType i == TriggerTypeCron) then (inr kv, reg, sh)
        else match activateTrigger kv.1 (tr_cron_expr kv.2) next fault now reg sh with
             | (inl e, reg, sh) => (inl e, reg, sh)
             | (inr _, reg, sh) => (inr kv, reg, sh)
             end
      end
    end
  end.

(** *** Delete *)

Definition DeleteTrigger (scope : option Scope) (name : string) (reg : Registry) (sh : Shared)
    : (err + unit) * Registry * Shared :=
  match triggerForToolAccess scope name (h_triggers sh) with
  | inl e => (inl e, reg, sh)
  | inr kv => (inr tt, delete kv.1 reg, on_triggers (DeleteTrigger_rows name) sh)
  end.

(** *** Start *)

(** One loop round per enabled cron trigger; the first error ends the start. *)
Fixpoint load_all (l : list (string * Trigger)) (next : string → option time)
    (fault : string → option err) (now : time) (reg : Registry) (sh : Shared)
    : (err + unit) * Registry * Shared :=
  match l with
  | [] => (inr tt, reg, sh)
  | (id, t) :: l' =>
    match activateTrigger id (tr_cron_expr t) (next id) (fault id) now reg sh with
    | (inl e, reg, sh) => (inl e, reg, sh)
    | (inr _, reg, sh) => load_all l' next fault now reg sh
    end
  end.

Definition loadTriggers (next : string → option time) (fault : string → option err) (now : time)
    (reg : Registry) (sh : Shared) : (err + unit) * Registry * Shared :=
  load_all (ListEnabledTriggersByType TriggerTypeCron (h_triggers sh)) next fault now reg sh.
End handlers.

(** ** Running *)

(** [ensureSQL] commits on its own; [busy] is another replica's lock, or the
    lock wait running out. The answer holds the marked table the transaction
    commits if the run succeeds. *)
Definition ensure_lock (id : string) (locks : TriggerLocks) : TriggerLocks :=
  match locks !! id with Some _ => locks | None => <[id := None]> locks end.

Definition acquireTriggerLock (cronParse : string → option (time → time)) (busy : bool)
    (id expr : string) (triggeredAt : time) (locks : TriggerLocks)
    : (err + option TriggerLocks) * TriggerLocks :=
  let locks := ensure_lock id locks in
  if busy then (inr None, locks)
  else match cronParse expr with
  | None => (inl (EMsg "parse trigger schedule: %w"), locks)
  | Some Next =>
    match locks !! id with
    | Some (Some last) => if triggeredAt <? Next last then (inr None, locks)
                          else (inr (Some (<[id := Some triggeredAt]> locks)), locks)
    | _ => (inr (Some (<[id := Some triggeredAt]> locks)), locks)
    end
  end.

Definition trigger_request (t : Trigger) : SubmitTaskRequest :=
  let runtime := triggerRuntimeConfigFromJSON (tr_trigger_config t) in
  mkSubmitTaskRequest (str_of (tr_team_id t)) "" (tr_prompt t) (str_of (tr_git_url t))
    (str_of (tr_git_ref t)) [] "" 0 (str_of (tr_agent_image t)) (str_of (tr_agent t))
    (str_of (tr_provider_id t)) (str_of (tr_model_id t)) (str_of (tr_variant_id t))
    (str_of (tr_harness t)) (tr_skills t) [] ∅ (tr_timeout_sec t) (tr_name t) (tr_trigger_type t)
    "trigger" "" 0 "" "" "" "" "" (tc_SessionMode runtime) (tc_PauseReason runtime)
    (tc_TTLHours runtime) (tc_Isolation runtime).

(** What can go wrong around a run: the lock is busy, the statement that stores
    the next run fails, the replica dies after the submission, or the marker's
    commit fails. *)
Record RunFaults := mkRunFaults {
  rf_busy : bool;
  rf_next_run : option err;
  rf_crash : bool;
  rf_commit : option err;
}.

Definition no_run_faults : RunFaults := mkRunFaults false None false None.

Section run.
Variable cfg : ServiceConfig.
Variable L : Lookups.
Variable cronParse : string → option (time → time).

(** [SubmitTask] for a trigger, with the rows of the trigger it writes. *)
Definition submit_for (scope : option Scope) (ids : SubmitIDs) (now : time) (q : SubmitTaskRequest)
    (sets : redactSets) (sh : Shared) : (err + Task) * redactSets * Shared :=
  let found := GetTriggerByName (q_TriggerName q) (h_triggers sh) in
  let '(r, sets, db) := SubmitTask cfg L scope (bool_decide (is_Some found)) ids now q sets (h_db sh) in
  let triggers := match r, found with
                  | inr _, Some kv => SetTriggerLastRun now now kv.1 (h_triggers sh)
                  | _, _ => h_triggers sh
                  end in
  (r, sets, mkShared triggers (h_locks sh) db).

(** The next run is stored once the task is submitted; [next] is the registry's
    next activation, for a trigger it has. *)
Definition store_next (submitted : err + Task) (id : string) (next : option time) (fault : option err)
    (now : time) (reg : Registry) (sets : redactSets) (sh : Shared)
    : (err + Task) * redactSets * Shared :=
  match submitted with
  | inl e => (inl (EFmt "submit triggered task: %w" []), sets, sh)
  | inr task =>
    match reg !! id, next with
    | Some _, Some at_ =>
      match fault with
      | Some e => (inl e, sets, sh)
      | None => (inr task, sets, on_triggers (SetTriggerNextRun (Some at_) now id) sh)
      end
    | _, _ => (inr task, sets, sh)
    end
  end.

Definition submitTriggerTask (scope : option Scope) (id : string) (t : Trigger) (ids : SubmitIDs)
    (next : option time) (fault : option err) (now : time) (reg : Registry) (sets : redactSets)
    (sh : Shared) : (err + Task) * redactSets * Shared :=
  let '(submitted, sets, sh) := submit_for scope ids now (trigger_request t) sets sh in
  store_next submitted id next fault now reg sets sh.

Definition task_of_run (submitted : err + Task) : option Task :=
  match submitted with inl _ => None | inr t => Some t end.

(** One tick of a replica's cron, with the task it submitted. *)
Definition run_tick (f : RunFaults) (id : string) (triggeredAt : time) (ids : SubmitIDs)
    (next : option time) (now : time) (reg : Registry) (sets : redactSets) (sh : Shared)
    : (err + unit) * option Task * redactSets * Shared :=
  match GetTriggerByID id (h_triggers sh) with
  | None => (inr tt, None, sets, sh)
  | Some t =>
    if negb (tr_enabled t) then (inr tt, None, sets, sh)
    else match acquireTriggerLock cronParse (rf_busy f) id (tr_cron_expr t) triggeredAt (h_locks sh) with
    | (inl e, locks) => (inl e, None, sets, sh{{ h_locks := locks }})
    | (inr None, locks) => (inr tt, None, sets, sh{{ h_locks := locks }})
    | (inr (Some marked), locks) =>
      let '(submitted, sets1, sh1) := submit_for None ids now (trigger_request t) sets
                                        (sh{{ h_locks := locks }}) in
      match store_next submitted id next (rf_next_run f) now reg sets1 sh1 with
      | (inl e, sets, sh) => (inl e, task_of_run submitted, sets, sh)
      | (inr _, sets, sh) =>
        if rf_crash f then (inl (EMsg "the replica stopped"), task_of_run submitted, sets, sh)
        else match rf_commit f with
             | Some e => (inl (EMsg "commit trigger interval: %w"), task_of_run submitted, sets, sh)
             | None => (inr tt, task_of_run submitted, sets, sh{{ h_locks := marked }})
             end
      end
    end
  end.

Definition runTrigger (f : RunFaults) (id : string) (triggeredAt : time) (ids : SubmitIDs)
    (next : option time) (now : time) (reg : Registry) (sets : redactSets) (sh : Shared)
    : (err + unit) * redactSets * Shared :=
  let '(r, _, sets, sh) := run_tick f id triggeredAt ids next now reg sets sh in (r, sets, sh).

(** [chetter_run_trigger]: no interval is looked at or marked. *)
Definition RunTriggerNow (scope : option Scope) (name : string) (ids : SubmitIDs)
    (next : option time) (fault : option err) (now : time) (reg : Registry) (sets : redactSets)
    (sh : Shared) : (err + Task) * redactSets * Shared :=
  if name == "" then (inl (EMsg "name is required"), sets, sh)
  else match triggerForToolAccess scope name (h_triggers sh) with
  | inl e => (inl e, sets, sh)
  | inr (id, t) =>
    if negb (tr_trigger_type t == TriggerTypeCron)
    then (inl (EFmt "trigger %q is a %s trigger; Run Now is only supported for cron triggers"
                 [name; tr_trigger_type t]), sets, sh)
    else submitTriggerTask scope id t ids next fault now reg sets sh
  end.
End run.

(** ** The lookups of the webhook *)

(** The match labels are read for issue triggers only. *)
Definition review_trigger (labels : bool) (kv : string * Trigger) : ReviewTrigger :=
  let t := kv.2 in
  let c := triggerRuntimeConfigFromJSON (tr_trigger_config t) in
  mkReviewTrigger (str_of (tr_team_id t)) (tr_name t) (tr_trigger_type t) (tr_prompt t)
    (str_of (tr_agent_image t)) (str_of (tr_agent t)) (str_of (tr_provider_id t))
    (str_of (tr_model_id t)) (str_of (tr_variant_id t)) (tr_timeout_sec t) (str_of (tr_git_url t))
    (str_of (tr_git_ref t)) (tr_skills t) (tc_Event c) (if labels then tc_MatchLabels c else [])
    (tc_SessionMode c) (tc_PauseReason c) (tc_TTLHours c) (tc_Isolation c).

Definition ListEnabledPRReviewTriggersByRepo (repo : string) (m : Triggers) : list ReviewTrigger :=
  map (review_trigger false) (enabled_by_repo TriggerTypePRReview repo m).

Definition ListEnabledIssueTriggersByRepo (repo : string) (m : Triggers) : list ReviewTrigger :=
  map (review_trigger true) (enabled_by_repo TriggerTypeIssue repo m).

(** ** Promotion ([trigger_promotion.go]) *)

Definition contains_any (chars s : string) : bool :=
  existsb (λ c, match cut c s with Some _ => true | None => false end) (String.list_ascii_of_string chars).

Definition backslash : string := String (ascii_of_nat 92) EmptyString.

Definition triggerDefinitionPath (scope teamName targetRepo name : string) : err + string :=
  let name := trimSpace name in
  if name == "" then inl (EMsg "trigger name is required")
  else if contains_any ("/" ^^ backslash) name || contains name ".."
  then inl (EFmt "trigger name %q cannot be used as a file name" [name])
  else if scope == "global" then inr ("global/triggers/" ^^ name ^^ ".yaml")
  else if scope == "team" then
    let team := trimSpace teamName in
    if team == "" then inl (EMsg "team_name is required when scope is team")
    else if contains_any ("/" ^^ backslash) team || contains team ".."
    then inl (EFmt "team name %q cannot be used as a directory name" [team])
    else inr ("groups/" ^^ team ^^ "/triggers/" ^^ name ^^ ".yaml")
  else if scope == "repo" then
    let repo := trimSpace targetRepo in
    if repo == "" then inl (EMsg "target_repo is required when scope is repo")
    else match cut "/" repo with
         | Some (owner, repoName) =>
           if (owner == "") || (repoName == "") || contains repoName "/"
           then inl (EFmt "target_repo %q must be owner/repo" [repo])
           else inr ("repos/" ^^ owner ^^ "/" ^^ repoName ^^ "/triggers/" ^^ name ^^ ".yaml")
         | None => inl (EFmt "target_repo %q must be owner/repo" [repo])
         end
  else inl (EMsg "scope must be global, team, or repo").

Definition unresolveAgentImageRef (image prefix : string) : string :=
  let image := trimSpace image in
  let prefix := trim_slashes (trimSpace prefix) in
  if (image == "") || (prefix == "") then image else trimPrefix image (prefix ^^ "/").

(** [triggerDefFromRecord]: the row with the image name its author used. *)
Definition triggerDefFromRecord (t : Trigger) (prefix : string) : Trigger :=
  t{{ tr_agent_image := Some (unresolveAgentImageRef (str_of (tr_agent_image t)) prefix) }}.

Record PromoteTriggerInput := mkPromoteInput {
  pi_Name : string;
  pi_Scope : string;
  pi_TeamName : string;
  pi_TargetRepo : string;
  pi_Path : string;
  pi_DryRun : bool;
  pi_AllowSecret : bool;
}.

(** The renderer, the secret scan, the search for an existing definition and the
    proposal, which alone looks at the caller. *)
Record Promotion := mkPromotion {
  RenderTriggerYAML : Trigger → string → option string;
  scanRenderedTriggerForSecrets : string → bool;
  checkTriggerNameAvailable : string → string → err + unit;
  createDefinitionProposal : option Scope → string → string → err + unit;
}.

(** The path and the content of the definition. *)
Definition PromoteTrigger (pr : Promotion) (prefix : string) (caller : option Scope)
    (i : PromoteTriggerInput) (m : Triggers) : err + string * string :=
  let scope := trimSpace (pi_Scope i) in
  let scope := if scope == "" then "global" else scope in
  let name := trimSpace (pi_Name i) in
  _ ← err_guard (name == "") (EMsg "name is required");
  path ← triggerDefinitionPath scope (pi_TeamName i) (pi_TargetRepo i) name;
  let override := trimSpace (pi_Path i) in
  let path := if override == "" then path else trim_slashes (replaceAll override backslash "/") in
  match GetTriggerByName name m with
  | None => inl (EFmt "get trigger %q: %w" [name])
  | Some (_, t) =>
    match tr_source_id t with
    | Some src => inl (EFmt "trigger %q is already managed by definitions source %q" [name; src])
    | None =>
      match RenderTriggerYAML pr (triggerDefFromRecord t prefix) scope with
      | None => inl (EMsg "render trigger definition: %w")
      | Some content =>
        _ ← err_guard (scanRenderedTriggerForSecrets pr content && negb (pi_AllowSecret i))
              (EMsg "rendered definition contains credential-shaped content and was not submitted");
        _ ← checkTriggerNameAvailable pr name path;
        if pi_DryRun i then inr (path, content)
        else _ ← createDefinitionProposal pr caller path content; inr (path, content)
      end
    end
  end.

(** ** Lemmas *)

Lemma GetTriggerByName_some name m k t :
  GetTriggerByName name m = Some (k, t) → m !! k = Some t ∧ tr_name t = name.
Proof.
  unfold GetTriggerByName. intros [Hin Hn]%find_some. apply list_elem_of_In, elem_of_map_to_list in Hin.
  split; [done|]. by apply bool_decide_eq_true in Hn.
Qed.

Lemma triggerForToolAccess_inr scope name m k t :
  triggerForToolAccess scope name m = inr (k, t) →
  m !! k = Some t ∧ tr_name t = name ∧ team_visible scope (tr_team_id t) = true.
Proof.
  unfold triggerForToolAccess. destruct (GetTriggerByName name m) as [[k' t']|] eqn:E; [|done].
  rewrite sum_bind_inr. intros (u & Hu & [= -> ->]). apply GetTriggerByName_some in E as [Hk Hn].
  split_and!; [done..|]. unfold authorizeTriggerAccess in Hu. cbn in Hu. by destruct (team_visible _ _).
Qed.

Lemma ensure_lock_id id locks : ensure_lock id locks !! id = Some (default None (locks !! id)).
Proof. unfold ensure_lock. destruct (locks !! id) eqn:E; [by rewrite E|by rewrite lookup_insert_eq]. Qed.

Lemma ensure_lock_ne id id' locks : id ≠ id' → ensure_lock id' locks !! id = locks !! id.
Proof. intros Hne. unfold ensure_lock. destruct (locks !! id'); [done|]. by rewrite lookup_insert_ne. Qed.

Lemma acquire_cases cronParse busy id expr at_ locks r locks' :
  acquireTriggerLock cronParse busy id expr at_ locks = (r, locks') →
  locks' = ensure_lock id locks ∧
  match r with
  | inr (Some marked) => marked = <[id := Some at_]> locks' ∧
      ∃ Next, cronParse expr = Some Next ∧ busy = false ∧
              ∀ last, locks !! id = Some (Some last) → Next last <= at_
  | _ => True
  end.
Proof.
  unfold acquireTriggerLock. destruct busy; [by intros [= <- <-]|].
  destruct (cronParse expr) as [Next|]; [|by intros [= <- <-]].
  rewrite ensure_lock_id. destruct (locks !! id) as [[last|]|] eqn:El; cbn.
  - destruct (Z.ltb_spec at_ (Next last)); intros [= <- <-]; [done|]. split; [done|]. split; [done|].
    exists Next. split_and!; [done..|]. by intros last' [= <-].
  - intros [= <- <-]. split; [done|]. split; [done|]. exists Next. by split_and!.
  - intros [= <- <-]. split; [done|]. split; [done|]. exists Next. by split_and!.
Qed.

(** ** One run per interval *)

(** What happens to the tables: a tick of some replica, or anything else, which
    leaves the locks alone. *)
Inductive TStep :=
| TTick (f : RunFaults) (id : string) (at_ : time) (ids : SubmitIDs) (next : option time) (now : time)
    (reg : Registry) (sets : redactSets)
| TChange (triggers : Triggers) (db : DB).

(** A run that submitted a task: its trigger, its tick, and whether the interval
    was marked. *)
Record Run := mkRun { run_id : string; run_at : time; run_marked : bool }.

Section intervals.
Variable cfg : ServiceConfig.
Variable L : Lookups.
Variable cronParse : string → option (time → time).

Definition t_step (s : TStep) (sh : Shared) : Shared * list Run :=
  match s with
  | TChange triggers db => (mkShared triggers (h_locks sh) db, [])
  | TTick f id at_ ids next now reg sets =>
    let '(r, task, _, sh') := run_tick cfg L cronParse f id at_ ids next now reg sets sh in
    (sh', match task with
          | None => []
          | Some _ => [mkRun id at_ (match r with inr _ => true | inl _ => false end)]
          end)
  end.

Fixpoint t_run (l : list TStep) (sh : Shared) : Shared * list Run :=
  match l with
  | [] => (sh, [])
  | s :: l' => let '(sh1, runs) := t_step s sh in
               let '(sh2, runs') := t_run l' sh1 in (sh2, runs ++ runs')
  end.

(** The trigger has one schedule throughout. *)
Definition scheduled (id : string) (Next : time → time) (m : Triggers) : Prop :=
  ∀ t, m !! id = Some t → cronParse (tr_cron_expr t) = Some Next.

Definition step_scheduled (id : string) (Next : time → time) (s : TStep) : Prop :=
  match s with TChange triggers _ => scheduled id Next triggers | _ => True end.

(** The rows keep their schedules. *)
Definition same_schedules (m m' : Triggers) : Prop :=
  ∀ k t', m' !! k = Some t' → ∃ t, m !! k = Some t ∧ tr_cron_expr t' = tr_cron_expr t.

Lemma same_schedules_refl m : same_schedules m m.
Proof. intros k t Hk. by exists t. Qed.

Lemma same_schedules_trans m1 m2 m3 :
  same_schedules m1 m2 → same_schedules m2 m3 → same_schedules m1 m3.
Proof.
  intros H1 H2 k t3 H3. destruct (H2 k t3 H3) as (t2 & Hk2 & E2).
  destruct (H1 k t2 Hk2) as (t1 & Hk1 & E1). exists t1. by rewrite E2.
Qed.

Lemma same_schedules_pk k f m :
  (∀ t, tr_cron_expr (f t) = tr_cron_expr t) → same_schedules m (update_pk k (λ _, true) f m).2.
Proof.
  intros Hf j t' Hj. rewrite update_pk_lookup in Hj. destruct (m !! j) as [t|]; [|done].
  exists t. split; [done|]. cbn in Hj. destruct (bool_decide (j = k)); injection Hj as <-; auto.
Qed.

Lemma scheduled_same id Next m m' :
  same_schedules m m' → scheduled id Next m → scheduled id Next m'.
Proof. intros Hs H t' Ht'. destruct (Hs id t' Ht') as (t & Ht & ->). by apply H. Qed.

Lemma submit_for_keeps scope ids now q sets sh r sets' sh' :
  submit_for cfg L scope ids now q sets sh = (r, sets', sh') →
  h_locks sh' = h_locks sh ∧ same_schedules (h_triggers sh) (h_triggers sh').
Proof.
  unfold submit_for. destruct (SubmitTask _ _ _ _ _ _ _ _ _) as [[r0 sets0] db0]. intros [= <- <- <-].
  split; [done|]. cbn [h_triggers]. destruct r0 as [e|task]; [apply same_schedules_refl|].
  destruct (GetTriggerByName _ _); [by apply same_schedules_pk|apply same_schedules_refl].
Qed.

Lemma store_next_cases submitted id next fault now reg sets sh r sets' sh' :
  store_next submitted id next fault now reg sets sh = (r, sets', sh') →
  h_locks sh' = h_locks sh ∧ same_schedules (h_triggers sh) (h_triggers sh') ∧
  h_db sh' = h_db sh ∧ sets' = sets ∧ (∀ task, r = inr task → submitted = inr task).
Proof.
  pose proof (same_schedules_refl (h_triggers sh)) as Hrefl.
  unfold store_next. destruct submitted as [e|task]; [by intros [= <- <- <-]|].
  destruct (reg !! id), next as [at_|]; try by intros [= <- <- <-].
  destruct fault as [e|]; intros [= <- <- <-]; [by split_and!|].
  split_and!; [done|by apply same_schedules_pk|done|done|done].
Qed.

Definition last_of (locks : TriggerLocks) (id : string) : option time := default None (locks !! id).

Lemma run_tick_cases f id at_ ids next now reg sets sh r task sets' sh' :
  run_tick cfg L cronParse f id at_ ids next now reg sets sh = (r, task, sets', sh') →
  same_schedules (h_triggers sh) (h_triggers sh') ∧
  (∀ k, k ≠ id → last_of (h_locks sh') k = last_of (h_locks sh) k) ∧
  last_of (h_locks sh') id =
    (if bool_decide (r = inr tt) && bool_decide (is_Some task) then Some at_ else last_of (h_locks sh) id) ∧
  (is_Some task → ∃ t Next, h_triggers sh !! id = Some t ∧ cronParse (tr_cron_expr t) = Some Next ∧
     ∀ last, last_of (h_locks sh) id = Some last → Next last <= at_).
Proof.
  unfold run_tick. pose proof (same_schedules_refl (h_triggers sh)) as Hrefl.
  destruct (GetTriggerByID id (h_triggers sh)) as [t|] eqn:Et.
  2: { intros [= <- <- <- <-]. split_and!; [done..|by intros []]. }
  destruct (negb (tr_enabled t)).
  { intros [= <- <- <- <-]. split_and!; [done..|by intros []]. }
  destruct (acquireTriggerLock _ _ _ _ _ _) as [ra locks] eqn:Ea.
  apply acquire_cases in Ea as [-> Hra].
  assert (∀ k, last_of (ensure_lock id (h_locks sh)) k = last_of (h_locks sh) k) as Hens.
  { intros k. unfold last_of. destruct (decide (k = id)) as [->|Hne].
    - rewrite ensure_lock_id. by destruct (h_locks sh !! id).
    - by rewrite ensure_lock_ne. }
  destruct ra as [e|[marked|]].
  { intros [= <- <- <- <-]. split_and!; [done| |apply Hens|by intros []]. intros k _. apply Hens. }
  2: { intros [= <- <- <- <-]. split_and!; [done| | |by intros []]; [intros k _; apply Hens|].
       rewrite andb_false_r by done. apply Hens. }
  destruct Hra as (-> & Next & HN & _ & Hlast).
  destruct (submit_for _ _ _ _ _ _ _ _) as [[submitted sets1] sh1] eqn:Es.
  apply submit_for_keeps in Es as [Hl1 Hs1]. cbn [h_locks h_triggers] in Hl1, Hs1.
  destruct (store_next _ _ _ _ _ _ _ _) as [[r2 sets2] sh2] eqn:E2.
  apply store_next_cases in E2 as (Hl2 & Hs2 & _ & _ & Hr2).
  pose proof (same_schedules_trans _ _ _ Hs1 Hs2) as Hs.
  assert (∀ last, last_of (h_locks sh) id = Some last → Next last <= at_) as Hdue.
  { intros last Hl. apply Hlast. unfold last_of in Hl.
    destruct (h_locks sh !! id) as [[l|]|]; cbn in Hl; by simplify_eq. }
  assert (∀ k, last_of (h_locks sh2) k = last_of (h_locks sh) k) as Hsh2.
  { intros k. by rewrite Hl2, Hl1. }
  destruct r2 as [e|task2].
  { intros [= <- <- <- <-]. split_and!; [done|auto|apply Hsh2|]. intros _. by exists t, Next. }
  specialize (Hr2 _ eq_refl) as ->. destruct (rf_crash f).
  { intros [= <- <- <- <-]. split_and!; [done|auto|apply Hsh2|]. intros _. by exists t, Next. }
  destruct (rf_commit f).
  { intros [= <- <- <- <-]. split_and!; [done|auto|apply Hsh2|]. intros _. by exists t, Next. }
  intros [= <- <- <- <-]. cbn [h_locks h_triggers]. split_and!; [done| | |].
  - intros k Hne. unfold last_of. rewrite lookup_insert_ne by done. apply Hens.
  - unfold last_of. by rewrite lookup_insert_eq.
  - intros _. by exists t, Next.
Qed.

Section one_schedule.
Variable id : string.
Variable Next : time → time.
Hypothesis Next_later : ∀ t, t < Next t.
Hypothesis Next_mono : ∀ t t', t <= t' → Next t <= Next t'.

Lemma t_step_cases s sh sh' runs :
  t_step s sh = (sh', runs) → scheduled id Next (h_triggers sh) → step_scheduled id Next s →
  scheduled id Next (h_triggers sh') ∧
  ((∀ a, a ∈ runs → run_id a ≠ id) ∧ last_of (h_locks sh') id = last_of (h_locks sh) id ∨
   ∃ a, runs = [a] ∧ run_id a = id ∧
     (∀ last, last_of (h_locks sh) id = Some last → Next last <= run_at a) ∧
     last_of (h_locks sh') id =
       (if run_marked a then Some (run_at a) else last_of (h_locks sh) id)).
Proof.
  intros Hstep Hsch Hs. destruct s as [f id' at_ ids next now reg sets|triggers db]; cbn [t_step] in Hstep.
  2: { injection Hstep as <- <-. split; [done|]. left. split; [set_solver|done]. }
  destruct (run_tick _ _ _ _ _ _ _ _ _ _ _ _) as [[[r task] sets'] sh1] eqn:Et.
  injection Hstep as <- <-. apply run_tick_cases in Et as (Hsame & Hother & Hlast & Hrun).
  split; [by eapply scheduled_same|].
  destruct (decide (id' = id)) as [->|Hne].
  - destruct task as [task|].
    + right. eexists. split; [done|]. split; [done|]. cbn [run_at run_marked].
      destruct (Hrun ltac:(by eexists)) as (t & N & Ht & HN & Hdue).
      specialize (Hsch t Ht). rewrite HN in Hsch. injection Hsch as ->. split; [exact Hdue|].
      rewrite Hlast, (bool_decide_eq_true_2 (is_Some (Some task))) by done. rewrite andb_true_r.
      destruct r as [e|[]]; [by rewrite bool_decide_eq_false_2|by rewrite bool_decide_eq_true_2].
    + left. split; [set_solver|]. rewrite Hlast.
      rewrite (bool_decide_eq_false_2 (is_Some None)) by (by intros []). by rewrite andb_false_r.
  - left. split; [|by apply Hother]. destruct task; [|set_solver].
    intros a Ha. apply list_elem_of_singleton in Ha as ->. done.
Qed.

(** No run comes before the interval of the last mark is over. *)
Lemma t_run_due l sh last :
  scheduled id Next (h_triggers sh) → Forall (step_scheduled id Next) l →
  last_of (h_locks sh) id = Some last →
  Forall (λ b, run_id b = id → Next last <= run_at b) (t_run l sh).2.
Proof.
  revert sh last. induction l as [|s l IH]; intros sh last Hsch Hl Hlast; [constructor|].
  inversion_clear Hl as [|? ? Hs Hrest]. cbn [t_run].
  destruct (t_step s sh) as [sh1 runs] eqn:E1. destruct (t_run l sh1) as [sh2 runs'] eqn:E2. cbn [snd].
  destruct (t_step_cases _ _ _ _ E1 Hsch Hs) as [Hsch1 [[Hno Hsame]|(a & -> & Ha & Hdue & Hnew)]].
  - apply Forall_app. split.
    + apply Forall_forall. intros b Hb Hid. by destruct (Hno b Hb).
    + specialize (IH sh1 last Hsch1 Hrest). rewrite E2 in IH. apply IH. by rewrite Hsame.
  - apply Forall_app. split; [apply Forall_singleton; intros _; by apply Hdue|].
    specialize (Hdue _ Hlast). destruct (run_marked a).
    + specialize (IH sh1 _ Hsch1 Hrest Hnew). rewrite E2 in IH. eapply Forall_impl; [exact IH|].
      intros b Hb Hid. specialize (Hb Hid). pose proof (Next_later (run_at a)).
      pose proof (Next_mono last (run_at a) ltac:(pose proof (Next_later last); lia)). lia.
    + rewrite Hlast in Hnew. specialize (IH sh1 _ Hsch1 Hrest Hnew). by rewrite E2 in IH.
Qed.

Lemma t_run_spaced l sh :
  scheduled id Next (h_triggers sh) → Forall (step_scheduled id Next) l →
  StronglySorted (λ a b, run_id a = id → run_id b = id → run_marked a = true →
                         Next (run_at a) <= run_at b) (t_run l sh).2.
Proof.
  revert sh. induction l as [|s l IH]; intros sh Hsch Hl; [constructor|].
  inversion_clear Hl as [|? ? Hs Hrest]. cbn [t_run].
  destruct (t_step s sh) as [sh1 runs] eqn:E1. destruct (t_run l sh1) as [sh2 runs'] eqn:E2. cbn [snd].
  destruct (t_step_cases _ _ _ _ E1 Hsch Hs) as [Hsch1 Hcases].
  pose proof (IH sh1 Hsch1 Hrest) as Hsorted. rewrite E2 in Hsorted. cbn [snd] in Hsorted.
  assert (runs = [] ∨ ∃ a, runs = [a]) as Hone.
  { destruct s; cbn [t_step] in E1; [|injection E1 as _ <-; by left].
    destruct (run_tick _ _ _ _ _ _ _ _ _ _ _ _) as [[[? task] ?] ?]. injection E1 as _ <-.
    destruct task; [right; by eexists|by left]. }
  destruct Hone as [->|[a ->]]; [done|]. constructor; [done|].
  destruct (run_marked a) eqn:Hm; [|by apply Forall_forall].
  destruct Hcases as [[Hno _]|(a' & [= <-] & Ha & _ & Hnew)].
  - apply Forall_forall. intros b _ Hid. destruct (Hno a); [set_solver|done].
  - rewrite Hm in Hnew. pose proof (t_run_due l sh1 _ Hsch1 Hrest Hnew) as Hd. rewrite E2 in Hd.
    eapply Forall_impl; [exact Hd|]. auto.
Qed.
End one_schedule.
End intervals.

(** ** Calls of a team's members *)

(** [name] is the unique key of the table. *)
Definition unique_names (m : Triggers) : Prop :=
  ∀ k k' t t', m !! k = Some t → m !! k' = Some t' → tr_name t = tr_name t' → k = k'.

(** The rows keep their names, and all but [id] are as before. *)
Definition only_row (id : string) (m m' : Triggers) : Prop :=
  (∀ j, j ≠ id → m' !! j = m !! j) ∧
  (∀ j t', m' !! j = Some t' → ∃ t, m !! j = Some t ∧ tr_name t' = tr_name t).

Definition only_entry (id : string) (reg reg' : Registry) : Prop := ∀ j, j ≠ id → reg' !! j = reg !! j.

Lemma only_row_refl id m : only_row id m m.
Proof. split; eauto. Qed.

Lemma only_row_trans id m1 m2 m3 : only_row id m1 m2 → only_row id m2 m3 → only_row id m1 m3.
Proof.
  intros [H1 N1] [H2 N2]. split; [intros j Hj; by rewrite H2, H1|]. intros j t3 H3.
  destruct (N2 j t3 H3) as (t2 & Ht2 & E2). destruct (N1 j t2 Ht2) as (t1 & Ht1 & E1).
  exists t1. by rewrite E2.
Qed.

Lemma only_row_pk id f m :
  (∀ t, tr_name (f t) = tr_name t) → only_row id m (update_pk id (λ _, true) f m).2.
Proof.
  intros Hf. split.
  - intros j Hj. rewrite update_pk_lookup, bool_decide_eq_false_2 by done. by destruct (m !! j).
  - intros j t' Hj. rewrite update_pk_lookup in Hj. destruct (m !! j) as [t|]; [|done].
    exists t. split; [done|]. cbn in Hj. destruct (bool_decide (j = id)); injection Hj as <-; auto.
Qed.

Lemma only_row_unique id m m' : only_row id m m' → unique_names m → unique_names m'.
Proof.
  intros [_ N] Hu k k' t t' Hk Hk' Hn. destruct (N k t Hk) as (t0 & H0 & E0).
  destruct (N k' t' Hk') as (t1 & H1 & E1). eapply Hu; [done..|congruence].
Qed.

Lemma activate_only cronParse id expr next fault now reg sh r reg' sh' :
  activateTrigger cronParse id expr next fault now reg sh = (r, reg', sh') →
  only_entry id reg reg' ∧ only_row id (h_triggers sh) (h_triggers sh').
Proof.
  pose proof (only_row_refl id (h_triggers sh)) as Hrefl. unfold activateTrigger.
  destruct (cronParse expr); [|intros [= <- <- <-]; split; [intros j Hj; by rewrite lookup_delete_ne|done]].
  assert (only_entry id reg (<[id := expr]> reg)) as He by (intros j Hj; by rewrite lookup_insert_ne).
  destruct next; [|by intros [= <- <- <-]]. destruct fault; intros [= <- <- <-]; [done|].
  split; [done|]. by apply only_row_pk.
Qed.

Lemma submit_for_only cfg L scope ids now q sets sh r sets' sh' k t :
  GetTriggerByName (q_TriggerName q) (h_triggers sh) = Some (k, t) →
  submit_for cfg L scope ids now q sets sh = (r, sets', sh') →
  only_row k (h_triggers sh) (h_triggers sh').
Proof.
  intros Hg. unfold submit_for. rewrite Hg. destruct (SubmitTask _ _ _ _ _ _ _ _ _) as [[[e|task] ?] ?];
    intros [= <- <- <-]; [apply only_row_refl|by apply only_row_pk].
Qed.

Lemma store_next_only submitted id next fault now reg sets sh r sets' sh' :
  store_next submitted id next fault now reg sets sh = (r, sets', sh') →
  only_row id (h_triggers sh) (h_triggers sh').
Proof.
  pose proof (only_row_refl id (h_triggers sh)) as Hrefl.
  unfold store_next. destruct submitted; [by intros [= <- <- <-]|].
  destruct (reg !! id), next; try by intros [= <- <- <-].
  destruct fault; intros [= <- <- <-]; [done|]. by apply only_row_pk.
Qed.

Lemma GetTriggerByName_unique name m k t :
  unique_names m → m !! k = Some t → tr_name t = name → GetTriggerByName name m = Some (k, t).
Proof.
  intros Hu Hk Hn. destruct (GetTriggerByName name m) as [[k' t']|] eqn:E.
  - apply GetTriggerByName_some in E as [Hk' Hn'].
    assert (k = k') as -> by (eapply Hu; [done..|congruence]). congruence.
  - unfold GetTriggerByName in E. eapply find_none in E; [|by apply list_elem_of_In, elem_of_map_to_list].
    cbn in E. by apply bool_decide_eq_false in E.
Qed.

(** A statement of the UPDATE: the row of the old name, under the new one. *)
Lemma UpdateTrigger_rows_inr old new f m m' k t :
  unique_names m → (∀ t, tr_name (f t) = new) → m !! k = Some t → tr_name t = old →
  UpdateTrigger_rows old new f m = inr m' → m' = <[k := f t]> m ∧ unique_names m'.
Proof.
  intros Hu Hf Hk Hn. unfold UpdateTrigger_rows.
  rewrite (GetTriggerByName_unique _ _ _ _ Hu Hk Hn), (bool_decide_eq_true_2 (is_Some (Some _))), andb_true_r
    by done.
  destruct (negb (new == old) && _) eqn:Edup; [done|]. intros Hm.
  assert (m' = <[k := f t]> m) as ->.
  { apply map_eq. intros j. assert (m' = (update_where (λ _ t, tr_name t == old) (λ _ t, f t) m).2) as ->
      by congruence. rewrite update_where_lookup. destruct (decide (j = k)) as [->|Hj].
    - rewrite Hk, lookup_insert_eq. cbn. by rewrite bool_decide_eq_true_2.
    - rewrite lookup_insert_ne by done. destruct (m !! j) as [t'|] eqn:Ej; [|done]. cbn.
      rewrite bool_decide_eq_false_2; [done|]. intros Hn'. apply Hj. eapply Hu; [done..|congruence]. }
  split; [done|].
  assert (∀ j t', j ≠ k → m !! j = Some t' → tr_name t' ≠ new) as Hfree.
  { intros j t' Hj Hjt Hn'. apply andb_false_iff in Edup as [Ed|Ed].
    - apply negb_false_iff, bool_decide_eq_true in Ed. apply Hj. eapply Hu; [done..|congruence].
    - rewrite (GetTriggerByName_unique _ _ _ _ Hu Hjt Hn') in Ed. by apply bool_decide_eq_false in Ed; destruct Ed. }
  intros j j' tj tj'. destruct (decide (j = k)) as [->|Hj], (decide (j' = k)) as [->|Hj']; [done|..].
  - rewrite lookup_insert_eq, lookup_insert_ne by done. intros [= <-] H2 Hnn.
    rewrite Hf in Hnn. by destruct (Hfree j' tj').
  - rewrite lookup_insert_eq, lookup_insert_ne by done. intros H1 [= <-] Hnn.
    rewrite Hf in Hnn. by destruct (Hfree j tj).
  - rewrite !lookup_insert_ne by done. apply Hu.
Qed.

(** ** A tick *)

(** Is the interval of the last mark over? *)
Definition interval_over (Next : time → time) (last : option time) (at_ : time) : bool :=
  match last with None => true | Some l => Next l <=? at_ end.

Lemma acquire_free cronParse id expr at_ locks Next :
  cronParse expr = Some Next →
  acquireTriggerLock cronParse false id expr at_ locks =
    (inr (if interval_over Next (last_of locks id) at_
          then Some (<[id := Some at_]> (ensure_lock id locks)) else None), ensure_lock id locks).
Proof.
  intros HN. unfold acquireTriggerLock, interval_over, last_of. rewrite HN, ensure_lock_id.
  destruct (locks !! id) as [[last|]|]; cbn; [|done|done].
  rewrite Z.ltb_antisym. by destruct (Next last <=? at_).
Qed.

Lemma last_ensure id locks k : last_of (ensure_lock id locks) k = last_of locks k.
Proof.
  unfold last_of. destruct (decide (k = id)) as [->|Hne].
  - rewrite ensure_lock_id. by destruct (locks !! id).
  - by rewrite ensure_lock_ne.
Qed.

(** [store_next] stores the registry's next activation. *)
Lemma store_next_done submitted id next now reg sets sh task :
  submitted = inr task →
  ∃ sh', store_next submitted id next None now reg sets sh = (inr task, sets, sh') ∧
    h_locks sh' = h_locks sh ∧ h_db sh' = h_db sh.
Proof.
  intros ->. unfold store_next. destruct (reg !! id), next; eexists; split; try done.
Qed.

(** What a tick of an enabled trigger does. Before the interval of the last
    mark is over it changes no row; once it is over, it submits exactly what
    [SubmitTask] does with the trigger's request, and marks the interval if that
    succeeded and nothing failed afterwards, so that a failed submission is tried
    again by the next tick. *)
Theorem tick_decides cfg L cronParse f id at_ ids next now reg sets sh t Next r task sets' sh' :
  h_triggers sh !! id = Some t → tr_enabled t = true →
  cronParse (tr_cron_expr t) = Some Next → rf_busy f = false →
  run_tick cfg L cronParse f id at_ ids next now reg sets sh = (r, task, sets', sh') →
  if interval_over Next (last_of (h_locks sh) id) at_ then
    (∃ submitted, SubmitTask cfg L None (bool_decide (is_Some (GetTriggerByName (tr_name t) (h_triggers sh))))
        ids now (trigger_request t) sets (h_db sh) = (submitted, sets', h_db sh') ∧
      task = task_of_run submitted ∧
      last_of (h_locks sh') id =
        (if bool_decide (r = inr tt) then Some at_ else last_of (h_locks sh) id) ∧
      ((∃ e, submitted = inl e) → r = inl (EFmt "submit triggered task: %w" [])) ∧
      (is_Some task → f = no_run_faults → r = inr tt))
  else r = inr tt ∧ task = None ∧ sets' = sets ∧ h_triggers sh' = h_triggers sh ∧ h_db sh' = h_db sh.
Proof.
  intros Ht Hen HN Hbusy Hrun. unfold run_tick, GetTriggerByID in Hrun.
  rewrite Ht, Hen in Hrun. cbn [negb] in Hrun. rewrite Hbusy, (acquire_free _ _ _ _ _ _ HN) in Hrun.
  destruct (interval_over _ _ _); [|by injection Hrun as <- <- <- <-].
  unfold submit_for in Hrun. cbn [q_TriggerName trigger_request h_triggers h_db h_locks] in Hrun.
  destruct (SubmitTask _ _ _ _ _ _ _ _ _) as [[submitted sets1] db1]. cbn beta iota zeta in Hrun.
  exists submitted. destruct submitted as [e|task1].
  { cbn in Hrun. injection Hrun as <- <- <- <-. cbn. split_and!; [done|done|apply last_ensure|done|].
    by intros []. }
  destruct (store_next _ _ _ _ _ _ _ _) as [[r2 sets2] sh2] eqn:E2.
  pose proof (store_next_cases _ _ _ _ _ _ _ _ _ _ _ E2) as (Hl2 & _ & Hd2 & -> & Hr2).
  cbn [h_locks h_db] in Hl2, Hd2.
  assert (last_of (h_locks sh2) id = last_of (h_locks sh) id) as Hkeep by (rewrite Hl2; apply last_ensure).
  assert (f = no_run_faults → ∃ sh3, r2 = inr task1 ∧ sh2 = sh3) as Hok.
  { intros ->. edestruct (store_next_done (inr task1) id next now reg sets1) as (sh3 & Heq & _); [done|].
    cbn [rf_next_run no_run_faults] in E2. rewrite Heq in E2. injection E2 as <- <-. eauto. }
  destruct r2 as [e|task2].
  { injection Hrun as <- <- <- <-. rewrite Hd2. split_and!; try done; [by intros [? [=]]|].
    intros _ Hf. by destruct (Hok Hf) as (? & ? & _). }
  specialize (Hr2 _ eq_refl).
  destruct (rf_crash f) eqn:Ecr; [|destruct (rf_commit f) eqn:Eco];
    injection Hrun as <- <- <- <-; cbn [h_db h_locks]; rewrite ?Hd2;
    (split; [first [reflexivity|by rewrite <- Hd2]|]; split; [reflexivity|]; split; [|split; [by intros [? [=]]|]]).
  - done.
  - intros _ ->. done.
  - done.
  - intros _ ->. done.
  - rewrite bool_decide_eq_true_2 by done. unfold last_of. by rewrite lookup_insert_eq.
  - done.
Qed.

(** C27. Each interval is run once. Over any interleaving of the ticks of all
    replicas with any other change of the tables, as long as the trigger's
    schedule stays the same: after a run that marked its interval, no run of the
    trigger comes before the schedule's next activation. *)
Theorem one_run_per_interval cfg L cronParse id Next l sh :
  (∀ t, t < Next t) → (∀ t t', t <= t' → Next t <= Next t') →
  scheduled cronParse id Next (h_triggers sh) → Forall (step_scheduled cronParse id Next) l →
  StronglySorted (λ a b, run_id a = id → run_id b = id → run_marked a = true →
                         Next (run_at a) <= run_at b) (t_run cfg L cronParse l sh).2.
Proof. intros. by apply t_run_spaced. Qed.

(** ** Teams *)

(** The calls of a tool or of the web interface that write triggers. *)
Inductive TriggerCall :=
| CallCreate (i : TriggerInput) (id : string) (next : option time) (fault : option err)
| CallUpdate (name : string) (i : TriggerInput) (enabled : bool) (broken : option err)
    (next : option time) (fault : option err)
| CallDelete (name : string)
| CallRun (name : string) (ids : SubmitIDs) (next : option time) (fault : option err) (sets : redactSets).

Definition call_trigger (cfg : ServiceConfig) (L : Lookups) (cronParse : string → option (time → time))
    (scope : option Scope) (c : TriggerCall) (now : time) (reg : Registry) (sh : Shared)
    : Registry * Shared :=
  match c with
  | CallCreate i id next fault =>
    let '(_, reg, sh) := CreateTrigger cfg L cronParse scope i id next fault now reg sh in (reg, sh)
  | CallUpdate name i enabled broken next fault =>
    let '(_, reg, sh) := UpdateTrigger cfg cronParse scope name i enabled broken next fault now reg sh in
    (reg, sh)
  | CallDelete name => let '(_, reg, sh) := DeleteTrigger scope name reg sh in (reg, sh)
  | CallRun name ids next fault sets =>
    (reg, (RunTriggerNow cfg L scope name ids next fault now reg sets sh).2)
  end.

(** Row [k] and its cron entry are as before. *)
Definition keeps (k : string) (reg : Registry) (m : Triggers) (reg' : Registry) (m' : Triggers) : Prop :=
  reg' !! k = reg !! k ∧ m' !! k = m !! k.

Lemma only_keeps k id reg m reg' m' :
  k ≠ id → only_entry id reg reg' → only_row id m m' → keeps k reg m reg' m'.
Proof. intros Hk He [Hr _]. split; auto. Qed.

Section teams.
Variable cfg : ServiceConfig.
Variable L : Lookups.
Variable cronParse : string → option (time → time).
Variable scope : option Scope.
Variable now : time.

Lemma CreateTrigger_frame i id next fault reg sh r reg' sh' k t :
  CreateTrigger cfg L cronParse scope i id next fault now reg sh = (r, reg', sh') →
  unique_names (h_triggers sh) → h_triggers sh !! k = Some t →
  unique_names (h_triggers sh') ∧ keeps k reg (h_triggers sh) reg' (h_triggers sh').
Proof.
  intros H Hu Hk. unfold CreateTrigger in H.
  destruct (prepare_trigger cfg cronParse i id ≫= _) as [e|[i' rows]] eqn:Ep; [by injection H as <- <- <-|].
  apply sum_bind_inr in Ep as (i1 & _ & (team & _ & (rows1 & Hrows & [= -> ->])%sum_bind_inr)%sum_bind_inr).
  unfold CreateTrigger_row in Hrows.
  assert (insert_unique "triggers" same_name (ti_ID i') (new_trigger i' team now) (h_triggers sh) = inr rows)
    as (Hnew & Hfree & ->)%insert_unique_inr by (by destruct (tr_trigger_config _)).
  assert (ti_ID i' ≠ k) as Hne by congruence.
  assert (unique_names (<[ti_ID i' := new_trigger i' team now]> (h_triggers sh))) as Hu'.
  { assert (∀ j tj, h_triggers sh !! j = Some tj → tr_name tj ≠ ti_Name i') as Hfree'.
    { intros j tj Hj Hn. specialize (Hfree j tj Hj). unfold same_name in Hfree.
      apply bool_decide_eq_false in Hfree. by rewrite Hn in Hfree. }
    intros j j' tj tj'.
    destruct (decide (j = ti_ID i')) as [->|Hj], (decide (j' = ti_ID i')) as [->|Hj']; [done|..].
    - rewrite lookup_insert_eq, lookup_insert_ne by done. intros [= <-] H2 Hn. by destruct (Hfree' j' tj').
    - rewrite lookup_insert_eq, lookup_insert_ne by done. intros H1 [= <-] Hn. by destruct (Hfree' j tj).
    - rewrite !lookup_insert_ne by done. apply Hu. }
  destruct (ti_TriggerType i' == TriggerTypeCron).
  - destruct (activateTrigger _ _ _ _ _ _ _ _) as [[ra rega] sha] eqn:Ea.
    apply activate_only in Ea as [He Hr]. cbn [h_triggers] in Hr.
    assert (reg' = rega ∧ sh' = sha) as [-> ->].
    { destruct ra; [by injection H as <- <- <-|]. by destruct (GetTriggerByID _ _); injection H as <- <- <-. }
    split; [by eapply only_row_unique|]. split; [by apply He|]. destruct Hr as [Hr _].
    rewrite Hr by done. by apply lookup_insert_ne.
  - assert (reg' = reg ∧ h_triggers sh' = <[ti_ID i' := new_trigger i' team now]> (h_triggers sh)) as [-> ->]
      by (by destruct (GetTriggerByID _ _); injection H as <- <- <-).
    split; [done|]. split; [done|]. by rewrite lookup_insert_ne.
Qed.

Lemma UpdateTrigger_frame name i enabled broken next fault reg sh r reg' sh' k t :
  UpdateTrigger cfg cronParse scope name i enabled broken next fault now reg sh = (r, reg', sh') →
  unique_names (h_triggers sh) → h_triggers sh !! k = Some t → team_visible scope (tr_team_id t) = false →
  unique_names (h_triggers sh') ∧ keeps k reg (h_triggers sh) reg' (h_triggers sh').
Proof.
  intros H Hu Hk Hv. unfold UpdateTrigger in H.
  destruct (check_update cfg cronParse i ≫= _) as [e|[i' [k1 t1]]] eqn:Ep; [by injection H as <- <- <-|].
  apply sum_bind_inr in Ep as (i0 & _ & (kt & Hacc & [= -> ->])%sum_bind_inr).
  apply triggerForToolAccess_inr in Hacc as (Hk1 & Hn1 & Hv1). cbn [fst] in H.
  assert (k ≠ k1) as Hne by (intros ->; congruence).
  assert (only_entry k1 reg (delete k1 reg)) as Hdel by (intros j Hj; by rewrite lookup_delete_ne).
  destruct (UpdateTrigger_stmt _ _ _ _ _ _) as [e|rows] eqn:Es.
  { injection H as <- <- <-. split; [done|]. split; [by apply Hdel|done]. }
  assert (UpdateTrigger_rows name (ti_Name i') (updated_trigger i' enabled now) (h_triggers sh) = inr rows)
    as Hrows by (revert Es; unfold UpdateTrigger_stmt; destruct broken; [done|by destruct (ti_TriggerConfig i')]).
  eapply (UpdateTrigger_rows_inr _ _ _ _ _ k1 t1) in Hrows as [-> Hu']; [|done..].
  set (rows := <[k1 := _]> _) in *.
  assert (rows !! k = Some t) as Hkr by (unfold rows; by rewrite lookup_insert_ne).
  assert (keeps k reg (h_triggers sh) (delete k1 reg) rows) as Hkeep by (split; [by apply Hdel|congruence]).
  destruct (triggerForToolAccess _ _ rows) as [e|[k2 t2]] eqn:Eacc; [by injection H as <- <- <-|].
  apply triggerForToolAccess_inr in Eacc as (Hk2 & _ & Hv2).
  assert (k ≠ k2) as Hne2 by (intros ->; congruence).
  destruct (negb enabled || _); [by injection H as <- <- <-|].
  destruct (activateTrigger _ _ _ _ _ _ _ _) as [[ra rega] sha] eqn:Ea.
  apply activate_only in Ea as [He Hr]. cbn [fst h_triggers] in *.
  assert (reg' = rega ∧ sh' = sha) as [-> ->] by (by destruct ra; injection H as <- <- <-).
  destruct Hkeep as [Hkeep1 Hkeep2]. split; [by eapply only_row_unique|].
  split; [by rewrite (He k Hne2)|]. destruct Hr as [Hr _]. by rewrite (Hr k Hne2).
Qed.

Lemma DeleteTrigger_frame name reg sh r reg' sh' k t :
  DeleteTrigger scope name reg sh = (r, reg', sh') →
  unique_names (h_triggers sh) → h_triggers sh !! k = Some t → team_visible scope (tr_team_id t) = false →
  unique_names (h_triggers sh') ∧ keeps k reg (h_triggers sh) reg' (h_triggers sh').
Proof.
  intros H Hu Hk Hv. unfold DeleteTrigger in H.
  destruct (triggerForToolAccess _ _ _) as [e|[k1 t1]] eqn:Eacc; [by injection H as <- <- <-|].
  apply triggerForToolAccess_inr in Eacc as (Hk1 & Hn1 & Hv1). injection H as <- <- <-.
  assert (k ≠ k1) as Hne by (intros ->; congruence). cbn [fst]. split.
  - intros j j' tj tj' [Hj _]%map_lookup_filter_Some [Hj' _]%map_lookup_filter_Some. by apply Hu.
  - split; [by rewrite lookup_delete_ne|].
    change (DeleteTrigger_rows name (h_triggers sh) !! k = h_triggers sh !! k). rewrite Hk.
    apply map_lookup_filter_Some_2; [done|]. cbn. intros Hn. apply Hne. eapply Hu; [done..|congruence].
Qed.

Lemma RunTriggerNow_frame name ids next fault reg sets sh r sets' sh' k t :
  RunTriggerNow cfg L scope name ids next fault now reg sets sh = (r, sets', sh') →
  unique_names (h_triggers sh) → h_triggers sh !! k = Some t → team_visible scope (tr_team_id t) = false →
  unique_names (h_triggers sh') ∧ keeps k reg (h_triggers sh) reg (h_triggers sh').
Proof.
  intros H Hu Hk Hv. unfold RunTriggerNow in H. destruct (name == ""); [by injection H as <- <- <-|].
  destruct (triggerForToolAccess _ _ _) as [e|[k1 t1]] eqn:Eacc; [by injection H as <- <- <-|].
  apply triggerForToolAccess_inr in Eacc as (Hk1 & Hn1 & Hv1).
  destruct (negb _); [by injection H as <- <- <-|].
  assert (k ≠ k1) as Hne by (intros ->; congruence). unfold submitTriggerTask in H.
  destruct (submit_for _ _ _ _ _ _ _ _) as [[submitted sets1] sh1] eqn:Es.
  eapply (submit_for_only _ _ _ _ _ _ _ _ _ _ _ k1 t1) in Es; [|by apply GetTriggerByName_unique].
  apply store_next_only in H. pose proof (only_row_trans _ _ _ _ Es H) as Ho.
  split; [by eapply only_row_unique|]. by apply (only_keeps k k1).
Qed.
End teams.

(** Members of a team reach only its triggers. Creating, updating, deleting
    and running triggers keeps names unique, and leaves every trigger the caller
    may not see as it is, its schedule in the registry included. *)
Theorem triggers_isolated cfg L cronParse scope c now reg sh reg' sh' :
  unique_names (h_triggers sh) → call_trigger cfg L cronParse scope c now reg sh = (reg', sh') →
  ∀ k t, h_triggers sh !! k = Some t → team_visible scope (tr_team_id t) = false →
  unique_names (h_triggers sh') ∧ h_triggers sh' !! k = Some t ∧ reg' !! k = reg !! k.
Proof.
  intros Hu Hc k t Hk Hv.
  assert (unique_names (h_triggers sh') ∧ keeps k reg (h_triggers sh) reg' (h_triggers sh')) as [? [??]].
  2: { split_and!; [done|congruence|done]. }
  destruct c; cbn [call_trigger] in Hc.
  - destruct (CreateTrigger _ _ _ _ _ _ _ _ _ _ _) as [[r reg1] sh1] eqn:E. injection Hc as <- <-.
    by eapply CreateTrigger_frame.
  - destruct (UpdateTrigger _ _ _ _ _ _ _ _ _ _ _ _) as [[r reg1] sh1] eqn:E. injection Hc as <- <-.
    by eapply UpdateTrigger_frame.
  - destruct (DeleteTrigger _ _ _ _) as [[r reg1] sh1] eqn:E. injection Hc as <- <-.
    by eapply DeleteTrigger_frame.
  - destruct (RunTriggerNow _ _ _ _ _ _ _ _ _ _ _) as [[r reg1] sh1] eqn:E. injection Hc as <- <-.
    by eapply RunTriggerNow_frame.
Qed.

(** ** Two faults *)

(** An update that fails unschedules the trigger. When the new name is taken,
    or the UPDATE fails for any other reason, the caller gets an error and no row
    changes, so that the trigger is still enabled and shown with its schedule; but
    its entry is out of the replica's registry already, and only a later update
    or a restart puts it back. *)
Theorem failed_update_unschedules cfg cronParse scope name i i' enabled broken next fault now reg sh k t :
  unique_names (h_triggers sh) →
  check_update cfg cronParse i = inr i' →
  triggerForToolAccess scope name (h_triggers sh) = inr (k, t) →
  (broken ≠ None ∨
   ti_Name i' ≠ name ∧ ∃ k' t', h_triggers sh !! k' = Some t' ∧ tr_name t' = ti_Name i') →
  ∃ e, UpdateTrigger cfg cronParse scope name i enabled broken next fault now reg sh =
    (inl e, delete k reg, sh) ∧ h_triggers sh !! k = Some t ∧ (delete k reg : Registry) !! k = None.
Proof.
  intros Hu Hi Hacc Hbad. pose proof (triggerForToolAccess_inr _ _ _ _ _ Hacc) as (Hk & Hn & _).
  unfold UpdateTrigger. rewrite Hi. cbn [mbind sum_bind]. rewrite Hacc. cbn.
  assert (∃ e, UpdateTrigger_stmt broken name i' enabled now (h_triggers sh) = inl e) as [e ->].
  { unfold UpdateTrigger_stmt. destruct broken as [e|]; [by exists e|].
    destruct Hbad as [[]|(Hne & k' & t' & Hk' & Hn')]; [done|].
    destruct (ti_TriggerConfig i') eqn:Ec; [|by eexists|]; unfold UpdateTrigger_rows;
      rewrite (GetTriggerByName_unique _ _ _ _ Hu Hk Hn), (GetTriggerByName_unique _ _ _ _ Hu Hk' Hn'),
        (bool_decide_eq_false_2 (ti_Name i' = name)), !bool_decide_eq_true_2 by done; by eexists. }
  exists e. split_and!; [done|done|apply lookup_delete_eq].
Qed.

(** A promotion shows any trigger to any caller. A dry run renders the
    trigger's row for a caller that [triggerForToolAccess] refuses, its prompt
    included: what it answers does not depend on the caller. *)
Theorem promotion_leaks pr prefix caller i m k t content :
  trimSpace (pi_Name i) = tr_name t → unique_names m → m !! k = Some t →
  tr_name t ≠ "" → team_visible caller (tr_team_id t) = false → tr_source_id t = None →
  pi_DryRun i = true → pi_AllowSecret i = true →
  (∃ path, triggerDefinitionPath (if trimSpace (pi_Scope i) == "" then "global" else trimSpace (pi_Scope i))
     (pi_TeamName i) (pi_TargetRepo i) (tr_name t) = inr path) →
  RenderTriggerYAML pr (triggerDefFromRecord t prefix)
    (if trimSpace (pi_Scope i) == "" then "global" else trimSpace (pi_Scope i)) = Some content →
  (∀ path, checkTriggerNameAvailable pr (tr_name t) path = inr tt) →
  (∃ e, triggerForToolAccess caller (tr_name t) m = inl e) ∧
  (∃ path, PromoteTrigger pr prefix caller i m = inr (path, content)).
Proof.
  intros Hname Hu Hk Hne Hv Hs Hdry Hsec [path Hpath] Hr Hav.
  pose proof (GetTriggerByName_unique _ _ _ _ Hu Hk eq_refl) as Hg. split.
  - unfold triggerForToolAccess, authorizeTriggerAccess. rewrite Hg. cbn. rewrite Hv. by eexists.
  - unfold PromoteTrigger. rewrite Hname, Hg, Hs, Hpath, Hr, Hdry, Hsec.
    rewrite (bool_decide_eq_false_2 (tr_name t = "")) by done. cbn [err_guard mbind sum_bind].
    rewrite andb_false_r, Hav. by eexists.
Qed.

(** ** Witnesses *)

Definition hourly (t : time) : time := (t / 3600 + 1) * 3600.

Definition sample_cron (expr : string) : option (time → time) :=
  if expr == "@hourly" then Some hourly else None.

Definition nightly : Trigger :=
  mkTrigger "nightly" TriggerTypeCron (CfgObject zero_cfg) "@hourly" "tidy up" None None
    (Some "agent:1") None None None None None [] 600 true 0 0 None None (Some "team1") None.

Definition cron_state : Shared :=
  mkShared {[ "g1" := nightly; "g2" := nightly{{ tr_name := "other"; tr_team_id := Some "team2" }} ]}
    ∅ sample_db.

(** Two replicas tick in the same hour, and once more in the next. *)
Definition sample_ticks : list TStep :=
  [TTick no_run_faults "g1" 3600 (fresh_ids "x") None 3601 ∅ ∅;
   TTick no_run_faults "g1" 3610 (fresh_ids "y") None 3611 ∅ ∅;
   TTick no_run_faults "g1" 7200 (fresh_ids "z") None 7201 ∅ ∅].

Lemma hourly_later t : t < hourly t.
Proof. unfold hourly. pose proof (Z.mul_succ_div_gt t 3600). lia. Qed.

Lemma hourly_mono t t' : t <= t' → hourly t <= hourly t'.
Proof. unfold hourly. intros H. pose proof (Z.div_le_mono t t' 3600). lia. Qed.

Lemma cron_scheduled : scheduled sample_cron "g1" hourly (h_triggers cron_state).
Proof. intros t. vm_compute. by intros [= <-]. Qed.

Lemma cron_unique : unique_names (h_triggers cron_state).
Proof.
  unfold cron_state. cbn [h_triggers].
  intros k k' t t' [[<- <-]|[_ [<- <-]%lookup_singleton_Some]]%lookup_insert_Some
    [[<- <-]|[_ [<- <-]%lookup_singleton_Some]]%lookup_insert_Some; by vm_compute.
Qed.

Lemma one_run_per_interval_witness :
  map run_at (t_run (sample_config 5) sample_lookups sample_cron sample_ticks cron_state).2 = [3600; 7200] ∧
  hourly 3600 <= 7200.
Proof.
  pose proof (one_run_per_interval (sample_config 5) sample_lookups sample_cron "g1" hourly sample_ticks
    cron_state hourly_later hourly_mono cron_scheduled ltac:(by repeat constructor)) as H.
  assert ((t_run (sample_config 5) sample_lookups sample_cron sample_ticks cron_state).2 =
          [mkRun "g1" 3600 true; mkRun "g1" 7200 true]) as E by (vm_compute; reflexivity).
  rewrite E in H. rewrite E. split; [reflexivity|].
  inversion_clear H as [|? ? _ Hall]. inversion_clear Hall as [|? ? Hb _]. by apply Hb.
Defined.

Lemma tick_decides_witness :
  ∃ r task sets' sh', run_tick (sample_config 5) sample_lookups sample_cron no_run_faults "g1" 3600
      (fresh_ids "x") None 3601 ∅ ∅ cron_state = (r, task, sets', sh') ∧
    last_of (h_locks sh') "g1" = Some 3600 ∧ is_Some task.
Proof.
  destruct (run_tick (sample_config 5) sample_lookups sample_cron no_run_faults "g1" 3600
      (fresh_ids "x") None 3601 ∅ ∅ cron_state) as [[[r task] sets'] sh'] eqn:E.
  pose proof (tick_decides (sample_config 5) sample_lookups sample_cron no_run_faults "g1" 3600
      (fresh_ids "x") None 3601 ∅ ∅ cron_state nightly hourly r task sets' sh'
      eq_refl eq_refl eq_refl eq_refl E) as H.
  cbn [interval_over last_of] in H. destruct H as (submitted & Hs & -> & Hl & _ & Hr).
  assert (is_Some (task_of_run submitted)) as Hsome.
  { destruct submitted; [vm_compute in Hs; discriminate|by eexists]. }
  exists r, (task_of_run submitted), sets', sh'. split; [done|]. split; [|done].
  rewrite Hl. by rewrite (Hr Hsome eq_refl).
Defined.

Definition team2_scope : option Scope := Some (mkScope "team2" ["team2"] "tok" "" false).

Lemma triggers_isolated_witness :
  h_triggers (call_trigger (sample_config 5) sample_lookups sample_cron team2_scope
    (CallDelete "nightly") 9 ∅ cron_state).2 !! "g1" = Some nightly ∧
  h_triggers (call_trigger (sample_config 5) sample_lookups sample_cron team2_scope
    (CallDelete "other") 9 ∅ cron_state).2 !! "g2" = None.
Proof.
  split; [|vm_compute; reflexivity].
  destruct (call_trigger (sample_config 5) sample_lookups sample_cron team2_scope
    (CallDelete "nightly") 9 ∅ cron_state) as [reg' sh'] eqn:E.
  destruct (triggers_isolated (sample_config 5) sample_lookups sample_cron team2_scope
    (CallDelete "nightly") 9 ∅ cron_state reg' sh' cron_unique E "g1" nightly eq_refl
    ltac:(vm_compute; reflexivity)) as (_ & H & _).
  exact H.
Defined.

Definition renamed : TriggerInput :=
  mkTriggerInput "" "" "" "other" "cron" CfgEmpty "@hourly" "tidy up" "" "" "agent:1" "" "" "" "" ""
    [] 600.

Lemma failed_update_unschedules_witness :
  ∃ e, UpdateTrigger (sample_config 5) sample_cron None "nightly" renamed true None None None 9
    {[ "g1" := "@hourly" ]} cron_state = (inl e, ∅, cron_state).
Proof.
  destruct (check_update (sample_config 5) sample_cron renamed) as [e|i'] eqn:Ei;
    [vm_compute in Ei; discriminate|].
  assert (ti_Name i' = "other") as Hn by (vm_compute in Ei; by injection Ei as <-).
  destruct (failed_update_unschedules (sample_config 5) sample_cron None "nightly" renamed i' true None
    None None 9 {[ "g1" := "@hourly" ]} cron_state "g1" nightly cron_unique Ei
    ltac:(vm_compute; reflexivity)
    ltac:(right; rewrite Hn; split; [discriminate|]; by eexists "g2", _)) as (e & H & _).
  exists e. exact H.
Defined.

Definition sample_promotion : Promotion :=
  mkPromotion (λ t _, Some (tr_prompt t)) (λ _, false) (λ _ _, inr tt) (λ _ _ _, inl (EMsg "admin required")).

Definition dry_run : PromoteTriggerInput := mkPromoteInput "nightly" "" "" "" "" true true.

Lemma promotion_leaks_witness :
  ∃ path, PromoteTrigger sample_promotion "" team2_scope dry_run (h_triggers cron_state) =
    inr (path, "tidy up").
Proof.
  destruct (promotion_leaks sample_promotion "" team2_scope dry_run (h_triggers cron_state) "g1" nightly
    "tidy up" ltac:(vm_compute; reflexivity) cron_unique eq_refl ltac:(discriminate)
    ltac:(vm_compute; reflexivity) eq_refl eq_refl eq_refl
    ltac:(eexists; vm_compute; reflexivity) eq_refl ltac:(reflexivity)) as [_ H].
  exact H.
Defined.
