(* ===== verification/RunnerPaths.v ===== *)
(** * Paths and workspaces of a runner

    [runner/internal/workspace] and the path checks of [runner/internal/agentenv]
    and [kubernetes_executor.go], over a model of the file system: a node per
    canonical path, and a walk that follows symbolic links as the kernel does.
    The [path/filepath] functions are those of a Unix system. *)
From S2P Require Import Prelude GoStrings Status GithubRepo.

(** ** Paths *)

Definition rooted (p : string) : bool := hasPrefix p "/".

(** The components between the slashes, without the empty ones. *)
Definition parts (p : string) : list string := filter (λ s, s ≠ "") (split_on "/"%char p).

(** The lexical processing of [filepath.Clean]; the stack is reversed. *)
Fixpoint clean_parts (abs : bool) (stack l : list string) : list string :=
  match l with
  | [] => reverse stack
  | s :: l =>
    if s == "." then clean_parts abs stack l
    else if s == ".." then
      match stack with
      | [] => if abs then clean_parts abs [] l else clean_parts abs [".."] l
      | top :: stack' =>
          if top == ".." then clean_parts abs (".." :: stack) l else clean_parts abs stack' l
      end
    else clean_parts abs (s :: stack) l
  end.

Definition render (abs : bool) (l : list string) : string :=
  if abs then "/" ^^ join "/" l else if l is [] then "." else join "/" l.

Definition Clean (p : string) : string := render (rooted p) (clean_parts (rooted p) [] (parts p)).

(** [filepath.Join(a, b)] *)
Definition Join (a b : string) : string :=
  if a == "" then (if b == "" then "" else Clean b)
  else if b == "" then Clean a else Clean (a ^^ "/" ^^ b).

Fixpoint strip_common (a b : list string) : list string * list string :=
  match a, b with
  | x :: a', y :: b' => if x == y then strip_common a' b' else (a, b)
  | _, _ => (a, b)
  end.

(** [filepath.Rel(base, target)] *)
Definition Rel (base target : string) : option string :=
  if negb (Bool.eqb (rooted base) (rooted target)) then None else
  let b := clean_parts (rooted base) [] (parts base) in
  let t := clean_parts (rooted target) [] (parts target) in
  let '(b, t) := strip_common b t in
  if hd "" b == ".." then None
  else Some (render false (map (λ _, "..") b ++ t)).

(** [filepath.Dir] of a cleaned relative path. *)
Definition Dir (p : string) : string :=
  render (rooted p) (clean_parts (rooted p) [] (removelast (parts p))).

(** The parts [strings.FieldsFunc] cuts at slashes and backslashes. *)
Fixpoint fields_sep (acc : string) (s : string) : list string :=
  match s with
  | EmptyString => if acc == "" then [] else [acc]
  | String c s' =>
      if (c == "/")%char || (c == "\")%char
      then (if acc == "" then [] else [acc]) ++ fields_sep "" s'
      else fields_sep (acc ^^ String c "") s'
  end.

Definition containsTraversal (path : string) : bool := existsb (λ part, part == "..") (fields_sep "" path).

(** Is a relative path outside what it is relative to? *)
Definition escapes (rel : string) : bool := (rel == "..") || hasPrefix rel "../".

(** ** The file system *)

Inductive Node := NDir | NFile (content : string) | NLink (target : string).

#[export] Instance Node_eq_dec : EqDecision Node.
Proof. solve_decision. Defined.

Notation FS := (gmap (list string) Node).

(** The root directory is always there. *)
Definition node (fs : FS) (p : list string) : option Node := if p is [] then Some NDir else fs !! p.

Inductive FsErr := ENOENT | ENOTDIR | ELOOP | EEXIST | EISDIR | EIO.

#[export] Instance FsErr_eq_dec : EqDecision FsErr.
Proof. solve_decision. Defined.

Section fs.
(** The steps a walk may take. *)
Variable limit : nat.

(** The path a name leads to; only its last component may be missing. *)
Fixpoint walk (fuel : nat) (fs : FS) (follow : bool) (cur pending : list string) : FsErr + list string :=
  match fuel with
  | O => inl ELOOP
  | S fuel =>
    match pending with
    | [] => inr cur
    | s :: rest =>
      if s == "." then walk fuel fs follow cur rest
      else if s == ".." then walk fuel fs follow (removelast cur) rest
      else
        let p := cur ++ [s] in
        match node fs p with
        | None => if rest is [] then inr p else inl ENOENT
        | Some NDir => walk fuel fs follow p rest
        | Some (NFile _) => if rest is [] then inr p else inl ENOTDIR
        | Some (NLink target) =>
          if negb follow && (if rest is [] then true else false) then inr p
          else walk fuel fs follow (if rooted target then [] else cur) (parts target ++ rest)
        end
    end
  end.

Definition lookup_path (follow : bool) (fs : FS) (p : string) : FsErr + (list string * Node) :=
  match walk limit fs follow [] (parts p) with
  | inl e => inl e
  | inr q => match node fs q with Some n => inr (q, n) | None => inl ENOENT end
  end.

Definition Lstat (fs : FS) (p : string) : FsErr + Node :=
  match lookup_path false fs p with inl e => inl e | inr (_, n) => inr n end.

Definition Stat (fs : FS) (p : string) : FsErr + Node :=
  match lookup_path true fs p with inl e => inl e | inr (_, n) => inr n end.

(** [filepath.EvalSymlinks] of an absolute path. *)
Definition EvalSymlinks (fs : FS) (p : string) : FsErr + string :=
  match lookup_path true fs p with inl e => inl e | inr (q, _) => inr (render true q) end.

Definition Mkdir (fs : FS) (p : string) : (FsErr + unit) * FS :=
  match walk limit fs false [] (parts p) with
  | inl e => (inl e, fs)
  | inr q => match node fs q with Some _ => (inl EEXIST, fs) | None => (inr tt, <[q := NDir]> fs) end
  end.

Definition osWriteFile (fs : FS) (p content : string) : (FsErr + unit) * FS :=
  match walk limit fs true [] (parts p) with
  | inl e => (inl e, fs)
  | inr q => match node fs q with
             | Some NDir | Some (NLink _) => (inl EISDIR, fs)
             | _ => (inr tt, <[q := NFile content]> fs)
             end
  end.
End fs.

(** ** Files of a workspace *)

Section files.
Variable limit : nat.
Variable cwd : string.

Definition Abs (p : string) : string := if rooted p then Clean p else Join cwd p.

Definition cleanRelativePath (path : string) : err + string :=
  if (path == "") || rooted path then inl (EFmt "workspace file path %q must be relative" [path])
  else if containsTraversal path then inl (EFmt "workspace file path %q contains traversal" [path])
  else
    let clean := Clean path in
    if (clean == ".") || escapes clean then inl (EFmt "invalid workspace file path %q" [path])
    else inr clean.

Fixpoint ensure_parts (fs : FS) (current : string) (l : list string) : (err + unit) * FS :=
  match l with
  | [] => (inr tt, fs)
  | part :: l =>
    let current := Join current part in
    match Lstat limit fs current with
    | inl ENOENT =>
      match Mkdir limit fs current with
      | (inl _, fs) => (inl (EFmt "create directory %q" [current]), fs)
      | (inr _, fs) => ensure_parts fs current l
      end
    | inl _ => (inl (EFmt "inspect directory %q" [current]), fs)
    | inr (NLink _) => (inl (EFmt "directory %q is a symlink" [current]), fs)
    | inr (NFile _) => (inl (EFmt "path %q is not a directory" [current]), fs)
    | inr NDir => ensure_parts fs current l
    end
  end.

Definition ensureDirectoryPath (fs : FS) (root relativeDir : string) : (err + unit) * FS :=
  if relativeDir == "." then (inr tt, fs) else ensure_parts fs root (split_on "/"%char relativeDir).

Definition write_target (fs : FS) (target relativePath content : string) : (err + unit) * FS :=
  let write := match osWriteFile limit fs target content with
               | (inl _, fs) => (inl (EFmt "write workspace file %q" [relativePath]), fs)
               | (inr _, fs) => (inr tt, fs)
               end in
  match Lstat limit fs target with
  | inr (NLink _) => (inl (EFmt "workspace file path %q is a symlink" [relativePath]), fs)
  | inr NDir => (inl (EFmt "workspace file path %q is a directory" [relativePath]), fs)
  | inr (NFile _) | inl ENOENT => write
  | inl _ => (inl (EFmt "inspect workspace file %q" [relativePath]), fs)
  end.

Definition WriteFile (fs : FS) (root relativePath content : string) : (err + unit) * FS :=
  match cleanRelativePath relativePath with
  | inl e => (inl e, fs)
  | inr clean =>
    let root := Abs root in
    match Stat limit fs root with
    | inl _ => (inl (EMsg "stat workspace root"), fs)
    | inr NDir =>
      let target := Join root clean in
      if (match Rel root target with None => true | Some rel => escapes rel end)
      then (inl (EFmt "workspace file path %q escapes workspace" [relativePath]), fs)
      else
        match ensureDirectoryPath fs root (Dir clean) with
        | (inl _, fs) => (inl (EFmt "prepare workspace file %q" [relativePath]), fs)
        | (inr _, fs) => write_target fs target relativePath content
        end
    | inr _ => (inl (EFmt "workspace root %q is not a directory" [root]), fs)
    end
  end.

(** ** The manager of the workspaces *)

Definition has_separator (s : string) : bool :=
  negb (all_bytes (λ c, negb ((c == "/")%char || (c == "\")%char)) s).

Definition validateWorkspaceComponent (name value : string) : err + unit :=
  if one_of [""; "."; ".."] value || has_separator value
  then inl (EFmt "invalid %s %q" [name; value]) else inr tt.

Definition validateWorkspaceID (taskID executionID : string) : err + unit :=
  _ ← validateWorkspaceComponent "task_id" taskID;
  validateWorkspaceComponent "execution_id" executionID.

(** The components below the root, each looked at without following it. *)
Fixpoint reject_links (fs : FS) (current : string) (l : list string) : err + unit :=
  match l with
  | [] => inr tt
  | part :: l =>
    if (part == "") || (part == ".") then reject_links fs current l else
    let current := Join current part in
    match Lstat limit fs current with
    | inl ENOENT => inr tt
    | inl _ => inl (EMsg "inspect resume workspace path")
    | inr (NLink _) => inl (EFmt "path component %q is a symlink" [current])
    | inr _ => reject_links fs current l
    end
  end.

Definition rejectSymlinkComponents (fs : FS) (root relativePath : string) : err + unit :=
  reject_links fs root (split_on "/"%char relativePath).

Definition from_fs {A} (r : FsErr + A) (e : err) : err + A :=
  match r with inl _ => inl e | inr a => inr a end.

Definition from_option {A} (r : option A) (e : err) : err + A :=
  match r with None => inl e | Some a => inr a end.

Definition ResolveResumeWorkspace (fs : FS) (managerRoot taskID path : string) : err + string :=
  _ ← validateWorkspaceComponent "task_id" taskID;
  _ ← err_guard ((path == "") || negb (rooted path))
        (EFmt "resume workspace path %q must be absolute" [path]);
  _ ← err_guard (containsTraversal path)
        (EFmt "resume workspace path %q contains traversal" [path]);
  let root := Abs managerRoot in
  resolvedRoot ← from_fs (EvalSymlinks limit fs root) (EMsg "resolve workspace root symlinks");
  let cleanPath := Clean path in
  rel ← from_option (Rel root cleanPath) (EFmt "resume workspace path %q is outside workspace root" [path]);
  _ ← err_guard (escapes rel) (EFmt "resume workspace path %q is outside workspace root" [path]);
  _ ← rejectSymlinkComponents fs root rel;
  resolvedPath ← from_fs (EvalSymlinks limit fs cleanPath) (EMsg "resolve resume workspace path");
  info ← from_fs (Stat limit fs resolvedPath) (EMsg "stat resume workspace");
  _ ← err_guard (match info with NDir => false | _ => true end)
        (EFmt "resume workspace path %q is not a directory" [path]);
  resolvedRel ← from_option (Rel resolvedRoot resolvedPath) (EMsg "resolve resume workspace relative path");
  match split_on "/"%char resolvedRel with
  | [p0; p1; p2] =>
      _ ← err_guard (negb (p0 == taskID) || negb (p2 == "workspace"))
            (EFmt "resume workspace path %q is not owned by task %q" [path; taskID]);
      _ ← validateWorkspaceID taskID p1;
      inr resolvedPath
  | _ => inl (EFmt "resume workspace path %q is not owned by task %q" [path; taskID])
  end.

(** [os.MkdirAll]: the missing directories of a path, from the top. *)
Fixpoint mkdirs (fs : FS) (done l : list string) : (FsErr + unit) * FS :=
  match l with
  | [] => (inr tt, fs)
  | s :: l =>
    let dir := done ++ [s] in
    match Stat limit fs (render true dir) with
    | inr NDir => mkdirs fs dir l
    | inr _ => (inl ENOTDIR, fs)
    | inl ENOENT =>
      match Mkdir limit fs (render true dir) with
      | (inl e, fs) => (inl e, fs)
      | (inr _, fs) => mkdirs fs dir l
      end
    | inl e => (inl e, fs)
    end
  end.

Definition MkdirAll (fs : FS) (p : string) : (FsErr + unit) * FS := mkdirs fs [] (parts (Clean p)).

(** The nodes at and below a path. *)
Definition below (p q : list string) : bool := bool_decide (p `prefix_of` q).

(** [os.RemoveAll]: what the name denotes, without following its last component. *)
Definition RemoveAll (fs : FS) (p : string) : (FsErr + unit) * FS :=
  match walk limit fs false [] (parts p) with
  | inl ENOENT => (inr tt, fs)
  | inl e => (inl e, fs)
  | inr q => (inr tt, filter (λ kv, below q kv.1 = false) fs)
  end.

(** Six attempts; [busy] tells which of them fail. *)
Fixpoint removeAllWithRetry (attempts : nat) (busy : nat → bool) (fs : FS) (dir : string)
    : (FsErr + unit) * FS :=
  match attempts with
  | O => (inl EIO, fs)
  | S attempts =>
    if busy attempts then removeAllWithRetry attempts busy fs dir
    else match RemoveAll fs dir with
         | (inl _, fs) => removeAllWithRetry attempts busy fs dir
         | (inr _, fs) => (inr tt, fs)
         end
  end.

(** [os.Remove] of a directory: only an empty one goes. *)
Definition remove_if_empty (fs : FS) (p : string) : FS :=
  match walk limit fs false [] (parts p) with
  | inl _ => fs
  | inr q => if decide (map_Forall (λ k _, below q k = true → k = q) fs) then delete q fs else fs
  end.

Definition ensureManagedTaskDir (fs : FS) (root taskID : string) : (err + unit) * FS :=
  match MkdirAll fs root with
  | (inl _, fs) => (inl (EMsg "create workspace root"), fs)
  | (inr _, fs) =>
    let taskDir := Join root taskID in
    match Lstat limit fs taskDir with
    | inl ENOENT =>
      match Mkdir limit fs taskDir with
      | (inl _, fs) => (inl (EMsg "create task workspace directory"), fs)
      | (inr _, fs) => (inr tt, fs)
      end
    | inl _ => (inl (EMsg "inspect task workspace directory"), fs)
    | inr (NLink _) => (inl (EFmt "task workspace directory %q is a symlink" [taskDir]), fs)
    | inr (NFile _) => (inl (EFmt "task workspace path %q is not a directory" [taskDir]), fs)
    | inr NDir => (inr tt, fs)
    end
  end.

Definition Create (fs : FS) (root taskID executionID : string) : (err + string) * FS :=
  match validateWorkspaceID taskID executionID with
  | inl e => (inl e, fs)
  | inr _ =>
    match ensureManagedTaskDir fs root taskID with
    | (inl e, fs) => (inl e, fs)
    | (inr _, fs) =>
      let parent := Join (Join root taskID) executionID in
      let dir := Join parent "workspace" in
      match RemoveAll fs parent with
      | (inl _, fs) => (inl (EMsg "remove stale execution directory"), fs)
      | (inr _, fs) =>
        match MkdirAll fs dir with
        | (inl _, fs) => (inl (EMsg "mkdir workspace"), fs)
        | (inr _, fs) => (inr dir, fs)
        end
      end
    end
  end.

(** The modes that are changed before the removal are not part of the model;
    [chmod] is the error of changing them. *)
Definition Destroy (chmod : option err) (busy : nat → bool) (fs : FS) (root taskID executionID : string)
    : (err + unit) * FS :=
  match validateWorkspaceID taskID executionID with
  | inl e => (inl e, fs)
  | inr _ =>
    match ensureManagedTaskDir fs root taskID with
    | (inl e, fs) => (inl e, fs)
    | (inr _, fs) =>
      let dir := Join (Join root taskID) executionID in
      match chmod with
      | Some e => (inl e, fs)
      | None =>
        match removeAllWithRetry 6 busy fs dir with
        | (inl _, fs) => (inl (EMsg "remove workspace"), fs)
        | (inr _, fs) => (inr tt, remove_if_empty fs (Join root taskID))
        end
      end
    end
  end.
End files.

(** The extra files of a task, up to the first error; in [runTask]. *)
Fixpoint write_extra_files (limit : nat) (cwd : string) (fs : FS) (wsDir : string)
    (files : list (string * string)) : (err + unit) * FS :=
  match files with
  | [] => (inr tt, fs)
  | (filename, content) :: files =>
    match WriteFile limit cwd fs wsDir filename content with
    | (inl e, fs) => (inl (EFmt "write extra workspace file: %v" []), fs)
    | (inr _, fs) => write_extra_files limit cwd fs wsDir files
    end
  end.

(** ** Files the runner writes for itself

    These go straight to [os.WriteFile]; [path] is the file below the workspace. *)

Definition write_own (limit : nat) (fs : FS) (path content : string) : (err + unit) * FS :=
  match osWriteFile limit fs path content with
  | (inl _, fs) => (inl (EFmt "write %s" [path]), fs)
  | (inr _, fs) => (inr tt, fs)
  end.

Definition writeRPCSessionExport (limit : nat) (fs : FS) (wsDir export : string) : (err + unit) * FS :=
  if export == "" then (inr tt, fs) else
  let path := Join (Join wsDir ".pi") "session-export.md" in
  match MkdirAll limit fs (Join wsDir ".pi") with
  | (inl _, fs) => (inl (EFmt "mkdir %s" [Join wsDir ".pi"]), fs)
  | (inr _, fs) => write_own limit fs path export
  end.

Definition gitAskpassFilename : string := ".chetter-git-askpass".

(** [script] is the helper's text. *)
Definition WriteGitAskpass (limit : nat) (fs : FS) (workspace script : string) : (err + unit) * FS :=
  write_own limit fs (Join workspace gitAskpassFilename) script.

(** [out] is the output of the log command; what is left out is only its log. *)
Definition dumpContainerLogs (limit : nat) (fs : FS) (out workspaceDir : string) : FS :=
  if out == "" then fs else (osWriteFile limit fs (Join workspaceDir "docker-container.log") out).2.

(** ** Paths of mounts *)

(** [agentenv.HostWorkspaceDir]: where the container daemon finds a workspace. *)
Definition HostWorkspaceDir (hostRoot containerPath workspaceRoot : string) : err + string :=
  if containsTraversal containerPath || containsTraversal workspaceRoot
  then inl (EMsg "workspace path and root must not contain traversal") else
  let containerPath := Clean containerPath in
  let workspaceRoot := Clean workspaceRoot in
  if negb (rooted containerPath) || negb (rooted workspaceRoot)
  then inl (EFmt "workspace path and root must be absolute: path=%q root=%q" [containerPath; workspaceRoot])
  else
  match Rel workspaceRoot containerPath with
  | None => inl (EFmt "workspace path %q is not beneath root %q" [containerPath; workspaceRoot])
  | Some rel =>
    if (rel == ".") || escapes rel
    then inl (EFmt "workspace path %q is not beneath root %q" [containerPath; workspaceRoot])
    else if hostRoot == "" then inr containerPath
    else
      let hostRoot := Clean hostRoot in
      if negb (rooted hostRoot) then inl (EFmt "HOST_WORKSPACE_ROOT %q must be absolute" [hostRoot])
      else
        let mapped := Join hostRoot rel in
        if (match Rel hostRoot mapped with None => true | Some r => escapes r end)
        then inl (EMsg "mapped host workspace path escapes HOST_WORKSPACE_ROOT")
        else inr mapped
  end.

(** The path of a workspace inside the volume of a pod. *)
Definition workspaceSubPath (root workspace : string) : err + string :=
  let root := Clean root in
  let workspace := Clean workspace in
  if negb (rooted root) || negb (rooted workspace)
  then inl (EFmt "workspace root and execution workspace must be absolute: root=%q workspace=%q" [root; workspace])
  else
  match Rel root workspace with
  | None => inl (EMsg "resolve workspace relative to root")
  | Some rel =>
    if one_of ["."; ""; ".."] rel || rooted rel || hasPrefix rel "../"
    then inl (EFmt "workspace %q must be a child of workspace root %q" [workspace; root])
    else inr rel
  end.

(** ** Lemmas: cleaned paths *)

Definition no_slash (s : string) : Prop := all_bytes (λ c, negb (c == "/")%char) s = true.

(** A component that stands for itself. *)
Record proper (s : string) : Prop := {
  proper_nonempty : s ≠ "";
  proper_dot : s ≠ ".";
  proper_up : s ≠ "..";
  proper_slash : no_slash s;
}.

Lemma split_nonempty a : split_on "/"%char a ≠ [].
Proof.
  destruct a as [|c a]; [done|]. cbn [split_on]. destruct (c == "/"%char); [done|].
  by destruct (split_on "/"%char a).
Qed.

Lemma split_slash a b : split_on "/"%char (a ^^ "/" ^^ b) = split_on "/"%char a ++ split_on "/"%char b.
Proof.
  induction a as [|c a IH]; [done|]. rewrite app_cons. cbn [split_on]. rewrite IH.
  destruct (c == "/"%char); [done|]. pose proof (split_nonempty a).
  by destruct (split_on "/"%char a).
Qed.

Lemma parts_slash a b : parts (a ^^ "/" ^^ b) = parts a ++ parts b.
Proof. unfold parts. by rewrite split_slash, filter_app. Qed.

Lemma parts_one s : no_slash s → s ≠ "" → parts s = [s].
Proof.
  intros Hs Hne. unfold parts. rewrite split_on_plain by done. by rewrite filter_cons_True.
Qed.

Lemma join_two s l : l ≠ [] → join "/" (s :: l) = s ^^ "/" ^^ join "/" l.
Proof. by destruct l. Qed.

Lemma parts_join l : Forall proper l → parts (join "/" l) = l.
Proof.
  induction 1 as [|s l Hs Hl IH]; [done|]. destruct l as [|t l].
  - apply parts_one; apply Hs.
  - rewrite join_two, parts_slash, IH by done. rewrite parts_one; [done|apply Hs|apply Hs].
Qed.

Lemma parts_render abs l : Forall proper l → abs = true ∨ l ≠ [] → parts (render abs l) = l.
Proof.
  intros Hl Hne. destruct abs; cbn [render].
  - change ("/" ^^ join "/" l) with ("" ^^ "/" ^^ join "/" l). rewrite parts_slash. by apply parts_join.
  - destruct l as [|s l]; [by destruct Hne|]. by apply parts_join.
Qed.

Lemma join_head s l : ∃ t, join "/" (s :: l) = s ^^ t.
Proof.
  destruct l as [|x l]; [exists ""; by rewrite string_app_nil_r|]. eexists. by apply join_two.
Qed.

Lemma prefix_head d c u : String.prefix (String d "") (String c u) = (d == c).
Proof.
  simpl. destruct (ascii_dec d c) as [->|Hd]; [|by rewrite bool_decide_eq_false_2].
  rewrite bool_decide_eq_true_2 by done. by destruct u.
Qed.

Lemma prefix_slash s t : proper s → hasPrefix (s ^^ t) "/" = false.
Proof.
  intros [H1 _ _ H2]. destruct s as [|c s]; [done|]. unfold no_slash in H2. cbn [all_bytes] in H2.
  apply andb_true_iff in H2 as [H2%negb_true_iff%bool_decide_eq_false _].
  unfold hasPrefix. rewrite app_cons, prefix_head. apply bool_decide_eq_false_2. congruence.
Qed.

Lemma rooted_slash u : rooted (String "/" u) = true.
Proof. unfold rooted, hasPrefix. by rewrite prefix_head. Qed.

Lemma rooted_render abs l : Forall proper l → rooted (render abs l) = abs.
Proof.
  intros Hl. destruct abs; cbn [render]; [apply rooted_slash|].
  destruct Hl as [|s l Hs Hl]; [done|]. destruct (join_head s l) as [t ->]. by apply prefix_slash.
Qed.

Lemma clean_proper abs st l : Forall proper l → clean_parts abs st l = reverse st ++ l.
Proof.
  intros Hl. revert st. induction Hl as [|s l Hs Hl IH]; intros st; [by rewrite app_nil_r|].
  cbn [clean_parts]. rewrite !bool_decide_eq_false_2 by apply Hs.
  by rewrite IH, reverse_cons, <- app_assoc.
Qed.

Lemma no_slash_cons c s : no_slash (String c s) ↔ c ≠ "/"%char ∧ no_slash s.
Proof.
  unfold no_slash. cbn [all_bytes]. rewrite andb_true_iff, negb_true_iff, bool_decide_eq_false. done.
Qed.

Lemma split_no_slash s : Forall no_slash (split_on "/"%char s).
Proof.
  induction s as [|c s IH]; cbn [split_on]; [by repeat constructor|].
  destruct (decide (c = "/"%char)) as [->|Hc].
  - rewrite bool_decide_eq_true_2 by done. by constructor.
  - rewrite bool_decide_eq_false_2 by done.
    destruct IH as [|w ws Hw Hws]; constructor; try done; by apply no_slash_cons.
Qed.

Lemma parts_no_slash s : Forall (λ p, p ≠ "" ∧ no_slash p) (parts s).
Proof.
  apply Forall_forall. intros p Hp. unfold parts in Hp. apply list_elem_of_filter in Hp as [Hne Hp].
  split; [done|]. pose proof (split_no_slash s) as Hall. rewrite Forall_forall in Hall. by apply Hall.
Qed.

(** Cleaning an absolute path leaves proper components only. *)
Lemma clean_abs l st :
  Forall (λ p, p ≠ "" ∧ no_slash p) l → Forall proper st → Forall proper (clean_parts true st l).
Proof.
  intros Hl. revert st. induction Hl as [|s l [Hne Hs] Hl IH]; intros st Hst; cbn [clean_parts].
  { by apply Forall_reverse. }
  destruct (decide (s = ".")) as [->|Hd]; [apply IH; done|].
  rewrite (bool_decide_eq_false_2 _ Hd).
  destruct (decide (s = "..")) as [->|Hu].
  - rewrite bool_decide_eq_true_2 by done. destruct Hst as [|top st Ht Hst]; [by apply IH|].
    rewrite bool_decide_eq_false_2 by apply Ht. by apply IH.
  - rewrite (bool_decide_eq_false_2 _ Hu). apply IH. by constructor.
Qed.

(** And of a relative path, after what goes up. *)
Lemma clean_rel l : ∀ n st,
  Forall (λ p, p ≠ "" ∧ no_slash p) l → Forall proper st →
  ∃ m l', Forall proper l' ∧ clean_parts false (st ++ replicate n "..") l = replicate m ".." ++ l'.
Proof.
  induction l as [|s l IH]; intros n st Hl Hst; cbn [clean_parts].
  { exists n, (reverse st). split; [by apply Forall_reverse|].
    by rewrite reverse_app, reverse_replicate. }
  apply Forall_cons in Hl as [[Hne Hs] Hl].
  destruct (decide (s = ".")) as [->|Hd]; [by apply IH|].
  rewrite (bool_decide_eq_false_2 _ Hd).
  destruct (decide (s = "..")) as [->|Hu].
  - rewrite bool_decide_eq_true_2 by done. destruct Hst as [|top st Ht Hst].
    + destruct n as [|n]; [by apply (IH 1%nat [])|]. by apply (IH (S (S n)) []).
    + cbn. rewrite bool_decide_eq_false_2 by apply Ht. by apply IH.
  - rewrite (bool_decide_eq_false_2 _ Hu). apply (IH n (s :: st)); [done|by constructor].
Qed.

Lemma Clean_abs_render p : rooted p = true →
  ∃ l, Forall proper l ∧ Clean p = render true l ∧ clean_parts (rooted p) [] (parts p) = l.
Proof.
  intros Hr. unfold Clean. rewrite Hr. eexists. split; [|by split].
  apply clean_abs; [apply parts_no_slash|done].
Qed.

Lemma Clean_render abs l : Forall proper l → abs = true ∨ l ≠ [] → Clean (render abs l) = render abs l.
Proof.
  intros Hl Hne. unfold Clean. by rewrite rooted_render, parts_render, clean_proper.
Qed.

Lemma render_nonempty abs l : Forall proper l → render abs l ≠ "".
Proof.
  intros Hl. destruct abs; [done|]. destruct Hl as [|s l Hs Hl]; [done|]. cbn [render].
  destruct (join_head s l) as [t ->]. destruct s as [|c s]; [|done]. by destruct (proper_nonempty _ Hs).
Qed.

Lemma Join_render abs l k :
  Forall proper l → Forall proper k → l ≠ [] ∨ abs = true → k ≠ [] →
  Join (render abs l) (render false k) = render abs (l ++ k).
Proof.
  intros Hl Hk Hne Hke. unfold Join.
  rewrite (bool_decide_eq_false_2 _ (render_nonempty abs l Hl)),
    (bool_decide_eq_false_2 _ (render_nonempty false k Hk)).
  assert (rooted (render abs l ^^ "/" ^^ render false k) = abs) as Hr.
  { destruct abs; [apply rooted_slash|]. destruct Hne as [Hne|]; [|done].
    destruct Hl as [|s l Hs Hl]; [done|]. cbn [render]. destruct (join_head s l) as [t ->].
    rewrite string_app_assoc. by apply prefix_slash. }
  unfold Clean. rewrite Hr, parts_slash, !parts_render; [|done|by right|done|tauto].
  by rewrite clean_proper by (by apply Forall_app).
Qed.

Lemma Join_part l s : Forall proper l → proper s → Join (render true l) s = render true (l ++ [s]).
Proof.
  intros Hl Hs. rewrite <- (Join_render true l [s]); [done|done|by constructor|by right|done].
Qed.

Lemma strip_self l k : strip_common l (l ++ k) = ([], k).
Proof. induction l as [|s l IH]; [by destruct k|]. cbn. by rewrite bool_decide_eq_true_2. Qed.

Lemma Rel_below l k :
  Forall proper l → Forall proper k → Rel (render true l) (render true (l ++ k)) = Some (render false k).
Proof.
  intros Hl Hk. assert (Forall proper (l ++ k)) by (by apply Forall_app).
  unfold Rel. rewrite !rooted_render, !parts_render, !clean_proper by (done || by left).
  change (reverse [] ++ l) with l. change (reverse [] ++ l ++ k) with (l ++ k).
  by rewrite strip_self.
Qed.

Lemma strip_spec b t b' t' : strip_common b t = (b', t') → ∃ c, b = c ++ b' ∧ t = c ++ t'.
Proof.
  revert t. induction b as [|x b IH]; intros t; cbn; [intros [= <- <-]; by exists []|].
  destruct t as [|y t]; [intros [= <- <-]; by exists []|].
  destruct (decide (x = y)) as [->|Hne].
  - rewrite bool_decide_eq_true_2 by done. intros (c & -> & ->)%IH. by exists (y :: c).
  - rewrite (bool_decide_eq_false_2 _ Hne). intros [= <- <-]. by exists [].
Qed.

Lemma escapes_up l : escapes (render false (".." :: l)) = true.
Proof.
  cbn [render]. destruct l as [|s l]; [done|]. rewrite join_two by done. unfold escapes.
  apply orb_true_iff. right. unfold hasPrefix. apply prefix_app. exists (join "/" (s :: l)). done.
Qed.

Lemma escapes_render l : Forall proper l → escapes (render false l) = false.
Proof.
  intros Hl. unfold escapes. apply orb_false_iff.
  assert (hasPrefix (render false l) "../" = false ∧ render false l ≠ "..") as [H1 H2]; [|by rewrite bool_decide_eq_false_2].
  destruct Hl as [|s l Hs Hl]; [done|]. cbn [render].
  assert (∀ t, hasPrefix (s ^^ "/" ^^ t) "../" = false) as Hp.
  { intros t. destruct (hasPrefix _ _) eqn:E; [|done]. exfalso. apply prefix_app in E as [u E].
    apply (f_equal (split_on "/"%char)) in E. rewrite split_slash in E.
    change ("../" ^^ u) with (".." ^^ "/" ^^ u) in E. rewrite split_slash in E.
    rewrite split_on_plain in E by apply Hs. injection E as -> _. by destruct (proper_up _ Hs). }
  destruct l as [|x l].
  - cbn. split; [|apply Hs]. destruct (hasPrefix s "../") eqn:E; [|done]. exfalso.
    apply prefix_app in E as [u E]. pose proof (split_on_plain "/"%char s (proper_slash _ Hs)) as Hsp.
    rewrite E in Hsp. change ("../" ^^ u) with (".." ^^ "/" ^^ u) in Hsp. rewrite split_slash in Hsp.
    pose proof (split_nonempty u). by destruct (split_on "/"%char u).
  - rewrite join_two by done. split; [apply Hp|]. intros E.
    apply (f_equal (split_on "/"%char)) in E. rewrite split_slash in E.
    rewrite split_on_plain in E by apply Hs. cbn in E. injection E as _ E. by apply split_nonempty in E.
Qed.

(** A path that is relative to its base and does not escape is below it. *)
Lemma Rel_inv b t rel :
  Forall proper b → Forall proper t → Rel (render true b) (render true t) = Some rel →
  escapes rel = false → ∃ k, t = b ++ k ∧ rel = render false k.
Proof.
  intros Hb Ht. unfold Rel. rewrite !rooted_render, !parts_render, !clean_proper by (done || by left).
  change (reverse [] ++ b) with b. change (reverse [] ++ t) with t.
  destruct (strip_common b t) as [b' t'] eqn:E. apply strip_spec in E as (c & -> & ->).
  cbn [Bool.eqb negb]. destruct (hd "" b' == ".."); [done|]. intros Hrel Hesc.
  assert (rel = render false (map (λ _, "..") b' ++ t')) as -> by congruence.
  destruct b' as [|x b']; [|cbn [map app] in Hesc; by rewrite escapes_up in Hesc].
  exists t'. by rewrite app_nil_r.
Qed.

(** What [cleanRelativePath] lets through: proper components. *)
Lemma cleanRelativePath_proper path clean :
  cleanRelativePath path = inr clean → ∃ l, l ≠ [] ∧ Forall proper l ∧ clean = render false l.
Proof.
  unfold cleanRelativePath. destruct (path == ""), (rooted path) eqn:Hr; try done. cbn [orb].
  destruct (containsTraversal path); [done|].
  destruct ((Clean path == ".") || escapes (Clean path)) eqn:E; [done|]. intros [= <-].
  apply orb_false_iff in E as [Hdot%bool_decide_eq_false Hesc].
  unfold Clean in *. rewrite Hr in *.
  destruct (clean_rel (parts path) 0 [] (parts_no_slash path) (Forall_nil_2 _)) as (m & l & Hl & E).
  change ([] ++ replicate 0 "..") with ([] : list string) in E. rewrite E in *.
  destruct m as [|m]; [|change (replicate (S m) ".." ++ l) with (".." :: (replicate m ".." ++ l)) in Hesc;
    by rewrite escapes_up in Hesc].
  exists l. split; [|done]. by intros ->.
Qed.

Lemma Dir_render l : Forall proper l → l ≠ [] → Dir (render false l) = render false (removelast l).
Proof.
  intros Hl Hne. unfold Dir. rewrite rooted_render, parts_render by (done || by right).
  assert (Forall proper (removelast l)) as Hl'.
  { destruct (exists_last Hne) as (k & s & ->). rewrite removelast_last. by apply Forall_app in Hl as [? _]. }
  by rewrite clean_proper.
Qed.

Lemma split_render l : Forall proper l → l ≠ [] → split_on "/"%char (render false l) = l.
Proof.
  intros Hl Hne. destruct Hl as [|s l Hs Hl]; [done|]. cbn [render]. clear Hne. revert s Hs.
  induction Hl as [|t l Ht Hl IH]; intros s Hs; [by apply split_on_plain, Hs|].
  rewrite join_two, split_slash, (IH t Ht) by done. by rewrite split_on_plain by apply Hs.
Qed.

(** A path that is absolute once it is cleaned. *)
Lemma Clean_rooted p : rooted (Clean p) = true →
  Clean p = render true (clean_parts true [] (parts p)) ∧ Forall proper (clean_parts true [] (parts p)).
Proof.
  intros Hp. split; [|apply clean_abs; [apply parts_no_slash|done]].
  unfold Clean in *. destruct (rooted p); [done|]. exfalso.
  destruct (clean_rel (parts p) 0 [] (parts_no_slash p) (Forall_nil_2 _)) as (n & l & Hl & El).
  change ([] ++ replicate 0 "..") with ([] : list string) in El. rewrite El in Hp.
  destruct n as [|n].
  - change (replicate 0 ".." ++ l) with l in Hp. by rewrite (rooted_render false l Hl) in Hp.
  - cbn [replicate app render] in Hp. destruct (join_head ".." (replicate n ".." ++ l)) as [t Et].
    by rewrite Et in Hp.
Qed.

(** ** Lemmas: walks through directories *)

(** The path and everything above it are directories, not links. *)
Definition dirs (fs : FS) (p : list string) : Prop := ∀ q, q `prefix_of` p → node fs q = Some NDir.

Lemma dirs_prefix fs p q : dirs fs p → q `prefix_of` p → dirs fs q.
Proof. intros H Hq r Hr. apply H. by etrans. Qed.

Lemma prefix_snoc (q p : list string) s : q `prefix_of` p ++ [s] → q `prefix_of` p ∨ q = p ++ [s].
Proof.
  intros [k E]. destruct k as [|x k] using rev_ind; [right; by rewrite app_nil_r in E|].
  left. rewrite app_assoc in E. apply app_inj_tail in E as [-> _]. by exists k.
Qed.

Lemma dirs_snoc fs p s : dirs fs p → node fs (p ++ [s]) = Some NDir → dirs fs (p ++ [s]).
Proof. intros Hp Hs q [Hq| ->]%prefix_snoc; [by apply Hp|done]. Qed.

Lemma walk_step fuel fs follow cur s l : proper s → node fs (cur ++ [s]) = Some NDir →
  walk (S fuel) fs follow cur (s :: l) = walk fuel fs follow (cur ++ [s]) l.
Proof.
  intros Hs Hn. cbn [walk]. rewrite !bool_decide_eq_false_2 by apply Hs. cbv zeta. by rewrite Hn.
Qed.

Lemma walk_dirs fs follow l : ∀ fuel cur, Forall proper l → dirs fs (cur ++ l) →
  walk fuel fs follow cur l = inl ELOOP ∨ walk fuel fs follow cur l = inr (cur ++ l).
Proof.
  induction l as [|s l IH]; intros fuel cur Hl Hd; destruct fuel as [|fuel]; try by left.
  - right. by rewrite app_nil_r.
  - apply Forall_cons in Hl as [Hs Hl]. rewrite walk_step.
    + rewrite (cons_middle s cur l), app_assoc in *. by apply IH.
    + done.
    + apply Hd. exists l. by rewrite <- app_assoc.
Qed.

(** The last component may be anything that is not followed. *)
Lemma walk_last fs follow l s : ∀ fuel cur, Forall proper l → proper s → dirs fs (cur ++ l) →
  (follow = true → ∀ t, node fs (cur ++ l ++ [s]) ≠ Some (NLink t)) →
  walk fuel fs follow cur (l ++ [s]) = inl ELOOP ∨ walk fuel fs follow cur (l ++ [s]) = inr (cur ++ l ++ [s]).
Proof.
  induction l as [|x l IH]; intros fuel cur Hl Hs Hd Hlink; destruct fuel as [|fuel]; try by left.
  - cbn [walk app]. rewrite !bool_decide_eq_false_2 by apply Hs. cbv zeta.
    destruct (node fs (cur ++ [s])) as [[|c|t]|] eqn:E; [|by right| |by right].
    + destruct fuel; [by left|by right].
    + destruct follow; [by destruct (Hlink eq_refl t)|by right].
  - apply Forall_cons in Hl as [Hx Hl]. cbn [app]. rewrite walk_step; [|done|].
    + rewrite (cons_middle x cur (l ++ [s])), app_assoc. apply IH; [done|done| |].
      * by rewrite <- app_assoc.
      * rewrite <- app_assoc. done.
    + apply Hd. exists l. by rewrite <- app_assoc.
Qed.

Lemma walk_name fs R s fuel : Forall proper R → proper s → dirs fs R →
  walk fuel fs false [] (R ++ [s]) = inl ELOOP ∨ walk fuel fs false [] (R ++ [s]) = inr (R ++ [s]).
Proof. intros HR Hs Hd. by apply (walk_last fs false R s fuel []). Qed.

Lemma Lstat_last limit fs R s : Forall proper R → proper s → dirs fs R →
  Lstat limit fs (render true (R ++ [s])) = inl ELOOP ∨
  Lstat limit fs (render true (R ++ [s])) =
    match node fs (R ++ [s]) with Some n => inr n | None => inl ENOENT end.
Proof.
  intros HR Hs Hd. assert (Forall proper (R ++ [s])) by (apply Forall_app; auto).
  unfold Lstat, lookup_path. rewrite parts_render by (done || by left).
  destruct (walk_name fs R s limit HR Hs Hd) as [-> | ->]; [by left|].
  right. by destruct (node fs (R ++ [s])).
Qed.

(** ** Lemmas: what a write changes *)

(** Only nodes strictly below a path differ. *)
Definition changed_below (R : list string) (fs fs' : FS) : Prop :=
  ∀ q, fs' !! q ≠ fs !! q → ∃ s more, q = R ++ s :: more.

Lemma changed_refl R fs : changed_below R fs fs.
Proof. by intros q. Qed.

Lemma changed_trans R fs1 fs2 fs3 :
  changed_below R fs1 fs2 → changed_below R fs2 fs3 → changed_below R fs1 fs3.
Proof.
  intros H1 H2 q Hq. destruct (decide (fs2 !! q = fs1 !! q)) as [E|E]; [|by apply H1].
  apply H2. by rewrite E.
Qed.

Lemma changed_insert R l fs n : l ≠ [] → changed_below R fs (<[R ++ l := n]> fs).
Proof.
  intros Hl q Hq. destruct (decide (q = R ++ l)) as [->|Hne].
  - destruct l as [|s more]; [done|]. eauto.
  - by rewrite lookup_insert_ne in Hq.
Qed.

Lemma changed_weaken R k fs fs' : changed_below (R ++ k) fs fs' → changed_below R fs fs'.
Proof.
  intros H q Hq. destruct (H q Hq) as (s & more & ->). rewrite <- app_assoc.
  destruct k as [|x k]; cbn; eauto.
Qed.

Lemma node_insert_ne fs p q n : p ≠ q → node (<[p := n]> fs) q = node fs q.
Proof. intros Hne. destruct q; [done|]. by apply lookup_insert_ne. Qed.

Lemma snoc_ne_nil (p : list string) s : p ++ [s] ≠ [].
Proof. by destruct p. Qed.

Lemma node_snoc fs p s : node fs (p ++ [s]) = fs !! (p ++ [s]).
Proof. by destruct p. Qed.

Lemma dirs_insert_new fs R s n : node fs (R ++ [s]) = None → dirs fs R → dirs (<[R ++ [s] := n]> fs) R.
Proof.
  intros Hnone Hd q Hq. rewrite node_insert_ne; [by apply Hd|]. intros <-.
  apply Hd in Hq. by rewrite Hq in Hnone.
Qed.

(** The directories of a file are made one below the other. *)
Lemma ensure_parts_spec limit l : ∀ fs R,
  Forall proper R → Forall proper l → dirs fs R →
  let '(r, fs') := ensure_parts limit fs (render true R) l in
  changed_below R fs fs' ∧ (∀ q n, fs !! q = Some n → fs' !! q = Some n) ∧
  (r = inr tt → dirs fs' (R ++ l)).
Proof.
  induction l as [|s l IH]; intros fs R HR Hl Hd; cbn [ensure_parts].
  { split; [apply changed_refl|]. split; [done|]. intros _. by rewrite app_nil_r. }
  apply Forall_cons in Hl as [Hs Hl]. rewrite Join_part by done.
  assert (Forall proper (R ++ [s])) as HRs by (apply Forall_app; auto).
  destruct (Lstat_last limit fs R s HR Hs Hd) as [-> | ->]; [split_and!; [apply changed_refl|done|done]|].
  destruct (node fs (R ++ [s])) as [[|c|t]|] eqn:En; [|split_and!; [apply changed_refl|done|done]..|].
  - pose proof (IH fs (R ++ [s]) HRs Hl (dirs_snoc _ _ _ Hd En)) as H.
    destruct (ensure_parts _ _ _ l) as [r fs']. destruct H as (H1 & H2 & H3).
    split; [by eapply changed_weaken|]. split; [done|]. intros Hr. rewrite (cons_middle s R l), app_assoc. auto.
  - unfold Mkdir. rewrite parts_render by (done || by left).
    destruct (walk_name fs R s limit HR Hs Hd) as [-> | ->]; [split_and!; [apply changed_refl|done|done]|].
    rewrite En.
    set (fs1 := <[R ++ [s] := NDir]> fs).
    assert (dirs fs1 (R ++ [s])) as Hd1.
    { apply dirs_snoc; [by apply dirs_insert_new|]. rewrite node_snoc. apply lookup_insert_eq. }
    pose proof (IH fs1 (R ++ [s]) HRs Hl Hd1) as H.
    destruct (ensure_parts _ _ _ l) as [r fs']. destruct H as (H1 & H2 & H3).
    split; [|split].
    + apply (changed_trans R fs fs1); [by apply changed_insert|]. by eapply changed_weaken.
    + intros q n Hq. apply H2. unfold fs1. rewrite lookup_insert_ne; [done|]. intros <-.
      rewrite node_snoc in En. congruence.
    + intros Hr. rewrite (cons_middle s R l), app_assoc. auto.
Qed.

Lemma osWriteFile_last limit fs R s content : Forall proper R → proper s → dirs fs R →
  (∀ t, node fs (R ++ [s]) ≠ Some (NLink t)) →
  let '(r, fs') := osWriteFile limit fs (render true (R ++ [s])) content in
  changed_below R fs fs' ∧ (r = inr tt → fs' = <[R ++ [s] := NFile content]> fs).
Proof.
  intros HR Hs Hd Hlink. assert (Forall proper (R ++ [s])) by (apply Forall_app; auto).
  unfold osWriteFile. rewrite parts_render by (done || by left).
  destruct (walk_last fs true R s limit [] HR Hs Hd (λ _, Hlink)) as [-> | ->].
  { split; [apply changed_refl|done]. }
  change ([] ++ R ++ [s]) with (R ++ [s]).
  destruct (node fs (R ++ [s])) as [[]|]; (split; [|done]); first [apply changed_refl|by apply changed_insert].
Qed.

Lemma write_target_spec limit fs R s rel content : Forall proper R → proper s → dirs fs R →
  let '(r, fs') := write_target limit fs (render true (R ++ [s])) rel content in
  changed_below R fs fs' ∧ (r = inr tt → fs' = <[R ++ [s] := NFile content]> fs).
Proof.
  intros HR Hs Hd. unfold write_target.
  destruct (Lstat_last limit fs R s HR Hs Hd) as [-> | ->]; [split; [apply changed_refl|done]|].
  pose proof (osWriteFile_last limit fs R s content HR Hs Hd) as Hw.
  destruct (node fs (R ++ [s])) as [[|c|t]|]; try (split; [apply changed_refl|done]);
    specialize (Hw ltac:(done)); destruct (osWriteFile _ _ _ _) as [[e|[]] fs']; destruct Hw as [Hc Hi];
    (split; [done|]); intros [=]; auto.
Qed.

Lemma Stat_dirs limit fs R : Forall proper R → dirs fs R →
  Stat limit fs (render true R) = inl ELOOP ∨ Stat limit fs (render true R) = inr NDir.
Proof.
  intros HR Hd. unfold Stat, lookup_path. rewrite parts_render by (done || by left).
  destruct (walk_dirs fs true R limit [] HR Hd) as [-> | ->]; [by left|]. right.
  change ([] ++ R) with R. by rewrite (Hd R).
Qed.

(** ** Lemmas: canonical paths *)

Lemma removelast_prefix (p : list string) : removelast p `prefix_of` p.
Proof.
  destruct p as [|s p] using rev_ind; [done|]. rewrite removelast_last. by exists [s].
Qed.

(** Where a walk leads: through directories, and with links followed not to one. *)
Lemma walk_real fs follow fuel : ∀ cur l q,
  Forall (λ p, p ≠ "" ∧ no_slash p) l → Forall proper cur → dirs fs cur →
  walk fuel fs follow cur l = inr q →
  Forall proper q ∧ dirs fs (removelast q) ∧ (follow = true → ∀ t, node fs q ≠ Some (NLink t)).
Proof.
  induction fuel as [|fuel IH]; intros cur l q Hl Hcur Hd; [done|]. cbn [walk].
  destruct Hl as [|s l [Hne Hs] Hl].
  { intros [= <-]. split; [done|]. split; [eapply dirs_prefix; [done|apply removelast_prefix]|].
    intros _ t. by rewrite (Hd cur). }
  destruct (decide (s = ".")) as [->|Hdot]; [by apply IH|]. rewrite (bool_decide_eq_false_2 _ Hdot).
  destruct (decide (s = "..")) as [->|Hup].
  { rewrite bool_decide_eq_true_2 by done. apply IH; [done| |eapply dirs_prefix; [done|apply removelast_prefix]].
    destruct cur as [|x k _] using rev_ind; [done|]. rewrite removelast_last. by apply Forall_app in Hcur as [? _]. }
  rewrite (bool_decide_eq_false_2 _ Hup). cbv zeta.
  assert (Forall proper (cur ++ [s])) as Hp by (apply Forall_app; split; [done|by repeat constructor]).
  assert (∀ n, node fs (cur ++ [s]) = n → (∀ t, n ≠ Some (NLink t)) → inr (cur ++ [s]) = inr (A := FsErr) q →
    Forall proper q ∧ dirs fs (removelast q) ∧ (follow = true → ∀ t, node fs q ≠ Some (NLink t))) as Hend.
  { intros n Hn Hnl [= <-]. rewrite removelast_last, Hn. auto. }
  destruct (node fs (cur ++ [s])) as [[|c|t]|] eqn:En.
  - apply IH; [done|done|by apply dirs_snoc].
  - destruct l; [|done]. by apply (Hend (Some (NFile c))).
  - destruct (negb follow && _) eqn:Ef.
    + intros [= <-]. rewrite removelast_last. split; [done|]. split; [done|]. intros ->. done.
    + assert (Forall (λ p, p ≠ "" ∧ no_slash p) (parts t ++ l)) by (apply Forall_app; split; [apply parts_no_slash|done]).
      destruct (rooted t); apply IH; try done. intros r Hr. by apply prefix_nil_inv in Hr as ->.
  - destruct l; [|done]. by apply (Hend None).
Qed.

Lemma EvalSymlinks_real limit fs p r : EvalSymlinks limit fs p = inr r →
  ∃ q n, r = render true q ∧ Forall proper q ∧ dirs fs (removelast q) ∧ node fs q = Some n ∧
    ∀ t, n ≠ NLink t.
Proof.
  unfold EvalSymlinks, lookup_path. destruct (walk _ _ _ _ _) as [e|q] eqn:Ew; [done|].
  destruct (node fs q) as [n|] eqn:En; [|done]. intros [= <-].
  destruct (walk_real fs true limit [] (parts p) q (parts_no_slash p) (Forall_nil_2 _)) as (H1 & H2 & H3); [|done|].
  { intros r Hr. by apply prefix_nil_inv in Hr as ->. }
  exists q, n. split_and!; try done. intros t ->. by apply (H3 eq_refl t).
Qed.

Lemma component_proper name value : validateWorkspaceComponent name value = inr tt → proper value.
Proof.
  unfold validateWorkspaceComponent. destruct (one_of _ value || has_separator value) eqn:E; [done|].
  intros _. apply orb_false_iff in E as [H1%one_of_false H2].
  split; [set_solver..|]. unfold has_separator in H2. apply negb_false_iff in H2.
  eapply all_bytes_weaken; [|exact H2]. intros c. rewrite !negb_true_iff, orb_false_iff. tauto.
Qed.

Lemma workspace_ids taskID executionID :
  validateWorkspaceID taskID executionID = inr tt → proper taskID ∧ proper executionID.
Proof.
  unfold validateWorkspaceID. destruct (validateWorkspaceComponent "task_id" taskID) as [e|[]] eqn:E1; [done|].
  intros E2. split; by eapply component_proper.
Qed.

(** A relative path of three components that does not start by going up. *)
Lemma split_three l p0 p1 p2 :
  Forall (λ p, p ≠ "" ∧ no_slash p) l → split_on "/"%char (render false l) = [p0; p1; p2] → l = [p0; p1; p2].
Proof.
  intros Hl. destruct Hl as [|s l [_ Hs] Hl]; [done|]. cbn [render].
  assert (split_on "/"%char (join "/" (s :: l)) = s :: l) as ->; [|done].
  revert s Hs. induction Hl as [|t l [_ Ht] Hl IH]; intros s Hs; [by apply split_on_plain|].
  rewrite join_two, split_slash, (IH t Ht) by done. by rewrite split_on_plain.
Qed.

Lemma proper_part s : proper s → s ≠ "" ∧ no_slash s.
Proof. by intros []. Qed.

Lemma Rel_three b t p0 p1 p2 : Forall proper b → Forall proper t → proper p0 →
  ∀ rel, Rel (render true b) (render true t) = Some rel → split_on "/"%char rel = [p0; p1; p2] →
  t = b ++ [p0; p1; p2].
Proof.
  intros Hb Ht H0 rel. unfold Rel. rewrite !rooted_render, !parts_render, !clean_proper by (done || by left).
  change (reverse [] ++ b) with b. change (reverse [] ++ t) with t.
  destruct (strip_common b t) as [b' t'] eqn:E. apply strip_spec in E as (c & -> & ->).
  cbn [Bool.eqb negb]. destruct (hd "" b' == ".."); [done|]. intros Hrel Hsp.
  assert (rel = render false (map (λ _, "..") b' ++ t')) as -> by congruence.
  apply split_three in Hsp.
  2: { apply Forall_app. split; [|apply Forall_app in Ht as [_ Ht]; by eapply Forall_impl; [|apply proper_part]].
    apply Forall_map, Forall_forall. by intros. }
  destruct b' as [|x b']; [by rewrite app_nil_r; cbn in Hsp; rewrite Hsp|].
  injection Hsp as Hup _. by destruct (proper_up _ H0).
Qed.

Lemma from_fs_inr {A} (r : FsErr + A) e a : from_fs r e = inr a ↔ r = inr a.
Proof. unfold from_fs. destruct r; naive_solver. Qed.

Lemma from_option_inr {A} (r : option A) e a : from_option r e = inr a ↔ r = Some a.
Proof. unfold from_option. destruct r; naive_solver. Qed.

Lemma Stat_canonical limit fs q n : Forall proper q → dirs fs (removelast q) → node fs q = Some n →
  (∀ t, n ≠ NLink t) → Stat limit fs (render true q) = inr NDir → n = NDir.
Proof.
  intros Hq Hd Hn Hl. unfold Stat, lookup_path. rewrite parts_render by (done || by left).
  destruct q as [|s k _] using rev_ind; [cbn in Hn; congruence|]. rewrite removelast_last in Hd.
  apply Forall_app in Hq as [Hk Hs%Forall_inv].
  destruct (walk_last fs true k s limit [] Hk Hs Hd) as [-> | ->]; [|done|].
  - intros _ t. cbn [app]. rewrite Hn. naive_solver.
  - cbn [app]. rewrite Hn. by intros [= ->].
Qed.

Lemma resume_shape limit cwd fs managerRoot taskID path p :
  ResolveResumeWorkspace limit cwd fs managerRoot taskID path = inr p →
  ∃ base executionID,
    EvalSymlinks limit fs (Abs cwd managerRoot) = inr (render true base) ∧ Forall proper base ∧
    proper taskID ∧ proper executionID ∧
    p = render true (base ++ [taskID; executionID; "workspace"]) ∧
    dirs fs (base ++ [taskID; executionID; "workspace"]).
Proof.
  unfold ResolveResumeWorkspace. rewrite sum_bind_inr. intros ([] & Htask%component_proper & H).
  do 2 apply sum_bind_inr in H as ([] & _ & H).
  apply sum_bind_inr in H as (rroot & Hroot%from_fs_inr & H).
  apply sum_bind_inr in H as (rel & _ & H). do 2 apply sum_bind_inr in H as ([] & _ & H).
  apply sum_bind_inr in H as (rpath & Hpath%from_fs_inr & H).
  apply sum_bind_inr in H as (info & Hinfo%from_fs_inr & H).
  apply sum_bind_inr in H as ([] & Hdir%err_guard_inr & H).
  apply sum_bind_inr in H as (rrel & Hrel%from_option_inr & H).
  destruct (EvalSymlinks_real _ _ _ _ Hroot) as (base & nb & -> & Hbase & _).
  destruct (EvalSymlinks_real _ _ _ _ Hpath) as (q & n & -> & Hq & Hqd & Hqn & Hql).
  assert (info = NDir) as -> by (by destruct info). clear Hdir.
  pose proof (Stat_canonical _ _ _ _ Hq Hqd Hqn Hql Hinfo) as ->.
  destruct (split_on "/"%char rrel) as [|p0 [|p1 [|p2 [|? ?]]]] eqn:Esp; try done.
  apply sum_bind_inr in H as ([] & Hown%err_guard_inr & H).
  apply sum_bind_inr in H as ([] & Hids & [= <-]).
  rewrite orb_false_iff, !negb_false_iff, !bool_decide_eq_true in Hown. destruct Hown as [-> ->].
  pose proof (Rel_three base q taskID p1 "workspace" Hbase Hq Htask rrel Hrel Esp) as ->.
  exists base, p1. split_and!; try done; [by apply (workspace_ids taskID p1)|].
  change [taskID; p1; "workspace"] with ([taskID; p1] ++ ["workspace"]) in *.
  rewrite app_assoc in *. rewrite removelast_last in Hqd. by apply dirs_snoc.
Qed.

(** ** Lemmas: the manager *)

(** What the manager of a task's workspaces may touch. *)
Definition within (R : list string) (taskID executionID : string) (fs fs' : FS) : Prop :=
  ∀ q, fs' !! q ≠ fs !! q → q = R ++ [taskID] ∨ (R ++ [taskID; executionID]) `prefix_of` q.

Lemma within_refl R t x fs : within R t x fs fs.
Proof. by intros q. Qed.

Lemma within_trans R t x fs1 fs2 fs3 : within R t x fs1 fs2 → within R t x fs2 fs3 → within R t x fs1 fs3.
Proof.
  intros H1 H2 q Hq. destruct (decide (fs2 !! q = fs1 !! q)) as [E|E]; [|by apply H1].
  apply H2. by rewrite E.
Qed.

Lemma within_below R t x fs fs' : changed_below (R ++ [t; x]) fs fs' → within R t x fs fs'.
Proof. intros H q Hq. right. destruct (H q Hq) as (s & more & ->). by exists (s :: more). Qed.

Lemma mkdirs_have limit fs l : ∀ done, Forall proper (done ++ l) → dirs fs (done ++ l) →
  mkdirs limit fs done l = (inl ELOOP, fs) ∨ mkdirs limit fs done l = (inr tt, fs).
Proof.
  induction l as [|s l IH]; intros done Hp Hd; [by right|]. cbn [mkdirs]. cbv zeta.
  rewrite (cons_middle s done l), app_assoc in Hp, Hd.
  assert (Forall proper (done ++ [s])) as Hp1 by (by apply Forall_app in Hp as [? _]).
  destruct (Stat_dirs limit fs (done ++ [s]) Hp1) as [-> | ->]; [|by left|by apply IH].
  eapply dirs_prefix; [exact Hd|]. by exists l.
Qed.

Lemma Stat_missing limit fs k s : Forall proper k → proper s → dirs fs k → node fs (k ++ [s]) = None →
  Stat limit fs (render true (k ++ [s])) = inl ELOOP ∨ Stat limit fs (render true (k ++ [s])) = inl ENOENT.
Proof.
  intros Hk Hs Hd Hn. assert (Forall proper (k ++ [s])) by (apply Forall_app; auto).
  unfold Stat, lookup_path. rewrite parts_render by (done || by left).
  destruct (walk_last fs true k s limit [] Hk Hs Hd) as [-> | ->]; [|by left|right].
  - intros _ t. cbn [app]. by rewrite Hn.
  - cbn [app]. by rewrite Hn.
Qed.

(** Directories where nothing was: they are there, and nothing else is. *)
Lemma mkdirs_step limit fs base s l : Forall proper (base ++ [s]) → dirs fs base →
  node fs (base ++ [s]) = None →
  mkdirs limit fs base (s :: l) = (inl ELOOP, fs) ∨
  mkdirs limit fs base (s :: l) = mkdirs limit (<[base ++ [s] := NDir]> fs) (base ++ [s]) l.
Proof.
  intros Hp Hd Hn. pose proof Hp as [Hb Hs%Forall_inv]%Forall_app. cbn [mkdirs]. cbv zeta.
  destruct (Stat_missing limit fs base s Hb Hs Hd Hn) as [-> | ->]; [by left|].
  unfold Mkdir. rewrite parts_render by (done || by left).
  destruct (walk_name fs base s limit Hb Hs Hd) as [-> | ->]; [by left|]. right. by rewrite Hn.
Qed.

Lemma made_dir fs base s : node fs (base ++ [s]) = None → dirs fs base →
  dirs (<[base ++ [s] := NDir]> fs) (base ++ [s]).
Proof.
  intros Hn Hd. apply dirs_snoc; [by apply dirs_insert_new|]. rewrite node_snoc. apply lookup_insert_eq.
Qed.

Lemma made_changes (fs : FS) base s q :
  <[base ++ [s] := NDir]> fs !! q ≠ fs !! q → (base ++ [s]) `prefix_of` q.
Proof.
  intros Hq. destruct (decide (q = base ++ [s])) as [->|]; [done|]. by rewrite lookup_insert_ne in Hq.
Qed.

Lemma mkdirs_new limit l : ∀ fs base s, Forall proper (base ++ s :: l) → dirs fs base →
  (∀ q, node fs (base ++ s :: q) = None) →
  let '(r, fs') := mkdirs limit fs base (s :: l) in
  (∀ q, fs' !! q ≠ fs !! q → (base ++ [s]) `prefix_of` q) ∧
  (r = inr tt → dirs fs' (base ++ s :: l) ∧ ∀ x q, fs' !! ((base ++ s :: l) ++ x :: q) = None).
Proof.
  induction l as [|t l IH]; intros fs base s Hp Hd Hnone.
  - destruct (mkdirs_step limit fs base s [] Hp Hd (Hnone [])) as [-> | ->]; [by split|].
    cbn [mkdirs]. split; [apply made_changes|]. intros _. split; [by apply made_dir|]. intros x q.
    rewrite lookup_insert_ne; [specialize (Hnone (x :: q)); rewrite <- app_assoc; by destruct base|].
    intros E%(f_equal length). rewrite !length_app in E. cbn in E. lia.
  - assert (Forall proper (base ++ [s])) as Hp1
      by (rewrite cons_middle, app_assoc in Hp; by apply Forall_app in Hp as [? _]).
    destruct (mkdirs_step limit fs base s (t :: l) Hp1 Hd (Hnone [])) as [-> | ->]; [by split|].
    pose proof (IH (<[base ++ [s] := NDir]> fs) (base ++ [s]) t) as IH'.
    rewrite <- !(app_assoc base [s]) in IH'. cbn [app] in IH'.
    destruct (mkdirs _ _ _ (t :: l)) as [r fs']. destruct IH' as [H1 H2]; [done|by apply made_dir| |].
    { intros q. rewrite node_insert_ne, <- app_assoc; [apply Hnone|].
      intros E%(f_equal length). rewrite !length_app in E. cbn in E. lia. }
    split; [|exact H2]. intros q Hq.
    destruct (decide (<[base ++ [s] := NDir]> fs !! q = fs !! q)) as [E|E]; [|by apply made_changes in E].
    rewrite <- E in Hq. apply H1 in Hq. etrans; [|exact Hq]. rewrite (cons_middle s base [t]), app_assoc. by exists [t].
Qed.

Lemma clean_snoc abs s l : proper s → ∀ st, clean_parts abs st (l ++ [s]) = clean_parts abs st l ++ [s].
Proof.
  intros Hs. induction l as [|x l IH]; intros st; cbn [app clean_parts].
  - rewrite !bool_decide_eq_false_2 by apply Hs. apply reverse_cons.
  - destruct (x == "."); [done|]. destruct (x == ".."); [|done].
    destruct st as [|top st]; [by destruct abs|]. by destruct (top == "..").
Qed.

Lemma Join_root root s : rooted root = true → proper s →
  Join root s = render true (clean_parts true [] (parts root) ++ [s]).
Proof.
  intros Hr Hs. unfold Join. destruct (decide (root = "")) as [->|Hne]; [done|].
  rewrite (bool_decide_eq_false_2 _ Hne), bool_decide_eq_false_2 by apply Hs.
  assert (rooted (root ^^ "/" ^^ s) = true) as Hr'.
  { unfold rooted, hasPrefix in *. apply prefix_app in Hr as [t ->]. apply prefix_app.
    eexists. by rewrite string_app_assoc. }
  unfold Clean. rewrite Hr', parts_slash, (parts_one s) by apply Hs. by rewrite clean_snoc.
Qed.

Lemma managed_spec limit fs root taskID :
  rooted root = true → let R := clean_parts true [] (parts root) in
  dirs fs R → proper taskID →
  let '(r, fs') := ensureManagedTaskDir limit fs root taskID in
  (∀ q, fs' !! q ≠ fs !! q → q = R ++ [taskID]) ∧ (r = inr tt → dirs fs' (R ++ [taskID])).
Proof.
  intros Hroot R Hd Htask. assert (Forall proper R) as HR by (apply clean_abs; [apply parts_no_slash|done]).
  unfold ensureManagedTaskDir, MkdirAll, Clean. rewrite Hroot, Join_root by done. fold R.
  rewrite parts_render by (done || by left).
  destruct (mkdirs_have limit fs R [] HR Hd) as [-> | ->]; [by split|].
  destruct (Lstat_last limit fs R taskID HR Htask Hd) as [-> | ->]; [by split|].
  destruct (node fs (R ++ [taskID])) as [[]|] eqn:En; [|by split..|].
  { split; [done|]. intros _. by apply dirs_snoc. }
  assert (Forall proper (R ++ [taskID])) by (apply Forall_app; auto).
  unfold Mkdir. rewrite parts_render by (done || by left).
  destruct (walk_name fs R taskID limit HR Htask Hd) as [-> | ->]; [by split|]. rewrite En. split.
  - intros q Hq. destruct (decide (q = R ++ [taskID])); [done|]. by rewrite lookup_insert_ne in Hq.
  - intros _. apply dirs_snoc; [by apply dirs_insert_new|]. rewrite node_snoc. apply lookup_insert_eq.
Qed.

Lemma node_filter fs p q : below p q = false → node (filter (λ kv, below p kv.1 = false) fs) q = node fs q.
Proof.
  intros Hb. destruct q as [|s q]; [done|]. cbn [node].
  destruct (fs !! (s :: q)) as [n|] eqn:E.
  - by rewrite map_lookup_filter_Some.
  - rewrite map_lookup_filter_None. by left.
Qed.

(** Removing what lies at a name removes that and nothing else. *)
Lemma RemoveAll_spec limit fs k s : Forall proper k → proper s → dirs fs k →
  let '(r, fs') := RemoveAll limit fs (render true (k ++ [s])) in
  (∀ q, fs' !! q ≠ fs !! q → (k ++ [s]) `prefix_of` q) ∧
  (∀ e, r = inl e → fs' = fs) ∧
  (r = inr tt → dirs fs' k ∧ ∀ q, fs' !! ((k ++ [s]) ++ q) = None).
Proof.
  intros Hk Hs Hd. assert (Forall proper (k ++ [s])) by (apply Forall_app; auto).
  unfold RemoveAll. rewrite parts_render by (done || by left).
  destruct (walk_name fs k s limit Hk Hs Hd) as [-> | ->]; [by split|]. split; [|split; [done|]].
  - intros q Hq. destruct (below (k ++ [s]) q) eqn:Eb; [by apply bool_decide_eq_true in Eb|].
    destruct Hq. destruct (fs !! q) as [n|] eqn:E; [by rewrite map_lookup_filter_Some|].
    rewrite map_lookup_filter_None. by left.
  - intros _. split.
    + intros q Hq. rewrite node_filter; [by apply Hd|]. apply bool_decide_eq_false_2. intros Hb.
      apply prefix_length in Hb. apply prefix_length in Hq. rewrite length_app in Hb. cbn in Hb. lia.
    + intros q. rewrite map_lookup_filter_None. right. intros n Hn Hb.
      apply bool_decide_eq_false in Hb. apply Hb. by exists q.
Qed.
Lemma retry_spec limit busy fs k s : Forall proper k → proper s → dirs fs k → ∀ n,
  let '(r, fs') := removeAllWithRetry limit n busy fs (render true (k ++ [s])) in
  (∀ q, fs' !! q ≠ fs !! q → (k ++ [s]) `prefix_of` q) ∧
  (r = inr tt → dirs fs' k ∧ ∀ q, fs' !! ((k ++ [s]) ++ q) = None).
Proof.
  intros Hk Hs Hd. induction n as [|n IH]; cbn [removeAllWithRetry]; [by split|].
  destruct (busy n); [done|]. pose proof (RemoveAll_spec limit fs k s Hk Hs Hd) as Hr.
  destruct (RemoveAll _ _ _) as [[e|[]] fs1]; destruct Hr as (H1 & H2 & H3); [by rewrite (H2 e eq_refl)|by split].
Qed.

Lemma proper_workspace : proper "workspace".
Proof. by split. Qed.

Lemma mkdirs_app limit l1 l2 : ∀ fs done,
  mkdirs limit fs done (l1 ++ l2) =
  match mkdirs limit fs done l1 with
  | (inl e, fs) => (inl e, fs)
  | (inr _, fs) => mkdirs limit fs (done ++ l1) l2
  end.
Proof.
  induction l1 as [|s l1 IH]; intros fs done; cbn [mkdirs app]; [by rewrite app_nil_r|].
  cbv zeta. rewrite (cons_middle s done l1), app_assoc.
  destruct (Stat _ _ _) as [[]|[]]; try done. destruct (Mkdir _ _ _) as [[]]; done.
Qed.

(** A new workspace is an empty directory of its execution. *)
Lemma create_spec limit fs root taskID executionID dir fs' :
  rooted root = true → let R := clean_parts true [] (parts root) in
  let W := R ++ [taskID; executionID; "workspace"] in
  dirs fs R → Create limit fs root taskID executionID = (inr dir, fs') →
  proper taskID ∧ proper executionID ∧ dir = render true W ∧ dirs fs' W ∧
  (∀ s q, fs' !! (W ++ s :: q) = None) ∧ within R taskID executionID fs fs'.
Proof.
  intros Hroot R W Hd. assert (Forall proper R) as HR by (apply clean_abs; [apply parts_no_slash|done]).
  unfold Create. destruct (validateWorkspaceID _ _) as [e|[]] eqn:Eids; [done|].
  apply workspace_ids in Eids as [Ht Hx].
  pose proof (managed_spec limit fs root taskID Hroot Hd Ht) as Hm.
  destruct (ensureManagedTaskDir _ _ _ _) as [[e|[]] fs1]; [done|]. destruct Hm as [Hm1 Hm2].
  specialize (Hm2 eq_refl). fold R in Hm1, Hm2.
  rewrite (Join_root root taskID) by done. fold R. assert (Forall proper (R ++ [taskID])) as HRt by (apply Forall_app; auto).
  rewrite (Join_part _ executionID) by done. assert (Forall proper ((R ++ [taskID]) ++ [executionID])) as HRx by (apply Forall_app; auto).
  rewrite (Join_part _ "workspace") by (done || apply proper_workspace).
  pose proof (RemoveAll_spec limit fs1 (R ++ [taskID]) executionID HRt Hx Hm2) as Hr.
  destruct (RemoveAll _ _ _) as [[e|[]] fs2]; [done|]. destruct Hr as (Hr1 & _ & Hr2).
  destruct (Hr2 eq_refl) as [Hr3 Hr4]. clear Hr2.
  assert (((R ++ [taskID]) ++ [executionID]) ++ ["workspace"] = W) as EW by (unfold W; by rewrite <- !app_assoc).
  assert (Forall proper W) as HW by (rewrite <- EW; apply Forall_app; split; [done|apply Forall_singleton, proper_workspace]).
  rewrite EW. unfold MkdirAll. rewrite Clean_render, parts_render by (done || by left).
  change (W) with (R ++ [taskID] ++ [executionID; "workspace"]) at 1. rewrite app_assoc, mkdirs_app.
  destruct (mkdirs_have limit fs2 (R ++ [taskID]) [] HRt Hr3) as [-> | ->]; [done|].
  change ([] ++ R ++ [taskID]) with (R ++ [taskID]).
  assert ((R ++ [taskID]) ++ [executionID; "workspace"] = W) as EW2 by (unfold W; by rewrite <- app_assoc).
  pose proof (mkdirs_new limit ["workspace"] fs2 (R ++ [taskID]) executionID) as Hn. rewrite EW2 in Hn.
  specialize (Hn HW Hr3). destruct (mkdirs _ fs2 _ _) as [[e|[]] fs3]; [done|]. intros [= <- <-].
  destruct Hn as [Hn1 Hn2].
  { intros q. rewrite cons_middle, app_assoc. specialize (Hr4 q). by destruct R. }
  destruct (Hn2 eq_refl) as [Hn3 Hn4]. split_and!; try done.
  assert (∀ q, (R ++ [taskID]) ++ [executionID] `prefix_of` q → R ++ [taskID; executionID] `prefix_of` q) as Hpre
    by (intros q; by rewrite <- app_assoc).
  apply (within_trans R _ _ _ fs1); [intros q Hq; left; auto|].
  apply (within_trans R _ _ _ fs2); intros q Hq; right; auto.
Qed.

(** With steps enough, a path of directories is found. *)
Lemma walk_enough fs follow l : ∀ fuel cur, (length l < fuel)%nat → Forall proper l → dirs fs (cur ++ l) →
  walk fuel fs follow cur l = inr (cur ++ l).
Proof.
  induction l as [|s l IH]; intros fuel cur Hf Hl Hd; (destruct fuel as [|fuel]; [cbn in Hf; lia|]).
  { by rewrite app_nil_r. }
  apply Forall_cons in Hl as [Hs Hl]. rewrite walk_step; [|done|].
  - rewrite (cons_middle s cur l), app_assoc in *. apply IH; [cbn in Hf; lia|done|done].
  - apply Hd. exists l. by rewrite <- app_assoc.
Qed.

Lemma lookup_enough limit fs follow p : Forall proper p → (length p < limit)%nat → dirs fs p →
  lookup_path limit follow fs (render true p) = inr (p, NDir).
Proof.
  intros Hp Hlen Hd. unfold lookup_path. rewrite parts_render by (done || by left).
  rewrite (walk_enough fs follow p limit []) by done. cbn [app]. by rewrite (Hd p).
Qed.

Lemma reject_links_none limit fs l : ∀ base, Forall proper (base ++ l) → (length (base ++ l) < limit)%nat →
  dirs fs (base ++ l) → reject_links limit fs (render true base) l = inr tt.
Proof.
  induction l as [|s l IH]; intros base Hp Hlen Hd; [done|]. cbn [reject_links].
  rewrite (cons_middle s base l), app_assoc in Hp, Hlen, Hd.
  pose proof Hp as [[Hb Hs%Forall_inv]%Forall_app Hl]%Forall_app.
  rewrite !bool_decide_eq_false_2 by apply Hs. cbn [orb]. rewrite Join_part by done.
  unfold Lstat. rewrite lookup_enough; [by apply IH|by apply Forall_app; auto| |].
  - rewrite length_app in Hlen. lia.
  - eapply dirs_prefix; [exact Hd|]. by exists l.
Qed.

Lemma has_separator_cons c s : has_separator (String c s) = false →
  (c == "/")%char || (c == "\")%char = false ∧ has_separator s = false.
Proof.
  unfold has_separator. cbn [all_bytes]. rewrite !negb_false_iff, andb_true_iff, negb_true_iff. done.
Qed.

Lemma fields_plain c : ∀ acc t, has_separator c = false → fields_sep acc (c ^^ t) = fields_sep (acc ^^ c) t.
Proof.
  induction c as [|x c IH]; intros acc t Hc; [by rewrite string_app_nil_r|].
  apply has_separator_cons in Hc as [Hx Hc]. rewrite app_cons. cbn [fields_sep]. rewrite Hx, IH by done.
  by rewrite string_app_assoc.
Qed.

Lemma fields_slash acc t : acc ≠ "" → fields_sep acc ("/" ^^ t) = acc :: fields_sep "" t.
Proof. intros Hne. change ("/" ^^ t) with (String "/" t). cbn [fields_sep].
  assert (("/"%char == "/"%char) || ("/"%char == "\"%char) = true) as -> by done. by rewrite bool_decide_eq_false_2.
Qed.

Lemma fields_join l : Forall (λ s, proper s ∧ has_separator s = false) l → fields_sep "" (join "/" l) = l.
Proof.
  induction 1 as [|s l [Hs Hp] Hl IH]; [done|]. destruct l as [|t l].
  - change (join "/" [s]) with s. rewrite <- (string_app_nil_r s) at 1. rewrite fields_plain by done.
    change ("" ^^ s) with s. cbn [fields_sep]. by rewrite bool_decide_eq_false_2 by apply Hs.
  - rewrite join_two, fields_plain by done. change ("" ^^ s) with s. by rewrite fields_slash, IH by apply Hs.
Qed.

Lemma no_traversal l : Forall (λ s, proper s ∧ has_separator s = false) l →
  containsTraversal (render true l) = false.
Proof.
  intros Hl. unfold containsTraversal.
  assert (fields_sep "" (render true l) = l) as ->.
  { cbn [render]. change ("/" ^^ join "/" l) with (String "/" (join "/" l)). cbn [fields_sep]. by apply fields_join. }
  induction Hl as [|s l [Hs _] Hl IH]; [done|]. cbn. by rewrite bool_decide_eq_false_2 by apply Hs.
Qed.

Lemma component_plain name value : validateWorkspaceComponent name value = inr tt → has_separator value = false.
Proof.
  unfold validateWorkspaceComponent. destruct (one_of _ value || has_separator value) eqn:E; [done|].
  by apply orb_false_iff in E as [_ ?].
Qed.

(** The workspace of an execution can be resumed under its own name. *)
Lemma resume_own limit cwd fs root taskID executionID :
  rooted root = true → let R := clean_parts true [] (parts root) in
  let W := R ++ [taskID; executionID; "workspace"] in
  Forall (λ s, has_separator s = false) R → validateWorkspaceID taskID executionID = inr tt →
  dirs fs W → (length W < limit)%nat →
  ResolveResumeWorkspace limit cwd fs root taskID (render true W) = inr (render true W).
Proof.
  intros Hroot R W Hsep Hids Hd Hlen.
  assert (Forall proper R) as HR by (apply clean_abs; [apply parts_no_slash|done]).
  pose proof (workspace_ids _ _ Hids) as [Ht Hx]. unfold validateWorkspaceID in Hids.
  apply sum_bind_inr in Hids as ([] & Hvt & Hvx).
  assert (Forall proper [taskID; executionID; "workspace"]) as H3
    by (repeat (apply Forall_cons; split); [done|done|apply proper_workspace|done]).
  assert (Forall proper W) as HW by (by apply Forall_app).
  assert (Forall (λ s, proper s ∧ has_separator s = false) W) as Hplain.
  { apply Forall_app. split; [by apply Forall_and|]. repeat (apply Forall_cons; split); try done.
    - split; [done|by eapply component_plain].
    - split; [done|by eapply component_plain]. }
  assert (Abs cwd root = render true R) as HA by (unfold Abs, Clean; by rewrite Hroot).
  assert (length R < limit)%nat as HlenR by (unfold W in Hlen; rewrite length_app in Hlen; lia).
  assert (dirs fs R) as HdR by (eapply dirs_prefix; [exact Hd|by exists [taskID; executionID; "workspace"]]).
  unfold ResolveResumeWorkspace. rewrite Hvt. cbn [mbind sum_bind].
  rewrite (bool_decide_eq_false_2 _ (render_nonempty true W HW)), rooted_render, no_traversal by done.
  cbn [orb negb err_guard mbind sum_bind]. rewrite HA. unfold EvalSymlinks, Stat.
  rewrite (lookup_enough limit fs true R) by done. cbn [from_fs mbind sum_bind].
  rewrite (Clean_render true W HW) by (by left).
  pose proof (Rel_below R _ HR H3) as Hrel. fold W in Hrel. rewrite Hrel. cbn [from_option mbind sum_bind]. rewrite escapes_render by done.
  cbn [err_guard mbind sum_bind]. unfold rejectSymlinkComponents.
  rewrite split_render, reject_links_none by done. cbn [mbind sum_bind]. fold W.
  rewrite (lookup_enough limit fs true W) by done. cbn [from_fs mbind sum_bind].
  rewrite (lookup_enough limit fs true W) by done. cbn [from_fs err_guard mbind sum_bind].
  rewrite Hrel. cbn [from_option mbind sum_bind]. rewrite split_render by done.
  rewrite !bool_decide_eq_true_2 by done. cbn [negb orb err_guard mbind sum_bind].
  unfold validateWorkspaceID. rewrite Hvt. cbn [mbind sum_bind]. by rewrite Hvx.
Qed.

(** ** Lemmas: writing a file *)

Lemma WriteFile_inside limit cwd fs root path content :
  rooted root = true → dirs fs (clean_parts true [] (parts root)) →
  let R := clean_parts true [] (parts root) in
  let '(r, fs') := WriteFile limit cwd fs root path content in
  changed_below R fs fs' ∧
  (r = inr tt → ∃ l, cleanRelativePath path = inr (render false l) ∧ Forall proper l ∧
     fs' !! (R ++ l) = Some (NFile content) ∧
     ∀ q n, fs !! q = Some n → q ≠ R ++ l → fs' !! q = Some n).
Proof.
  intros Hroot Hd. cbv zeta. set (R := clean_parts true [] (parts root)) in *.
  assert (Forall proper R) as HR by (apply clean_abs; [apply parts_no_slash|done]).
  unfold WriteFile. destruct (cleanRelativePath path) as [e|clean] eqn:Ec; [split; [apply changed_refl|done]|].
  destruct (cleanRelativePath_proper _ _ Ec) as (l & Hne & Hl & ->).
  unfold Abs. rewrite Hroot. unfold Clean. rewrite Hroot. fold R.
  destruct (Stat_dirs limit fs R HR Hd) as [-> | ->]; [split; [apply changed_refl|done]|].
  rewrite Join_render by (done || by right). rewrite Rel_below, escapes_render by done.
  rewrite Dir_render by done. destruct (exists_last Hne) as (k & s & ->). rewrite removelast_last.
  apply Forall_app in Hl as [Hk Hs]. apply Forall_inv in Hs.
  assert (∀ fs1, dirs fs1 (R ++ k) → changed_below R fs fs1 → (∀ q n, fs !! q = Some n → fs1 !! q = Some n) →
    let '(r, fs') := write_target limit fs1 (render true (R ++ k ++ [s])) path content in
    changed_below R fs fs' ∧
    (r = inr tt → ∃ l, inr (render false (k ++ [s])) = inr (A := err) (render false l) ∧ Forall proper l ∧
      fs' !! (R ++ l) = Some (NFile content) ∧ ∀ q n, fs !! q = Some n → q ≠ R ++ l → fs' !! q = Some n)) as Hw.
  { intros fs1 Hd1 Hc1 Hk1. rewrite app_assoc.
    pose proof (write_target_spec limit fs1 (R ++ k) s path content ltac:(by apply Forall_app) Hs Hd1) as Hw.
    destruct (write_target _ _ _ _ _) as [r fs']. destruct Hw as [Hc Hi].
    split; [eapply changed_trans; [done|by eapply changed_weaken]|]. intros Hr. exists (k ++ [s]).
    split; [done|]. split; [apply Forall_app; auto|]. rewrite (Hi Hr), app_assoc.
    split; [apply lookup_insert_eq|]. intros q n Hq Hqne. rewrite lookup_insert_ne by done. auto. }
  unfold ensureDirectoryPath. destruct (decide (k = [])) as [->|Hkne].
  { change (render false [] == ".") with true. cbv iota. apply Hw; [by rewrite app_nil_r|apply changed_refl|done]. }
  rewrite bool_decide_eq_false_2, split_render.
  2-3: done. 2: { intros E. apply (f_equal parts) in E. rewrite parts_render in E by (done || by right).
    change (parts ".") with ["."] in E. rewrite E in Hk. apply Forall_inv in Hk. by destruct (proper_dot _ Hk). }
  pose proof (ensure_parts_spec limit k fs R HR Hk Hd) as He.
  destruct (ensure_parts _ _ _ k) as [[e|[]] fs1]; destruct He as (H1 & H2 & H3); [by split|].
  apply Hw; auto.
Qed.

Lemma dirs_kept fs fs' W : changed_below W fs fs' → dirs fs W → dirs fs' W.
Proof.
  intros Hc Hd q Hq. destruct q as [|s q]; [done|]. rewrite <- (Hd (s :: q) Hq). cbn [node].
  destruct (decide (fs' !! (s :: q) = fs !! (s :: q))) as [E|E]; [done|].
  destruct (Hc _ E) as (x & more & E2). apply prefix_length in Hq. rewrite E2, length_app in Hq. cbn in Hq. lia.
Qed.

Lemma write_extra_files_spec limit cwd W files : Forall proper W → ∀ fs, dirs fs W →
  changed_below W fs (write_extra_files limit cwd fs (render true W) files).2.
Proof.
  intros HW. induction files as [|[name content] files IH]; intros fs Hd; cbn [write_extra_files].
  { apply changed_refl. }
  assert (clean_parts true [] (parts (render true W)) = W) as E
    by (rewrite parts_render by (done || by left); by rewrite clean_proper).
  pose proof (WriteFile_inside limit cwd fs (render true W) name content) as Hw. rewrite E in Hw.
  specialize (Hw (rooted_render true W HW) Hd).
  destruct (WriteFile _ _ _ _ _ _) as [[e|[]] fs1]; destruct Hw as [Hc _]; [done|].
  eapply changed_trans; [exact Hc|]. apply IH. by eapply dirs_kept.
Qed.

(** ** Properties *)


(** A test of [dirs]. *)
Lemma dirs_check fs p :
  forallb (λ i, bool_decide (node fs (take i p) = Some NDir)) (seq 0 (S (length p))) = true → dirs fs p.
Proof.
  intros H q Hq. pose proof (prefix_length q p Hq) as Hlen. destruct Hq as [k ->].
  rewrite forallb_forall in H. specialize (H (length q)). rewrite take_app_length in H.
  apply bool_decide_eq_true in H; [done|]. apply in_seq. rewrite length_app in *. lia.
Qed.

Definition sample_root : string := "/var/lib/runner".
Definition sample_workspace : string := "/var/lib/runner/task_1/exec_1/workspace".
Definition sample_base : FS := (MkdirAll 100 ∅ sample_root).2.
Definition sample_fs : FS := (Create 100 sample_base sample_root "task_1" "exec_1").2.




(** A workspace survives to be resumed. The path that [Create] hands out, and
    that a report of the run gives the control plane, is accepted by a resume of
    the same task as it is, as long as the root's name has no backslash. *)
Theorem workspace_roundtrip limit cwd fs root taskID executionID dir fs' :
  rooted root = true → let R := clean_parts true [] (parts root) in
  Forall (λ s, has_separator s = false) R → dirs fs R → (length R + 3 < limit)%nat →
  Create limit fs root taskID executionID = (inr dir, fs') →
  ResolveResumeWorkspace limit cwd fs' root taskID dir = inr dir.
Proof.
  intros Hroot R Hsep Hd Hlen Hc.
  destruct (create_spec limit fs root taskID executionID dir fs' Hroot Hd Hc) as (_ & _ & -> & HdW & _).
  apply (resume_own limit cwd fs' root taskID executionID Hroot Hsep); [|exact HdW|].
  - unfold Create in Hc. by destruct (validateWorkspaceID _ _) as [e|[]].
  - rewrite length_app. cbn. fold R. lia.
Qed.

Lemma workspace_roundtrip_witness :
  ResolveResumeWorkspace 100 "" sample_fs sample_root "task_1" sample_workspace = inr sample_workspace.
Proof.
  apply (workspace_roundtrip 100 "" sample_base sample_root "task_1" "exec_1").
  - reflexivity.
  - repeat (apply Forall_cons; split); [reflexivity..|apply Forall_nil; exact I].
  - apply dirs_check. vm_compute. reflexivity.
  - vm_compute. lia.
  - vm_compute. reflexivity.
Defined.

(** Destroying a workspace removes it alone. Nothing at or below the directory
    of the execution is left when it succeeds, however often a removal has to be
    retried, and nothing of another execution or task is touched. *)
Theorem destroy_isolated limit chmod busy fs root taskID executionID :
  rooted root = true → let R := clean_parts true [] (parts root) in
  dirs fs R →
  let '(r, fs') := Destroy limit chmod busy fs root taskID executionID in
  within R taskID executionID fs fs' ∧
  (r = inr tt → ∀ q, fs' !! (R ++ [taskID; executionID] ++ q) = None).
Proof.
  intros Hroot R Hd. assert (Forall proper R) as HR by (apply clean_abs; [apply parts_no_slash|done]).
  unfold Destroy. destruct (validateWorkspaceID _ _) as [e|[]] eqn:Eids; [split; [apply within_refl|done]|].
  apply workspace_ids in Eids as [Ht Hx].
  pose proof (managed_spec limit fs root taskID Hroot Hd Ht) as Hm.
  destruct (ensureManagedTaskDir _ _ _ _) as [[e|[]] fs1]; destruct Hm as [Hm1 Hm2]; fold R in Hm1, Hm2;
    (assert (within R taskID executionID fs fs1) as Hin by (intros q Hq; left; auto)); [by split|].
  specialize (Hm2 eq_refl). destruct chmod; [by split|].
  rewrite (Join_root root taskID) by done. fold R. assert (Forall proper (R ++ [taskID])) as HRt by (apply Forall_app; auto).
  rewrite (Join_part _ executionID) by done.
  pose proof (retry_spec limit busy fs1 (R ++ [taskID]) executionID HRt Hx Hm2 6) as Hr.
  destruct (removeAllWithRetry _ _ _ _ _) as [[e|[]] fs2]; destruct Hr as [Hr1 Hr2];
    (assert (within R taskID executionID fs fs2) as Hin2
       by (eapply within_trans; [exact Hin|]; intros q Hq; right; rewrite <- app_assoc in Hr1; auto)); [by split|].
  destruct (Hr2 eq_refl) as [Hr3 Hr4].
  assert (∀ q, fs2 !! (R ++ [taskID; executionID] ++ q) = None) as Hgone.
  { intros q. specialize (Hr4 q). by rewrite <- !app_assoc in Hr4. }
  unfold remove_if_empty. rewrite parts_render by (done || by left).
  destruct (walk_name fs2 R taskID limit HR Ht ltac:(eapply dirs_prefix; [exact Hr3|by exists [taskID]])) as [-> | ->];
    [by split|].
  destruct (decide _); [|by split]. split.
  - eapply within_trans; [exact Hin2|]. intros q Hq. left.
    destruct (decide (q = R ++ [taskID])); [done|]. by rewrite lookup_delete_ne in Hq.
  - intros _ q. apply lookup_delete_None. by right.
Qed.

Lemma destroy_isolated_witness :
  let '(r, fs') := Destroy 100 None (λ n, (3 <? n)%nat) sample_fs sample_root "task_1" "exec_1" in
  r = inr tt ∧ fs' !! parts sample_workspace = None.
Proof.
  pose proof (destroy_isolated 100 None (λ n, (3 <? n)%nat) sample_fs sample_root "task_1" "exec_1" eq_refl
    ltac:(apply dirs_check; vm_compute; reflexivity)) as H.
  assert ((Destroy 100 None (λ n, (3 <? n)%nat) sample_fs sample_root "task_1" "exec_1").1 = inr tt) as E
    by (vm_compute; reflexivity).
  destruct (Destroy _ _ _ _ _ _ _) as [r fs']. destruct H as [_ H]. cbn in E. split; [exact E|].
  exact (H E ["workspace"]).
Defined.

(** What is mounted is the workspace. When the path of a workspace is mapped to
    the host of the container daemon, the result is the same path below the host's
    root as the workspace has below the runner's root, never the root itself and
    never outside it; and the path inside a pod's volume is that same relative
    path. *)
Theorem mounts_below hostRoot workspace root m :
  HostWorkspaceDir hostRoot workspace root = inr m →
  let parts_of p := clean_parts true [] (parts p) in
  ∃ k, k ≠ [] ∧ Forall proper k ∧ parts_of workspace = parts_of root ++ k ∧
    m = (if hostRoot == "" then render true (parts_of workspace)
         else render true (parts_of hostRoot ++ k)) ∧
    workspaceSubPath root workspace = inr (render false k).
Proof.
  cbv zeta. unfold HostWorkspaceDir. destruct (_ || _); [done|].
  destruct (negb (rooted (Clean workspace)) || negb (rooted (Clean root))) eqn:Er; [done|].
  apply orb_false_iff in Er as [Hw%negb_false_iff Hr%negb_false_iff].
  destruct (Clean_rooted _ Hw) as [Ew Pw], (Clean_rooted _ Hr) as [Eroot Pr].
  set (W := clean_parts true [] (parts workspace)) in *. set (R := clean_parts true [] (parts root)) in *.
  destruct (Rel (Clean root) (Clean workspace)) as [rel|] eqn:Erel; [|done].
  destruct ((rel == ".") || escapes rel) eqn:Eesc; [done|].
  apply orb_false_iff in Eesc as [Hdot%bool_decide_eq_false Hesc].
  pose proof Erel as Erel'. rewrite Ew, Eroot in Erel'.
  destruct (Rel_inv R W rel Pr Pw Erel' Hesc) as (k & EW & ->).
  assert (k ≠ []) as Hk by (by intros ->).
  assert (Forall proper k) as Pk by (rewrite EW in Pw; by apply Forall_app in Pw as [_ ?]).
  assert (workspaceSubPath root workspace = inr (render false k)) as Hsub.
  { unfold workspaceSubPath. rewrite Hw, Hr, Erel. cbn [negb orb].
    assert (one_of ["."; ""; ".."] (render false k) = false) as ->.
    { apply one_of_false. rewrite !not_elem_of_cons. split_and!; [done|by apply render_nonempty| |apply not_elem_of_nil].
      intros E. unfold escapes in Hesc. rewrite E in Hesc. done. }
    rewrite rooted_render by done. unfold escapes in Hesc. apply orb_false_iff in Hesc as [_ ->]. done. }
  destruct (decide (hostRoot = "")) as [->|Hne].
  { rewrite bool_decide_eq_true_2 by done. intros [= <-]. exists k. by rewrite Ew. }
  rewrite (bool_decide_eq_false_2 _ Hne). destruct (rooted (Clean hostRoot)) eqn:Eh; [|done]. cbn [negb].
  destruct (Clean_rooted _ Eh) as [-> Ph]. rewrite Join_render by (done || by right).
  rewrite Rel_below, escapes_render by done. intros [= <-]. by exists k.
Qed.

Lemma mounts_below_witness :
  ∃ k, HostWorkspaceDir "/srv/chetter" sample_workspace sample_root = inr ("/srv/chetter/" ^^ join "/" k) ∧ k ≠ [].
Proof.
  destruct (mounts_below "/srv/chetter" sample_workspace sample_root "/srv/chetter/task_1/exec_1/workspace")
    as (k & Hk & _ & Hw & Hm & _); [vm_compute; reflexivity|].
  exists k. split; [|exact Hk]. assert (k = ["task_1"; "exec_1"; "workspace"]) as ->.
  { apply (app_inv_head (clean_parts true [] (parts sample_root))). rewrite <- Hw. vm_compute. reflexivity. }
  vm_compute. reflexivity.
Defined.

(** A walk through directories goes on from where they lead. *)
Lemma walk_on fs follow l : ∀ n cur rest, Forall proper l → dirs fs (cur ++ l) →
  walk (length l + n) fs follow cur (l ++ rest) = walk n fs follow (cur ++ l) rest.
Proof.
  induction l as [|s l IH]; intros n cur rest Hl Hd; [by rewrite app_nil_r|].
  apply Forall_cons in Hl as [Hs Hl]. cbn [length app Nat.add]. rewrite walk_step; [|done|].
  - rewrite IH; [by rewrite <- app_assoc|done|by rewrite <- app_assoc].
  - apply Hd. exists l. by rewrite <- app_assoc.
Qed.

(** A link at the end of a path that leads to a file, or to none yet. *)
Lemma walk_link limit fs P name target s :
  Forall proper P → proper name → Forall proper target → proper s →
  (length P + length target + 3 < limit)%nat → dirs fs P → dirs fs target →
  node fs (P ++ [name]) = Some (NLink (render true (target ++ [s]))) →
  (node fs (target ++ [s]) = None ∨ ∃ c, node fs (target ++ [s]) = Some (NFile c)) →
  walk limit fs true [] (P ++ [name]) = inr (target ++ [s]).
Proof.
  intros HP Hname Ht Hs Hlen HdP Hdt Hlink Hend.
  replace limit with (length P + S (length target + S (limit - length P - length target - 2)))%nat by lia.
  rewrite walk_on by done. cbn [app]. cbn [walk]. rewrite !bool_decide_eq_false_2 by apply Hname. cbv zeta.
  rewrite Hlink. cbn [negb andb]. assert (Forall proper (target ++ [s])) as Hts by (apply Forall_app; auto).
  rewrite rooted_render, parts_render, app_nil_r by (done || by left). rewrite walk_on by done.
  cbn [app]. cbn [walk]. rewrite !bool_decide_eq_false_2 by apply Hs. cbv zeta.
  by destruct Hend as [-> | [c ->]].
Qed.

(** The runner's own files follow links. An agent that puts a link at the name
    of a file the runner writes for itself into the shared workspace (its session
    export, the credential helper of a resume, the log of a container) chooses the
    file of the runner's host that is written instead; an extra file of the same
    name is refused. *)
Theorem own_files_follow_links limit fs P name target s content :
  Forall proper P → proper name → Forall proper target → proper s →
  (length P + length target + 3 < limit)%nat → dirs fs P → dirs fs target →
  node fs (P ++ [name]) = Some (NLink (render true (target ++ [s]))) →
  (node fs (target ++ [s]) = None ∨ ∃ c, node fs (target ++ [s]) = Some (NFile c)) →
  write_own limit fs (render true (P ++ [name])) content = (inr tt, <[target ++ [s] := NFile content]> fs) ∧
  let '(r, fs') := write_target limit fs (render true (P ++ [name])) name content in
  r ≠ inr tt ∧ fs' = fs.
Proof.
  intros HP Hname Ht Hs Hlen HdP Hdt Hlink Hend.
  assert (Forall proper (P ++ [name])) as HPn by (apply Forall_app; auto). split.
  - unfold write_own, osWriteFile. rewrite parts_render by (done || by left).
    rewrite (walk_link limit fs P name target s) by done. by destruct Hend as [-> | [c ->]].
  - unfold write_target.
    destruct (Lstat_last limit fs P name HP Hname HdP) as [-> | ->]; [done|]. by rewrite Hlink.
Qed.

(** A session export that is a link to a file of the host. *)
Definition sample_linked : FS :=
  <[["var"; "cron"] := NFile "* * * * * root true"]>
  (<[parts sample_workspace ++ [".pi"; "session-export.md"] := NLink "/var/cron"]>
  (<[parts sample_workspace ++ [".pi"] := NDir]> sample_fs)).

Example export_overwrites :
  (writeRPCSessionExport 100 sample_linked sample_workspace "# Pi Session Export").2 !! ["var"; "cron"]
    = Some (NFile "# Pi Session Export").
Proof. vm_compute. reflexivity. Qed.

Definition sample_pi : list string := ["var"; "lib"; "runner"; "task_1"; "exec_1"; "workspace"; ".pi"].

Lemma own_files_follow_links_witness :
  (write_own 100 sample_linked (render true (sample_pi ++ ["session-export.md"])) "# Pi Session Export").1 = inr tt.
Proof.
  destruct (own_files_follow_links 100 sample_linked sample_pi "session-export.md"
    ["var"] "cron" "# Pi Session Export") as [H _].
  - repeat (apply Forall_cons; split; [by split|]). apply Forall_nil. exact I.
  - by split.
  - repeat (apply Forall_cons; split; [by split|]). apply Forall_nil. exact I.
  - by split.
  - vm_compute. lia.
  - apply dirs_check. vm_compute. reflexivity.
  - apply dirs_check. vm_compute. reflexivity.
  - vm_compute. reflexivity.
  - right. exists "* * * * * root true". vm_compute. reflexivity.
  - rewrite H. exact eq_refl.
Defined.
