(* ===== verification/RunnerReport.v ===== *)
(** * What a runner reports

    The reports of a run to the control plane: [finishStatusResponse], the
    publishing functions, the classification of errors, redaction and the counters
    of [runner/internal/controller/runner.go] and [runner_task.go], and the
    delivery with its retry window of [runner_rpc.go]. A report is the
    [TaskResponse] handed to [reportTaskResponse]; [report_event] is the event
    that goes over the wire, which RunnerEvent.v receives. *)
From S2P Require Import Prelude GoStrings Status Repos Redact Db.

(** ** Requests and responses *)

Record MCPEndpoint := mkMCPEndpoint {
  ep_Name : string;
  ep_URL : string;
  ep_BearerTokenEnv : string;
}.

Record TaskRequest := mkTaskRequest {
  rq_TaskID : string;
  rq_ExecutionID : string;
  rq_ClaimID : string;
  rq_AgentSessionID : string;
  rq_UserPromptID : string;
  rq_AgentImage : string;
  rq_Prompt : string;
  rq_GitURL : string;
  rq_GitRef : string;
  rq_Repos : list RepoRef;
  rq_GitHubRepo : string;
  rq_Agent : string;
  rq_ProviderID : string;
  rq_ModelID : string;
  rq_ProviderAPIKeyEnv : string;
  rq_VariantID : string;
  rq_Skills : list string;
  rq_McpEndpoints : list MCPEndpoint;
  rq_RunnerMCPToken : string;
  rq_Harness : string;
  rq_TimeoutSec : Z;
  rq_MaxMemoryMB : Z;
  rq_MaxCPU : Z;
  rq_Env : gmap string string;
  rq_CheckpointAfterSuccess : bool;
  rq_ResumeWorkspacePath : string;
  rq_ResumeHarnessSessionID : string;
  rq_IsolationRequired : bool;
  rq_ExtraFiles : list (string * string);
  rq_GitAuthorName : string;
  rq_GitAuthorEmail : string;
  rq_GitHubCredentialURL : string;
  rq_GitHubCredentialToken : string;
}.

Definition no_usage : TokenUsage := Build_TokenUsage 0 0 0 0 0 0.

Record TaskResponse := mkTaskResponse {
  rs_TaskID : string;
  rs_ExecutionID : string;
  rs_ClaimID : string;
  rs_AgentSessionID : string;
  rs_UserPromptID : string;
  rs_Status : string;
  rs_Summary : string;
  rs_Error : string;
  rs_Artifacts : list string;
  rs_ProviderID : string;
  rs_ModelID : string;
  rs_VariantID : string;
  rs_OpenCodeSessionID : string;
  rs_RunnerImageDigest : string;
  rs_SessionExport : string;
  rs_StartedAt : option time;
  rs_EndedAt : option time;
  rs_CheckpointPath : string;
  rs_WorkspacePath : string;
  rs_ErrorCategory : string;
  rs_TokenUsage : TokenUsage;
  rs_RunnerMCPToken : string;
}.

Definition isTerminalStatus (status : string) : bool :=
  one_of ["done"; "error"; "cancelled"] status.

(** ** Classification *)

Definition classifyErrorCategory (status message : string) : string :=
  if status == "cancelled" then "cancelled" else
  let lower := toLower message in
  if contains_any ["sandbox failed to start"; "sandbox_start_failed"] lower then
    "sandbox_start_failed"
  else if contains_any ["sandbox crashed"; "sandbox_crashed"] lower then "sandbox_crashed"
  else if contains_any ["budget"; "cost limit"; "max budget"] lower then "budget_exceeded"
  else if contains_any ["oomkilled"; "out of memory"; "memory limit"; "resource limit";
                        "cgroup memory"] lower then "resource_limit"
  else if contains_any ["timeout"; "deadline exceeded"; "context deadline"] lower then "timeout"
  else if isPromptTransportFailureMessage lower then "transport_error"
  else if contains_any ["stuck"; "loop"] lower then "stuck"
  else if contains_any ["model"; "llm"; "rate limit"; "provider"; "api error"] lower then
    "model_error"
  else if message == "" then "unknown"
  else "runtime_error".

(** ** Building a response *)

Section responses.
(** [os.Getenv]. *)
Variable getenv : string → string.

Definition envValue (env : gmap string string) (key fallback : string) : string :=
  let value := trimSpace (default "" (env !! key)) in
  if negb (value == "") then value
  else let value := trimSpace (getenv key) in
       if negb (value == "") then value else fallback.

Definition decorateTaskResponse (env : gmap string string) (sessionID : string) (resp : TaskResponse)
    : TaskResponse :=
  let or_else (v w : string) := if v == "" then w else v in
  resp{{ rs_ProviderID := or_else (rs_ProviderID resp) (envValue env "LLM_PROVIDER" "");
         rs_ModelID := or_else (rs_ModelID resp) (envValue env "LLM_MODEL_CODER" "");
         rs_VariantID := or_else (rs_VariantID resp) (envValue env "LLM_VARIANT" "");
         rs_OpenCodeSessionID := or_else (rs_OpenCodeSessionID resp) sessionID;
         rs_RunnerImageDigest := or_else (rs_RunnerImageDigest resp)
                                   (getenv "CHETTER_RUNNER_IMAGE_DIGEST") }}.

(** A model of the form provider/model names its provider. *)
Definition qualified_model (resp : TaskResponse) : TaskResponse :=
  if rs_ProviderID resp == "" then
    match cut "/" (rs_ModelID resp) with
    | Some (provider, model) => resp{{ rs_ProviderID := provider; rs_ModelID := model }}
    | None => resp
    end
  else resp.

Definition decorateTaskResponseForRequest (req : TaskRequest) (sessionID : string) (resp : TaskResponse)
    : TaskResponse :=
  let or_else (v w : string) := if v == "" then w else v in
  let resp := resp{{ rs_ClaimID := rq_ClaimID req; rs_AgentSessionID := rq_AgentSessionID req;
                     rs_RunnerMCPToken := rq_RunnerMCPToken req; rs_UserPromptID := rq_UserPromptID req;
                     rs_ProviderID := or_else (rs_ProviderID resp) (rq_ProviderID req);
                     rs_ModelID := or_else (rs_ModelID resp) (rq_ModelID req) }} in
  let resp := qualified_model resp in
  let resp := resp{{ rs_VariantID := or_else (rs_VariantID resp) (rq_VariantID req) }} in
  decorateTaskResponse (rq_Env req) sessionID resp.

Definition finishStatusResponse (now : time) (status message : string) (resp : TaskResponse)
    : TaskResponse :=
  let resp := if isTerminalStatus status then resp{{ rs_EndedAt := Some now }} else resp in
  if (status == "error") || (status == "cancelled") then
    resp{{ rs_Error := message;
           rs_ErrorCategory := if rs_ErrorCategory resp == ""
                               then classifyErrorCategory status message
                               else rs_ErrorCategory resp }}
  else resp{{ rs_Summary := message }}.

Definition redactRunnerMCPToken (resp : TaskResponse) : TaskResponse :=
  let token := rs_RunnerMCPToken resp in
  if token == "" then resp else
  let clean s := replaceAll s token "[REDACTED]" in
  resp{{ rs_Summary := clean (rs_Summary resp); rs_Error := clean (rs_Error resp);
         rs_SessionExport := clean (rs_SessionExport resp);
         rs_Artifacts := map clean (rs_Artifacts resp); rs_RunnerMCPToken := "" }}.

Definition bare_response (req : TaskRequest) (status category : string) (artifacts : list string)
    (export checkpoint workspace : string) (usage : TokenUsage) : TaskResponse :=
  mkTaskResponse (rq_TaskID req) (rq_ExecutionID req) "" "" "" status "" "" artifacts "" "" "" "" ""
    export None None checkpoint workspace category usage "".

(** A status as it is dispatched: decorated, finished and redacted. *)
Definition status_report (req : TaskRequest) (now : time) (status message category : string)
    (artifacts : list string) (sessionID export checkpoint workspace : string) (usage : TokenUsage)
    : TaskResponse :=
  redactRunnerMCPToken (finishStatusResponse now status message
    (decorateTaskResponseForRequest req sessionID
       (bare_response req status category artifacts export checkpoint workspace usage))).

Definition publishStatusWithToken req now status message artifacts usage : TaskResponse :=
  status_report req now status message "" artifacts "" "" "" "" usage.

Definition publishStatusForRequest req now status message artifacts : TaskResponse :=
  publishStatusWithToken req now status message artifacts no_usage.

Definition publishStatusWithErrorCategory req now status message category artifacts : TaskResponse :=
  status_report req now status message category artifacts "" "" "" "" no_usage.

Definition publishStatusWithMetadataAndErrorCategory req now status message category artifacts
    sessionID export usage : TaskResponse :=
  status_report req now status message category artifacts sessionID export "" "" usage.

Definition publishStatusWithMetadata req now status message artifacts sessionID export usage
    : TaskResponse :=
  publishStatusWithMetadataAndErrorCategory req now status message "" artifacts sessionID export usage.

Definition publishStatusWithMetadataAndCheckpoint req now status message artifacts sessionID export
    checkpoint workspace usage : TaskResponse :=
  status_report req now status message "" artifacts sessionID export checkpoint workspace usage.

(** A diagnostic event is handed over as it is. *)
Definition publishEvent (req : TaskRequest) (detail : string) : TaskResponse :=
  decorateTaskResponseForRequest req ""
    ((bare_response req "running" "" [] "" "" "" no_usage){{ rs_Summary := detail }}).
End responses.

(** ** Over the wire *)

(** The artifacts of the message are dropped by the control plane's model of it. *)
Definition report_event (resp : TaskResponse) : RunnerTaskEvent :=
  mkRunnerTaskEvent (rs_TaskID resp) (rs_ExecutionID resp) (rs_AgentSessionID resp)
    (rs_UserPromptID resp) (rs_ClaimID resp) (rs_Status resp) (rs_Summary resp) (rs_Error resp)
    (rs_ErrorCategory resp) (rs_SessionExport resp) "" (rs_StartedAt resp) (rs_EndedAt resp)
    (rs_WorkspacePath resp) (rs_OpenCodeSessionID resp) (rs_RunnerImageDigest resp)
    (rs_ProviderID resp) (rs_ModelID resp) (rs_VariantID resp) (rs_CheckpointPath resp)
    (Some (rs_TokenUsage resp)).

(** What the runner counts. *)
Record Counters := mkCounters {
  terminalTasks : gset string;
  totalCompleted : Z;
  totalErrors : Z;
}.

Definition recordTerminalStatus (executionID status : string) (c : Counters) : Counters :=
  if (executionID == "") || negb (isTerminalStatus status) then c
  else if bool_decide (executionID ∈ terminalTasks c) then c
  else
    let c := c{{ terminalTasks := {[ executionID ]} ∪ terminalTasks c }} in
    if status == "done" then c{{ totalCompleted := totalCompleted c + 1 }}
    else if status == "cancelled" then c
    else c{{ totalErrors := totalErrors c + 1 }}.

(** *** Delivery *)

Definition reportAttemptTimeout : Z := seconds 10.
Definition terminalReportRetryWindow : Z := seconds 60.

Section dispatch.
(** A call started at a time with a timeout: was it accepted, and how long did
    it take? *)
Variable answer : time → Z → bool * Z.
(** The deadline of a forced drain, as it stands at a time. *)
Variable hard : time → option time.

(** The answer: was the report delivered, and when did the loop end? *)
Fixpoint dispatch_loop (fuel : nat) (now deadline : time) : option (bool * time) :=
  match fuel with
  | O => None
  | S fuel =>
    let deadline := match hard now with
                    | Some h => if h <? deadline then h else deadline
                    | None => deadline
                    end in
    let remaining := deadline - now in
    if remaining <=? 0 then Some (false, now) else
    let attempt := if remaining <? reportAttemptTimeout then remaining else reportAttemptTimeout in
    let '(ok, took) := answer now attempt in
    let now := now + took in
    if (ok : bool) then Some (true, now)
    else if deadline <? now then Some (false, now)
    else
      let backoff := if remaining <? seconds 2 then remaining else seconds 2 in
      dispatch_loop fuel (now + backoff) deadline
  end.

Definition dispatchReport (fuel : nat) (terminal : bool) (now : time) : option (bool * time) :=
  if terminal then dispatch_loop fuel now (now + terminalReportRetryWindow)
  else let '(ok, took) := answer now reportAttemptTimeout in Some (ok, now + took).
End dispatch.

(** ** Lemmas *)

Lemma contains_any_snoc l s x : contains_any (l ++ [x]) s = contains_any l s || contains s x.
Proof. unfold contains_any. rewrite existsb_app. cbn. by rewrite orb_false_r. Qed.

Lemma finish_status now status message resp :
  rs_Status (finishStatusResponse now status message resp) = rs_Status resp.
Proof. unfold finishStatusResponse. by destruct (isTerminalStatus status), (_ || _). Qed.

Lemma qualified_fields resp :
  let r := qualified_model resp in
  rs_TaskID r = rs_TaskID resp ∧ rs_ExecutionID r = rs_ExecutionID resp ∧ rs_Status r = rs_Status resp ∧
  rs_Summary r = rs_Summary resp ∧ rs_Error r = rs_Error resp ∧ rs_Artifacts r = rs_Artifacts resp ∧
  rs_SessionExport r = rs_SessionExport resp ∧ rs_ErrorCategory r = rs_ErrorCategory resp ∧
  rs_WorkspacePath r = rs_WorkspacePath resp ∧ rs_ClaimID r = rs_ClaimID resp ∧
  rs_AgentSessionID r = rs_AgentSessionID resp ∧ rs_UserPromptID r = rs_UserPromptID resp ∧
  rs_RunnerMCPToken r = rs_RunnerMCPToken resp ∧ rs_TokenUsage r = rs_TokenUsage resp ∧
  rs_OpenCodeSessionID r = rs_OpenCodeSessionID resp.
Proof.
  cbv zeta. unfold qualified_model. destruct (rs_ProviderID resp == ""); [|by split_and!].
  destruct (cut "/" (rs_ModelID resp)) as [[provider model]|]; by split_and!.
Qed.

(** What a decoration keeps and sets. *)
Lemma decorate_fields getenv req sid resp :
  let r := decorateTaskResponseForRequest getenv req sid resp in
  rs_TaskID r = rs_TaskID resp ∧ rs_ExecutionID r = rs_ExecutionID resp ∧ rs_Status r = rs_Status resp ∧
  rs_Summary r = rs_Summary resp ∧ rs_Error r = rs_Error resp ∧ rs_Artifacts r = rs_Artifacts resp ∧
  rs_SessionExport r = rs_SessionExport resp ∧ rs_ErrorCategory r = rs_ErrorCategory resp ∧
  rs_WorkspacePath r = rs_WorkspacePath resp ∧ rs_ClaimID r = rq_ClaimID req ∧
  rs_AgentSessionID r = rq_AgentSessionID req ∧ rs_UserPromptID r = rq_UserPromptID req ∧
  rs_RunnerMCPToken r = rq_RunnerMCPToken req ∧ rs_TokenUsage r = rs_TokenUsage resp ∧
  rs_OpenCodeSessionID r = (if rs_OpenCodeSessionID resp == "" then sid else rs_OpenCodeSessionID resp).
Proof.
  cbv zeta. unfold decorateTaskResponseForRequest, decorateTaskResponse. cbv zeta.
  match goal with |- context [qualified_model ?x] => set (q0 := x) end.
  pose proof (qualified_fields q0) as Hq. cbv zeta in Hq.
  destruct Hq as (H1 & H2 & H3 & H4 & H5 & H6 & H7 & H8 & H9 & H10 & H11 & H12 & H13 & H14 & H15).
  set (q := qualified_model q0) in *.
  split_and!; [exact H1|exact H2|exact H3|exact H4|exact H5|exact H6|exact H7|exact H8|exact H9
    |exact H10|exact H11|exact H12|exact H13|exact H14|].
  change (rs_OpenCodeSessionID resp) with (rs_OpenCodeSessionID q0). rewrite <- H15. reflexivity.
Qed.

Lemma redact_fields resp :
  let r := redactRunnerMCPToken resp in
  rs_TaskID r = rs_TaskID resp ∧ rs_ExecutionID r = rs_ExecutionID resp ∧ rs_Status r = rs_Status resp ∧
  rs_ErrorCategory r = rs_ErrorCategory resp ∧ rs_WorkspacePath r = rs_WorkspacePath resp ∧
  rs_ClaimID r = rs_ClaimID resp ∧ rs_AgentSessionID r = rs_AgentSessionID resp ∧
  rs_UserPromptID r = rs_UserPromptID resp ∧ rs_OpenCodeSessionID r = rs_OpenCodeSessionID resp.
Proof. cbv zeta. unfold redactRunnerMCPToken. cbv zeta. by destruct (_ == ""). Qed.

(** A status report carries the status, the workspace and the identity of the
    run; its category is the given one, or that of the message. *)
Lemma status_report_fields getenv req now status message category artifacts sid export ck ws usage :
  let r := status_report getenv req now status message category artifacts sid export ck ws usage in
  rs_TaskID r = rq_TaskID req ∧ rs_ExecutionID r = rq_ExecutionID req ∧ rs_ClaimID r = rq_ClaimID req ∧
  rs_AgentSessionID r = rq_AgentSessionID req ∧ rs_UserPromptID r = rq_UserPromptID req ∧
  rs_Status r = status ∧ rs_WorkspacePath r = ws ∧
  rs_ErrorCategory r = (if (status == "error") || (status == "cancelled")
                        then if category == "" then classifyErrorCategory status message else category
                        else category).
Proof.
  cbv zeta. unfold status_report.
  set (b := bare_response _ _ _ _ _ _ _ _).
  pose proof (decorate_fields getenv req sid b) as
    (H1 & H2 & H3 & _ & _ & _ & _ & H4 & H5 & H6 & H7 & H8 & _ & _).
  set (d := decorateTaskResponseForRequest _ _ _ _) in *.
  pose proof (redact_fields (finishStatusResponse now status message d)) as (-> & -> & -> & -> & -> & -> & -> & -> & _).
  unfold finishStatusResponse. cbv zeta.
  destruct (isTerminalStatus status), (_ || _); cbn in *; rewrite ?H1, ?H2, ?H3, ?H4, ?H5, ?H6, ?H7, ?H8;
    split_and!; done.
Qed.

(** Two seconds of the window per round, and one more round. *)
Lemma dispatch_loop_ends answer hard n : ∀ now deadline,
  (∀ t a, 0 <= a → 0 <= (answer t a).2 <= a) →
  deadline - now <= seconds 2 * Z.of_nat n →
  ∃ ok t, dispatch_loop answer hard (S n) now deadline = Some (ok, t) ∧
    t <= Z.max now (deadline + seconds 2) ∧ (ok = true → t <= deadline).
Proof.
  assert (seconds 2 = 2000000) as H2 by done.
  induction n as [|n IH]; intros now deadline Hans Hd; cbn [dispatch_loop];
    set (dl := match hard now with Some h => _ | None => _ end);
    (assert (dl <= deadline) as Hdl by (unfold dl; destruct (hard now) as [h|]; [destruct (Z.ltb_spec h deadline)|]; lia)).
  - destruct (Z.leb_spec (dl - now) 0); [|cbn in Hd; lia]. exists false, now. split; [done|]. split; [lia|done].
  - destruct (Z.leb_spec (dl - now) 0); [exists false, now; split; [done|]; split; [lia|done]|].
    set (attempt := if _ <? reportAttemptTimeout then _ else _).
    assert (0 < attempt <= dl - now) as Hatt.
    { unfold attempt, reportAttemptTimeout, seconds. destruct (Z.ltb_spec (dl - now) (10 * 1000000)); lia. }
    destruct (answer now attempt) as [ok took] eqn:Ea.
    pose proof (Hans now attempt ltac:(lia)) as Ht. rewrite Ea in Ht. cbn [snd] in Ht.
    destruct ok; [exists true, (now + took); split; [done|]; split; [lia|lia]|].
    destruct (Z.ltb_spec dl (now + took)); [lia|].
    set (backoff := if _ <? seconds 2 then _ else _).
    assert (0 < backoff <= seconds 2 ∧ dl - (now + took + backoff) <= seconds 2 * Z.of_nat n) as [Hb Hm].
    { unfold backoff. unfold seconds in *. destruct (Z.ltb_spec (dl - now) (2 * 1000000)); lia. }
    destruct (IH (now + took + backoff) dl Hans Hm) as (ok & t & Hl & Hbound & Hok).
    exists ok, t. split; [exact Hl|]. split; [lia|]. intros H1. specialize (Hok H1). lia.
Qed.

(** ** Properties *)

(** The runner and the control plane classify a failure alike: for every
    status and message, except for the lease expiry that only the control plane
    reports, both give it the same category. *)
Theorem classify_agrees status message :
  contains (toLower message) "lease expired" = false →
  classifyErrorCategory status message = classifyTaskErrorCategory status message.
Proof.
  intros Hl. unfold classifyErrorCategory, classifyTaskErrorCategory.
  destruct (status == "cancelled"); [done|]. cbv zeta.
  change ["timeout"; "deadline exceeded"; "context deadline"; "lease expired"]
    with (["timeout"; "deadline exceeded"; "context deadline"] ++ ["lease expired"]).
  by rewrite contains_any_snoc, Hl, orb_false_r.
Qed.

Lemma classify_agrees_witness :
  classifyErrorCategory "error" "prompt failed: context deadline exceeded" =
  classifyTaskErrorCategory "error" "prompt failed: context deadline exceeded".
Proof. apply (classify_agrees "error" "prompt failed: context deadline exceeded"). vm_compute. reflexivity. Defined.

(** A terminal report is over in time. However the control plane answers and
    whenever a forced drain sets its deadline, the delivery ends, after at most
    32 rounds, within the retry window and one pause of two seconds; a report that
    was accepted was accepted within the window. *)
Theorem report_bounded answer hard now :
  (∀ t a, 0 <= a → 0 <= (answer t a).2 <= a) →
  ∃ ok t, dispatchReport answer hard 32 true now = Some (ok, t) ∧
    t <= now + terminalReportRetryWindow + seconds 2 ∧
    (ok = true → t <= now + terminalReportRetryWindow).
Proof.
  intros Hans. unfold dispatchReport.
  destruct (dispatch_loop_ends answer hard 31 now (now + terminalReportRetryWindow) Hans) as (ok & t & H & Hb & Hok).
  { unfold terminalReportRetryWindow, seconds. lia. }
  exists ok, t. split; [exact H|]. split; [|exact Hok]. unfold terminalReportRetryWindow, seconds in *. lia.
Qed.

(** A control plane that refuses a report after a second. *)
Definition refusing (_ : time) (a : Z) : bool * Z := (false, Z.min a (seconds 1)).

Lemma report_bounded_witness :
  ∃ t, dispatchReport refusing (λ _, None) 32 true 0 = Some (false, t) ∧ t <= seconds 62.
Proof.
  destruct (report_bounded refusing (λ _, None) 0) as (ok & t & H & Hb & _).
  { intros t a Ha. unfold refusing, seconds. cbn [snd]. lia. }
  assert (dispatchReport refusing (λ _, None) 32 true 0 = Some (false, seconds 60)) as E
    by (vm_compute; reflexivity).
  rewrite E in H. injection H as <- <-. exists (seconds 60). split; [exact E|].
  unfold terminalReportRetryWindow, seconds in *. lia.
Defined.

(** The deadline of a forced drain is not kept. A report whose call hangs when
    the drain sets a deadline three seconds away goes on for nine seconds past it:
    the deadline is looked at between the rounds only, and the pause after a round
    is not cut. *)
Theorem drain_deadline_overrun :
  let hangs (_ : time) (a : Z) := (false, a) in
  let hard t := if t <? seconds 1 then None else Some (seconds 4) in
  dispatchReport hangs hard 32 true 0 = Some (false, seconds 12).
Proof. vm_compute. reflexivity. Qed.

(** C30. No status report shows the token of the run's tool server: neither its
    summary, its error, its transcript nor an artifact contains it. A diagnostic
    event is not covered: its detail goes out as it is. *)
Theorem reports_hide_token getenv req now status message category artifacts sid export ck ws usage detail :
  distinct_secret (rq_RunnerMCPToken req) →
  let r := status_report getenv req now status message category artifacts sid export ck ws usage in
  let hidden s := contains s (rq_RunnerMCPToken req) = false in
  hidden (rs_Summary r) ∧ hidden (rs_Error r) ∧ hidden (rs_SessionExport r) ∧
  Forall hidden (rs_Artifacts r) ∧
  rs_Summary (publishEvent getenv req detail) = detail.
Proof.
  intros Hd. cbv zeta. unfold status_report.
  set (d := finishStatusResponse _ _ _ _).
  assert (rs_RunnerMCPToken d = rq_RunnerMCPToken req) as Ht.
  { unfold d. set (b := bare_response _ _ _ _ _ _ _ _).
    pose proof (decorate_fields getenv req sid b) as (_ & _ & _ & _ & _ & _ & _ & _ & _ & _ & _ & _ & <- & _).
    unfold finishStatusResponse. cbv zeta. by destruct (isTerminalStatus status), (_ || _). }
  assert (∀ s, contains (replaceAll s (rq_RunnerMCPToken req) "[REDACTED]") (rq_RunnerMCPToken req) = false)
    as Hgone by (intros s; by apply replaced_gone).
  unfold redactRunnerMCPToken. cbv zeta. rewrite Ht, bool_decide_eq_false_2 by (by destruct Hd).
  cbn [rs_Summary rs_Error rs_SessionExport rs_Artifacts]. split_and!; try apply Hgone.
  - apply Forall_map, Forall_forall. intros s _. apply Hgone.
  - unfold publishEvent. apply (decorate_fields getenv req "").
Qed.

Definition sample_run_request (token : string) : TaskRequest :=
  mkTaskRequest "task_1" "exec_1" "claim_1" "sess_1" "prompt_1" "agent:1" "fix it" "" "" [] "" "" "" "" ""
    "" [] [] token "opencode" 600 0 0 ∅ true "" "" false [] "Bot" "bot@x" "" "".

Lemma reports_hide_token_witness :
  contains (rs_Error (status_report (λ _, "") (sample_run_request "ab12cd34") 5 "error"
    "post http://r/mcp?key=ab12cd34: refused" "" [] "" "" "" "" no_usage)) "ab12cd34" = false.
Proof.
  destruct (reports_hide_token (λ _, "") (sample_run_request "ab12cd34") 5 "error"
    "post http://r/mcp?key=ab12cd34: refused" "" [] "" "" "" "" no_usage "") as (_ & H & _).
  { repeat split; vm_compute; [discriminate|reflexivity..]. }
  exact H.
Defined.
