(* ===== verification/RunnerRpc.v ===== *)
(** * Runs of an RPC harness

    The part of [runner/internal/controller/runner_task.go] that drives a harness
    over JSON lines: the event machine [handleRPCEvent], the token accounting, and
    [runRPCAgentCommand] around them. A line is the event it decodes to, with the
    zero value for a field that is absent or of another type. The stream of a run
    also says when a context ends: [LDone] is the task's (its deadline or a
    cancellation), [LStuck] the watchdog's, [LTimeout] that of the final clean-up.
    What a run does is the list of its actions. *)
From S2P Require Import Prelude Effects GoStrings Status Repos Redact Db RunnerReport.

(** ** Actions of a run *)

Inductive Act :=
| AReport (r : TaskResponse)
| AMcpOpen | AMcpClose
| ARelayOpen | ARelayClose
| ATrack (executionID : string) | AUntrack (executionID : string)
| ARelease
| AWorkspaceCreate | AWorkspaceDestroy
| AClone (args : list string) (token : string)
| AContainerRun (name : string) | AContainerStop (name : string) | AContainerRemove (name : string)
| APodCreate (name : string) | APodDelete (name : string)
| AProcessStart | AProcessEnd
| AWrite (command : string)
| APrompt (sessionID : string).

(** ** Events *)

Inductive AssistantEvent :=
| TextDelta (delta : string)
| ThinkingStart
| ThinkingDelta (delta : string)
| AssistantError (reason : string)
| AssistantDone (reason : string)
| AssistantOther.

(** The content of a message: a text, blocks with their [text] and [content], or
    anything else. *)
Inductive MessageContent :=
| ContentText (text : string)
| ContentBlocks (blocks : list (string * string))
| ContentNone.

(** [msg_json] is the indented JSON of the message. *)
Record RpcMessage := mkRpcMessage {
  msg_role : string;
  msg_content : MessageContent;
  msg_json : string;
}.

(** The members of a response's data: [rd_models] are pairs of id and provider. *)
Record RpcData := mkRpcData {
  rd_sessionId : string;
  rd_models : list (string * string);
  rd_text : string;
  rd_messages : list RpcMessage;
}.

Inductive RpcEvent :=
| EResponse (id : string) (success : bool) (error : string) (data : RpcData)
| EMessageUpdate (usage : TokenUsage) (ame : option AssistantEvent)
| EMessageEnd (message : option (string * string))    (* role and stop reason *)
| EToolStart (toolCallId toolName : string)
| EToolEnd (toolCallId : string) (isError : bool) (toolName : string)
| ERetryStart (errorMessage : string)
| ERetryEnd (success : bool) (finalError : string)
| EExtensionError (error : string)
| EExtensionUI (method id : string)
| EAgentEnd (willRetry : bool)
| EAgentSettled
| EOther.

(** [lastPublished] is a time; [probes] are the identifiers the watchdog waits
    for, [None] before it is started. *)
Record rpcAgentState := mkRpcState {
  st_summary : string;
  st_lastDetail : string;
  st_lastPublished : time;
  st_sessionID : string;
  st_terminal : bool;
  st_errorMessage : string;
  st_finalAssistant : bool;
  st_retrying : bool;
  st_activeTools : gset string;
  st_activeToolCount : Z;
  st_usage : TokenUsage;
  st_usageBaseline : TokenUsage;
  st_probes : option (gset string);
}.

Definition new_state (now : time) : rpcAgentState :=
  mkRpcState "" "" now "" false "" false false ∅ 0 no_usage no_usage None.

(** ** Token accounting *)

Definition usage_map2 (f : Z → Z → Z) (a b : TokenUsage) : TokenUsage :=
  Build_TokenUsage (f (InputTokens a) (InputTokens b)) (f (OutputTokens a) (OutputTokens b))
    (f (CacheReadTokens a) (CacheReadTokens b)) (f (CacheWriteTokens a) (CacheWriteTokens b))
    (f (ReasoningTokens a) (ReasoningTokens b)) (f (CostCents a) (CostCents b)).

Definition usage_add : TokenUsage → TokenUsage → TokenUsage := usage_map2 Z.add.
(** [max(a - b, 0)] per field. *)
Definition usage_delta : TokenUsage → TokenUsage → TokenUsage := usage_map2 (λ a b, Z.max (a - b) 0).

Definition updateRPCUsage (u : TokenUsage) (st : rpcAgentState) : rpcAgentState :=
  st{{ st_usage := usage_add (st_usage st) (usage_delta u (st_usageBaseline st));
       st_usageBaseline := u }}.

Definition resetRPCUsageBaseline (st : rpcAgentState) : rpcAgentState :=
  st{{ st_usageBaseline := no_usage }}.

(** The accumulator of a served harness: the totals and what was flushed. *)
Record tokenUsageAccumulator := mkAccumulator { acc_usage : TokenUsage; acc_lastFlushed : TokenUsage }.

Definition acc_add (u : TokenUsage) (a : tokenUsageAccumulator) : tokenUsageAccumulator :=
  a{{ acc_usage := usage_add (acc_usage a) u }}.

Definition acc_delta (a : tokenUsageAccumulator) : TokenUsage * tokenUsageAccumulator :=
  (usage_delta (acc_usage a) (acc_lastFlushed a), a{{ acc_lastFlushed := acc_usage a }}).

(** ** The event machine *)

Definition completeOnEOF (st : rpcAgentState) : bool :=
  st_finalAssistant st && negb (st_retrying st) && (st_activeToolCount st =? 0) &&
  (st_errorMessage st == "").

(** What handling an event does besides: progress recorded with the watchdog,
    details published, answers written, probe answers handed over. *)
Inductive RpcOut :=
| OProgress (summary : string)
| OPublish (detail : string)
| OWrite (command : string)
| OProbe (id : string).

Definition is_final (reason : string) : bool := (reason == "stop") || (reason == "length").

Definition on_assistant (a : AssistantEvent) (st : rpcAgentState) : rpcAgentState * list RpcOut :=
  match a with
  | TextDelta delta =>
    if delta == "" then (st, [])
    else (st{{ st_summary := st_summary st ^^ delta; st_lastDetail := delta }}, [OProgress delta])
  | ThinkingStart => (st{{ st_lastDetail := "thinking…" }}, [OProgress "thinking started"])
  | ThinkingDelta delta =>
    if delta == "" then (st, [])
    else (st{{ st_lastDetail := "thinking…" }}, [OProgress "thinking"])
  | AssistantError reason =>
    if reason == "" then (st, []) else (st{{ st_errorMessage := reason }}, [])
  | AssistantDone reason => (st{{ st_finalAssistant := is_final reason }}, [])
  | AssistantOther => (st, [])
  end.

Definition tool_started (id : string) (st : rpcAgentState) : rpcAgentState :=
  if id == "" then st{{ st_activeToolCount := st_activeToolCount st + 1 }}
  else if bool_decide (id ∈ st_activeTools st) then st
  else st{{ st_activeTools := {[ id ]} ∪ st_activeTools st;
            st_activeToolCount := st_activeToolCount st + 1 }}.

Definition tool_ended (id : string) (st : rpcAgentState) : rpcAgentState :=
  if id == "" then
    if 0 <? st_activeToolCount st then st{{ st_activeToolCount := st_activeToolCount st - 1 }} else st
  else if bool_decide (id ∈ st_activeTools st) then
    st{{ st_activeTools := st_activeTools st ∖ {[ id ]};
         st_activeToolCount := st_activeToolCount st - 1 }}
  else st.

(** The dialogs are cancelled. *)
Definition rpcUIResponse (method id : string) : option string :=
  if one_of ["select"; "confirm"; "input"; "editor"] method && negb (id == "") then Some id else None.

(** The switch over the type; the boolean tells whether the event ends here, as
    a dialog does, with the answer that is written. *)
Definition on_event (ev : RpcEvent) (st : rpcAgentState) : rpcAgentState * list RpcOut * bool :=
  match ev with
  | EMessageUpdate usage ame =>
    let st := updateRPCUsage usage st in
    match ame with
    | None => (st, [], false)
    | Some a => let '(st, out) := on_assistant a st in (st, out, false)
    end
  | EMessageEnd None => (st, [], false)
  | EMessageEnd (Some (role, stopReason)) =>
    if role == "assistant"
    then (resetRPCUsageBaseline (st{{ st_finalAssistant := is_final stopReason }}), [], false)
    else (st, [], false)
  | EToolStart id toolName =>
    let st := tool_started id st in
    if toolName == "" then (st, [], false)
    else (st{{ st_lastDetail := "tool: " ^^ toolName }}, [OProgress ("tool: " ^^ toolName)], false)
  | EToolEnd id isError toolName =>
    let st := tool_ended id st in
    if negb isError || (toolName == "") then (st, [], false)
    else (st{{ st_lastDetail := "tool error: " ^^ toolName }}, [OProgress ("tool error: " ^^ toolName)], false)
  | ERetryStart msg =>
    let st := st{{ st_retrying := true; st_finalAssistant := false }} in
    if msg == "" then (st, [], false)
    else (st{{ st_lastDetail := "retrying: " ^^ msg }}, [OProgress ("retrying: " ^^ msg)], false)
  | ERetryEnd success finalError =>
    let st := st{{ st_retrying := false }} in
    if success || (finalError == "") then (st, [], false)
    else (st{{ st_errorMessage := finalError }}, [], false)
  | EExtensionError msg =>
    if msg == "" then (st, [], false) else (st{{ st_lastDetail := "extension error: " ^^ msg }}, [], false)
  | EExtensionUI method id =>
    match rpcUIResponse method id with
    | Some id => (st, [OWrite ("extension_ui_response:" ^^ id)], true)
    | None => (st, [], false)
    end
  | EAgentEnd willRetry =>
    let st := st{{ st_retrying := willRetry }} in
    if (willRetry : bool) then (st, [], false)
    else (st{{ st_terminal := true }}, [OProgress "agent_end"], false)
  | EAgentSettled =>
    (st{{ st_retrying := false; st_terminal := true }}, [OProgress "agent_settled"], false)
  | EResponse _ _ _ _ | EOther => (st, [], false)
  end.

(** At most one detail every three seconds. *)
Definition publish_detail (now : time) (st : rpcAgentState) : rpcAgentState * list RpcOut :=
  if now - st_lastPublished st <? seconds 3 then (st, [])
  else
    let detail :=
      if negb (st_lastDetail st == "") || st_terminal st then st_lastDetail st
      else if 0 <? st_activeToolCount st then "running (tool in progress)"
      else if st_retrying st then "retrying" else "running" in
    if detail == "" then (st, [])
    else (st{{ st_lastPublished := now }}, [OPublish ("pi: " ^^ detail)]).

Definition handleRPCEvent (now : time) (ev : RpcEvent) (st : rpcAgentState)
    : rpcAgentState * list RpcOut :=
  match ev, st_probes st with
  | EResponse id _ _ _, Some waiting =>
    if negb (id == "") && bool_decide (id ∈ waiting)
    then (st{{ st_probes := Some (waiting ∖ {[ id ]}) }}, [OProbe id])
    else publish_detail now st
  | _, _ =>
    let '(st, out, ends) := on_event ev st in
    if (ends : bool) then (st, out)
    else let '(st, out') := publish_detail now st in (st, out ++ out')
  end.

(** Events one after the other. *)
Fixpoint handle_all (evs : list (time * RpcEvent)) (st : rpcAgentState) : rpcAgentState :=
  match evs with
  | [] => st
  | (now, ev) :: rest => handle_all rest (handleRPCEvent now ev st).1
  end.

(** ** Lemmas on events *)

Lemma publish_detail_keeps now st :
  let st' := (publish_detail now st).1 in
  st_errorMessage st' = st_errorMessage st ∧ st_usage st' = st_usage st ∧
  st_usageBaseline st' = st_usageBaseline st ∧ st_activeTools st' = st_activeTools st ∧
  st_activeToolCount st' = st_activeToolCount st ∧ st_terminal st' = st_terminal st.
Proof. cbv zeta. unfold publish_detail. destruct (_ <? _); [done|]. cbv zeta. by destruct (_ == ""). Qed.

(** An event leaves what [on_event] leaves, in every field but the time of the
    last detail and the probes. *)
Lemma handle_fields now ev st :
  let st' := (handleRPCEvent now ev st).1 in
  let on := (on_event ev st).1.1 in
  st_errorMessage st' = st_errorMessage on ∧ st_usage st' = st_usage on ∧
  st_usageBaseline st' = st_usageBaseline on ∧ st_activeTools st' = st_activeTools on ∧
  st_activeToolCount st' = st_activeToolCount on ∧ st_terminal st' = st_terminal on.
Proof.
  cbv zeta.
  assert (∀ st0 out ends, on_event ev st = (st0, out, ends) →
    let st' := (let '(st1, out1, e1) := on_event ev st in
                if (e1 : bool) then (st1, out1)
                else let '(st2, out2) := publish_detail now st1 in (st2, out1 ++ out2)).1 in
    st_errorMessage st' = st_errorMessage st0 ∧ st_usage st' = st_usage st0 ∧
    st_usageBaseline st' = st_usageBaseline st0 ∧ st_activeTools st' = st_activeTools st0 ∧
    st_activeToolCount st' = st_activeToolCount st0 ∧ st_terminal st' = st_terminal st0) as Hgen.
  { intros st0 out ends ->. destruct ends; [done|].
    pose proof (publish_detail_keeps now st0) as Hp. cbv zeta in Hp |- *.
    by destruct (publish_detail now st0). }
  destruct (on_event ev st) as [[st0 out] ends] eqn:E. specialize (Hgen _ _ _ eq_refl). cbv zeta in Hgen.
  unfold handleRPCEvent. rewrite E. cbn [fst] in Hgen |- *.
  destruct ev; [|destruct (st_probes st); exact Hgen..].
  cbn in E. injection E as <- <- <-. destruct (st_probes st); [|exact Hgen].
  destruct (negb _ && _); [done|]. apply publish_detail_keeps.
Qed.

Lemma handle_all_app evs evs' st : handle_all (evs ++ evs') st = handle_all evs' (handle_all evs st).
Proof. revert st. induction evs as [|[now ev] evs IH]; intros st; [done|]. apply IH. Qed.

Lemma on_event_error ev st :
  st_errorMessage st ≠ "" → st_errorMessage (on_event ev st).1.1 ≠ "".
Proof.
  intros H. destruct ev as [| usage ame|[[role stop]|]|id name|id e name|msg|success msg|msg|method id|retry| |];
    cbn [on_event fst]; try done.
  - destruct ame as [a|]; [|done]. destruct a; cbn [on_assistant]; try done;
      (case_bool_decide; done).
  - by case_bool_decide.
  - case_bool_decide; unfold tool_started; repeat case_bool_decide; done.
  - destruct (negb e || _); unfold tool_ended; repeat case_match; done.
  - by case_bool_decide.
  - destruct success; [done|]. cbn [orb]. by case_bool_decide.
  - by case_bool_decide.
  - by destruct (rpcUIResponse method id).
  - by destruct retry.
Qed.

Lemma handle_all_error evs st : st_errorMessage st ≠ "" → st_errorMessage (handle_all evs st) ≠ "".
Proof.
  revert st. induction evs as [|[now ev] evs IH]; intros st H; [done|]. cbn [handle_all].
  apply IH. pose proof (handle_fields now ev st) as (-> & _). by apply on_event_error.
Qed.

(** *** Usage *)

Definition usage_le (a b : TokenUsage) : Prop :=
  InputTokens a <= InputTokens b ∧ OutputTokens a <= OutputTokens b ∧
  CacheReadTokens a <= CacheReadTokens b ∧ CacheWriteTokens a <= CacheWriteTokens b ∧
  ReasoningTokens a <= ReasoningTokens b ∧ CostCents a <= CostCents b.

(** The snapshots of a message only grow, and the next message starts anew. *)
Fixpoint cumulative (b : TokenUsage) (evs : list (time * RpcEvent)) : Prop :=
  match evs with
  | [] => True
  | (_, EMessageUpdate u _) :: rest => usage_le b u ∧ cumulative u rest
  | (_, EMessageEnd (Some (role, _))) :: rest =>
      if role == "assistant" then cumulative no_usage rest else cumulative b rest
  | _ :: rest => cumulative b rest
  end.

(** The last snapshots of all messages, together; [b] is that of the current
    message so far, and an interrupted message counts as well. *)
Fixpoint message_totals (b : TokenUsage) (evs : list (time * RpcEvent)) : TokenUsage :=
  match evs with
  | [] => b
  | (_, EMessageUpdate u _) :: rest => message_totals u rest
  | (_, EMessageEnd (Some (role, _))) :: rest =>
      if role == "assistant" then usage_add b (message_totals no_usage rest) else message_totals b rest
  | _ :: rest => message_totals b rest
  end.

Lemma usage_add_assoc a b c : usage_add a (usage_add b c) = usage_add (usage_add a b) c.
Proof. unfold usage_add, usage_map2. cbn. f_equal; lia. Qed.

Lemma usage_add_comm a b : usage_add a b = usage_add b a.
Proof. unfold usage_add, usage_map2. f_equal; lia. Qed.

Lemma usage_add_zero a : usage_add a no_usage = a.
Proof. destruct a. unfold usage_add, usage_map2. cbn. f_equal; lia. Qed.

Lemma usage_delta_grow b u : usage_le b u → usage_add (usage_delta u b) b = u.
Proof.
  destruct b, u. unfold usage_le, usage_add, usage_delta, usage_map2. cbn. intros ?. f_equal; lia.
Qed.

Lemma usage_add_cancel a b c : usage_add a c = usage_add b c → a = b.
Proof.
  destruct a, b, c. unfold usage_add, usage_map2. cbn. injection 1 as ??????. f_equal; lia.
Qed.

(** The usage and the baseline after an event. *)
Lemma handle_usage now ev st :
  st_usage (handleRPCEvent now ev st).1 =
    match ev with
    | EMessageUpdate u _ => usage_add (st_usage st) (usage_delta u (st_usageBaseline st))
    | _ => st_usage st
    end ∧
  st_usageBaseline (handleRPCEvent now ev st).1 =
    match ev with
    | EMessageUpdate u _ => u
    | EMessageEnd (Some (role, _)) => if role == "assistant" then no_usage else st_usageBaseline st
    | _ => st_usageBaseline st
    end.
Proof.
  pose proof (handle_fields now ev st) as (_ & -> & -> & _).
  destruct ev as [| usage ame|[[role stop]|]|id name|id e name|msg|success msg|msg|method id|retry| |];
    cbn [on_event fst]; try done.
  - destruct ame as [a|]; [|done]. destruct a; cbn [on_assistant]; try done; case_bool_decide; done.
  - by case_bool_decide.
  - case_bool_decide; unfold tool_started; repeat case_bool_decide; done.
  - destruct (negb e || _); unfold tool_ended; repeat case_match; done.
  - by case_bool_decide.
  - destruct success; [done|]. cbn [orb]. by case_bool_decide.
  - by case_bool_decide.
  - by destruct (rpcUIResponse method id).
  - by destruct retry.
Qed.

Lemma usage_accounting evs : ∀ st,
  cumulative (st_usageBaseline st) evs →
  usage_add (st_usage (handle_all evs st)) (st_usageBaseline st) =
  usage_add (st_usage st) (message_totals (st_usageBaseline st) evs).
Proof.
  induction evs as [|[now ev] evs IH]; intros st Hc; [done|]. cbn [handle_all].
  pose proof (handle_usage now ev st) as [Hu Hb]. set (st1 := (handleRPCEvent now ev st).1) in *.
  assert (∀ b, st_usageBaseline st1 = b → cumulative b evs →
    usage_add (st_usage (handle_all evs st1)) b = usage_add (st_usage st1) (message_totals b evs)) as Hstep.
  { intros b <- H. by apply IH. }
  destruct ev as [| usage ame|[[role stop]|]|id name|id e name|msg|success msg|msg|method id|retry| |];
    cbn [cumulative message_totals] in *; try (rewrite <- Hu; by apply Hstep).
  - destruct Hc as [Hle Hc]. specialize (Hstep _ Hb Hc). rewrite Hu in Hstep.
    apply (usage_add_cancel _ _ (usage_delta usage (st_usageBaseline st))).
    rewrite <- usage_add_assoc, (usage_add_comm (st_usageBaseline st)), usage_delta_grow by done.
    rewrite Hstep, <- !usage_add_assoc. f_equal. apply usage_add_comm.
  - case_bool_decide; [|rewrite <- Hu; by apply Hstep].
    specialize (Hstep _ Hb Hc). rewrite usage_add_zero in Hstep. rewrite Hstep, Hu, <- usage_add_assoc.
    f_equal. apply usage_add_comm.
Qed.

(** ** Properties of the event machine *)

(** Tokens are counted once. Whatever happens between the messages, and
    however many snapshots each one sends, a run's total is the sum of the last
    snapshots of its messages, an interrupted one included. *)
Theorem usage_counts_messages evs now :
  cumulative no_usage evs →
  st_usage (handle_all evs (new_state now)) = message_totals no_usage evs.
Proof.
  intros Hc. pose proof (usage_accounting evs (new_state now) Hc) as H.
  cbn [st_usageBaseline st_usage new_state] in H. rewrite usage_add_zero in H.
  rewrite H, usage_add_comm. apply usage_add_zero.
Qed.

(** An error once seen is never forgotten. After a message that ended with
    an error, no event clears it: not the end of a successful retry, not the text
    of the messages after it, not the end of the agent. Such a run cannot complete,
    neither at its end nor at the end of its output. *)
Theorem rpc_error_sticks evs now reason evs' st usage :
  reason ≠ "" →
  let st' := handle_all (evs ++ (now, EMessageUpdate usage (Some (AssistantError reason))) :: evs') st in
  st_errorMessage st' ≠ "" ∧ completeOnEOF st' = false.
Proof.
  intros Hr. cbv zeta. rewrite handle_all_app. cbn [handle_all].
  set (st1 := (handleRPCEvent _ _ _).1).
  assert (st_errorMessage (handle_all evs' st1) ≠ "") as He.
  { apply handle_all_error. unfold st1. pose proof (handle_fields now
      (EMessageUpdate usage (Some (AssistantError reason))) (handle_all evs st)) as (-> & _).
    cbn [on_event on_assistant]. rewrite bool_decide_eq_false_2 by done. done. }
  split; [done|]. unfold completeOnEOF. by rewrite (bool_decide_eq_false_2 _ He), !andb_false_r.
Qed.

(** Every tool event names its tool call. *)
Definition named_tools (ev : RpcEvent) : Prop :=
  match ev with
  | EToolStart id _ | EToolEnd id _ _ => id ≠ ""
  | _ => True
  end.

Lemma tool_count_event now ev st :
  named_tools ev → st_activeToolCount st = Z.of_nat (size (st_activeTools st)) →
  let st' := (handleRPCEvent now ev st).1 in
  st_activeToolCount st' = Z.of_nat (size (st_activeTools st')).
Proof.
  intros Hn Hc. pose proof (handle_fields now ev st) as (_ & _ & _ & Ht & Hk & _).
  cbv zeta. rewrite Ht, Hk. clear Ht Hk.
  destruct ev as [| usage ame|[[role stop]|]|id name|id e name|msg|success msg|msg|method id|retry| |];
    cbn [on_event fst]; try done.
  - destruct ame as [a|]; [|done]. destruct a; cbn [on_assistant]; try done; case_bool_decide; done.
  - by case_bool_decide.
  - assert (st_activeToolCount (tool_started id st) = Z.of_nat (size (st_activeTools (tool_started id st)))).
    { unfold tool_started. rewrite bool_decide_eq_false_2 by done. case_bool_decide as Hin; [done|].
      cbn [st_activeToolCount st_activeTools].
      change (st_activeToolCount st + 1 = Z.of_nat (size ({[id]} ∪ st_activeTools st))).
      rewrite size_union, size_singleton by set_solver. lia. }
    by case_bool_decide.
  - assert (st_activeToolCount (tool_ended id st) = Z.of_nat (size (st_activeTools (tool_ended id st)))).
    { unfold tool_ended. rewrite bool_decide_eq_false_2 by done. case_bool_decide as Hin; [|done].
      change (st_activeToolCount st - 1 = Z.of_nat (size (st_activeTools st ∖ {[id]}))).
      rewrite size_difference, size_singleton by set_solver.
      assert (1 <= size (st_activeTools st))%nat.
      { rewrite <- (size_singleton (C := gset string) id). apply subseteq_size. set_solver. }
      lia. }
    by destruct (negb e || _).
  - by case_bool_decide.
  - destruct success; [done|]. cbn [orb]. by case_bool_decide.
  - by case_bool_decide.
  - by destruct (rpcUIResponse method id).
  - by destruct retry.
Qed.

(** With identifiers on all tool events, the count is the number of the tools in
    progress. *)
Lemma tool_count_exact evs : ∀ st,
  Forall (λ kv, named_tools kv.2) evs → st_activeToolCount st = Z.of_nat (size (st_activeTools st)) →
  st_activeToolCount (handle_all evs st) = Z.of_nat (size (st_activeTools (handle_all evs st))).
Proof.
  induction evs as [|[now ev] evs IH]; intros st Hn Hc; [done|]. inversion_clear Hn as [|? ? H1 H2].
  cbn [handle_all]. apply IH; [done|]. by apply tool_count_event.
Qed.

(** Without, the count goes below zero, and the run does not complete at the end
    of its output. *)
Example tool_count_negative :
  let st := handle_all [(0, EToolStart "a" "bash"); (1, EToolEnd "" false ""); (2, EToolEnd "a" false "");
                        (3, EMessageEnd (Some ("assistant", "stop")))] (new_state 0) in
  st_activeToolCount st = -1 ∧ completeOnEOF st = false.
Proof. by vm_compute. Qed.
