(* ===== verification/RunnerRpcRun.v ===== *)
(** * The run of an RPC harness

    [runRPCAgentCommand] of [runner/internal/controller/runner_task.go] with what
    it calls: the lines of the harness and its answers, the clean-up of a session,
    and the reports on every way out. *)
From S2P Require Import Prelude Effects GoStrings Status Repos Redact Db RunnerReport RunnerRpc.

(** ** The world of a run *)

Inductive RpcLine :=
| LEvent (at_ : time) (ev : RpcEvent)
| LJunk
| LFail (msg : string)
| LDone (deadline : bool)
| LStuck
| LTimeout.

(** What is left of the stream, what the run has noticed of its contexts, and
    the state of the event loop. *)
Record RpcStream := mkStream {
  sm_lines : list RpcLine;
  sm_done : option bool;
  sm_stuck : bool;
  sm_state : rpcAgentState;
}.

(** The contexts a read can be bound to. *)
Inductive Ctx := CTask | CAgent | CClean.

Inductive ReadErr := RDone (deadline : bool) | RStuck | RTimeout | REof | RFail (msg : string).

(** [err.Error()] *)
Definition read_err_text (e : ReadErr) : string :=
  match e with
  | RDone true | RTimeout => "context deadline exceeded"
  | RDone false | RStuck => "context canceled"
  | REof => "EOF"
  | RFail msg => msg
  end.

(** The answers of the process, the container daemon and the pipes. *)
Record RpcEnv := mkRpcEnv {
  pe_getenv : string → string;
  pe_now : time;
  pe_pipe : string → option string;     (* the error of opening a pipe *)
  pe_start : option string;             (* the error of starting the process *)
  pe_write : string → option string;    (* the error of writing a command *)
  pe_wait : option string;              (* the error the process ends with *)
  pe_gvisor : bool;
  pe_start_is_sandbox : bool;           (* [isSandboxStartFailure] of the start error *)
  pe_oom : bool;                        (* was the container killed for its memory? *)
  pe_crash : option string;             (* the runtime error of the sandbox *)
  pe_container : string;                (* empty where there is none *)
  pe_name : string;                     (* the harness *)
  pe_stuck_error : string;              (* the watchdog's error *)
}.

Notation rpc := (eff RpcStream Act).

Fixpoint read_line (k : Ctx) (l : list RpcLine) (done : option bool) (stuck : bool)
    : (ReadErr + option (time * RpcEvent)) * list RpcLine * option bool * bool :=
  match l with
  | [] => (inl REof, [], done, stuck)
  | LEvent at_ ev :: l => (inr (Some (at_, ev)), l, done, stuck)
  | LJunk :: l => (inr None, l, done, stuck)
  | LFail msg :: l => (inl (RFail msg), l, done, stuck)
  | LDone d :: l =>
    match k with
    | CClean => read_line k l (Some (default d done)) stuck
    | _ => let d := default d done in (inl (RDone d), l, Some d, stuck)
    end
  | LStuck :: l =>
    match k with
    | CAgent => (inl RStuck, l, done, true)
    | _ => read_line k l done true
    end
  | LTimeout :: l =>
    match k with
    | CClean => (inl RTimeout, l, done, stuck)
    | _ => read_line k l done stuck
    end
  end.

Definition readRPCLine (k : Ctx) : rpc (ReadErr + option (time * RpcEvent)) :=
  ask (λ s, let '(r, l, done, stuck) := read_line k (sm_lines s) (sm_done s) (sm_stuck s) in
            (r, s{{ sm_lines := l; sm_done := done; sm_stuck := stuck }})).

(** [ctx.Err()] and its cause: has the task's context ended, and by its deadline? *)
Definition ctx_ended : rpc (option bool) :=
  ask (λ s, match sm_done s, sm_lines s with
            | Some d, _ => (Some d, s)
            | None, LDone d :: l => (Some d, s{{ sm_lines := l; sm_done := Some d }})
            | None, _ => (None, s)
            end).

Definition get_state : rpc rpcAgentState := ask (λ s, (sm_state s, s)).
Definition set_state (f : rpcAgentState → rpcAgentState) : rpc unit :=
  ask (λ s, (tt, s{{ sm_state := f (sm_state s) }})).
Definition is_stuck : rpc bool := ask (λ s, (sm_stuck s, s)).
Definition act (a : Act) : rpc unit := call (λ s, (tt, s)) (λ _, a).

Definition cancellationStatus (deadline : bool) (name : string) : string * string :=
  if deadline then ("error", name ^^ " timed out") else ("cancelled", name ^^ " cancelled").

Definition dockerOOMMessage (oomKilled : bool) (message : string) : string :=
  if oomKilled then "task container exceeded its memory limit (OOMKilled): " ^^ message else message.

(** *** Transcripts *)

Definition LF : string := String "010" "".

Definition rpcMessageText (m : RpcMessage) : string :=
  match msg_content m with
  | ContentText text => text
  | ContentBlocks blocks =>
      join (LF ^^ LF) (omap (λ '(text, content), if negb (text == "") then Some text
                                                  else if negb (content == "") then Some content
                                                  else None) blocks)
  | ContentNone => ""
  end.

Fixpoint render_messages (i : Z) (l : list RpcMessage) : string :=
  match l with
  | [] => ""
  | m :: l' =>
    let role := if msg_role m == "" then "message" else msg_role m in
    let text := rpcMessageText m in
    let text := if text == "" then "```json" ^^ LF ^^ msg_json m ^^ LF ^^ "```" else text in
    "## " ^^ fmt_d i ^^ ". " ^^ role ^^ LF ^^ LF ^^ trimSpace text ^^ LF ^^ LF ^^
    render_messages (i + 1) l'
  end.

Definition renderRPCMessages (data : RpcData) : string :=
  match rd_messages data with
  | [] => ""
  | l => "# Pi Session Export" ^^ LF ^^ LF ^^ render_messages 1 l
  end.

Definition rpcPrompt (req : TaskRequest) : string :=
  match rq_Skills req with
  | [] => rq_Prompt req
  | skills => "You have access to the following skills: " ^^ join ", " skills ^^
              ". Use them when relevant." ^^ LF ^^ LF ^^ rq_Prompt req
  end.

Definition maxSummaryBytes : Z := 8000.
Definition truncateSummary (s : string) : string :=
  if maxSummaryBytes <? Z.of_nat (String.length s)
  then take_bytes (Z.to_nat maxSummaryBytes) s ^^ LF ^^ "... (truncated)" else s.

Definition splitQualifiedModel (model : string) : string * string :=
  match cut "/" model with
  | Some (p, m) => if (trimSpace p == "") || (trimSpace m == "") then ("", model)
                   else (trimSpace p, trimSpace m)
  | None => ("", model)
  end.

Section run.
Variable env : RpcEnv.
Variable req : TaskRequest.

Notation getenv := (pe_getenv env).
Notation now := (pe_now env).

(** ** Reports *)

Definition report (r : TaskResponse) : rpc unit := act (AReport r).

Definition oomMessage (message : string) : string :=
  if pe_container env == "" then message else dockerOOMMessage (pe_oom env) message.

Definition publish_error (message : string) : rpc unit :=
  report (publishStatusForRequest getenv req now "error" message []).

Definition publish_status (status message : string) : rpc unit :=
  report (publishStatusForRequest getenv req now status message []).

Definition publish_category (message category : string) : rpc unit :=
  report (publishStatusWithErrorCategory getenv req now "error" message category []).

(** A status with the session and the usage so far. *)
Definition publish_metadata (status message export : string) : rpc unit :=
  get_state ≫= λ st,
  report (publishStatusWithMetadata getenv req now status message [] (st_sessionID st) export (st_usage st)).

Definition publish_event (detail : string) : rpc unit := report (publishEvent getenv req detail).

(** ** Lines *)

(** A command is written, or the error of writing it. *)
Definition writeRPCCommand (id : string) : rpc (option string) :=
  match pe_write env id with
  | Some e => mret (Some e)
  | None => act (AWrite id) ≫= λ _, mret None
  end.

Fixpoint emit_all (out : list RpcOut) : rpc (option string) :=
  match out with
  | [] => mret None
  | OPublish detail :: out => publish_event detail ≫= λ _, emit_all out
  | OWrite id :: out =>
      writeRPCCommand id ≫= λ e, match e with Some e => mret (Some e) | None => emit_all out end
  | _ :: out => emit_all out
  end.

(** The error of an event is that of the answer it writes. *)
Definition handle_line (at_ : time) (ev : RpcEvent) : rpc (option string) :=
  get_state ≫= λ st,
  let '(st', out) := handleRPCEvent at_ ev st in
  set_state (λ _, st') ≫= λ _, emit_all out.

(** A wait ends with the answer or with an error: that of a read, or a text. *)
Fixpoint waitForRPCResponse (fuel : nat) (k : Ctx) (id : string) : rpc ((ReadErr + string) + RpcData) :=
  match fuel with
  | O => mret (inl (inl REof))
  | S fuel =>
    readRPCLine k ≫= λ r,
    match r with
    | inl e => mret (inl (inl e))
    | inr None => waitForRPCResponse fuel k id
    | inr (Some (at_, ev)) =>
      match ev with
      | EResponse rid success error data =>
        if rid == id then
          if (success : bool) then mret (inr data)
          else mret (inl (inr (if error == "" then "RPC command " ^^ id ^^ " failed" else error)))
        else handle_line at_ ev ≫= λ e,
             match e with Some e => mret (inl (inr e)) | None => waitForRPCResponse fuel k id end
      | _ => handle_line at_ ev ≫= λ e,
             match e with Some e => mret (inl (inr e)) | None => waitForRPCResponse fuel k id end
      end
    end
  end.

(** Every round reads at least one element of the stream. *)
Definition wait_for (k : Ctx) (id : string) : rpc ((ReadErr + string) + RpcData) :=
  ask (λ s, (length (sm_lines s), s)) ≫= λ n, waitForRPCResponse (S n) k id.

Definition wait_err_text (e : ReadErr + string) : string :=
  match e with inl e => read_err_text e | inr s => s end.

(** The write of a command and the wait for its answer, if it was written. *)
Definition ask_rpc (k : Ctx) (id : string) : rpc (string + ((ReadErr + string) + RpcData)) :=
  writeRPCCommand id ≫= λ e,
  match e with
  | Some e => mret (inl e)
  | None => wait_for k id ≫= λ r, mret (inr r)
  end.

Definition cleanupRPCSession : rpc string :=
  ask_rpc CClean "messages" ≫= λ r,
  let export := match r with inr (inr data) => renderRPCMessages data | _ => "" end in
  ask_rpc CClean "abort" ≫= λ _, mret export.

(** ** The model check *)

(** The provider and the model to look for, if both are known. *)
Definition wanted_model : option (string * string) :=
  let provider := trimSpace (rq_ProviderID req) in
  let model := trimSpace (rq_ModelID req) in
  if (model == "") && (provider == "") then None else
  let '(provider, model) :=
    if (provider == "") && contains model "/" then splitQualifiedModel model else (provider, model) in
  if (provider == "") || (model == "") then None else Some (provider, model).

Definition verifyRPCModelAvailable : rpc (option string) :=
  match wanted_model with
  | None => mret None
  | Some (provider, model) =>
    ask_rpc CTask "models" ≫= λ r,
    match r with
    | inr (inr data) =>
      if existsb (λ '(id, p), (id == model) && (p == provider)) (rd_models data) then mret None
      else mret (Some (provider ^^ "/" ^^ model ^^ " model not available in Pi build"))
    | _ => mret None
    end
  end.

(** ** The event loop *)

Inductive LoopEnd := LoopTerminal | LoopCtx (e : ReadErr) | LoopOutput (e : ReadErr) | LoopEvent (e : string).

Fixpoint event_loop (fuel : nat) : rpc LoopEnd :=
  get_state ≫= λ st,
  if st_terminal st then mret LoopTerminal else
  match fuel with
  | O => mret (LoopOutput REof)
  | S fuel =>
    readRPCLine CAgent ≫= λ r,
    match r with
    | inl (RDone _ as e) | inl (RStuck as e) => mret (LoopCtx e)
    | inl REof =>
      if completeOnEOF st then mret LoopTerminal else mret (LoopOutput REof)
    | inl e => mret (LoopOutput e)
    | inr None => event_loop fuel
    | inr (Some (at_, ev)) =>
      handle_line at_ ev ≫= λ e,
      match e with Some e => mret (LoopEvent e) | None => event_loop fuel end
    end
  end.

(** ** The whole run *)

(** The crash of the sandbox, if the daemon recorded one. *)
Definition rpcSandboxCrashMessage (fallback : string) : option string :=
  if negb (pe_gvisor env) || (pe_container env == "") then None
  else match pe_crash env with
       | Some reason => Some ("sandbox crashed: " ^^ reason ^^ ": " ^^ fallback)
       | None => None
       end.

Definition publish_cancellation (deadline : bool) : rpc unit :=
  let '(status, message) := cancellationStatus deadline (pe_name env) in publish_status status message.

Definition publish_cancellation_with (deadline : bool) (export : string) : rpc unit :=
  let '(status, message) := cancellationStatus deadline (pe_name env) in
  publish_metadata status message export.

Definition fail_output (message : string) : rpc bool :=
  publish_metadata "error" (oomMessage message) "" ≫= λ _, mret false.

(** The text of the result and the transcript, once the agent has ended. *)
Definition collect_result : rpc string :=
  get_state ≫= λ st,
  let text := trimSpace (st_summary st) in
  ask_rpc CTask "result" ≫= λ r,
  match r with
  | inl e => publish_event (pe_name env ^^ " result write: " ^^ e) ≫= λ _, mret text
  | inr (inl e) => publish_event (pe_name env ^^ " result: " ^^ wait_err_text e) ≫= λ _, mret text
  | inr (inr data) =>
      let last := trimSpace (rd_text data) in mret (if last == "" then text else last)
  end.

Definition collect_messages : rpc string :=
  ask_rpc CTask "messages" ≫= λ r,
  match r with
  | inl e => publish_event (pe_name env ^^ " messages write: " ^^ e) ≫= λ _, mret ""
  | inr (inl e) => publish_event (pe_name env ^^ " messages: " ^^ wait_err_text e) ≫= λ _, mret ""
  | inr (inr data) => mret (renderRPCMessages data)
  end.

(** After the agent's end; the answer tells whether the process was waited for. *)
Definition finish_rpc : rpc bool :=
  collect_result ≫= λ text,
  collect_messages ≫= λ export,
  ctx_ended ≫= λ d,
  match d with
  | Some d => cleanupRPCSession ≫= λ export, publish_cancellation_with d export ≫= λ _, mret false
  | None =>
    act AProcessEnd ≫= λ _,
    ctx_ended ≫= λ d,
    match d with
    | Some d => publish_cancellation_with d export ≫= λ _, mret true
    | None =>
      match pe_wait env with
      | Some e =>
        match rpcSandboxCrashMessage (pe_name env ^^ ": " ^^ e) with
        | Some msg =>
            get_state ≫= λ st,
            report (publishStatusWithMetadataAndErrorCategory getenv req now "error" msg "sandbox_crashed"
                      [] (st_sessionID st) export (st_usage st)) ≫= λ _, mret true
        | None => publish_metadata "error" (oomMessage (pe_name env ^^ ": " ^^ e)) export ≫= λ _, mret true
        end
      | None =>
        get_state ≫= λ st,
        if negb (st_errorMessage st == "")
        then publish_metadata "error" (st_errorMessage st) export ≫= λ _, mret true
        else publish_metadata "done"
               (truncateSummary (if text == "" then "Pi completed without assistant text." else text))
               export ≫= λ _, mret true
      end
    end
  end.

Definition after_loop (r : LoopEnd) : rpc bool :=
  match r with
  | LoopTerminal => finish_rpc
  | LoopCtx e =>
    cleanupRPCSession ≫= λ export,
    is_stuck ≫= λ stuck,
    if (stuck : bool)
    then publish_metadata "error" (pe_stuck_error env) "" ≫= λ _, mret false
    else publish_cancellation_with (match e with RDone d => d | _ => false end) export ≫= λ _, mret false
  | LoopOutput e => fail_output (pe_name env ^^ " output: " ^^ read_err_text e)
  | LoopEvent e => fail_output (pe_name env ^^ " event: " ^^ e)
  end.

Definition prompt_rpc : rpc bool :=
  set_state (λ st, st{{ st_probes := Some ∅ }}) ≫= λ _,
  publish_status "running" "Sending prompt to agent..." ≫= λ _,
  ask_rpc CTask "prompt" ≫= λ r,
  match r with
  | inl e => fail_output ("write prompt: " ^^ e)
  | inr (inl e) =>
    ctx_ended ≫= λ d,
    match d with
    | Some d => cleanupRPCSession ≫= λ export, publish_cancellation_with d export ≫= λ _, mret false
    | None => fail_output (pe_name env ^^ " prompt: " ^^ wait_err_text e)
    end
  | inr (inr _) =>
    ask (λ s, (length (sm_lines s), s)) ≫= λ n, event_loop (S n) ≫= after_loop
  end.

Definition drive_rpc : rpc bool :=
  ask_rpc CTask "ready" ≫= λ r,
  match r with
  | inl e => publish_error (oomMessage ("write ready probe: " ^^ e)) ≫= λ _, mret false
  | inr (inl e) =>
    ctx_ended ≫= λ d,
    match d with
    | Some d => publish_cancellation d ≫= λ _, mret false
    | None =>
      match rpcSandboxCrashMessage (pe_name env ^^ " ready: " ^^ wait_err_text e) with
      | Some msg => publish_category msg "sandbox_crashed" ≫= λ _, mret false
      | None => publish_error (oomMessage (pe_name env ^^ " ready: " ^^ wait_err_text e)) ≫= λ _, mret false
      end
    end
  | inr (inr data) =>
    set_state (λ st, st{{ st_sessionID := rd_sessionId data }}) ≫= λ _,
    verifyRPCModelAvailable ≫= λ v,
    match v with
    | Some e =>
      ctx_ended ≫= λ d,
      match d with
      | Some d => publish_cancellation d ≫= λ _, mret false
      | None => publish_error e ≫= λ _, mret false
      end
    | None => prompt_rpc
    end
  end.

Definition runRPCAgentCommand : rpc unit :=
  match pe_pipe env "stdin", pe_pipe env "stdout", pe_pipe env "stderr" with
  | Some e, _, _ => publish_error ("stdin pipe: " ^^ e)
  | None, Some e, _ => publish_error ("stdout pipe: " ^^ e)
  | None, None, Some e => publish_error ("stderr pipe: " ^^ e)
  | None, None, None =>
    match pe_start env with
    | Some e =>
      if pe_gvisor env && negb (pe_container env == "") && pe_start_is_sandbox env
      then publish_category ("sandbox failed to start: " ^^ e) "sandbox_start_failed"
      else publish_error ("start " ^^ pe_name env ^^ ": " ^^ e)
    | None =>
      act AProcessStart ≫= λ _,
      drive_rpc ≫= λ exited,
      when (negb exited) (act AProcessEnd)
    end
  end.
End run.

(** ** Lemmas *)

Lemma read_line_shorter k l done stuck r l' done' stuck' :
  read_line k l done stuck = (r, l', done', stuck') →
  (length l' <= length l)%nat ∧ (r ≠ inl REof → (length l' < length l)%nat).
Proof.
  revert done stuck. induction l as [|x l IH]; intros done stuck; cbn [read_line].
  { intros [= <- <- <- <-]. by split. }
  assert (∀ d s, read_line k l d s = (r, l', done', stuck') →
    (length l' <= length (x :: l))%nat ∧ (r ≠ inl REof → (length l' < length (x :: l))%nat)) as Hrec.
  { intros d s H. destruct (IH d s H). cbn. split; [lia|]. intros Hr. lia. }
  destruct x; try (intros [= <- <- <- <-]; cbn; split; lia);
    destruct k; try apply Hrec; intros [= <- <- <- <-]; cbn; split; lia.
Qed.

(** The end of the task, counted. *)
Definition terminal (a : Act) : Z :=
  match a with AReport r => if isTerminalStatus (rs_Status r) then 1 else 0 | _ => 0 end.

Definition process (a : Act) : Z :=
  match a with AProcessStart => 1 | AProcessEnd => -1 | _ => 0 end.

(** A weight that running reports and written commands do not have. *)
Class Idle (f : Act → Z) := {
  idle_write : ∀ id, f (AWrite id) = 0;
  idle_running : ∀ r, rs_Status r = "running" → f (AReport r) = 0;
}.

#[export] Instance idle_terminal : Idle terminal.
Proof. split; [done|]. intros r. cbn. by intros ->. Qed.
#[export] Instance idle_process : Idle process.
Proof. by split. Qed.

Create HintDb quiet discriminated.
Create HintDb final discriminated.
#[export] Hint Constants Opaque : quiet.
#[export] Hint Constants Opaque : final.
#[export] Hint Resolve quiet_ret quiet_ask idle_terminal idle_process : quiet.

(** Walks through a computation of which every part is quiet. *)
Ltac quiet_step :=
  match goal with
  | |- quiet _ (mret _) => apply quiet_ret
  | |- quiet _ (ask _) => apply quiet_ask
  | |- quiet _ (_ ≫= _) => apply quiet_bind; [|intros ?]
  | |- quiet _ (when _ _) => apply quiet_when
  | |- quiet _ (if ?b then _ else _) => destruct b
  | |- quiet _ (match ?x with _ => _ end) => destruct x
  end.
Ltac quietly := repeat first [quiet_step | solve [eauto with quiet]].

Section quiet_runs.
Variable env : RpcEnv.
Variable req : TaskRequest.
Variable f : Act → Z.
Context `{!Idle f}.

Lemma quiet_get_state : quiet f get_state.
Proof. apply quiet_ask. Qed.
Lemma quiet_set_state g : quiet f (set_state g).
Proof. apply quiet_ask. Qed.
Lemma quiet_ctx_ended : quiet f ctx_ended.
Proof. apply quiet_ask. Qed.
Lemma quiet_is_stuck : quiet f is_stuck.
Proof. apply quiet_ask. Qed.
Lemma quiet_read k : quiet f (readRPCLine k).
Proof. apply quiet_ask. Qed.
Lemma quiet_act a : f a = 0 → quiet f (act a).
Proof. intros H. by apply quiet_call. Qed.

Lemma running_event detail : rs_Status (publishEvent (pe_getenv env) req detail) = "running".
Proof. unfold publishEvent. apply (decorate_fields (pe_getenv env) req ""). Qed.

Lemma quiet_publish_event detail : quiet f (publish_event env req detail).
Proof. apply quiet_act, idle_running, running_event. Qed.

Lemma quiet_publish_running message : quiet f (publish_status env req "running" message).
Proof. apply quiet_act, idle_running. apply status_report_fields. Qed.

Lemma quiet_write id : quiet f (writeRPCCommand env id).
Proof.
  unfold writeRPCCommand. destruct (pe_write env id); [apply quiet_ret|].
  apply quiet_bind; [apply quiet_act, idle_write|intros; apply quiet_ret].
Qed.
#[local] Hint Resolve quiet_get_state quiet_set_state quiet_ctx_ended quiet_is_stuck quiet_read
  quiet_publish_event quiet_publish_running quiet_write : quiet.

Lemma quiet_emit_all out : quiet f (emit_all env req out).
Proof. induction out as [|[] out IH]; cbn [emit_all]; quietly. Qed.
#[local] Hint Resolve quiet_emit_all : quiet.

Lemma quiet_handle_line at_ ev : quiet f (handle_line env req at_ ev).
Proof. unfold handle_line. quietly. Qed.
#[local] Hint Resolve quiet_handle_line : quiet.

Lemma quiet_wait fuel k id : quiet f (waitForRPCResponse env req fuel k id).
Proof. induction fuel as [|fuel IH]; cbn [waitForRPCResponse]; quietly. Qed.

Lemma quiet_wait_for k id : quiet f (wait_for env req k id).
Proof. unfold wait_for. apply quiet_bind; [apply quiet_ask|]. intros n. apply quiet_wait. Qed.
#[local] Hint Resolve quiet_wait_for : quiet.

Lemma quiet_ask_rpc k id : quiet f (ask_rpc env req k id).
Proof. unfold ask_rpc. quietly. Qed.
#[local] Hint Resolve quiet_ask_rpc : quiet.

Lemma quiet_cleanup : quiet f (cleanupRPCSession env req).
Proof. unfold cleanupRPCSession. quietly. Qed.

Lemma quiet_verify : quiet f (verifyRPCModelAvailable env req).
Proof. unfold verifyRPCModelAvailable. quietly. Qed.

Lemma quiet_event_loop fuel : quiet f (event_loop env req fuel).
Proof. induction fuel as [|fuel IH]; cbn [event_loop]; quietly. Qed.

Lemma quiet_collect_result : quiet f (collect_result env req).
Proof. unfold collect_result. quietly. Qed.

Lemma quiet_collect_messages : quiet f (collect_messages env req).
Proof. unfold collect_messages. quietly. Qed.
End quiet_runs.
#[export] Hint Resolve quiet_get_state quiet_set_state quiet_ctx_ended quiet_is_stuck quiet_read
  quiet_publish_event quiet_publish_running quiet_write quiet_emit_all quiet_handle_line quiet_wait_for
  quiet_ask_rpc quiet_cleanup quiet_verify quiet_event_loop quiet_collect_result quiet_collect_messages
  : quiet.

(** *** Once *)

(** [m] reports the end of the run exactly once. *)
Notation final := (weighs terminal (λ _, 1)).

Lemma final_first {A B} (m : rpc A) (k : A → rpc B) :
  final m → (∀ a, quiet terminal (k a)) → final (m ≫= k).
Proof. intros Hm Hk. by apply (weighs_bind _ (λ _, 1)). Qed.

Lemma final_later {A B} (m : rpc A) (k : A → rpc B) :
  quiet terminal m → (∀ a, final (k a)) → final (m ≫= k).
Proof. apply weighs_after. Qed.

Lemma final_report r : isTerminalStatus (rs_Status r) = true → final (report r).
Proof. intros H. apply weighs_call. intros _. unfold terminal. by rewrite H. Qed.

Lemma cancellation_terminal d name : isTerminalStatus (cancellationStatus d name).1 = true.
Proof. by destruct d. Qed.

(** Walks to the one report of the end. *)
Ltac final_step :=
  match goal with
  | |- final (_ ≫= _) =>
      first [apply final_first; [solve [auto 2 with final]|intros ?; quietly]
            |apply final_later; [solve [quietly]|intros ?]]
  | |- final (if ?b then _ else _) => destruct b
  | |- final (match ?x with _ => _ end) => destruct x
  end.
Ltac finally := repeat first [final_step | solve [eauto with final]].

Section once.
Variable env : RpcEnv.
Variable req : TaskRequest.

Lemma final_status status message :
  isTerminalStatus status = true → final (publish_status env req status message).
Proof. intros H. apply final_report. unfold publishStatusForRequest, publishStatusWithToken.
  pose proof (status_report_fields (pe_getenv env) req (pe_now env) status message "" [] "" "" "" "" no_usage)
    as (_ & _ & _ & _ & _ & -> & _). done. Qed.

Lemma final_category message category : final (publish_category env req message category).
Proof.
  apply final_report. unfold publishStatusWithErrorCategory.
  by pose proof (status_report_fields (pe_getenv env) req (pe_now env) "error" message category [] "" "" "" ""
    no_usage) as (_ & _ & _ & _ & _ & -> & _).
Qed.

Lemma final_metadata status message export :
  isTerminalStatus status = true → final (publish_metadata env req status message export).
Proof.
  intros H. unfold publish_metadata. apply final_later; [apply quiet_get_state|]. intros st.
  apply final_report. unfold publishStatusWithMetadata, publishStatusWithMetadataAndErrorCategory.
  by pose proof (status_report_fields (pe_getenv env) req (pe_now env) status message "" [] (st_sessionID st)
    export "" "" (st_usage st)) as (_ & _ & _ & _ & _ & -> & _).
Qed.

Lemma final_metadata_category st msg export :
  final (report (publishStatusWithMetadataAndErrorCategory (pe_getenv env) req (pe_now env) "error" msg
                   "sandbox_crashed" [] (st_sessionID st) export (st_usage st))).
Proof.
  apply final_report. unfold publishStatusWithMetadataAndErrorCategory.
  by pose proof (status_report_fields (pe_getenv env) req (pe_now env) "error" msg "sandbox_crashed" []
    (st_sessionID st) export "" "" (st_usage st)) as (_ & _ & _ & _ & _ & -> & _).
Qed.

Lemma final_cancellation d : final (publish_cancellation env req d).
Proof.
  unfold publish_cancellation. pose proof (cancellation_terminal d (pe_name env)).
  destruct (cancellationStatus d (pe_name env)). by apply final_status.
Qed.

Lemma final_cancellation_with d export : final (publish_cancellation_with env req d export).
Proof.
  unfold publish_cancellation_with. pose proof (cancellation_terminal d (pe_name env)).
  destruct (cancellationStatus d (pe_name env)). by apply final_metadata.
Qed.

Lemma final_error message : final (publish_error env req message).
Proof. by apply final_status. Qed.
#[local] Hint Resolve final_status final_error final_category final_metadata final_cancellation
  final_cancellation_with final_metadata_category : final.
#[local] Hint Extern 0 (isTerminalStatus _ = true) => reflexivity : final.

Lemma quiet_process_end : quiet terminal (act AProcessEnd).
Proof. by apply quiet_act. Qed.
Lemma quiet_process_start : quiet terminal (act AProcessStart).
Proof. by apply quiet_act. Qed.
#[local] Hint Resolve quiet_process_end quiet_process_start : quiet.

Lemma final_output message : final (fail_output env req message).
Proof. unfold fail_output. finally. Qed.
#[local] Hint Resolve final_output : final.

Lemma final_finish : final (finish_rpc env req).
Proof. unfold finish_rpc. finally. Qed.
#[local] Hint Resolve final_finish : final.

Lemma final_after_loop r : final (after_loop env req r).
Proof. unfold after_loop. finally. Qed.
#[local] Hint Resolve final_after_loop : final.

Lemma final_prompt : final (prompt_rpc env req).
Proof. unfold prompt_rpc. finally. Qed.
#[local] Hint Resolve final_prompt : final.

Lemma final_drive : final (drive_rpc env req).
Proof. unfold drive_rpc. finally. Qed.
#[local] Hint Resolve final_drive : final.

Lemma final_rpc : final (runRPCAgentCommand env req).
Proof.
  unfold runRPCAgentCommand.
  destruct (pe_pipe env "stdin"); [apply final_error|]. destruct (pe_pipe env "stdout"); [apply final_error|].
  destruct (pe_pipe env "stderr"); [apply final_error|]. destruct (pe_start env).
  - destruct (_ && pe_start_is_sandbox env); [apply final_category|apply final_error].
  - apply final_later; [apply quiet_process_start|]. intros _.
    apply final_first; [apply final_drive|]. intros exited. apply quiet_when, quiet_process_end.
Qed.
End once.
#[export] Hint Resolve final_status final_error final_category final_metadata final_cancellation
  final_cancellation_with final_metadata_category final_rpc : final.
#[export] Hint Extern 0 (isTerminalStatus _ = true) => reflexivity : final.
#[export] Hint Resolve quiet_process_end quiet_process_start : quiet.

(** *** The process is waited for *)

Section reaped.
Variable env : RpcEnv.
Variable req : TaskRequest.

(** A part that waited for the process says so. *)
Notation waited := (weighs process (λ exited : bool, if exited then -1 else 0)).

Lemma quiet_process_report r : quiet process (report r).
Proof. by apply quiet_act. Qed.
Lemma quiet_process_status status message : quiet process (publish_status env req status message).
Proof. apply quiet_process_report. Qed.
Lemma quiet_process_error message : quiet process (publish_error env req message).
Proof. apply quiet_process_report. Qed.
Lemma quiet_process_category message category : quiet process (publish_category env req message category).
Proof. apply quiet_process_report. Qed.
Lemma quiet_process_metadata status message export :
  quiet process (publish_metadata env req status message export).
Proof. unfold publish_metadata. apply quiet_bind; [apply quiet_get_state|]. intros st. apply quiet_process_report. Qed.
Lemma quiet_process_cancellation d : quiet process (publish_cancellation env req d).
Proof. unfold publish_cancellation. destruct (cancellationStatus _ _). apply quiet_process_status. Qed.
Lemma quiet_process_cancellation_with d export : quiet process (publish_cancellation_with env req d export).
Proof. unfold publish_cancellation_with. destruct (cancellationStatus _ _). apply quiet_process_metadata. Qed.
#[local] Hint Resolve quiet_process_report quiet_process_status quiet_process_error quiet_process_category
  quiet_process_metadata quiet_process_cancellation quiet_process_cancellation_with : quiet.

Lemma waited_no {A} (m : rpc A) : quiet process m → waited (m ≫= λ _, mret false).
Proof. intros H. apply weighs_after; [done|]. intros a. by apply weighs_ret. Qed.

Lemma waited_yes {A} (m : rpc A) :
  quiet process m → weighs process (λ exited : bool, (if exited then -1 else 0) - -1) (m ≫= λ _, mret true).
Proof. intros H. apply weighs_after; [done|]. intros a. by apply weighs_ret. Qed.

Ltac waited_step :=
  match goal with
  | |- weighs process _ (if ?b then _ else _) => destruct b
  | |- weighs process _ (match ?x with _ => _ end) => destruct x
  | |- weighs process _ (act AProcessEnd ≫= _) =>
      apply (weighs_step _ (-1)); [by apply weighs_call|intros ?]
  | |- weighs process _ (_ ≫= λ _, mret false) => apply waited_no; solve [quietly]
  | |- weighs process _ (_ ≫= λ _, mret true) => apply waited_yes; solve [quietly]
  | |- weighs process _ (_ ≫= _) => apply weighs_after; [solve [quietly]|intros ?]
  end.

Lemma waited_finish : waited (finish_rpc env req).
Proof. unfold finish_rpc. repeat waited_step. Qed.

Lemma waited_output message : waited (fail_output env req message).
Proof. unfold fail_output. repeat waited_step. Qed.

Lemma waited_after_loop r : waited (after_loop env req r).
Proof.
  unfold after_loop. destruct r; [apply waited_finish| |apply waited_output..]. repeat waited_step.
Qed.

Lemma waited_prompt : waited (prompt_rpc env req).
Proof.
  unfold prompt_rpc. repeat first [apply waited_output|apply waited_after_loop|waited_step].
Qed.

Lemma waited_drive : waited (drive_rpc env req).
Proof. unfold drive_rpc. repeat first [apply waited_prompt|waited_step]. Qed.

Lemma reaped_rpc : quiet process (runRPCAgentCommand env req).
Proof.
  unfold runRPCAgentCommand.
  destruct (pe_pipe env "stdin"); [apply quiet_process_error|].
  destruct (pe_pipe env "stdout"); [apply quiet_process_error|].
  destruct (pe_pipe env "stderr"); [apply quiet_process_error|]. destruct (pe_start env).
  - destruct (_ && pe_start_is_sandbox env); apply quiet_process_report.
  - apply (weighs_bind _ (λ _, 1)); [by apply weighs_call|]. intros _.
    apply (weighs_bind _ _ _ _ _ waited_drive). intros exited.
    destruct exited; [by apply weighs_ret|]. by apply weighs_call.
Qed.
End reaped.

(** *** Errors seen *)

Definition completions (a : Act) : Z :=
  match a with AReport r => if rs_Status r == "done" then 1 else 0 | _ => 0 end.

#[export] Instance idle_completions : Idle completions.
Proof. split; [done|]. intros r. cbn. by intros ->. Qed.

Section errors.
Variable env : RpcEnv.
Variable req : TaskRequest.

(** The run has seen an error. *)
Definition erred (s : RpcStream) : Prop := st_errorMessage (sm_state s) ≠ "".

(** From such a state [m] completes nothing, and ends in one. *)
Definition barred {A} (m : rpc A) : Prop :=
  ∀ s, erred s → weight completions (trace_of m s) = 0 ∧ erred (world_of m s).

Lemma barred_bind {A B} (m : rpc A) (k : A → rpc B) :
  barred m → (∀ a, barred (k a)) → barred (m ≫= k).
Proof.
  intros Hm Hk s Hs. destruct (Hm s Hs) as [H1 H2]. destruct (Hk (result_of m s) _ H2) as [H3 H4].
  rewrite trace_bind, weight_app, H1, H3. split; [done|].
  revert H4. unfold world_of, result_of, mbind, eff_bind. destruct (m s) as [[a es] s1]. cbn.
  by destruct (k a s1) as [[b es'] s2].
Qed.

Lemma barred_ret {A} (a : A) : barred (mret a).
Proof. intros s Hs. by split. Qed.

Lemma barred_ask {A} (f : RpcStream → A * RpcStream) : (∀ s, erred s → erred (f s).2) → barred (ask f).
Proof.
  intros Hf s Hs. specialize (Hf s Hs). rewrite trace_ask. split; [done|]. unfold world_of, ask.
  by destruct (f s).
Qed.

Lemma barred_act a : completions a = 0 → barred (act a).
Proof. intros H s Hs. unfold act. rewrite trace_call. cbn. rewrite H. by split. Qed.

(** The state read is one that has seen an error. *)
Lemma barred_get_state {A} (k : rpcAgentState → rpc A) :
  (∀ st, st_errorMessage st ≠ "" → barred (k st)) → barred (get_state ≫= k).
Proof.
  intros Hk s Hs. destruct (Hk (sm_state s) Hs s Hs) as [H1 H2].
  unfold get_state, ask, trace_of, world_of, mbind, eff_bind in *. cbn.
  by destruct (k (sm_state s) s) as [[b es'] s2].
Qed.

Lemma barred_read k : barred (readRPCLine k).
Proof.
  apply barred_ask. intros s Hs. by destruct (read_line _ _ _ _) as [[[r l] done] stuck].
Qed.

Lemma barred_ctx_ended : barred ctx_ended.
Proof. apply barred_ask. intros s Hs. destruct (sm_done s); [done|]. by destruct (sm_lines s) as [|[] l]. Qed.

Lemma barred_is_stuck : barred is_stuck.
Proof. by apply barred_ask. Qed.

Lemma barred_length : barred (ask (λ s, (length (sm_lines s), s))).
Proof. by apply barred_ask. Qed.

Lemma barred_write id : barred (writeRPCCommand env id).
Proof.
  unfold writeRPCCommand. destruct (pe_write env id); [apply barred_ret|].
  apply barred_bind; [by apply barred_act|]. intros; apply barred_ret.
Qed.

Lemma barred_publish_event detail : barred (publish_event env req detail).
Proof. apply barred_act, idle_running, running_event. Qed.

Lemma barred_publish_running message : barred (publish_status env req "running" message).
Proof. apply barred_act, idle_running. apply status_report_fields. Qed.

Lemma barred_emit_all out : barred (emit_all env req out).
Proof.
  induction out as [|o out IH]; cbn [emit_all]; [apply barred_ret|]. destruct o; [apply IH| | |apply IH].
  - apply barred_bind; [apply barred_publish_event|done].
  - apply barred_bind; [apply barred_write|]. intros [e|]; [apply barred_ret|apply IH].
Qed.

Lemma barred_handle_line at_ ev : barred (handle_line env req at_ ev).
Proof.
  unfold handle_line. apply barred_get_state. intros st Hst.
  destruct (handleRPCEvent at_ ev st) as [st' out] eqn:E. apply barred_bind.
  - apply barred_ask. intros s _. cbn. pose proof (handle_fields at_ ev st) as (He & _).
    rewrite E in He. unfold erred. cbn in He |- *. rewrite He. by apply on_event_error.
  - intros _. apply barred_emit_all.
Qed.

Lemma barred_wait fuel k id : barred (waitForRPCResponse env req fuel k id).
Proof.
  induction fuel as [|fuel IH]; cbn [waitForRPCResponse]; [apply barred_ret|].
  apply barred_bind; [apply barred_read|]. intros [e|[[at_ ev]|]]; [apply barred_ret| |apply IH].
  assert (barred (handle_line env req at_ ev ≫= λ e,
    match e with Some e => mret (inl (inr e)) | None => waitForRPCResponse env req fuel k id end)) as Hother.
  { apply barred_bind; [apply barred_handle_line|]. intros [e|]; [apply barred_ret|apply IH]. }
  destruct ev; try apply Hother. destruct (_ == id); [|apply Hother].
  destruct success; apply barred_ret.
Qed.

Lemma barred_ask_rpc k id : barred (ask_rpc env req k id).
Proof.
  unfold ask_rpc. apply barred_bind; [apply barred_write|]. intros [e|]; [apply barred_ret|].
  apply barred_bind; [|intros; apply barred_ret]. unfold wait_for.
  apply barred_bind; [apply barred_length|]. intros n. apply barred_wait.
Qed.

Lemma barred_cleanup : barred (cleanupRPCSession env req).
Proof.
  unfold cleanupRPCSession. apply barred_bind; [apply barred_ask_rpc|]. intros r.
  apply barred_bind; [apply barred_ask_rpc|]. intros _. apply barred_ret.
Qed.

Lemma barred_event_loop fuel : barred (event_loop env req fuel).
Proof.
  induction fuel as [|fuel IH]; cbn [event_loop]; apply barred_get_state; intros st Hst;
    (destruct (st_terminal st); [apply barred_ret|]); [apply barred_ret|].
  apply barred_bind; [apply barred_read|].
  intros [[| | | |]|[[at_ ev]|]]; try apply barred_ret; [by destruct (completeOnEOF st); apply barred_ret| |apply IH].
  apply barred_bind; [apply barred_handle_line|]. intros [e|]; [apply barred_ret|apply IH].
Qed.

Lemma barred_metadata status message export :
  status ≠ "done" → barred (publish_metadata env req status message export).
Proof.
  intros Hne. unfold publish_metadata. apply barred_get_state. intros st _. apply barred_act.
  unfold completions, publishStatusWithMetadata, publishStatusWithMetadataAndErrorCategory.
  pose proof (status_report_fields (pe_getenv env) req (pe_now env) status message "" [] (st_sessionID st)
    export "" "" (st_usage st)) as (_ & _ & _ & _ & _ & -> & _).
  by rewrite bool_decide_eq_false_2.
Qed.

Lemma barred_cancellation_with d export : barred (publish_cancellation_with env req d export).
Proof. unfold publish_cancellation_with. by destruct d; apply barred_metadata. Qed.

Lemma barred_output message : barred (fail_output env req message).
Proof. unfold fail_output. apply barred_bind; [by apply barred_metadata|]. intros; apply barred_ret. Qed.

Lemma barred_finish : barred (finish_rpc env req).
Proof.
  unfold finish_rpc, collect_result, collect_messages.
  assert (∀ (m : rpc unit) (b : bool), barred m → barred (m ≫= λ _, mret b)) as Hret.
  { intros m b H. apply barred_bind; [done|]. intros; apply barred_ret. }
  apply barred_bind.
  { apply barred_get_state. intros st _. apply barred_bind; [apply barred_ask_rpc|].
    intros [e|[e|data]]; [..|apply barred_ret]; (apply barred_bind; [apply barred_publish_event|]);
      intros; apply barred_ret. }
  intros text. apply barred_bind.
  { apply barred_bind; [apply barred_ask_rpc|].
    intros [e|[e|data]]; [..|apply barred_ret]; (apply barred_bind; [apply barred_publish_event|]);
      intros; apply barred_ret. }
  intros export. apply barred_bind; [apply barred_ctx_ended|]. intros [d|].
  { apply barred_bind; [apply barred_cleanup|]. intros e. apply Hret, barred_cancellation_with. }
  apply barred_bind; [by apply barred_act|]. intros _. apply barred_bind; [apply barred_ctx_ended|].
  intros [d|]; [apply Hret, barred_cancellation_with|].
  destruct (pe_wait env) as [e|].
  - destruct (rpcSandboxCrashMessage _ _); [|by apply Hret, barred_metadata].
    apply barred_get_state. intros st _. apply Hret, barred_act. unfold completions.
    unfold publishStatusWithMetadataAndErrorCategory.
    by pose proof (status_report_fields (pe_getenv env) req (pe_now env) "error" s "sandbox_crashed" []
      (st_sessionID st) export "" "" (st_usage st)) as (_ & _ & _ & _ & _ & -> & _).
  - apply barred_get_state. intros st Hst. rewrite (bool_decide_eq_false_2 _ Hst). cbn [negb].
    by apply Hret, barred_metadata.
Qed.

Lemma barred_after_loop r : barred (after_loop env req r).
Proof.
  unfold after_loop. destruct r; [apply barred_finish| |apply barred_output..].
  apply barred_bind; [apply barred_cleanup|]. intros export. apply barred_bind; [apply barred_is_stuck|].
  intros [].
  - apply barred_bind; [by apply barred_metadata|]. intros; apply barred_ret.
  - apply barred_bind; [apply barred_cancellation_with|]. intros; apply barred_ret.
Qed.
End errors.

(** ** Properties *)

(** A run of an RPC harness ends once. Whatever the harness writes, however
    its pipes, its process and the daemon behave, and whenever a context ends, the
    run makes exactly one report of its end, and its process has been waited for
    if it was started. *)
Theorem rpc_run_ends_once env req s :
  weight terminal (trace_of (runRPCAgentCommand env req) s) = 1 ∧
  weight process (trace_of (runRPCAgentCommand env req) s) = 0.
Proof. split; [apply final_rpc|apply reaped_rpc]. Qed.

(** A retried error fails the run. From the state the event loop is in after
    a message that ended with an error, nothing the harness does completes the run:
    when it retries, succeeds, writes its answer and ends as it should, the end of
    the run is still reported once and never as done, since no event clears the
    error and the end of the run looks at it. *)
Theorem retried_error_fails env req fuel s0 at_ usage reason :
  reason ≠ "" →
  let s := s0{{ sm_state :=
    (handleRPCEvent at_ (EMessageUpdate usage (Some (AssistantError reason))) (sm_state s0)).1 }} in
  let m := event_loop env req fuel ≫= after_loop env req in
  weight terminal (trace_of m s) = 1 ∧ weight completions (trace_of m s) = 0.
Proof.
  intros Hr. cbv zeta. split.
  { apply final_later; [apply quiet_event_loop, _|]. intros r. apply final_after_loop. }
  apply barred_bind; [apply barred_event_loop|intros r; apply barred_after_loop|].
  pose proof (handle_fields at_ (EMessageUpdate usage (Some (AssistantError reason))) (sm_state s0)) as (He & _).
  change (st_errorMessage (handleRPCEvent at_ (EMessageUpdate usage (Some (AssistantError reason)))
    (sm_state s0)).1 ≠ ""). rewrite He. cbn [on_event on_assistant].
  by rewrite bool_decide_eq_false_2.
Qed.

(** A run whose harness retries after an overload, and then does its work. *)
Definition sample_rpc_env : RpcEnv :=
  mkRpcEnv (λ _, "") 50 (λ _, None) None (λ _, None) None false false false None "" "pi" "stuck".

Definition no_data : RpcData := mkRpcData "" [] "" [].

Definition retried_lines : list RpcLine :=
  [LEvent 1 (EResponse "ready" true "" (mkRpcData "sid" [] "" []));
   LEvent 2 (EResponse "prompt" true "" no_data);
   LEvent 3 (EMessageUpdate no_usage (Some (AssistantError "overloaded")));
   LEvent 4 (ERetryStart "overloaded");
   LEvent 5 (ERetryEnd true "");
   LEvent 6 (EMessageUpdate no_usage (Some (TextDelta "all done")));
   LEvent 7 (EMessageEnd (Some ("assistant", "stop")));
   LEvent 8 (EAgentEnd false);
   LEvent 9 (EResponse "result" true "" (mkRpcData "" [] "all done" []));
   LEvent 10 (EResponse "messages" true "" no_data)].

Definition ended_as (l : list Act) : list (string * string) :=
  omap (λ a, match a with
             | AReport r => if isTerminalStatus (rs_Status r) then Some (rs_Status r, rs_Error r) else None
             | _ => None
             end) l.

Example retried_run :
  ended_as (trace_of (runRPCAgentCommand sample_rpc_env (sample_run_request "tok"))
    (mkStream retried_lines None false (new_state 0))) = [("error", "overloaded")].
Proof. vm_compute. reflexivity. Qed.

Lemma retried_error_fails_witness :
  weight completions (trace_of (event_loop sample_rpc_env (sample_run_request "tok") 20 ≫=
      after_loop sample_rpc_env (sample_run_request "tok"))
    (mkStream (drop 3 retried_lines) None false
       (handleRPCEvent 3 (EMessageUpdate no_usage (Some (AssistantError "overloaded"))) (new_state 0)).1)) = 0.
Proof.
  destruct (retried_error_fails sample_rpc_env (sample_run_request "tok") 20
    (mkStream (drop 3 retried_lines) None false (new_state 0)) 3 no_usage "overloaded" ltac:(discriminate))
    as [_ H].
  exact H.
Defined.
