(* ===== verification/RunnerContainer.v ===== *)
(** * Containers of a runner

    What a task's container is started with: the environment
    ([runner/internal/agentenv/environment.go]), the arguments of [docker run]
    ([docker_args.go], [dockerRPCArgs] of [runner_task.go]), the isolation gate
    ([isolation.go]), the resource limits with [config.ParseMemoryBytes], and the
    classification of a sandbox's death ([sandbox.go]). The ranges over Go maps
    are over association lists: the order is that of one run of the loop. *)
From Stdlib Require Import QArith.QArith.
From S2P Require Import Prelude GoStrings Status Repos Redact Db Validation RunnerPaths RunnerReport.
Open Scope Z_scope.

(** ** Managed names ([agentenv]) *)

Definition GitHubCredentialURLEnv : string := "CHETTER_GITHUB_CREDENTIAL_URL".
Definition GitHubCredentialTokenEnv : string := "CHETTER_GITHUB_CREDENTIAL_TOKEN".

Definition runnerOwnedEnvKeys : list string :=
  ["ANTHROPIC_API_KEY"; "ANTHROPIC_AUTH_TOKEN"; "ANTHROPIC_BASE_URL"; "ANTHROPIC_DEFAULT_HAIKU_MODEL";
   "ANTHROPIC_DEFAULT_OPUS_MODEL"; "ANTHROPIC_DEFAULT_SONNET_MODEL"; "CLAUDE_CODE_SUBAGENT_MODEL";
   "CLAUDE_SERVE_PROXY_TOKEN"; "CODEWHALE_CONFIG_DIR"; "CODEWHALE_CONFIG_PATH"; "CODEWHALE_RUNTIME_TOKEN";
   "CHETTER_TASK_ID"; "CHETTER_AGENT_SESSION_ID"; "CHETTER_USER_PROMPT_ID"; "CHETTER_EXECUTION_ID";
   "GITHUB_TOKEN"; "MEM9_API_KEY"; "MEM9_API_URL"; "MEM9_DEBUG"; "MEM9_HOME"; "OPENAI_API_KEY";
   "DEEPSEEK_API_KEY"; "OPENCODE_API_KEY"; "SYNTHETIC_API_KEY"; "ZAI_API_KEY"; "GEMINI_API_KEY";
   "GROQ_API_KEY"; "XAI_API_KEY"].

Definition IsRunnerOwnedEnv (key : string) : bool := one_of runnerOwnedEnvKeys key.

Definition isRunnerPrivateEnv (key : string) : bool :=
  one_of ["CHETTER_RUNNER_AUTH_TOKEN"; "CHETTER_RUNNER_RPC_TOKEN"; "MCP_AUTH_TOKEN"; "CHETTER_MCP_AUTH_TOKEN";
          GitHubCredentialURLEnv; GitHubCredentialTokenEnv] key.

Definition IsHarnessControlEnv (key : string) : bool :=
  hasPrefix key "NIF_" || hasPrefix key "CHETTER_NIFFLER_" ||
  one_of ["CLAUDE_CONFIG_DIR"; "CLAUDE_CODE_DISABLE_NONESSENTIAL_TRAFFIC"; "CLAUDE_CODE_ATTRIBUTION_HEADER";
          "CLAUDE_SERVE_PROXY_TOKEN"; "CODEWHALE_CONFIG_DIR"; "CODEWHALE_CONFIG_PATH"; "CODEWHALE_OFFLINE";
          "CODEWHALE_RUNTIME_TOKEN"; "CODEWHALE_PROVIDER"; "CODEWHALE_MODEL"; "DEEPSEEK_MCP_CONFIG";
          "OPENCODE_CONFIG"; "OPENCODE_CONFIG_CONTENT"; "OPENCODE_SERVER_PASSWORD"; "PI_CODING_AGENT_DIR";
          "PI_CODING_AGENT_SESSION_DIR"; "PI_OFFLINE"; "PI_SKIP_VERSION_CHECK"; "PI_TELEMETRY"] key.

Fixpoint endpoint_keys (seen : list string) (endpoints : list MCPEndpoint) : list string :=
  match endpoints with
  | [] => []
  | e :: l =>
    let key := trimSpace (ep_BearerTokenEnv e) in
    if (key == "") || existsb (String.eqb key) seen then endpoint_keys seen l
    else key :: endpoint_keys (key :: seen) l
  end.

Definition endpointTokenEnvKeys : list MCPEndpoint → list string := endpoint_keys [].

Definition IsManagedEnv (key : string) (req : TaskRequest) : bool :=
  if (rq_Harness req == "niffler") && IsHarnessControlEnv key then true else
  if IsRunnerOwnedEnv key || isRunnerPrivateEnv key || (key == GitHubCredentialURLEnv)
     || (key == GitHubCredentialTokenEnv) then true else
  let credKey := trimSpace (rq_ProviderAPIKeyEnv req) in
  if negb (credKey == "") && (key == credKey) then true
  else one_of (endpointTokenEnvKeys (rq_McpEndpoints req)) key.

(** ** Environments *)

Section env.
(** [os.LookupEnv] and [os.Environ]. *)
Variable lookupEnv : string → option string.
Variable environ : list string.

Definition getenv (key : string) : string := default "" (lookupEnv key).

Definition ValidateEndpointTokenEnvironment (endpoints : list MCPEndpoint) : err + unit :=
  (fix check (keys : list string) : err + unit :=
     match keys with
     | [] => inr tt
     | key :: keys =>
       if IsHarnessControlEnv key
       then inl (EFmt "MCP endpoint bearer_token_env %s conflicts with a reserved harness environment variable" [key])
       else if getenv key == "" then inl (EFmt "runner environment variable %s is required" [key])
       else check keys
     end) (endpointTokenEnvKeys endpoints).

Definition binding (key value : string) : string := key ^^ "=" ^^ value.

Definition TaskProcessEnv : list string :=
  List.filter (λ value, negb (isRunnerPrivateEnv (match cut "=" value with Some (k, _) => k | None => value end)))
    environ.

(** The non-empty runner-owned values, as bindings. *)
Definition owned_bindings (keys : list string) : list string :=
  omap (λ key, let value := getenv key in if value == "" then None else Some (binding key value)) keys.

Definition AppendRunnerOwnedEnv (env : list string) : list string := env ++ owned_bindings runnerOwnedEnvKeys.

Definition GitCredentialEnv (workspace : string) : list string :=
  ["GIT_ASKPASS=" ^^ Join workspace gitAskpassFilename; "GIT_ASKPASS_REQUIRE=force"; "GIT_TERMINAL_PROMPT=0"].

Definition GitIdentityEnv (req : TaskRequest) (workspace : string) : list string :=
  [binding "GIT_AUTHOR_NAME" (rq_GitAuthorName req); binding "GIT_AUTHOR_EMAIL" (rq_GitAuthorEmail req);
   binding "GIT_COMMITTER_NAME" (rq_GitAuthorName req); binding "GIT_COMMITTER_EMAIL" (rq_GitAuthorEmail req)] ++
  (if negb (rq_GitHubCredentialURL req == "") && negb (rq_GitHubCredentialToken req == "")
   then [binding GitHubCredentialURLEnv (rq_GitHubCredentialURL req);
         binding GitHubCredentialTokenEnv (rq_GitHubCredentialToken req)] else []) ++
  GitCredentialEnv workspace.

Definition ProviderCredentialEnv (req : TaskRequest) : list string :=
  let key := trimSpace (rq_ProviderAPIKeyEnv req) in
  if key == "" then [] else let value := getenv key in if value == "" then [] else [binding key value].

(** The task's own variables that are not managed. *)
Definition task_bindings (req : TaskRequest) (env : list (string * string)) : list string :=
  omap (λ '(k, v), if IsManagedEnv k req then None else Some (binding k v)) env.

Definition as_options (l : list string) : list string := l ≫= λ v, ["-e"; v].

(** An endpoint's token is passed by name only. *)
Definition AppendDockerManagedEnvironment (args : list string) (req : TaskRequest) : list string :=
  let endpointKeys := endpointTokenEnvKeys (rq_McpEndpoints req) in
  let providerKey := trimSpace (rq_ProviderAPIKeyEnv req) in
  args ++ as_options (owned_bindings (List.filter (λ key, negb (one_of endpointKeys key)) runnerOwnedEnvKeys)) ++
  (if negb (providerKey == "") && negb (one_of endpointKeys providerKey) && negb (IsRunnerOwnedEnv providerKey)
   then as_options (owned_bindings [providerKey]) else []) ++
  as_options endpointKeys.

(** What every agent is told about its run. *)
Definition run_bindings (req : TaskRequest) (modelID : string) : list string :=
  [binding "CHETTER_AGENT_NAME" (rq_Agent req); binding "CHETTER_MODEL_ID" modelID;
   binding "CHETTER_TASK_ID" (rq_TaskID req); binding "CHETTER_AGENT_SESSION_ID" (rq_AgentSessionID req);
   binding "CHETTER_USER_PROMPT_ID" (rq_UserPromptID req); binding "CHETTER_EXECUTION_ID" (rq_ExecutionID req);
   binding "CHETTER_RUNNER_IMAGE" (getenv "CHETTER_RUNNER_IMAGE");
   binding "CHETTER_RUNNER_IMAGE_DIGEST" (getenv "CHETTER_RUNNER_IMAGE_DIGEST")].

(** The environment of a local RPC process; [taskEnv] and [harnessEnv] are the
    entries of the two maps. *)
Definition agentEnv (req : TaskRequest) (wsDir modelID : string) (taskEnv harnessEnv : list (string * string))
    : list string :=
  AppendRunnerOwnedEnv (TaskProcessEnv ++ task_bindings req taskEnv) ++ GitIdentityEnv req wsDir ++
  run_bindings req modelID ++
  [binding "TASK_ID" (rq_TaskID req); binding "WORKSPACE" wsDir; binding "HOME" wsDir] ++
  map (λ '(k, v), binding k v) harnessEnv ++ ProviderCredentialEnv req.
End env.

(** ** Limits ([config.ParseMemoryBytes], [appendContainerLimits]) *)

(** A [float64] without its rounding: the code parses, compares, truncates and
    scales by powers of two, which are exact. *)
Inductive Float := FNum (q : Q) | FInf (negative : bool) | FNaN.

Definition float_lt (a b : Float) : bool :=
  match a, b with
  | FNum p, FNum q => negb (Qle_bool q p)
  | FInf neg, FNum _ => neg
  | FNum _, FInf neg => negb neg
  | FInf na, FInf nb => na && negb nb
  | _, _ => false
  end.

Definition float_eq (a b : Float) : bool :=
  match a, b with
  | FNum p, FNum q => Qeq_bool p q
  | FInf na, FInf nb => Bool.eqb na nb
  | _, _ => false
  end.

Definition float_zero : Float := FNum 0.
Definition float_of (z : Z) : Float := FNum (inject_Z z).

(** [int64(z)] of an integer, and [int64(f)] on amd64: towards zero, and the
    smallest integer for what does not fit. *)
Definition int64_wrap (z : Z) : Z := (z + 2 ^ 63) mod 2 ^ 64 - 2 ^ 63.

Definition float_trunc (f : Float) : Z :=
  match f with
  | FNum q => let z := Z.quot (Qnum q) (Zpos (Qden q)) in if int64_ok z then z else - 2 ^ 63
  | _ => - 2 ^ 63
  end.

Definition float_scale (f : Float) (z : Z) : Float :=
  match f with FNum q => FNum (q * inject_Z z) | f => f end.

Record ExecutionConfig := mkExecutionConfig {
  ec_Backend : string;
  ec_UseGVisor : bool;
  ec_AllowUnisolated : bool;
  ec_ContainerMemory : string;
  ec_ContainerCPU : Float;
  ec_ContainerPIDs : Z;
  ec_ContainerSwapMB : Z;
}.

Definition drop_last (s : string) : string := take_bytes (String.length s - 1) s.

Definition memory_suffix (s : string) : option Z :=
  if hasSuffix s "b" then Some 1 else if hasSuffix s "k" then Some (2 ^ 10)
  else if hasSuffix s "m" then Some (2 ^ 20) else if hasSuffix s "g" then Some (2 ^ 30) else None.

Section limits.
(** [strconv.ParseFloat(s, 64)] and [strconv.FormatFloat(f, 'f', -1, 64)]. *)
Variable ParseFloat : string → option Float.
Variable FormatFloat : Float → string.

Definition ParseMemoryBytes (value : string) : err + Z :=
  let s := trimSpace (toLower value) in
  if s == "" then inl (EMsg "empty memory limit") else
  let '(multiplier, s) := match memory_suffix s with Some m => (m, drop_last s) | None => (1, s) end in
  if s == "" then inl (EFmt "memory limit %q has no numeric value" [value]) else
  match ParseFloat s with
  | None => inl (EFmt "invalid memory limit %q" [value])
  | Some n =>
    if float_lt n float_zero || float_eq n float_zero
    then inl (EFmt "memory limit %q must be a positive number" [value])
    else inr (float_trunc (float_scale n multiplier))
  end.

Definition container_memory (exec : ExecutionConfig) (req : TaskRequest) : string :=
  let mem := ec_ContainerMemory exec in
  if 0 <? rq_MaxMemoryMB req then
    let configuredBytes := match ParseMemoryBytes mem with inr b => b | inl _ => 0 end in
    let taskBytes := int64_wrap (Z.shiftl (rq_MaxMemoryMB req) 20) in
    if (configuredBytes =? 0) || (taskBytes <? configuredBytes) then fmt_d (rq_MaxMemoryMB req) ^^ "m" else mem
  else mem.

Definition container_swap (exec : ExecutionConfig) (mem : string) : string :=
  if 0 <? ec_ContainerSwapMB exec then
    match ParseMemoryBytes mem with
    | inr memBytes => fmt_d (int64_wrap (memBytes + int64_wrap (Z.shiftl (ec_ContainerSwapMB exec) 20)))
    | inl _ => mem
    end
  else mem.

Definition container_cpu (exec : ExecutionConfig) (req : TaskRequest) : Float :=
  let cpu := ec_ContainerCPU exec in
  if (0 <? rq_MaxCPU req) && (float_eq cpu float_zero || float_lt (float_of (rq_MaxCPU req)) cpu)
  then float_of (rq_MaxCPU req) else cpu.

Definition appendContainerLimits (args : list string) (exec : ExecutionConfig) (req : TaskRequest) : list string :=
  let mem := container_memory exec req in
  let args := if negb (mem == "") then args ++ ["--memory"; mem; "--memory-swap"; container_swap exec mem] else args in
  let cpu := container_cpu exec req in
  let args := if float_lt float_zero cpu then args ++ ["--cpus"; FormatFloat cpu] else args in
  if 0 <? ec_ContainerPIDs exec then args ++ ["--pids-limit"; fmt_d (ec_ContainerPIDs exec)] else args.

(** ** Arguments of [docker run] *)

(** [os.LookupEnv]; the first IPv4 address [net.LookupIP] gives for a host;
    [HOST_WORKSPACE_ROOT] of the runner; its id. *)
Variable lookupEnv : string → option string.
Variable lookupIPv4 : string → option string.
Variable hostRoot : string.
Variables (runnerID workspaceRoot : string).

Definition gvisorNoProxy : string := "localhost,127.0.0.1,0.0.0.0,.local".

Definition gvisorHostAliases : list string :=
  ["opencode.ai"; "api.deepseek.com"; "api.openai.com"; "api.anthropic.com"; "api.synthetic.new"] ≫= λ domain,
  match lookupIPv4 domain with Some ip => ["--add-host"; domain ^^ ":" ^^ ip] | None => [] end.

Definition shouldPullAgentImage (image : string) : bool := hasPrefix image "ghcr.io/".

Definition harnessPublishBindAddr (bindAddr : string) (gvisor : bool) : string :=
  if negb gvisor then bindAddr
  else let addr := getenv lookupEnv "RUNNER_PUBLISH_BIND_ADDR" in if negb (addr == "") then addr else "0.0.0.0".

Definition hostWorkspaceDirForContainer (workspaceDir : string) : err + string :=
  HostWorkspaceDir hostRoot workspaceDir workspaceRoot.

Definition containerPortForServe : Z := 9999.
Definition containerWorkspaceDir : string := "/workspace".

Definition run_labels (req : TaskRequest) (workspaceDir : string) : list string :=
  ["--label"; binding "chetter.runner_id" runnerID; "--label"; binding "chetter.task_id" (rq_TaskID req);
   "--label"; binding "chetter.execution_id" (rq_ExecutionID req);
   "--label"; binding "chetter.agent_session_id" (rq_AgentSessionID req);
   "--label"; binding "chetter.user_prompt_id" (rq_UserPromptID req);
   "--label"; binding "chetter.workspace_path" workspaceDir].

Definition gvisor_runtime (runnerIP : string) : list string :=
  ["--runtime"; "runsc"; "--dns"; runnerIP] ++ gvisorHostAliases.

Definition proxy_bindings (runnerIP : string) : list string :=
  let proxy := "http://" ^^ runnerIP ^^ ":18080" in
  [binding "HTTP_PROXY" proxy; binding "HTTPS_PROXY" proxy; binding "http_proxy" proxy; binding "https_proxy" proxy;
   binding "CHETTER_PROXY" (runnerIP ^^ ":18080"); "NODE_USE_ENV_PROXY=1"; binding "NO_PROXY" gvisorNoProxy;
   binding "no_proxy" gvisorNoProxy].

Definition workspace_bindings (req : TaskRequest) : list string :=
  [binding "TASK_ID" (rq_TaskID req); "WORKSPACE=/workspace"; "XDG_CONFIG_HOME=/workspace/.config";
   "XDG_DATA_HOME=/workspace/.local/share"; "XDG_STATE_HOME=/workspace/.local/state";
   "XDG_CACHE_HOME=/workspace/.cache"].

Definition map_bindings (env : list (string * string)) : list string := map (λ '(k, v), binding k v) env.

(** The arguments for a serve harness. [modelID] is [h.ResolvedModelID(req)];
    [harnessEnv] and [taskEnv] are the entries of [h.Env] and of [req.Env]. *)
Definition dockerServeArgs (req : TaskRequest) (exec : ExecutionConfig) (workspaceDir containerName : string)
    (serveCmd : list string) (modelID bindAddr : string) (hostPort : Z) (gvisor : bool)
    (netName runnerIP : string) (harnessEnv taskEnv : list (string * string)) : err + list string :=
  hostWorkspaceDir ← hostWorkspaceDirForContainer workspaceDir;
  let args := ["run"; "-d"; "--entrypoint"; default "" (head serveCmd); "--name"; containerName;
               "--cap-drop"; "ALL"; "--security-opt"; "no-new-privileges"] ++ run_labels req workspaceDir in
  let args := if gvisor then args ++ gvisor_runtime runnerIP else args in
  let args := appendContainerLimits args exec req ++ ["--network"; netName] in
  let args := args ++ ["-p"; harnessPublishBindAddr bindAddr gvisor ^^ ":" ^^ fmt_d hostPort ^^ ":" ^^
                             fmt_d containerPortForServe] in
  let args := args ++ ["-v"; hostWorkspaceDir ^^ ":/workspace"; "-w"; "/workspace"] ++
              as_options (workspace_bindings req ++ run_bindings lookupEnv req modelID) in
  let args := args ++ as_options (GitIdentityEnv req "/workspace") ++ ["-e"; "HOME=/workspace"] in
  let args := if gvisor then args ++ as_options (proxy_bindings runnerIP) else args in
  let args := args ++ as_options (map_bindings harnessEnv) ++ as_options (task_bindings req taskEnv) in
  let args := AppendDockerManagedEnvironment lookupEnv args req in
  let args := if gvisor then args ++ ["--hostname"; "0.0.0.0"] else args in
  let args := if shouldPullAgentImage (rq_AgentImage req) then args ++ ["--pull=always"] else args in
  inr (args ++ [rq_AgentImage req] ++ tail serveCmd).

(** The arguments for an RPC harness. *)
Definition dockerRPCArgs (req : TaskRequest) (exec : ExecutionConfig) (wsDir containerName : string)
    (command : list string) (modelID : string) (gvisor : bool) (netName runnerIP : string)
    (harnessEnv taskEnv : list (string * string)) : err + list string :=
  hostWorkspaceDir ← hostWorkspaceDirForContainer wsDir;
  let args := ["run"; "-i"; "--entrypoint"; default "" (head command); "--name"; containerName;
               "--cap-drop"; "ALL"; "--security-opt"; "no-new-privileges"] ++ run_labels req wsDir in
  let args := if gvisor then args ++ gvisor_runtime runnerIP else args in
  let args := if negb (netName == "") then args ++ ["--network"; netName] else args in
  let args := appendContainerLimits args exec req in
  let args := args ++ ["-v"; hostWorkspaceDir ^^ ":" ^^ containerWorkspaceDir; "-w"; containerWorkspaceDir] ++
              as_options (workspace_bindings req ++ run_bindings lookupEnv req modelID) in
  let args := args ++ as_options (GitIdentityEnv req containerWorkspaceDir) in
  let args := if gvisor
              then args ++ ["-e"; binding "HOME" containerWorkspaceDir] ++ as_options (proxy_bindings runnerIP)
              else args ++ ["-e"; "HOME=/opt/opencode"] in
  let args := args ++ as_options (map_bindings harnessEnv) ++ as_options (task_bindings req taskEnv) in
  let args := AppendDockerManagedEnvironment lookupEnv args req in
  let args := if shouldPullAgentImage (rq_AgentImage req) then args ++ ["--pull=always"] else args in
  inr (args ++ [rq_AgentImage req] ++ tail command).
End limits.

(** ** The isolation gate ([isolation.go]) *)

Record IsolationEnv := mkIsolationEnv {
  iso_exec : ExecutionConfig;
  iso_RuntimeClass : string;
  iso_runsc : bool;          (* [exec.LookPath] finds runsc *)
}.

Definition enforcedIsolation (r : IsolationEnv) : bool :=
  let mode := ec_Backend (iso_exec r) in
  if mode == "kubernetes" then equalFold (trimSpace (iso_RuntimeClass r)) "gvisor"
  else if mode == "docker" then ec_UseGVisor (iso_exec r) && iso_runsc r
  else false.

Definition checkIsolationPolicy (r : IsolationEnv) (req : TaskRequest) : string :=
  if negb (rq_IsolationRequired req) then "" else
  if enforcedIsolation r then "" else
  if ec_AllowUnisolated (iso_exec r) then ""
  else "task requires enforced isolation (gVisor) but this runner cannot enforce it".

(** ** The death of a sandbox ([sandbox.go]) *)

Definition isSandboxStartFailure (err : option string) (output : string) : bool :=
  let text := match err with
              | Some e => toLower (e ^^ String "010" "" ^^ output)
              | None => toLower output
              end in
  if contains text "runsc" then true else
  if negb (contains text "sandbox") then false
  else contains_any ["runtime"; "create"; "start"; "failed"; "error"] text.

Record dockerContainerState := mkContainerState {
  cs_Status : string;
  cs_Running : bool;
  cs_ExitCode : Z;
  cs_OOMKilled : bool;
  cs_Error : string;
}.

(** [%q] is a parameter. *)
Definition sandboxTeardownReason (quoted : string → string) (st : option dockerContainerState) : string :=
  match st with
  | None => ""
  | Some st =>
    "status=" ^^ cs_Status st ^^ " exit=" ^^ fmt_d (cs_ExitCode st) ^^ " oom=" ^^
    (if cs_OOMKilled st then "true" else "false") ^^ " error=" ^^ quoted (cs_Error st)
  end.

Definition sandboxRuntimeErrorText (st : dockerContainerState) : bool :=
  contains_any ["runsc"; "sandbox"] (toLower (cs_Error st)).

Definition classifySandboxCrash (quoted : string → string) (st : option dockerContainerState) : string * bool :=
  match st with
  | None => ("", false)
  | Some s =>
    let reason := sandboxTeardownReason quoted st in
    if negb (cs_OOMKilled s) && sandboxRuntimeErrorText s then (reason, true)
    else if negb (cs_Running s) && negb (cs_ExitCode s =? 0) && negb (cs_ExitCode s =? 137) &&
            negb (cs_OOMKilled s) && negb (cs_Error s == "") then (reason, true)
    else (reason, false)
  end.

Definition dockerContainerSandboxRuntimeError (quoted : string → string) (st : option dockerContainerState)
    : string * bool :=
  match st with
  | None => ("", false)
  | Some s => (sandboxTeardownReason quoted st, sandboxRuntimeErrorText s)
  end.

Record sandboxMetrics := mkMetrics {
  m_total : Z;
  m_startFailures : Z;
  m_crashes : Z;
  m_startLatencyMS : Z;
  m_lifetimeMS : Z;
  m_maxRSSMB : Z;
  m_maxCPUThousandths : Z;
}.

Inductive SandboxEvent :=
  | SStart (latency : Z) | SStartFailure | SCrash | SFinish (lifetime : Z)
  | SObserved (rssMB : Z) (thousandths : option Z).

(** [recordStart], [recordStartFailure], [recordCrash], [recordFinish] and
    [recordObserved]; durations in microseconds; [thousandths] is
    [int64(cpuPercent * 1000)] when [cpuPercent] is positive. *)
Definition record_sandbox (e : SandboxEvent) (m : sandboxMetrics) : sandboxMetrics :=
  match e with
  | SStart latency =>
    m{{ m_total := m_total m + 1; m_startLatencyMS := m_startLatencyMS m + Z.quot latency 1000 }}
  | SStartFailure => m{{ m_startFailures := m_startFailures m + 1 }}
  | SCrash => m{{ m_crashes := m_crashes m + 1 }}
  | SFinish lifetime => m{{ m_lifetimeMS := m_lifetimeMS m + Z.quot lifetime 1000 }}
  | SObserved rssMB thousandths =>
    let m := if 0 <? rssMB then m{{ m_maxRSSMB := Z.max (m_maxRSSMB m) rssMB }} else m in
    match thousandths with
    | Some t => m{{ m_maxCPUThousandths := Z.max (m_maxCPUThousandths m) t }}
    | None => m
    end
  end.

(** ** The shape of a command line

    Options of [docker run] with their values, as the command line lists them. *)

Definition flat (opts : list (string * string)) : list string := opts ≫= λ o, [o.1; o.2].

Definition values (flag : string) (opts : list (string * string)) : list string :=
  omap (λ o, if o.1 == flag then Some o.2 else None) opts.

Lemma flat_app l k : flat (l ++ k) = flat l ++ flat k.
Proof. unfold flat. by rewrite bind_app. Qed.

Lemma values_app flag l k : values flag (l ++ k) = values flag l ++ values flag k.
Proof. unfold values. by rewrite omap_app. Qed.

Lemma as_options_app l k : as_options (l ++ k) = as_options l ++ as_options k.
Proof. unfold as_options. by rewrite bind_app. Qed.

Definition env_options (l : list string) : list (string * string) := map (λ v, ("-e", v)) l.

Lemma as_options_flat l : as_options l = flat (env_options l).
Proof. induction l as [|v l IH]; [done|]. cbn. f_equal. f_equal. exact IH. Qed.

Lemma values_env flag l : flag ≠ "-e" → values flag (env_options l) = [].
Proof.
  intros Hf. induction l as [|v l IH]; [done|].
  unfold values, env_options in *. cbn. rewrite bool_decide_eq_false_2 by congruence. exact IH.
Qed.

(** The options that [docker run] is given. *)
Definition docker_flags : list string :=
  ["--entrypoint"; "--name"; "--cap-drop"; "--security-opt"; "--label"; "--runtime"; "--dns"; "--add-host"; "--memory";
   "--memory-swap"; "--cpus"; "--pids-limit"; "--network"; "-p"; "-v"; "-w"; "-e"; "--hostname"].

Definition known (opts : list (string * string)) : Prop := Forall (λ o, o.1 ∈ docker_flags) opts.

Lemma known_nil : known [].
Proof. apply Forall_nil_2. Qed.

Lemma known_cons o l : o.1 ∈ docker_flags → known l → known (o :: l).
Proof. intros. by apply Forall_cons. Qed.

Lemma known_app l k : known l → known k → known (l ++ k).
Proof. intros. by apply Forall_app. Qed.

Lemma known_env l : known (env_options l).
Proof.
  apply Forall_forall. intros o (v & -> & _)%list_elem_of_fmap. apply list_elem_of_In. cbn. tauto.
Qed.

(** Goals [known l] by the parts of [l]. *)
Ltac known_literal :=
  repeat match goal with
    | |- known (_ ++ _) => apply known_app
    | |- known (if ?b then _ else _) => destruct b
    | |- known (env_options _) => apply known_env
    | |- known [] => apply known_nil
    | |- known (_ :: _) => apply known_cons; [apply list_elem_of_In; cbn; tauto|]
    end; auto with known.

Create HintDb known.

(** The options that set the limits. *)
Definition limit_options ParseFloat FormatFloat (exec : ExecutionConfig) (req : TaskRequest)
    : list (string * string) :=
  let mem := container_memory ParseFloat exec req in
  let cpu := container_cpu exec req in
  (if mem == "" then [] else [("--memory", mem); ("--memory-swap", container_swap ParseFloat exec mem)]) ++
  (if float_lt float_zero cpu then [("--cpus", FormatFloat cpu)] else []) ++
  (if 0 <? ec_ContainerPIDs exec then [("--pids-limit", fmt_d (ec_ContainerPIDs exec))] else []).

Lemma appendContainerLimits_flat ParseFloat FormatFloat args exec req :
  appendContainerLimits ParseFloat FormatFloat args exec req =
    args ++ flat (limit_options ParseFloat FormatFloat exec req).
Proof.
  unfold appendContainerLimits, limit_options.
  destruct (container_memory _ _ _ == ""), (float_lt _ _), (0 <? _);
    cbn [negb]; rewrite ?flat_app; cbn [flat mbind list_bind app fst snd]; rewrite <- ?app_assoc, ?app_nil_r; done.
Qed.

Lemma known_limits ParseFloat FormatFloat exec req : known (limit_options ParseFloat FormatFloat exec req).
Proof.
  unfold limit_options. destruct (_ == ""), (float_lt _ _), (0 <? _); cbn [app]; known_literal.
Qed.
#[local] Hint Resolve known_limits : known.

Definition alias_options (lookupIPv4 : string → option string) : list (string * string) :=
  omap (λ domain, (λ ip, ("--add-host", domain ^^ ":" ^^ ip)) <$> lookupIPv4 domain)
    ["opencode.ai"; "api.deepseek.com"; "api.openai.com"; "api.anthropic.com"; "api.synthetic.new"].

Lemma gvisorHostAliases_flat lookupIPv4 : gvisorHostAliases lookupIPv4 = flat (alias_options lookupIPv4).
Proof.
  unfold gvisorHostAliases, alias_options. generalize ["opencode.ai"; "api.deepseek.com"; "api.openai.com"; "api.anthropic.com"; "api.synthetic.new"].
  intros l. induction l as [|d l IH]; [done|]. cbn [mbind list_bind omap list_omap].
  destruct (lookupIPv4 d) as [ip|]; cbn [fmap option_fmap option_map].
  - change (flat (?o :: ?l)) with ([o.1; o.2] ++ flat l). f_equal. exact IH.
  - exact IH.
Qed.

Lemma known_aliases lookupIPv4 : known (alias_options lookupIPv4).
Proof.
  apply Forall_forall. intros o (d & _ & Ho)%list_elem_of_omap.
  destruct (lookupIPv4 d) as [ip|]; [|done]. injection Ho as <-. apply list_elem_of_In. cbn. tauto.
Qed.
#[local] Hint Resolve known_aliases : known.

Lemma values_aliases flag lookupIPv4 : flag ≠ "--add-host" → values flag (alias_options lookupIPv4) = [].
Proof.
  intros Hf. unfold alias_options. generalize ["opencode.ai"; "api.deepseek.com"; "api.openai.com"; "api.anthropic.com"; "api.synthetic.new"].
  intros l. induction l as [|d l IH]; [done|]. cbn [omap list_omap].
  destruct (lookupIPv4 d) as [ip|]; cbn [fmap option_fmap option_map]; [|exact IH].
  unfold values in *. cbn [omap list_omap fst]. rewrite bool_decide_eq_false_2 by congruence. exact IH.
Qed.

Lemma managed_environment lookupEnv args req :
  ∃ l, AppendDockerManagedEnvironment lookupEnv args req = args ++ flat (env_options l).
Proof.
  unfold AppendDockerManagedEnvironment. cbv zeta. destruct (_ && _ && _).
  - eexists. rewrite <- !as_options_app, as_options_flat. reflexivity.
  - cbn [app]. eexists. rewrite <- !as_options_app, as_options_flat. reflexivity.
Qed.

Section shapes.
Variable ParseFloat : string → option Float.
Variable FormatFloat : Float → string.
Variable lookupEnv : string → option string.
Variable lookupIPv4 : string → option string.
Variables (hostRoot runnerID workspaceRoot : string).
Notation hostdir := (hostWorkspaceDirForContainer hostRoot workspaceRoot).
Notation limits := (limit_options ParseFloat FormatFloat).

Definition label_options (req : TaskRequest) (ws : string) : list (string * string) :=
  [("--label", binding "chetter.runner_id" runnerID); ("--label", binding "chetter.task_id" (rq_TaskID req));
   ("--label", binding "chetter.execution_id" (rq_ExecutionID req));
   ("--label", binding "chetter.agent_session_id" (rq_AgentSessionID req));
   ("--label", binding "chetter.user_prompt_id" (rq_UserPromptID req));
   ("--label", binding "chetter.workspace_path" ws)].

(** What every container is started with, around the options of its mode. *)
Definition confinement (entry name : string) (req : TaskRequest) (ws runnerIP : string) (gvisor : bool)
    : list (string * string) :=
  [("--entrypoint", entry); ("--name", name); ("--cap-drop", "ALL"); ("--security-opt", "no-new-privileges")] ++
  label_options req ws ++
  (if gvisor then [("--runtime", "runsc"); ("--dns", runnerIP)] ++ alias_options lookupIPv4 else []).

Lemma confinement_flat (mode entry name : string) req ws runnerIP (gvisor : bool) :
  (let args := ["run"; mode; "--entrypoint"; entry; "--name"; name; "--cap-drop"; "ALL"; "--security-opt";
                "no-new-privileges"] ++ run_labels runnerID req ws in
   if gvisor then args ++ gvisor_runtime lookupIPv4 runnerIP else args) =
  ["run"; mode] ++ flat (confinement entry name req ws runnerIP gvisor).
Proof.
  unfold confinement, gvisor_runtime. rewrite gvisorHostAliases_flat.
  destruct gvisor; cbv zeta; rewrite !flat_app; [|rewrite app_nil_r; reflexivity].
  rewrite !app_assoc. reflexivity.
Qed.

Lemma known_confinement entry name req ws runnerIP gvisor : known (confinement entry name req ws runnerIP gvisor).
Proof.
  clear hostRoot workspaceRoot. unfold confinement, label_options. known_literal.
Qed.
#[local] Hint Resolve known_confinement : known.

(** The options of a command line: known flags, one workspace mount, and the
    confinement of its mode. *)
Definition confined (req : TaskRequest) (exec : ExecutionConfig) (host : string) (gvisor : bool)
    (opts : list (string * string)) : Prop :=
  known opts ∧ values "-v" opts = [host ^^ ":/workspace"] ∧ values "--cap-drop" opts = ["ALL"] ∧
  values "--security-opt" opts = ["no-new-privileges"] ∧
  values "--runtime" opts = (if gvisor then ["runsc"] else []) ∧
  (∀ flag, flag ∈ ["--memory"; "--memory-swap"; "--cpus"; "--pids-limit"] →
     values flag opts = values flag (limits exec req)).

Lemma values_limits flag exec req :
  flag ∉ ["--memory"; "--memory-swap"; "--cpus"; "--pids-limit"] → values flag (limits exec req) = [].
Proof.
  rewrite !not_elem_of_cons. intros (H1 & H2 & H3 & H4 & _). unfold limit_options. rewrite !values_app.
  destruct (_ == ""), (float_lt _ _), (0 <? _); unfold values; cbn [omap list_omap fst app];
    rewrite ?bool_decide_eq_false_2 by congruence; done.
Qed.

(** The values of a flag, by the parts of a command line. *)
Ltac flag_values :=
  repeat match goal with
    | |- context [values ?f (?a ++ ?b)] => rewrite (values_app f a b)
    | |- context [values ?f (env_options ?l)] => rewrite (values_env f l ltac:(done))
    | |- context [values ?f (alias_options ?l)] => rewrite (values_aliases f l ltac:(done))
    | |- context [values ?f (limits ?e ?r)] => rewrite (values_limits f e r ltac:(set_solver))
    | |- context [values _ (if ?b then _ else _)] => destruct b
    end.

(** Around the limits there are no limits. *)
Lemma only_middle {A} (l k m : list A) : l = [] → m = [] → l ++ k ++ m = k.
Proof. intros -> ->. apply app_nil_r. Qed.

Lemma limit_flags (P : string → Prop) :
  P "--memory" → P "--memory-swap" → P "--cpus" → P "--pids-limit" →
  ∀ flag, flag ∈ ["--memory"; "--memory-swap"; "--cpus"; "--pids-limit"] → P flag.
Proof. intros H1 H2 H3 H4 flag. rewrite !elem_of_cons, elem_of_nil. intros [-> | [-> | [-> | [-> | []]]]]; done. Qed.

Definition serve_options (req : TaskRequest) (exec : ExecutionConfig) (ws name host entry modelID bindAddr : string)
    (hostPort : Z) (gvisor : bool) (netName runnerIP : string) (harnessEnv taskEnv : list (string * string))
    (managed : list string) : list (string * string) :=
  confinement entry name req ws runnerIP gvisor ++ limits exec req ++ [("--network", netName)] ++
  [("-p", harnessPublishBindAddr lookupEnv bindAddr gvisor ^^ ":" ^^ fmt_d hostPort ^^ ":" ^^
          fmt_d containerPortForServe)] ++
  [("-v", host ^^ ":/workspace"); ("-w", "/workspace")] ++
  env_options ((workspace_bindings req ++ run_bindings lookupEnv req modelID) ++ GitIdentityEnv req "/workspace" ++
    ["HOME=/workspace"] ++ (if gvisor then proxy_bindings runnerIP else []) ++ map_bindings harnessEnv ++
    task_bindings req taskEnv ++ managed) ++
  (if gvisor then [("--hostname", "0.0.0.0")] else []).

Lemma serve_shape req exec ws name cmd modelID bindAddr hostPort gvisor netName runnerIP harnessEnv taskEnv args :
  dockerServeArgs ParseFloat FormatFloat lookupEnv lookupIPv4 hostRoot runnerID workspaceRoot req exec ws name cmd
    modelID bindAddr hostPort gvisor netName runnerIP harnessEnv taskEnv = inr args →
  ∃ host managed, hostdir ws = inr host ∧
    args = ["run"; "-d"] ++
      flat (serve_options req exec ws name host (default "" (head cmd)) modelID bindAddr hostPort gvisor netName
        runnerIP harnessEnv taskEnv managed) ++
      (if shouldPullAgentImage (rq_AgentImage req) then ["--pull=always"] else []) ++ [rq_AgentImage req] ++ tail cmd.
Proof.
  unfold dockerServeArgs. intros (host & Hhost & E)%sum_bind_inr. exists host.
  rewrite (confinement_flat "-d"), appendContainerLimits_flat in E. cbv zeta in E.
  revert E.
  destruct gvisor, (shouldPullAgentImage _);
    (match goal with |- context [AppendDockerManagedEnvironment _ ?a _] =>
       destruct (managed_environment lookupEnv a req) as [managed ->] end);
    intros E; apply (f_equal (λ r, match r with inr x => x | inl _ => [] end)) in E; cbv beta iota in E; subst args;
    exists managed; (split; [done|]);
    unfold serve_options, env_options; rewrite !map_app, !flat_app, !as_options_flat;
    unfold env_options; rewrite ?app_nil_r, <- !app_assoc; reflexivity.
Qed.

Definition rpc_options (req : TaskRequest) (exec : ExecutionConfig) (ws name host entry modelID : string)
    (gvisor : bool) (netName runnerIP : string) (harnessEnv taskEnv : list (string * string)) (managed : list string)
    : list (string * string) :=
  confinement entry name req ws runnerIP gvisor ++ (if netName == "" then [] else [("--network", netName)]) ++
  limits exec req ++ [("-v", host ^^ ":/workspace"); ("-w", "/workspace")] ++
  env_options ((workspace_bindings req ++ run_bindings lookupEnv req modelID) ++ GitIdentityEnv req "/workspace" ++
    (if gvisor then "HOME=/workspace" :: proxy_bindings runnerIP else ["HOME=/opt/opencode"]) ++
    map_bindings harnessEnv ++ task_bindings req taskEnv ++ managed).

Lemma rpc_shape req exec ws name cmd modelID gvisor netName runnerIP harnessEnv taskEnv args :
  dockerRPCArgs ParseFloat FormatFloat lookupEnv lookupIPv4 hostRoot runnerID workspaceRoot req exec ws name cmd
    modelID gvisor netName runnerIP harnessEnv taskEnv = inr args →
  ∃ host managed, hostdir ws = inr host ∧
    args = ["run"; "-i"] ++
      flat (rpc_options req exec ws name host (default "" (head cmd)) modelID gvisor netName runnerIP harnessEnv
        taskEnv managed) ++
      (if shouldPullAgentImage (rq_AgentImage req) then ["--pull=always"] else []) ++ [rq_AgentImage req] ++ tail cmd.
Proof.
  unfold dockerRPCArgs. intros (host & Hhost & E)%sum_bind_inr. exists host.
  rewrite (confinement_flat "-i") in E. cbv zeta in E. revert E. unfold rpc_options.
  destruct gvisor, (shouldPullAgentImage _), (netName == ""); cbn [negb]; rewrite appendContainerLimits_flat;
    (match goal with |- context [AppendDockerManagedEnvironment _ ?a _] =>
       destruct (managed_environment lookupEnv a req) as [managed ->] end);
    intros E; apply (f_equal (λ r, match r with inr x => x | inl _ => [] end)) in E; cbv beta iota in E; subst args;
    exists managed; (split; [done|]);
    unfold env_options; rewrite !map_app, !flat_app, !as_options_flat;
    unfold env_options; rewrite ?app_nil_r, <- !app_assoc; reflexivity.
Qed.

Lemma serve_confined req exec ws name host entry modelID bindAddr hostPort gvisor netName runnerIP harnessEnv taskEnv
    managed :
  confined req exec host gvisor
    (serve_options req exec ws name host entry modelID bindAddr hostPort gvisor netName runnerIP harnessEnv taskEnv
       managed).
Proof.
  clear hostRoot workspaceRoot. unfold serve_options. split; [known_literal|].
  unfold confinement, label_options. split_and!; [flag_values; reflexivity..|].
  apply limit_flags; flag_values; apply only_middle; reflexivity.
Qed.

Lemma rpc_confined req exec ws name host entry modelID gvisor netName runnerIP harnessEnv taskEnv managed :
  confined req exec host gvisor
    (rpc_options req exec ws name host entry modelID gvisor netName runnerIP harnessEnv taskEnv managed).
Proof.
  clear hostRoot workspaceRoot. unfold rpc_options. split; [known_literal|].
  unfold confinement, label_options. split_and!; [flag_values; reflexivity..|].
  apply limit_flags; rewrite (app_assoc _ (if netName == "" then _ else _)); flag_values; apply only_middle; reflexivity.
Qed.
End shapes.

(** ** The limits *)

Lemma toLower_number d : all_bytes number_char d = true → toLower d = d.
Proof.
  induction d as [|c d IH]; [done|]. cbn [all_bytes]. intros [Hc Hd]%andb_true_iff.
  change (toLower (String c d)) with (String (lower_ascii c) (toLower d)). rewrite (IH Hd). f_equal.
  destruct c as [[] [] [] [] [] [] [] []]; first [reflexivity | discriminate Hc].
Qed.

Lemma number_nospace d : all_bytes number_char d = true → all_bytes (λ c, negb (is_space c)) d = true.
Proof.
  apply all_bytes_weaken. intros c Hc. destruct c as [[] [] [] [] [] [] [] []]; first [reflexivity | discriminate Hc].
Qed.

Lemma hasSuffix_char s c x : hasSuffix (s ^^ String c "") (String x "") = bool_decide (x = c).
Proof.
  unfold hasSuffix. rewrite rev_string_snoc. change (rev_string (String x "")) with (String x "").
  cbn [String.prefix]. rewrite prefix_nil. destruct (ascii_dec x c); case_bool_decide; congruence.
Qed.

Lemma drop_last_snoc s c : drop_last (s ^^ String c "") = s.
Proof.
  unfold drop_last, take_bytes. rewrite string_app_length. cbn [String.length]. rewrite Nat.add_sub.
  induction s as [|x s IH]; [done|]. cbn [String.length]. rewrite app_cons. cbn [String.substring]. by rewrite IH.
Qed.

Lemma number_snoc d :
  d ≠ "" → all_bytes number_char d = true → ∃ s c, d = s ^^ String c "" ∧ number_char c = true.
Proof.
  induction d as [|c d IH]; [done|]. intros _ [Hc Hd]%andb_true_iff. destruct d as [|x d].
  - by exists "", c.
  - destruct (IH ltac:(done) Hd) as (s & y & E & Hy). exists (String c s), y. by rewrite app_cons, E.
Qed.

Section capped.
Variable ParseFloat : string → option Float.
Variable FormatFloat : Float → string.
(** [strconv.ParseFloat] reads printed integers; a [float64] holds those below 2^53. *)
Hypothesis parse_integer : ∀ n, 0 <= n < 2 ^ 53 → ParseFloat (fmt_d n) = Some (float_of n).

Lemma float_of_pos n : 0 < n → float_lt (float_of n) float_zero || float_eq (float_of n) float_zero = false.
Proof.
  intros Hn. apply orb_false_iff. unfold float_of, float_zero. cbn [float_lt float_eq]. split.
  - apply negb_false_iff, Qle_bool_iff. unfold Qle. cbn. lia.
  - apply not_true_iff_false. rewrite Qeq_bool_iff. unfold Qeq. cbn. lia.
Qed.

Lemma float_trunc_scale n m : int64_ok (n * m) = true → float_trunc (float_scale (float_of n) m) = n * m.
Proof.
  intros Hok. unfold float_trunc, float_scale, float_of. cbn [Qmult inject_Z Qnum Qden].
  rewrite Z.quot_1_r, Hok. done.
Qed.

Lemma parse_megabytes n : 0 < n < 2 ^ 31 → ParseMemoryBytes ParseFloat (fmt_d n ^^ "m") = inr (n * 2 ^ 20).
Proof.
  intros Hn. destruct (fmt_d_chars n) as [Hd Hne]. unfold ParseMemoryBytes.
  rewrite toLower_app, (toLower_number _ Hd). change (toLower "m") with "m".
  rewrite trimSpace_nospace by (rewrite all_bytes_app; apply andb_true_iff; split; [by apply number_nospace|done]).
  assert (fmt_d n ^^ "m" ≠ "") as Hm by (destruct (fmt_d n); done). rewrite (bool_decide_eq_false_2 _ Hm).
  unfold memory_suffix. rewrite !hasSuffix_char, !drop_last_snoc.
  change (bool_decide ("b" = "m")%char) with false. change (bool_decide ("k" = "m")%char) with false.
  change (bool_decide ("m" = "m")%char) with true. cbv iota beta.
  rewrite (bool_decide_eq_false_2 _ Hne), (parse_integer n) by lia. rewrite float_of_pos by lia.
  f_equal. apply float_trunc_scale. unfold int64_ok. apply andb_true_iff. split; [apply Z.leb_le|apply Z.ltb_lt]; lia.
Qed.

Lemma parse_bytes n : 0 < n < 2 ^ 53 → ParseMemoryBytes ParseFloat (fmt_d n) = inr n.
Proof.
  intros Hn. destruct (fmt_d_chars n) as [Hd Hne]. unfold ParseMemoryBytes.
  rewrite (toLower_number _ Hd), trimSpace_nospace by (by apply number_nospace).
  rewrite (bool_decide_eq_false_2 _ Hne).
  assert (memory_suffix (fmt_d n) = None) as ->.
  { destruct (number_snoc _ Hne Hd) as (s & c & -> & Hc). unfold memory_suffix. rewrite !hasSuffix_char.
    rewrite !bool_decide_eq_false_2 by (intros <-; discriminate Hc). done. }
  rewrite (bool_decide_eq_false_2 _ Hne), (parse_integer n) by lia. rewrite float_of_pos by lia.
  f_equal. rewrite float_trunc_scale; [lia|]. unfold int64_ok. apply andb_true_iff. split; [apply Z.leb_le|apply Z.ltb_lt]; lia.
Qed.

Lemma int64_wrap_small z : int64_ok z = true → int64_wrap z = z.
Proof.
  intros [H1%Z.leb_le H2%Z.ltb_lt]%andb_true_iff. unfold int64_wrap. rewrite Z.mod_small by lia. lia.
Qed.

Lemma shift_megabytes n : 0 <= n < 2 ^ 31 → int64_wrap (Z.shiftl n 20) = n * 2 ^ 20.
Proof.
  intros Hn. rewrite Z.shiftl_mul_pow2 by lia. apply int64_wrap_small. unfold int64_ok.
  apply andb_true_iff. split; [apply Z.leb_le|apply Z.ltb_lt]; lia.
Qed.

(** The stricter of the limits that are set. *)
Definition stricter (a b : option Z) : option Z :=
  match a, b with Some x, Some y => Some (Z.min x y) | Some x, None | None, Some x => Some x | None, None => None end.

Definition runner_memory (exec : ExecutionConfig) : option Z :=
  match ParseMemoryBytes ParseFloat (ec_ContainerMemory exec) with inr c => Some c | inl _ => None end.

Definition task_memory (req : TaskRequest) : option Z :=
  if 0 <? rq_MaxMemoryMB req then Some (rq_MaxMemoryMB req * 2 ^ 20) else None.

Lemma container_memory_stricter exec req :
  0 <= rq_MaxMemoryMB req < 2 ^ 31 →
  (ec_ContainerMemory exec = "" ∨ ∃ c, runner_memory exec = Some c ∧ 0 < c) →
  let mem := container_memory ParseFloat exec req in
  match stricter (runner_memory exec) (task_memory req) with
  | None => mem = ""
  | Some b => mem ≠ "" ∧ ParseMemoryBytes ParseFloat mem = inr b
  end.
Proof.
  intros Hmb Hcfg. cbv zeta. unfold container_memory, task_memory.
  assert (runner_memory exec = None → ec_ContainerMemory exec = "") as Hnone.
  { destruct Hcfg as [?|(c & -> & _)]; [done|done]. }
  assert (∀ c, runner_memory exec = Some c → ec_ContainerMemory exec ≠ "" ∧
            ParseMemoryBytes ParseFloat (ec_ContainerMemory exec) = inr c ∧ 0 < c) as Hsome.
  { intros c Hc. destruct Hcfg as [E|(c' & E & Hpos)]; [unfold runner_memory in Hc; by rewrite E in Hc|].
    rewrite E in Hc. injection Hc as ->. unfold runner_memory in E.
    destruct (ParseMemoryBytes _ _) as [|x] eqn:P; [done|].
    injection E as ->. split; [|done]. intros E'. by rewrite E' in P. }
  unfold runner_memory in *. destruct (Z.ltb_spec 0 (rq_MaxMemoryMB req)) as [Hpos|Hzero].
  - rewrite shift_megabytes by done.
    assert (fmt_d (rq_MaxMemoryMB req) ^^ "m" ≠ "") as Hm by (destruct (fmt_d _); done).
    destruct (ParseMemoryBytes _ (ec_ContainerMemory exec)) as [|c] eqn:P; cbn [stricter].
    + cbn [Z.eqb orb]. split; [done|]. apply parse_megabytes. lia.
    + destruct (Hsome c eq_refl) as (Hne & _ & Hc). destruct (Z.eqb_spec c 0); [lia|]. cbn [orb].
      destruct (Z.ltb_spec (rq_MaxMemoryMB req * 2 ^ 20) c); [|by rewrite Z.min_l by lia].
      rewrite Z.min_r by lia. split; [done|]. apply parse_megabytes. lia.
  - destruct (ParseMemoryBytes _ (ec_ContainerMemory exec)) as [|c] eqn:P; cbn [stricter]; [by apply Hnone|].
    by destruct (Hsome c eq_refl) as (Hne & _ & _).
Qed.

Lemma container_swap_bytes exec mem b :
  ParseMemoryBytes ParseFloat mem = inr b → 0 < b <= 2 ^ 52 → 0 <= ec_ContainerSwapMB exec < 2 ^ 31 →
  ParseMemoryBytes ParseFloat (container_swap ParseFloat exec mem) = inr (b + ec_ContainerSwapMB exec * 2 ^ 20).
Proof.
  intros Hm Hb Hs. unfold container_swap. destruct (Z.ltb_spec 0 (ec_ContainerSwapMB exec)) as [Hpos|Hzero].
  - rewrite Hm, shift_megabytes by done. rewrite int64_wrap_small.
    + apply parse_bytes. lia.
    + unfold int64_ok. apply andb_true_iff. split; [apply Z.leb_le|apply Z.ltb_lt]; lia.
  - rewrite Hm. f_equal. lia.
Qed.

Lemma float_cpu_cases exec req q :
  ec_ContainerCPU exec = FNum q → (0 <= q)%Q → 0 <= rq_MaxCPU req →
  let cpu := container_cpu exec req in
  (float_lt float_zero cpu = true ↔ (0 < q)%Q ∨ 0 < rq_MaxCPU req) ∧
  ∃ p, cpu = FNum p ∧ (0 < q → p <= q)%Q ∧ (0 < rq_MaxCPU req → (p <= inject_Z (rq_MaxCPU req))%Q).
Proof.
  intros E Hq Hn. cbv zeta. unfold container_cpu. rewrite E.
  assert (∀ p, float_lt float_zero (FNum p) = true ↔ (0 < p)%Q) as Hlt.
  { intros p. cbn [float_lt float_zero]. rewrite negb_true_iff, <- not_true_iff_false, Qle_bool_iff.
    split; [apply Qnot_le_lt|apply Qlt_not_le]. }
  assert (0 < rq_MaxCPU req ↔ (0 < inject_Z (rq_MaxCPU req))%Q) as Hz by (unfold Qlt; cbn; lia).
  destruct (Z.ltb_spec 0 (rq_MaxCPU req)) as [Hpos|Hzero]; cbn [andb].
  - destruct (float_eq (FNum q) float_zero || float_lt (float_of (rq_MaxCPU req)) (FNum q)) eqn:C.
    + unfold float_of. rewrite Hlt. split; [tauto|]. eexists. split; [done|]. split; [|intros _; apply Qle_refl].
      intros Hq'. apply orb_true_iff in C as [C|C].
      * cbn in C. apply Qeq_bool_iff in C. rewrite C in Hq'. by apply Qlt_irrefl in Hq'.
      * cbn in C. apply negb_true_iff, not_true_iff_false in C. rewrite Qle_bool_iff in C.
        by apply Qlt_le_weak, Qnot_le_lt.
    + apply orb_false_iff in C as [C1 C2]. cbn in C1, C2. apply not_true_iff_false in C1. rewrite Qeq_bool_iff in C1.
      apply negb_false_iff, Qle_bool_iff in C2. rewrite Hlt.
      assert (0 < q)%Q as Hq' by (apply Qle_lteq in Hq as [?|Hq]; [done|by symmetry in Hq]).
      split; [tauto|]. exists q. split; [done|]. split; [intros _; apply Qle_refl|done].
  - rewrite Hlt. split; [split; [tauto|intros [?|?]; [done|lia]]|].
    exists q. split; [done|]. split; [intros _; apply Qle_refl|lia].
Qed.

Lemma stricter_bound exec req b :
  rq_MaxMemoryMB req < 2 ^ 31 →
  (ec_ContainerMemory exec = "" ∨ ∃ c, runner_memory exec = Some c ∧ 0 < c <= 2 ^ 52) →
  stricter (runner_memory exec) (task_memory req) = Some b → 0 < b <= 2 ^ 52.
Proof.
  intros Hmb Hcfg.
  assert (∀ c, runner_memory exec = Some c → 0 < c <= 2 ^ 52) as Hc.
  { intros c E. destruct Hcfg as [H|(c' & E' & Hb)]; [|rewrite E in E'; by injection E' as <-]. unfold runner_memory in E. by rewrite H in E. }
  unfold task_memory. destruct (Z.ltb_spec 0 (rq_MaxMemoryMB req)), (runner_memory exec) as [c|];
    cbn [stricter]; intros [= <-]; try specialize (Hc c eq_refl); lia.
Qed.

(** The limits of a container. When the runner's memory limit is readable and
    positive (or unset) and the numbers are in range, the container's memory is the
    stricter of the runner's and the task's limit, as the daemon reads it back, and
    memory with swap is that plus the configured headroom; a limit that is not set
    leaves no option. The CPU limit is above neither the runner's nor the task's;
    and it is set when either is. *)
Theorem limits_capped exec req q :
  0 <= rq_MaxMemoryMB req < 2 ^ 31 → 0 <= rq_MaxCPU req → 0 <= ec_ContainerSwapMB exec < 2 ^ 31 →
  (ec_ContainerMemory exec = "" ∨ ∃ c, runner_memory exec = Some c ∧ 0 < c <= 2 ^ 52) →
  ec_ContainerCPU exec = FNum q → (0 <= q)%Q →
  let opts := limit_options ParseFloat FormatFloat exec req in
  match stricter (runner_memory exec) (task_memory req) with
  | None => values "--memory" opts = [] ∧ values "--memory-swap" opts = []
  | Some b => ∃ m s, values "--memory" opts = [m] ∧ ParseMemoryBytes ParseFloat m = inr b ∧
                values "--memory-swap" opts = [s] ∧
                ParseMemoryBytes ParseFloat s = inr (b + ec_ContainerSwapMB exec * 2 ^ 20)
  end ∧
  match values "--cpus" opts with
  | [] => (q == 0)%Q ∧ rq_MaxCPU req = 0
  | l => ∃ p, l = [FormatFloat (FNum p)] ∧ (0 < p)%Q ∧ (0 < q → p <= q)%Q ∧
           (0 < rq_MaxCPU req → (p <= inject_Z (rq_MaxCPU req))%Q)
  end.
Proof.
  intros Hmb Hcpu Hswap Hcfg Eq Hq. cbv zeta.
  assert (ec_ContainerMemory exec = "" ∨ ∃ c, runner_memory exec = Some c ∧ 0 < c) as Hcfg' by naive_solver lia.
  pose proof (container_memory_stricter exec req Hmb Hcfg') as Hmem. cbv zeta in Hmem.
  destruct (float_cpu_cases exec req q Eq Hq Hcpu) as [Hiff (p & Ep & Hpq & Hpn)].
  unfold limit_options. rewrite !values_app. split.
  - assert (∀ flag, flag = "--memory" ∨ flag = "--memory-swap" →
      values flag (if float_lt float_zero (container_cpu exec req) then [("--cpus", FormatFloat (container_cpu exec req))] else []) = [] ∧
      values flag (if 0 <? ec_ContainerPIDs exec then [("--pids-limit", fmt_d (ec_ContainerPIDs exec))] else []) = []) as Hrest.
    { intros flag [-> | ->]; destruct (float_lt _ _), (0 <? _); done. }
    destruct (Hrest "--memory" ltac:(by left)) as [-> ->]. destruct (Hrest "--memory-swap" ltac:(by right)) as [-> ->].
    destruct (stricter _ _) as [b|] eqn:Es.
    + destruct Hmem as [Hne Hb]. rewrite (bool_decide_eq_false_2 _ Hne).
      eexists _, _. split; [reflexivity|]. split; [exact Hb|]. split; [reflexivity|].
      apply container_swap_bytes; [done| |done].
      apply (stricter_bound exec req); [lia|done|done].
    + rewrite Hmem. done.
  - assert (values "--cpus" (if container_memory ParseFloat exec req == "" then [] else
       [("--memory", container_memory ParseFloat exec req); ("--memory-swap", container_swap ParseFloat exec (container_memory ParseFloat exec req))]) = []) as ->
      by (destruct (_ == ""); done).
    assert (values "--cpus" (if 0 <? ec_ContainerPIDs exec then [("--pids-limit", fmt_d (ec_ContainerPIDs exec))] else []) = []) as ->
      by (destruct (0 <? _); done).
    cbn [app]. rewrite app_nil_r, Ep. rewrite Ep in Hiff. destruct (float_lt float_zero (FNum p)) eqn:Ef.
    + cbn. exists p. split; [done|]. split; [|done]. cbn in Ef.
      apply negb_true_iff, not_true_iff_false in Ef. rewrite Qle_bool_iff in Ef. by apply Qnot_le_lt.
    + cbn. split.
      * destruct (Qlt_le_dec 0 q) as [H|H]; [discriminate (proj2 Hiff (or_introl H))|by apply Qle_antisym].
      * destruct (Z.eq_dec (rq_MaxCPU req) 0) as [|H]; [done|]. discriminate (proj2 Hiff (or_intror ltac:(lia))).
Qed.
End capped.

(** A reader of decimal integers, as one possible [strconv.ParseFloat]. *)
Fixpoint read_decimal (acc : N) (s : string) : option N :=
  match s with
  | EmptyString => Some acc
  | String c s => if in_range 48 57 c then read_decimal (10 * acc + (N_of_ascii c - 48)) s else None
  end.

Lemma read_pretty (n : N) : ∀ s, read_decimal 0 (pretty_N_go n s) = read_decimal n s.
Proof.
  induction (N.lt_wf_0 n) as [n _ IH]. intros s. destruct (decide (0 < n)%N) as [Hn|Hn].
  - rewrite pretty_N_go_step by done. rewrite IH by (by apply N.div_lt). cbn [read_decimal].
    assert (∀ k, (k < 10)%N → in_range 48 57 (pretty_N_char k) = true ∧ (N_of_ascii (pretty_N_char k) - 48 = k)%N) as Hk.
    { intros k Hlt. assert (k ∈ [0; 1; 2; 3; 4; 5; 6; 7; 8; 9]%N) as Hin by (apply list_elem_of_In; cbn; lia).
      rewrite !elem_of_cons, elem_of_nil in Hin. 
      repeat (destruct Hin as [-> | Hin]; [vm_compute; split; reflexivity|]). destruct Hin. }
    destruct (Hk (n mod 10)%N (N.mod_lt n 10 ltac:(lia))) as [-> ->]. f_equal.
    symmetry. apply N.div_mod'.
  - assert (n = 0%N) as -> by lia. by rewrite pretty_N_go_0.
Qed.

Definition sample_ParseFloat (s : string) : option Float :=
  if s == "" then None else (λ n, float_of (Z.of_N n)) <$> read_decimal 0 s.

Lemma sample_parse_integer n : 0 <= n < 2 ^ 53 → sample_ParseFloat (fmt_d n) = Some (float_of n).
Proof.
  intros Hn. destruct (fmt_d_chars n) as [_ Hne]. unfold sample_ParseFloat. rewrite (bool_decide_eq_false_2 _ Hne).
  destruct n as [|p|p]; [done| |lia]. unfold fmt_d.
  change (pretty (Z.pos p)) with (pretty_N_go (N.pos p) ""). by rewrite read_pretty.
Qed.

Definition sample_exec : ExecutionConfig := mkExecutionConfig "docker" true false "2048m" (FNum (3 # 2)) 512 256.

Definition sample_run : TaskRequest :=
  mkTaskRequest "task_1" "exec_1" "claim_1" "sess_1" "prompt_1" "ghcr.io/acme/agent:1" "fix the build" "" "" [] "" "build" ""
    "" "" "" [] [] "" "opencode" 600 512 4 ∅ false "" "" true [] "" "" "" "".

Lemma limits_capped_witness :
  let opts := limit_options sample_ParseFloat (λ _, "1.5") sample_exec sample_run in
  (∃ m s, values "--memory" opts = [m] ∧ ParseMemoryBytes sample_ParseFloat m = inr (512 * 2 ^ 20) ∧
     values "--memory-swap" opts = [s] ∧ ParseMemoryBytes sample_ParseFloat s = inr (768 * 2 ^ 20)) ∧
  values "--cpus" opts = ["1.5"].
Proof.
  assert (runner_memory sample_ParseFloat sample_exec = Some (2048 * 2 ^ 20)) as E by (vm_compute; reflexivity).
  destruct (limits_capped sample_ParseFloat (λ _, "1.5") sample_parse_integer sample_exec sample_run (3 # 2))
    as [Hm Hc]; [cbn; lia|cbn; lia|cbn; lia| |reflexivity|discriminate|].
  - right. exists (2048 * 2 ^ 20). split; [exact E|lia].
  - rewrite E in Hm. split; [exact Hm|]. vm_compute. reflexivity.
Defined.


