(* ===== verification/RunnerTask.v ===== *)
(** * The run of a task

    [runTask] of [runner/internal/controller/runner_task.go] from the claim to the
    last release: the checks before anything starts, the clone of the task's
    repositories with their credentials, the agents of each backend (local
    process, docker container, Kubernetes pod; served over HTTP or driven over
    RPC), resuming, and what every way out reports and gives back. Kubernetes is
    [kubernetes_executor.go].

    What a run does is the list of its actions (RunnerRpc.v); the answers of the
    host, of the harness and of the control plane are the fields of the
    environments. Logs and the diagnostic commands' own texts are left out. *)
From S2P Require Import Prelude Effects GoStrings Status Repos GithubRepo Redact Db RunnerEvent RunnerPaths RunnerReport RunnerRpc RunnerRpcRun RunnerContainer.
Open Scope Z_scope.

(** ** The repositories of a task *)

Definition taskRepositories (req : TaskRequest) : list RepoRef :=
  match rq_Repos req with
  | [] => if trimSpace (rq_GitURL req) == "" then [] else [mkRepoRef (rq_GitURL req) (rq_GitRef req) true]
  | repos => repos
  end.

Fixpoint primary_index (i : nat) (repos : list RepoRef) : option nat :=
  match repos with [] => None | r :: l => if Primary r then Some i else primary_index (S i) l end.

Definition splitTaskRepositories (repos : list RepoRef) : RepoRef * list RepoRef :=
  match repos with
  | [] => (mkRepoRef "" "" false, [])
  | first :: _ =>
    let i := default 0%nat (primary_index 0 repos) in
    ((nth i repos first){{ Primary := true }}, take i repos ++ drop (S i) repos)
  end.

Definition repoURLs (repos : list RepoRef) : list string := map Repos.URL repos.

Definition gitCloneArgsForRepo (ref : RepoRef) (dir : string) : list string :=
  ["clone"] ++ (if Ref ref == "" then [] else ["-b"; Ref ref]) ++ [Repos.URL ref; dir].

(** The primary repository in the workspace itself, the others below it. *)
Definition clone_targets (repos : list RepoRef) : list (RepoRef * string) :=
  let '(primary, secondaries) := splitTaskRepositories repos in
  (primary, ".") :: zip secondaries (SecondarySubdirs (repoURLs secondaries)).

Section credentials.
(** [net/url.Parse]. *)
Variable url_Parse : string → option GithubRepo.URL.

Definition cloneUsesGitHubBrokerForRepo (req : TaskRequest) (cloneURL : string) : bool :=
  if negb (hasPrefix (toLower (trimSpace cloneURL)) "https://") then false else
  match Parse url_Parse cloneURL with
  | None => false
  | Some cloneRepo =>
    if negb (trimSpace (rq_GitHubRepo req) == "") && Same url_Parse (rq_GitHubRepo req) (FullName cloneRepo) then true
    else existsb (λ ref, Same url_Parse (Repos.URL ref) (FullName cloneRepo)) (rq_Repos req)
  end.

(** [get] is the credential broker of the control plane. *)
Definition selectCloneCredentialForRepo (req : TaskRequest) (cloneURL fallback : string)
    (get : string → string + string) : string * option string :=
  if negb (cloneUsesGitHubBrokerForRepo req cloneURL) then (fallback, None) else
  match Parse url_Parse cloneURL with
  | None => (fallback, None)
  | Some cloneRepo =>
    match get (FullName cloneRepo) with inl e => (fallback, Some e) | inr token => (token, None) end
  end.
End credentials.

(** ** The answers a run gets *)

Inductive HarnessKind := HServe | HRpc | HNeither.

(** A serve harness, where it runs, and the end of its prompt. *)
Record ServeEnv := mkServeEnv {
  sv_port : option string;                (* the error of allocating a port *)
  sv_command : list string;               (* [ServeCommand] *)
  sv_pipe : string → option string;
  sv_start : option string;               (* the error of starting a local process *)
  sv_mount : option string;               (* the error of [hostWorkspaceDirForContainer] *)
  sv_run : option (string * string);      (* the error of [docker run] and its output *)
  sv_ready : option string;               (* the error of [WaitForReady] *)
  sv_logs : string;
  sv_unready : list string;               (* what is published about a container that is not ready *)
  sv_session : string + string;           (* [CreateSession] *)
  sv_events : list (string * TokenUsage); (* what [WatchEvents] and the watchdog publish *)
  sv_prompt : string + string;            (* [SendPrompt] *)
  sv_stuck : option string;               (* the watchdog's error when it gave up *)
  sv_ctx : option bool;                   (* has the task's context ended, by its deadline? *)
  sv_pause : bool;                        (* [session.PauseOnDrain] then *)
  sv_drained : bool;                      (* [session.PreserveWorkspace] then *)
  sv_oom : bool;
  sv_state : option dockerContainerState; (* the container, as inspected *)
  sv_quoted : string → string;            (* [%q] *)
  sv_transport : list string;             (* diagnostics of a transport failure *)
  sv_abort : option string;               (* the error of [AbortSession] *)
  sv_export : option string + string;     (* [ReadSessionExport]; no text where it takes too long *)
  sv_usage : TokenUsage;
  sv_beats : nat;                         (* heartbeats while finalizing, *)
  sv_late : nat;                          (* and after the last report *)
}.

Record KubeEnv := mkKubeEnv {
  ku_name : string;                       (* [kubernetesResourceName] *)
  ku_stale : option string;               (* errors: of removing what an earlier run left, *)
  ku_build : option string;               (* of building the pod, *)
  ku_secret : option string;              (* creating its secret *)
  ku_pod : option string;                 (* and the pod, *)
  ku_wait : option string;                (* waiting for it, *)
  ku_cleanup : nat → option string;       (* and of the clean-ups *)
  ku_diagnostics : string;
  ku_config : bool;
  ku_attach : option string;
}.

Record TaskEnv := mkTaskEnv {
  te_rpc : RpcEnv;
  te_serve : ServeEnv;
  te_kube : KubeEnv;
  te_iso : IsolationEnv;
  te_lookupEnv : string → option string;
  te_url_Parse : string → option GithubRepo.URL;
  te_tasks : list (string * string);      (* [r.tasks]: executions with their tasks *)
  te_kind : HarnessKind;
  te_rpc_command : list string;           (* [RpcCommand] *)
  te_resume : string + string;            (* [ResolveResumeWorkspace] *)
  te_mcp : option string;                 (* the error of [startWorkspaceMCP] *)
  te_token : string;                      (* the token of the MCP server *)
  te_credential_url : string;             (* [runnerGitHubCredentialURL] *)
  te_relay : option string;               (* the error of [nifflerLocalRelay] *)
  te_config : option string;              (* the error of [GenerateConfig] *)
  te_create : string + string;            (* [wsManager.Create] *)
  te_mkdir : option string;
  te_askpass : option string;             (* the error of [WriteGitAskpass] *)
  te_pat : string;                        (* [git.pat] of the runner *)
  te_broker : string → string + string;   (* [getGitHubCredentialForRepo] *)
  te_clone : list string → option string; (* the error of [git], with its output *)
  te_identity : option string;            (* the error of [prepareGitWorkspaces] *)
  te_extra : option string;               (* the error of writing the extra files *)
  te_drained : bool;                      (* [session.PreserveWorkspace] at the end, from outside *)
}.

Definition te_mode (te : TaskEnv) : string := ec_Backend (iso_exec (te_iso te)).
Definition te_gvisor (te : TaskEnv) : bool := ec_UseGVisor (iso_exec (te_iso te)).
Definition te_getenv (te : TaskEnv) : string → string := pe_getenv (te_rpc te).
Definition te_now (te : TaskEnv) : time := pe_now (te_rpc te).
Definition te_name (te : TaskEnv) : string := pe_name (te_rpc te).

Definition containerNameForRequest (req : TaskRequest) : string :=
  "chetter-task-" ^^ rq_TaskID req ^^ "-" ^^ rq_ExecutionID req.

Definition findLiveExecutionForTaskLocked (tasks : list (string * string)) (taskID : string) : string :=
  match List.find (λ s, s.2 == taskID) tasks with Some s => s.1 | None => "" end.

(** The acceptable limits give no text. *)
Definition validateTaskResourceLimits (req : TaskRequest) : string :=
  if rq_MaxMemoryMB req <? 0
  then "invalid max_memory_mb " ^^ fmt_d (rq_MaxMemoryMB req) ^^ ": must be greater than or equal to 0"
  else if rq_MaxCPU req <? 0
  then "invalid max_cpu " ^^ fmt_d (rq_MaxCPU req) ^^ ": must be greater than or equal to 0"
  else "".

(** The text of an error whose verbs are all [%s]. *)
Fixpoint sprintf (fmt : string) (args : list string) : string :=
  match fmt with
  | EmptyString => ""
  | String c rest =>
    match rest, args with
    | String v rest', a :: args => if (c == "%")%char && (v == "s")%char then a ^^ sprintf rest' args
                                   else String c (sprintf rest (a :: args))
    | _, _ => String c (sprintf rest args)
    end
  end.

Definition err_text (e : err) : string := match e with EMsg s => s | EFmt fmt args => sprintf fmt args | _ => "" end.

Definition shouldPreserveWorkspaceOnPromptError (errorCategory : string) : bool :=
  (errorCategory == "timeout") || (errorCategory == "transport_error").

(** *** [docker stop] and [docker rm] with their retries *)

Definition containerCleanupAttempts : nat := 2.

Definition isContainerGoneError (output : string) : bool :=
  contains output "No such container" || contains output "no such container".

(** An attempt: succeeded, or failed with an output, by its timeout or not. *)
Inductive CleanupAnswer := CDone | CFailed (output : string) (timeout : bool).

(** How often the command was run, and is the container gone? *)
Fixpoint removeTaskContainer_loop (n : nat) (answer : nat → CleanupAnswer) (attempt : nat) : nat * bool :=
  match n with
  | O => (attempt, false)
  | S n =>
    match answer attempt with
    | CDone => (S attempt, true)
    | CFailed output _ =>
      if isContainerGoneError output then (S attempt, true) else removeTaskContainer_loop n answer (S attempt)
    end
  end.

Fixpoint stopTaskContainer_loop (n : nat) (answer : nat → CleanupAnswer) (attempt : nat) : nat * bool :=
  match n with
  | O => (attempt, false)
  | S n =>
    match answer attempt with
    | CDone => (S attempt, true)
    | CFailed output timeout =>
      if negb timeout && isContainerGoneError output then (S attempt, true)
      else stopTaskContainer_loop n answer (S attempt)
    end
  end.

Definition removeTaskContainer_runs (answer : nat → CleanupAnswer) : nat * bool :=
  removeTaskContainer_loop containerCleanupAttempts answer 0.
Definition stopTaskContainer_runs (answer : nat → CleanupAnswer) : nat * bool :=
  stopTaskContainer_loop containerCleanupAttempts answer 0.

Definition gone (a : CleanupAnswer) : bool :=
  match a with CDone => true | CFailed output _ => isContainerGoneError output end.

(** A container is removed, or the command was run on it as often as allowed. *)
Lemma removeTaskContainer_ends answer :
  let '(runs, removed) := removeTaskContainer_runs answer in
  (1 <= runs <= containerCleanupAttempts)%nat ∧
  (if removed then gone (answer (runs - 1)%nat) = true
   else runs = containerCleanupAttempts ∧ ∀ i, (i < runs)%nat → gone (answer i) = false).
Proof.
  unfold removeTaskContainer_runs, containerCleanupAttempts. cbn [removeTaskContainer_loop].
  destruct (answer 0%nat) as [|o t] eqn:E0; [cbn; rewrite E0; split; [lia|done]|].
  destruct (isContainerGoneError o) eqn:G0; [cbn; rewrite E0; split; [lia|done]|].
  destruct (answer 1%nat) as [|o1 t1] eqn:E1; [cbn; rewrite E1; split; [lia|done]|].
  destruct (isContainerGoneError o1) eqn:G1; [cbn; rewrite E1; split; [lia|done]|].
  split; [lia|]. split; [done|]. intros [|[|i]] Hi; [by rewrite E0|by rewrite E1|lia].
Qed.

(** ** The agents of a task

    An agent answers whether it keeps the workspace. *)

Section agents.
Variable te : TaskEnv.
Variable req : TaskRequest.
Variable wsDir : string.

Notation renv := (te_rpc te).
Notation sv := (te_serve te).
Notation ku := (te_kube te).
Notation getenv := (te_getenv te).
Notation now := (te_now te).

Definition publish_checkpoint (status message sid export workspacePath : string) : rpc unit :=
  report (publishStatusWithMetadataAndCheckpoint getenv req now status message [] sid export "" workspacePath
            (sv_usage sv)).

Definition publish_running (message : string) : rpc unit := publish_status renv req "running" message.

(** [startFinalizationHeartbeat]: so many ticks. *)
Fixpoint heartbeats (n : nat) : rpc unit :=
  match n with
  | O => mret tt
  | S n => publish_running "opencode: server.heartbeat: finalizing task result..." ≫= λ _, heartbeats n
  end.

Fixpoint publish_events (l : list string) : rpc unit :=
  match l with [] => mret tt | s :: l => publish_event renv req s ≫= λ _, publish_events l end.

(** What [watchHarnessProgress] publishes while the prompt runs. *)
Fixpoint watch_events (l : list (string * TokenUsage)) : rpc unit :=
  match l with
  | [] => mret tt
  | (message, usage) :: l =>
    report (publishStatusWithToken getenv req now "running" message [] usage) ≫= λ _, watch_events l
  end.

(** The prompt, until its answer or the watchdog's end of it. *)
Definition send_prompt (sid : string) : rpc (string + string) :=
  act (APrompt sid) ≫= λ _, watch_events (sv_events sv) ≫= λ _,
  publish_running "Finalizing task result..." ≫= λ _, heartbeats (sv_beats sv) ≫= λ _,
  mret (match sv_stuck sv with Some e => inl e | None => sv_prompt sv end).

Definition readSessionExport : rpc string :=
  match sv_export sv with
  | inr export => mret export
  | inl (Some e) => publish_event renv req ("session export: " ^^ e) ≫= λ _, mret ""
  | inl None => publish_event renv req "session export timed out" ≫= λ _, mret ""
  end.

(** The status and message a failed prompt ends with. *)
Definition prompt_outcome (errorMessage : string) : string * string :=
  match sv_ctx sv, sv_stuck sv with
  | Some deadline, None => cancellationStatus deadline (te_name te)
  | _, _ => ("error", errorMessage)
  end.

Definition serve_unsupported : string := "harness " ^^ te_name te ^^ " does not support serve mode".

(** *** A local process *)

Definition local_session : rpc unit :=
  match sv_ready sv with
  | Some e => publish_error renv req ("harness serve not ready: " ^^ e)
  | None =>
  match sv_session sv with
  | inl e => publish_error renv req ("create session: " ^^ e)
  | inr sid =>
    publish_running "Sending prompt to agent..." ≫= λ _,
    send_prompt sid ≫= λ r,
    (if sid == "" then mret "" else readSessionExport) ≫= λ export,
    (let '(status, message) := match r with
                               | inl e => prompt_outcome ("prompt failed: " ^^ e)
                               | inr summary => ("done", truncateSummary summary)
                               end in
     report (publishStatusWithMetadata getenv req now status message [] sid export (sv_usage sv))) ≫= λ _,
    heartbeats (sv_late sv)
  end
  end.

Definition runLocalAgent : rpc unit :=
  if rq_Prompt req == "" then publish_error renv req "no prompt provided" else
  match sv_port sv with
  | Some e => publish_error renv req ("allocate port: " ^^ e)
  | None =>
  match sv_command sv with
  | [] => publish_error renv req serve_unsupported
  | _ =>
  match sv_pipe sv "stdout", sv_pipe sv "stderr" with
  | Some e, _ => publish_error renv req (te_name te ^^ " stdout pipe: " ^^ e)
  | None, Some e => publish_error renv req (te_name te ^^ " stderr pipe: " ^^ e)
  | None, None =>
  match sv_start sv with
  | Some e => publish_error renv req ("start " ^^ te_name te ^^ " serve: " ^^ e)
  | None => act AProcessStart ≫= λ _, local_session ≫= λ _, act AProcessEnd
  end end end end.

Definition runRpcAgent : rpc unit :=
  if rq_Prompt req == "" then publish_error renv req "no prompt provided" else
  match te_rpc_command te with
  | [] => publish_error renv req "harness does not provide an RPC command"
  | _ => publish_running "Starting agent (RPC mode)..." ≫= λ _,
         runRPCAgentCommand (renv{{ pe_container := "" }}) req
  end.

(** *** A container *)

Notation container := (containerNameForRequest req).

Definition removeTaskContainer : rpc unit := act (AContainerRemove container).
Definition stopTaskContainer : rpc unit := act (AContainerStop container).

(** [dockerContainerSandboxCrashed] where gVisor is used. *)
Definition sandbox_crash : option string :=
  if te_gvisor te then match classifySandboxCrash (sv_quoted sv) (sv_state sv) with
                       | (reason, true) => Some reason
                       | _ => None
                       end
  else None.

Definition shutdownDockerAgentSession (sid : string) : rpc string :=
  when (negb (sid == ""))
    match sv_abort sv with
    | Some e => publish_event renv req ("session abort failed: " ^^ e)
    | None => mret tt
    end ≫= λ _,
  stopTaskContainer ≫= λ _,
  if sid == "" then mret "" else readSessionExport.

(** The category that decides what is kept, with the status to report. *)
Definition docker_outcome (e : string) : string * string * string :=
  let errorMessage := "prompt failed: " ^^ e in
  let '(status, message) := prompt_outcome errorMessage in
  let '(status, message) :=
    if sv_pause sv then ("error", "task timeout during drain; resumable session preserved") else (status, message) in
  let category := classifyErrorCategory "error" errorMessage in
  let '(category, message) :=
    if sv_oom sv then ("resource_limit", dockerOOMMessage true errorMessage) else (category, message) in
  match sandbox_crash with
  | Some reason => (status, "sandbox crashed: " ^^ reason ^^ ": " ^^ errorMessage, "sandbox_crashed")
  | None => (status, message, category)
  end.

Definition docker_failed (sid e : string) : rpc bool :=
  let '(status, message, category) := docker_outcome e in
  match sandbox_crash with
  | Some reason => publish_event renv req ("sandbox runtime state: " ^^ truncateSummary reason)
  | None => mret tt
  end ≫= λ _,
  when (category == "transport_error") (publish_events (sv_transport sv)) ≫= λ _,
  let preserve := rq_CheckpointAfterSuccess req &&
                  (shouldPreserveWorkspaceOnPromptError category || sv_drained sv) in
  shutdownDockerAgentSession sid ≫= λ export,
  publish_checkpoint status message sid export (if preserve then wsDir else "") ≫= λ _,
  mret preserve.

Definition docker_completed (sid summary : string) : rpc bool :=
  let preserve := rq_CheckpointAfterSuccess req in
  (if sid == "" then mret "" else stopTaskContainer ≫= λ _, readSessionExport) ≫= λ export,
  publish_checkpoint "done" (truncateSummary summary) sid export (if preserve then wsDir else "") ≫= λ _,
  mret preserve.

Definition docker_prompt (sid : string) : rpc bool :=
  send_prompt sid ≫= λ r,
  match r with
  | inl e => docker_failed sid e
  | inr summary => docker_completed sid summary
  end ≫= λ preserve, heartbeats (sv_late sv) ≫= λ _, mret preserve.

Definition docker_unready (message : string) : rpc bool :=
  let message := if sv_oom sv then dockerOOMMessage true message else message in
  match sandbox_crash with
  | Some reason => publish_category renv req ("sandbox crashed: " ^^ reason ^^ ": " ^^ message) "sandbox_crashed"
  | None => publish_error renv req message
  end ≫= λ _, mret false.

Definition failed (m : rpc unit) : rpc bool := m ≫= λ _, mret false.

(** Starting the container, its session, and its removal. *)
Definition docker_run (mount_message starting : string) (session : rpc bool) : rpc bool :=
  removeTaskContainer ≫= λ _,
  match sv_command sv with
  | [] => failed (publish_error renv req serve_unsupported)
  | _ =>
  match sv_mount sv with
  | Some e => failed (publish_error renv req (mount_message ^^ e))
  | None =>
    publish_running starting ≫= λ _,
    match sv_run sv with
    | Some (e, out) =>
      if te_gvisor te && isSandboxStartFailure (Some e) out
      then failed (publish_category renv req ("sandbox failed to start: " ^^ e ^^ LF ^^ out) "sandbox_start_failed")
      else failed (publish_error renv req ("docker run: " ^^ e ^^ LF ^^ out))
    | None => act (AContainerRun container) ≫= λ _, session ≫= λ preserve, removeTaskContainer ≫= λ _, mret preserve
    end
  end
  end.

Definition docker_session : rpc bool :=
  match sv_ready sv with
  | Some e => publish_events (sv_unready sv) ≫= λ _, docker_unready ("container harness serve not ready: " ^^ e)
  | None =>
    match sv_session sv with
    | inl e => failed (publish_error renv req ("create session: " ^^ e))
    | inr sid => publish_running "Sending prompt to agent..." ≫= λ _, docker_prompt sid
    end
  end.

Definition runDockerAgent : rpc bool :=
  if rq_Prompt req == "" then failed (publish_error renv req "no prompt provided") else
  match sv_port sv with
  | Some e => failed (publish_error renv req ("allocate port: " ^^ e))
  | None => docker_run "resolve workspace bind mount: " "Starting dev container..." docker_session
  end.

Definition docker_resume_session (sid : string) : rpc bool :=
  match sv_ready sv with
  | Some e => docker_unready ("container serve not ready: " ^^ e ^^ LF ^^ sv_logs sv)
  | None => publish_running "Sending follow-up prompt to agent..." ≫= λ _, docker_prompt sid
  end.

Definition runDockerAgentResume : rpc bool :=
  if rq_Prompt req == "" then failed (publish_error renv req "no prompt provided") else
  if wsDir == "" then failed (publish_error renv req "no workspace path for resume") else
  match te_identity te with
  | Some e => failed (publish_error renv req ("configure Git identity: " ^^ e))
  | None =>
    let sid := rq_ResumeHarnessSessionID req in
    if sid == "" then failed (publish_error renv req "no harness session ID for resume") else
    publish_running "Resuming agent session..." ≫= λ _,
    match sv_port sv with
    | Some e => failed (publish_error renv req ("allocate port: " ^^ e))
    | None => docker_run "resolve resume workspace bind mount: " "Starting dev container for resume..."
                (docker_resume_session sid)
    end
  end.

(** The process of an RPC container is [docker run] itself. *)
Definition runDockerRpcAgent : rpc unit :=
  if rq_Prompt req == "" then publish_error renv req "no prompt provided" else
  match te_rpc_command te with
  | [] => publish_error renv req "harness does not provide an RPC command"
  | _ =>
    removeTaskContainer ≫= λ _,
    match sv_mount sv with
    | Some e => publish_error renv req ("resolve RPC workspace bind mount: " ^^ e)
    | None =>
      publish_running "Starting dev container (RPC mode)..." ≫= λ _,
      act (AContainerRun container) ≫= λ _,
      runRPCAgentCommand (renv{{ pe_container := container; pe_gvisor := te_gvisor te }}) req
    end ≫= λ _, removeTaskContainer
  end.

(** *** A pod

    [APodCreate] and [APodDelete] are for the pod and the secret of its name. *)

Definition cleanupKubernetesResources (n : nat) : rpc (option string) :=
  act (APodDelete (ku_name ku)) ≫= λ _, mret (ku_cleanup ku n).

(** Is everything gone? *)
Definition cleanupKubernetesResourcesAndReport (n : nat) : rpc bool :=
  cleanupKubernetesResources n ≫= λ r,
  match r with
  | Some e => publish_event renv req ("kubernetes cleanup: " ^^ e) ≫= λ _, mret false
  | None => mret true
  end.

(** The error, if there is one; then nothing is left that was created here. *)
Definition createKubernetesAgent : rpc (option string) :=
  cleanupKubernetesResources 0 ≫= λ _,
  match ku_stale ku with
  | Some e => mret (Some ("remove stale resources for execution: " ^^ e))
  | None =>
  match ku_build ku with
  | Some e => mret (Some e)
  | None =>
  match ku_secret ku with
  | Some e => mret (Some ("create agent environment secret: " ^^ e))
  | None =>
    act (APodCreate (ku_name ku)) ≫= λ _,
    match ku_pod ku with
    | Some e => cleanupKubernetesResources 1 ≫= λ _, mret (Some ("create agent pod: " ^^ e))
    | None => mret None
    end
  end end end.

Definition kube_failed (sid e : string) : rpc bool :=
  let '(status, message) := prompt_outcome ("prompt failed: " ^^ e) in
  let '(status, message) :=
    if sv_pause sv then ("error", "task timeout during drain; resumable session preserved") else (status, message) in
  let category := classifyErrorCategory status message in
  when (category == "transport_error") (publish_event renv req (ku_diagnostics ku)) ≫= λ _,
  cleanupKubernetesResourcesAndReport 2 ≫= λ clean,
  (if (clean : bool) then readSessionExport else mret "") ≫= λ export,
  let preserve := rq_CheckpointAfterSuccess req &&
                  (sv_drained sv || shouldPreserveWorkspaceOnPromptError category) in
  publish_checkpoint status message sid export (if preserve then wsDir else "") ≫= λ _,
  mret preserve.

Definition kube_completed (sid summary : string) : rpc bool :=
  let preserve := rq_CheckpointAfterSuccess req in
  cleanupKubernetesResourcesAndReport 2 ≫= λ clean,
  (if (clean : bool) then readSessionExport else mret "") ≫= λ export,
  publish_checkpoint "done" (truncateSummary summary) sid export (if preserve then wsDir else "") ≫= λ _,
  mret preserve.

Definition kube_prompt (resume : bool) (sid : string) : rpc bool :=
  publish_running (if resume then "Sending follow-up prompt to agent..." else "Sending prompt to agent...") ≫= λ _,
  send_prompt sid ≫= λ r,
  match r with
  | inl e => kube_failed sid e
  | inr summary => kube_completed sid summary
  end ≫= λ preserve, heartbeats (sv_late sv) ≫= λ _, mret preserve.

Definition kube_session (resume : bool) : rpc bool :=
  publish_running "Waiting for Kubernetes agent pod..." ≫= λ _,
  match ku_wait ku with
  | Some e =>
    publish_event renv req (ku_diagnostics ku) ≫= λ _, failed (publish_error renv req ("agent pod not ready: " ^^ e))
  | None =>
  match sv_ready sv with
  | Some e =>
    publish_event renv req (ku_diagnostics ku) ≫= λ _,
    failed (publish_error renv req ("pod harness serve not ready: " ^^ e))
  | None =>
    if resume then kube_prompt resume (rq_ResumeHarnessSessionID req) else
    match sv_session sv with
    | inl e => failed (publish_error renv req ("create session: " ^^ e))
    | inr sid => kube_prompt resume sid
    end
  end end.

Definition runKubernetesAgent (resume : bool) : rpc bool :=
  if rq_Prompt req == "" then failed (publish_error renv req "no prompt provided") else
  match sv_command sv with
  | [] => failed (publish_error renv req serve_unsupported)
  | _ =>
    createKubernetesAgent ≫= λ r,
    match r with
    | Some e => failed (publish_error renv req e)
    | None =>
      kube_session resume ≫= λ preserve, cleanupKubernetesResourcesAndReport 3 ≫= λ _, mret preserve
    end
  end.

Definition kube_rpc_session : rpc unit :=
  publish_running "Waiting for Kubernetes RPC agent pod..." ≫= λ _,
  match ku_wait ku with
  | Some e =>
    publish_event renv req (ku_diagnostics ku) ≫= λ _, publish_error renv req ("RPC agent pod not ready: " ^^ e)
  | None =>
    if negb (ku_config ku) then publish_error renv req "kubernetes REST config is required for RPC attach" else
    match ku_attach ku with
    | Some e => publish_error renv req ("attach RPC agent pod: " ^^ e)
    | None => runRPCAgentCommand (renv{{ pe_container := "" }}) req
    end
  end.

Definition runKubernetesRpcAgent : rpc unit :=
  if rq_Prompt req == "" then publish_error renv req "no prompt provided" else
  match te_rpc_command te with
  | [] => publish_error renv req "harness does not provide an RPC command"
  | _ =>
    createKubernetesAgent ≫= λ r,
    match r with
    | Some e => publish_error renv req e
    | None => kube_rpc_session ≫= λ a, cleanupKubernetesResourcesAndReport 3 ≫= λ _, mret a
    end
  end.
End agents.

(** ** The run of a task *)

Section task.
Variable te : TaskEnv.
Notation renv := (te_rpc te).

(** The runner's own token, and the one a clone gets: where the broker fails, the
    runner's. *)
Definition fallbackToken : string :=
  if te_pat te == "" then getenv (te_lookupEnv te) "GITHUB_TOKEN" else te_pat te.

Definition clone_token (req : TaskRequest) (cloneURL : string) : string :=
  (selectCloneCredentialForRepo (te_url_Parse te) req cloneURL fallbackToken (te_broker te)).1.

(** The clones of a task, until one fails; the answer is its error. *)
Fixpoint clone_all (req : TaskRequest) (targets : list (RepoRef * string)) : rpc (option string) :=
  match targets with
  | [] => mret None
  | (repo, dir) :: targets =>
    let args := gitCloneArgsForRepo repo dir in
    act (AClone args (clone_token req (Repos.URL repo))) ≫= λ _,
    match te_clone te args with
    | Some e => mret (Some ("git clone " ^^ Repos.URL repo ^^ " into " ^^ dir ^^ ": " ^^ e))
    | None => clone_all req targets
    end
  end.

Definition clone_repositories (req : TaskRequest) : rpc (option string) :=
  match taskRepositories req with
  | [] => mret None
  | repos =>
    match te_mkdir te with
    | Some e => mret (Some e)
    | None =>
      match te_askpass te with
      | Some e => mret (Some ("prepare Git credentials: " ^^ e))
      | None => clone_all req (clone_targets repos)
      end
    end
  end.

(** The request as the agent gets it, once the task's MCP server runs. *)
Definition with_mcp (req : TaskRequest) : TaskRequest :=
  let req := if te_token te == "" then req
             else req{{ rq_GitHubCredentialURL := te_credential_url te; rq_GitHubCredentialToken := te_token te }} in
  req{{ rq_RunnerMCPToken := te_token te }}.

(** The MCP server and the relay around an agent, with the harness's
    configuration. *)
Definition with_services {A} (req : TaskRequest) (config_message : string) (refused : rpc A)
    (agent : TaskRequest → rpc A) : rpc A :=
  match te_mcp te with
  | Some e => publish_error renv req ("mcp server: " ^^ e) ≫= λ _, refused
  | None =>
    act AMcpOpen ≫= λ _,
    (let req := with_mcp req in
     match te_relay te with
     | Some e => publish_error renv req e ≫= λ _, refused
     | None =>
       act ARelayOpen ≫= λ _,
       match te_config te with
       | Some e => publish_error renv req (config_message ^^ e) ≫= λ _, refused
       | None => agent req
       end ≫= λ a, act ARelayClose ≫= λ _, mret a
     end) ≫= λ a, act AMcpClose ≫= λ _, mret a
  end.

(** A harness by the interface it implements and the backend. *)
Definition run_agent (req : TaskRequest) (wsDir : string) : rpc bool :=
  if rq_AgentImage req == "" then failed (publish_error renv req "agent_image is required") else
  let local := te_mode te == "local" in
  let kube := te_mode te == "kubernetes" in
  match te_kind te with
  | HRpc => failed (if local then runRpcAgent te req
                    else if kube then runKubernetesRpcAgent te req else runDockerRpcAgent te req)
  | HServe => if local then failed (runLocalAgent te req)
              else if kube then runKubernetesAgent te req wsDir false else runDockerAgent te req wsDir
  | HNeither => failed (publish_error renv req ("harness " ^^ te_name te ^^ " has no supported execution mode"))
  end.

Definition run_resumed (req : TaskRequest) : rpc unit :=
  match te_resume te with
  | inl e => publish_error renv req ("invalid resume workspace: " ^^ e)
  | inr wsDir =>
    let req := req{{ rq_ResumeWorkspacePath := wsDir }} in
    match te_kind te with
    | HServe =>
      with_services req "generate resume harness config: " (mret false) (λ req,
        if te_mode te == "kubernetes" then
          match te_identity te with
          | Some e => failed (publish_error renv req ("configure Git identity: " ^^ e))
          | None => runKubernetesAgent te req wsDir true
          end
        else runDockerAgentResume te req wsDir) ≫= λ _, mret tt
    | _ => publish_error renv req ("harness " ^^ te_name te ^^ " cannot resume HTTP sessions")
    end
  end.

(** From the clone on; the answer is whether the agent keeps the workspace. *)
Definition run_in_workspace (req : TaskRequest) (wsDir : string) : rpc bool :=
  clone_repositories req ≫= λ r,
  match r with
  | Some e => failed (publish_error renv req e)
  | None =>
  match te_identity te with
  | Some e => failed (publish_error renv req ("configure Git identity: " ^^ e))
  | None =>
  match te_extra te with
  | Some e => failed (publish_error renv req ("write extra workspace file: " ^^ e))
  | None => with_services req "generate harness config: " (mret false) (λ req, run_agent req wsDir)
  end end end.

Definition run_fresh (req : TaskRequest) : rpc unit :=
  match te_create te with
  | inl e => publish_error renv req e
  | inr wsDir =>
    act AWorkspaceCreate ≫= λ _,
    run_in_workspace req wsDir ≫= λ preserve,
    when (negb (preserve || te_drained te)) (act AWorkspaceDestroy)
  end.

Definition run_tracked (req : TaskRequest) : rpc unit :=
  publish_running te req "Preparing workspace..." ≫= λ _,
  let req := if te_name te == "niffler" then req{{ rq_Harness := "niffler" }} else req in
  match ValidateEndpointTokenEnvironment (te_lookupEnv te) (rq_McpEndpoints req) with
  | inl e => publish_error renv req ("prepare MCP endpoints: " ^^ err_text e)
  | inr _ => if negb (rq_ResumeWorkspacePath req == "") then run_resumed req else run_fresh req
  end.

(** Why a claim is not run at all: a message and its category. *)
Definition refusal (req : TaskRequest) : option (string * string) :=
  if rq_ExecutionID req == "" then Some ("execution_id is required", "") else
  let limits := validateTaskResourceLimits req in
  if negb (limits == "") then Some (limits, "") else
  let isolation := checkIsolationPolicy (te_iso te) req in
  if negb (isolation == "") then Some (isolation, "isolation_unavailable") else
  let live := findLiveExecutionForTaskLocked (te_tasks te) (rq_TaskID req) in
  if negb (live == "")
  then Some ("refusing execution: task " ^^ rq_TaskID req ^^ " already has a live execution " ^^ live ^^
             " on this runner", "")
  else None.

Definition runTask (req : TaskRequest) : rpc unit :=
  match refusal req with
  | Some (message, category) => publish_category renv req message category
  | None =>
    act (ATrack (rq_ExecutionID req)) ≫= λ _,
    run_tracked req ≫= λ _,
    act (AUntrack (rq_ExecutionID req))
  end ≫= λ _, act ARelease.
End task.

(** ** One end for every run *)

Section ends.
Variable te : TaskEnv.
Variable req : TaskRequest.
Variable wsDir : string.

Section quiet_parts.
Variable f : Act → Z.
Context `{!Idle f}.

Lemma quiet_running message : quiet f (publish_running te req message).
Proof. by apply quiet_publish_running. Qed.
#[local] Hint Resolve quiet_running : quiet.

Lemma quiet_heartbeats n : quiet f (heartbeats te req n).
Proof. induction n; cbn [heartbeats]; quietly. Qed.

Lemma quiet_publish_events l : quiet f (publish_events te req l).
Proof. induction l; cbn [publish_events]; quietly. Qed.

Lemma quiet_watch_events l : quiet f (watch_events te req l).
Proof.
  induction l as [|[message usage] l IH]; cbn [watch_events]; [apply quiet_ret|].
  apply quiet_bind; [|done]. apply quiet_act, idle_running. apply status_report_fields.
Qed.

Lemma quiet_export : quiet f (readSessionExport te req).
Proof. unfold readSessionExport. quietly. Qed.
#[local] Hint Resolve quiet_heartbeats quiet_publish_events quiet_watch_events quiet_export : quiet.
End quiet_parts.
End ends.
#[export] Hint Resolve quiet_running quiet_heartbeats quiet_publish_events quiet_watch_events quiet_export : quiet.

Lemma terminal_act a : terminal a = 0 → quiet terminal (act a).
Proof. intros H. by apply quiet_act. Qed.
#[export] Hint Extern 1 (quiet terminal (act _)) => (apply terminal_act; reflexivity) : quiet.

Section once_each.
Variable te : TaskEnv.
Variable req : TaskRequest.
Variable wsDir : string.

Lemma quiet_send_prompt sid : quiet terminal (send_prompt te req sid).
Proof. unfold send_prompt. quietly. Qed.

Lemma quiet_shutdown sid : quiet terminal (shutdownDockerAgentSession te req sid).
Proof. unfold shutdownDockerAgentSession, stopTaskContainer. quietly. Qed.
#[local] Hint Resolve quiet_send_prompt quiet_shutdown : quiet.

Lemma final_checkpoint status message sid export ws :
  isTerminalStatus status = true → final (publish_checkpoint te req status message sid export ws).
Proof.
  intros H. apply final_report. unfold publishStatusWithMetadataAndCheckpoint.
  by pose proof (status_report_fields (te_getenv te) req (te_now te) status message "" [] sid export "" ws
    (sv_usage (te_serve te))) as (_ & _ & _ & _ & _ & -> & _).
Qed.

Lemma prompt_outcome_terminal m : isTerminalStatus (prompt_outcome te m).1 = true.
Proof. unfold prompt_outcome. destruct (sv_ctx (te_serve te)) as [[]|], (sv_stuck (te_serve te)); reflexivity. Qed.

Lemma docker_outcome_terminal e : isTerminalStatus (docker_outcome te e).1.1 = true.
Proof.
  unfold docker_outcome. pose proof (prompt_outcome_terminal ("prompt failed: " ^^ e)) as H.
  destruct (prompt_outcome _ _) as [status message]. cbn in H.
  destruct (sv_pause (te_serve te)), (sv_oom (te_serve te)), (sandbox_crash te); done.
Qed.
#[local] Hint Resolve final_checkpoint : final.

Lemma final_local_session : final (local_session te req).
Proof.
  unfold local_session. destruct (sv_ready _); [auto with final|].
  destruct (sv_session _) as [e|sid]; [auto with final|]. apply final_later; [auto with quiet|]. intros _.
  apply final_later; [auto with quiet|]. intros r.
  apply final_later; [quietly|]. intros export. apply final_first; [|intros _; auto with quiet].
  assert (isTerminalStatus (match r with inl e => prompt_outcome te ("prompt failed: " ^^ e)
                                       | inr summary => ("done", truncateSummary summary) end).1 = true) as H
    by (destruct r; [apply prompt_outcome_terminal|done]).
  destruct (match r with inl _ => _ | inr _ => _ end) as [status message]. apply final_report.
  unfold publishStatusWithMetadata, publishStatusWithMetadataAndErrorCategory.
  by pose proof (status_report_fields (te_getenv te) req (te_now te) status message "" [] sid export "" ""
    (sv_usage (te_serve te))) as (_ & _ & _ & _ & _ & -> & _).
Qed.
#[local] Hint Resolve final_local_session : final.

Lemma final_local : final (runLocalAgent te req).
Proof. unfold runLocalAgent. finally. Qed.

Lemma final_rpc_agent : final (runRpcAgent te req).
Proof. unfold runRpcAgent. finally. Qed.

Lemma final_failed m : final m → final (failed m).
Proof. intros H. apply final_first; [done|]. intros _. apply quiet_ret. Qed.
#[local] Hint Resolve final_failed : final.

Lemma final_docker_failed sid e : final (docker_failed te req wsDir sid e).
Proof.
  unfold docker_failed. pose proof (docker_outcome_terminal e) as H.
  destruct (docker_outcome te e) as [[status message] category]. cbn in H. finally.
Qed.

Lemma final_docker_completed sid summary : final (docker_completed te req wsDir sid summary).
Proof. unfold docker_completed, stopTaskContainer. finally. Qed.
#[local] Hint Resolve final_docker_failed final_docker_completed : final.

Lemma final_docker_prompt sid : final (docker_prompt te req wsDir sid).
Proof.
  unfold docker_prompt. apply final_later; [auto with quiet|]. intros r.
  apply final_first; [destruct r; auto with final|]. intros preserve. quietly.
Qed.

Lemma final_docker_unready message : final (docker_unready te req message).
Proof.
  unfold docker_unready. apply final_first; [|intros; quietly]. destruct (sandbox_crash te); auto with final.
Qed.
#[local] Hint Resolve final_docker_prompt final_docker_unready : final.

Lemma final_docker_run mount starting session : final session → final (docker_run te req mount starting session).
Proof.
  intros H. unfold docker_run, removeTaskContainer. apply final_later; [auto with quiet|]. intros _.
  destruct (sv_command _); [auto with final|]. destruct (sv_mount _); [auto with final|].
  apply final_later; [auto with quiet|]. intros _.
  destruct (sv_run _) as [[e out]|]; [destruct (_ && _); auto with final|].
  apply final_later; [auto with quiet|]. intros _. apply final_first; [done|]. intros. quietly.
Qed.

Lemma final_docker : final (runDockerAgent te req wsDir).
Proof.
  unfold runDockerAgent. destruct (_ == ""); [auto with final|]. destruct (sv_port _); [auto with final|].
  apply final_docker_run. unfold docker_session. finally.
Qed.

Lemma final_docker_resume : final (runDockerAgentResume te req wsDir).
Proof.
  unfold runDockerAgentResume. destruct (_ == ""); [auto with final|]. destruct (_ == ""); [auto with final|].
  destruct (te_identity te); [auto with final|]. destruct (_ == ""); [auto with final|].
  apply final_later; [auto with quiet|]. intros _. destruct (sv_port _); [auto with final|].
  apply final_docker_run. unfold docker_resume_session. finally.
Qed.

Lemma final_docker_rpc : final (runDockerRpcAgent te req).
Proof.
  unfold runDockerRpcAgent, removeTaskContainer. destruct (_ == ""); [auto with final|].
  destruct (te_rpc_command te); [auto with final|]. apply final_later; [auto with quiet|]. intros _.
  apply final_first; [|intros; auto with quiet]. finally.
Qed.

Lemma quiet_kube_cleanup n : quiet terminal (cleanupKubernetesResourcesAndReport te req n).
Proof. unfold cleanupKubernetesResourcesAndReport, cleanupKubernetesResources. quietly. Qed.

Lemma quiet_kube_create : quiet terminal (createKubernetesAgent te).
Proof. unfold createKubernetesAgent, cleanupKubernetesResources. quietly. Qed.
#[local] Hint Resolve quiet_kube_cleanup quiet_kube_create : quiet.

Lemma final_kube_prompt resume sid : final (kube_prompt te req wsDir resume sid).
Proof.
  unfold kube_prompt. apply final_later; [auto with quiet|]. intros _. apply final_later; [auto with quiet|]. intros r.
  apply final_first; [|intros; quietly]. destruct r as [e|summary]; unfold kube_failed, kube_completed; [|finally].
  pose proof (prompt_outcome_terminal ("prompt failed: " ^^ e)) as H.
  destruct (prompt_outcome _ _) as [status message]. cbn in H. destruct (sv_pause _); finally.
Qed.
#[local] Hint Resolve final_kube_prompt : final.

Lemma final_kube_session resume : final (kube_session te req wsDir resume).
Proof. unfold kube_session. finally. Qed.
#[local] Hint Resolve final_kube_session : final.

Lemma final_kube resume : final (runKubernetesAgent te req wsDir resume).
Proof.
  unfold runKubernetesAgent. destruct (_ == ""); [auto with final|]. destruct (sv_command _); [auto with final|].
  apply final_later; [auto with quiet|]. intros r. destruct r; [auto with final|].
  apply final_first; [auto with final|]. intros. quietly.
Qed.

Lemma final_kube_rpc : final (runKubernetesRpcAgent te req).
Proof.
  unfold runKubernetesRpcAgent, kube_rpc_session. destruct (_ == ""); [auto with final|].
  destruct (te_rpc_command te); [auto with final|]. apply final_later; [auto with quiet|]. intros r.
  destruct r; [auto with final|]. apply final_first; [|intros; quietly]. finally.
Qed.
End once_each.
#[export] Hint Resolve final_local final_rpc_agent final_failed final_docker final_docker_resume final_docker_rpc
  final_kube final_kube_rpc : final.

Section whole.
Variable te : TaskEnv.

Lemma quiet_clone_all req targets : quiet terminal (clone_all te req targets).
Proof.
  induction targets as [|[repo dir] l IH]; cbn [clone_all]; [apply quiet_ret|].
  apply quiet_bind; [auto with quiet|]. intros _. destruct (te_clone te _); [apply quiet_ret|done].
Qed.

Lemma quiet_clone req : quiet terminal (clone_repositories te req).
Proof.
  unfold clone_repositories. destruct (taskRepositories req); [apply quiet_ret|].
  destruct (te_mkdir te); [apply quiet_ret|]. destruct (te_askpass te); [apply quiet_ret|apply quiet_clone_all].
Qed.

Lemma final_services {A} req message (refused : rpc A) agent :
  quiet terminal refused → (∀ req, final (agent req)) → final (with_services te req message refused agent).
Proof.
  intros Hr Ha. unfold with_services. destruct (te_mcp te); [apply final_first; auto with final|].
  apply final_later; [auto with quiet|]. intros _. apply final_first; [|intros; quietly].
  destruct (te_relay te); [apply final_first; auto with final|].
  apply final_later; [auto with quiet|]. intros _. apply final_first; [|intros; quietly].
  destruct (te_config te); [apply final_first; auto with final|]. apply Ha.
Qed.

Lemma final_agent req ws : final (run_agent te req ws).
Proof.
  unfold run_agent. destruct (_ == ""); [auto with final|].
  destruct (te_kind te), (te_mode te == "local"), (te_mode te == "kubernetes"); auto with final.
Qed.

Lemma final_in_workspace req ws : final (run_in_workspace te req ws).
Proof.
  unfold run_in_workspace. apply final_later; [apply quiet_clone|]. intros [e|]; [auto with final|].
  destruct (te_identity te); [auto with final|]. destruct (te_extra te); [auto with final|].
  apply final_services; [apply quiet_ret|]. intros. apply final_agent.
Qed.

Lemma final_tracked req : final (run_tracked te req).
Proof.
  unfold run_tracked. apply final_later; [auto with quiet|]. intros _. cbv zeta. generalize (if te_name te == "niffler" then req{{ rq_Harness := "niffler" }} else req). intros r.
  destruct (ValidateEndpointTokenEnvironment _ _); [auto with final|]. destruct (negb _).
  - unfold run_resumed. destruct (te_resume te); [auto with final|]. destruct (te_kind te); [|auto with final..].
    apply final_first; [|intros; apply quiet_ret]. apply final_services; [apply quiet_ret|]. intros r'.
    destruct (_ == "kubernetes"); [|auto with final]. destruct (te_identity te); auto with final.
  - unfold run_fresh. destruct (te_create te); [auto with final|]. apply final_later; [auto with quiet|]. intros _.
    apply final_first; [apply final_in_workspace|]. intros. quietly.
Qed.
End whole.

(** C31. Every run of a task ends once. Whatever the host, the harness, the
    cluster and the control plane answer, on every backend, fresh or resumed,
    refused or run: among the reports of a run exactly one is terminal, so the
    control plane is told the end, and told it once. *)
Theorem task_reports_once te req s : weight terminal (trace_of (runTask te req) s) = 1.
Proof.
  revert s. cut (final (runTask te req)); [intros H s; apply H|].
  unfold runTask. apply final_first; [|intros; auto with quiet].
  destruct (refusal te req) as [[message category]|]; [auto with final|].
  apply final_later; [auto with quiet|]. intros _. apply final_first; [apply final_tracked|]. intros. auto with quiet.
Qed.

(** ** What a run holds *)

Inductive Res := RSlot | RTracked (executionID : string) | RWorkspace | RMcp | RRelay | RContainer (name : string) | RPod (name : string).

#[export] Instance Res_eq_dec : EqDecision Res.
Proof. solve_decision. Defined.

#[export] Instance Res_countable : Countable Res.
Proof.
  refine (inj_countable'
    (λ r, match r with
          | RSlot => (0%N, "") | RTracked e => (1%N, e) | RWorkspace => (2%N, "") | RMcp => (3%N, "")
          | RRelay => (4%N, "") | RContainer n => (5%N, n) | RPod n => (6%N, n)
          end)
    (λ p, match p with
          | (0%N, _) => RSlot | (1%N, e) => RTracked e | (2%N, _) => RWorkspace | (3%N, _) => RMcp
          | (4%N, _) => RRelay | (5%N, n) => RContainer n | (_, n) => RPod n
          end) _).
  by intros [].
Defined.

(** What is held after an action. *)
Definition hold1 (S : gset Res) (a : Act) : gset Res :=
  match a with
  | ATrack e => {[RTracked e]} ∪ S
  | AUntrack e => S ∖ {[RTracked e]}
  | ARelease => S ∖ {[RSlot]}
  | AWorkspaceCreate => {[RWorkspace]} ∪ S
  | AWorkspaceDestroy => S ∖ {[RWorkspace]}
  | AMcpOpen => {[RMcp]} ∪ S
  | AMcpClose => S ∖ {[RMcp]}
  | ARelayOpen => {[RRelay]} ∪ S
  | ARelayClose => S ∖ {[RRelay]}
  | AContainerRun n => {[RContainer n]} ∪ S
  | AContainerRemove n => S ∖ {[RContainer n]}
  | APodCreate n => {[RPod n]} ∪ S
  | APodDelete n => S ∖ {[RPod n]}
  | _ => S
  end.

Definition held (S : gset Res) (es : list Act) : gset Res := foldl hold1 S es.

(** [m] takes what is held from [S] to [T] of its answer. *)
Definition moves {A} (S : gset Res) (m : rpc A) (T : A → gset Res) : Prop :=
  ∀ s, held S (trace_of m s) = T (result_of m s).

Notation leaves S m := (moves S m (λ _, S)).

Lemma moves_ret {A} S (a : A) T : T a = S → moves S (mret a) T.
Proof. intros H s. by rewrite <- H. Qed.

Lemma moves_bind {A B} S T U (m : rpc A) (k : A → rpc B) :
  moves S m T → (∀ a, moves (T a) (k a) U) → moves S (m ≫= k) U.
Proof.
  intros Hm Hk s. rewrite trace_bind, result_bind. unfold held. rewrite foldl_app.
  fold (held S (trace_of m s)). rewrite (Hm s). apply (Hk (result_of m s)).
Qed.

Lemma leaves_bind {A B} S (m : rpc A) (k : A → rpc B) T :
  leaves S m → (∀ a, moves S (k a) T) → moves S (m ≫= k) T.
Proof. apply moves_bind. Qed.

Lemma moves_act S a T : T = hold1 S a → moves S (act a) (λ _, T).
Proof. intros -> s. done. Qed.

(** The actions that change what is held. *)
Definition holding (a : Act) : Z :=
  match a with
  | AReport _ | AWrite _ | APrompt _ | AClone _ _ | AContainerStop _ | AProcessStart | AProcessEnd => 0
  | _ => 1
  end.

#[export] Instance idle_holding : Idle holding.
Proof. by split. Qed.

Lemma leaves_quiet {A} S (m : rpc A) : quiet holding m → leaves S m.
Proof.
  intros H s. specialize (H s). cbn in H. generalize (trace_of m s) H. clear H. intros es.
  assert (∀ l, 0 <= weight holding l) as Hpos.
  { induction l as [|a l IH]; [done|]. cbn. assert (0 <= holding a) by (by destruct a). lia. }
  induction es as [|a es IH]; [done|]. cbn. intros H.
  pose proof (Hpos es). assert (0 <= holding a) by (by destruct a).
  assert (hold1 S a = S) as -> by (destruct a; cbn in *; done || lia). apply IH. lia.
Qed.

(** A weight that neither the reports without a workspace, nor the harness's
    process, its prompt and the stop of a container have. *)
Class Workless (f : Act → Z) := {
  wl_idle : Idle f;
  wl_report : ∀ r, rs_WorkspacePath r = "" → f (AReport r) = 0;
  wl_start : f AProcessStart = 0;
  wl_end : f AProcessEnd = 0;
  wl_prompt : ∀ sid, f (APrompt sid) = 0;
  wl_stop : ∀ n, f (AContainerStop n) = 0;
  wl_clone : ∀ args token, f (AClone args token) = 0;
}.
#[export] Hint Resolve wl_idle : quiet.

#[export] Instance workless_holding : Workless holding.
Proof. by split. Qed.
#[export] Hint Resolve workless_holding : quiet.

Section workless.
Variable f : Act → Z.
Context `{W : !Workless f}.

Lemma unmoved_start : quiet f (act AProcessStart).
Proof. apply quiet_act, wl_start. Qed.
Lemma unmoved_end : quiet f (act AProcessEnd).
Proof. apply quiet_act, wl_end. Qed.
Lemma unmoved_prompt sid : quiet f (act (APrompt sid)).
Proof. apply quiet_act, wl_prompt. Qed.
Lemma unmoved_stop n : quiet f (act (AContainerStop n)).
Proof. apply quiet_act, wl_stop. Qed.
Lemma unmoved_clone args token : quiet f (act (AClone args token)).
Proof. apply quiet_act, wl_clone. Qed.
Lemma unmoved_report r : rs_WorkspacePath r = "" → quiet f (report r).
Proof. intros H. by apply quiet_act, wl_report. Qed.
#[local] Hint Resolve unmoved_start unmoved_end unmoved_prompt unmoved_stop unmoved_clone : quiet.

Section rpc_parts.
Variable env : RpcEnv.
Variable req : TaskRequest.

Lemma unmoved_status_report now status message category artifacts sid export usage :
  quiet f (report (status_report (pe_getenv env) req now status message category artifacts sid export "" "" usage)).
Proof. apply unmoved_report. apply status_report_fields. Qed.

Lemma unmoved_status status message : quiet f (publish_status env req status message).
Proof. apply unmoved_status_report. Qed.
Lemma unmoved_error message : quiet f (publish_error env req message).
Proof. apply unmoved_status_report. Qed.
Lemma unmoved_category message category : quiet f (publish_category env req message category).
Proof. apply unmoved_status_report. Qed.
Lemma unmoved_metadata status message export : quiet f (publish_metadata env req status message export).
Proof. unfold publish_metadata. apply quiet_bind; [quietly|]. intros. apply unmoved_status_report. Qed.
#[local] Hint Resolve unmoved_status_report unmoved_status unmoved_error unmoved_category unmoved_metadata wl_idle W : quiet.
Lemma unmoved_cancellation d : quiet f (publish_cancellation env req d).
Proof. unfold publish_cancellation. quietly. Qed.
Lemma unmoved_cancellation_with d export : quiet f (publish_cancellation_with env req d export).
Proof. unfold publish_cancellation_with. quietly. Qed.
Lemma unmoved_output message : quiet f (fail_output env req message).
Proof. unfold fail_output. quietly. Qed.
#[local] Hint Resolve unmoved_cancellation unmoved_cancellation_with unmoved_output : quiet.

Lemma unmoved_finish : quiet f (finish_rpc env req).
Proof.
  unfold finish_rpc. quietly; unfold publishStatusWithMetadataAndErrorCategory; apply unmoved_status_report.
Qed.
#[local] Hint Resolve unmoved_finish : quiet.

Lemma unmoved_after_loop r : quiet f (after_loop env req r).
Proof. unfold after_loop. quietly. Qed.
#[local] Hint Resolve unmoved_after_loop : quiet.

Lemma unmoved_prompt_rpc : quiet f (prompt_rpc env req).
Proof. unfold prompt_rpc. quietly. Qed.
#[local] Hint Resolve unmoved_prompt_rpc : quiet.

Lemma unmoved_drive : quiet f (drive_rpc env req).
Proof. unfold drive_rpc. quietly. Qed.
#[local] Hint Resolve unmoved_drive : quiet.

Lemma unmoved_rpc : quiet f (runRPCAgentCommand env req).
Proof. unfold runRPCAgentCommand. quietly. Qed.
End rpc_parts.
#[local] Hint Resolve unmoved_status unmoved_error unmoved_category unmoved_rpc wl_idle W : quiet.

Section agent_parts.
Variable te : TaskEnv.
Variable req : TaskRequest.
Variable wsDir : string.

Lemma unmoved_failed m : quiet f m → quiet f (failed m).
Proof. intros H. apply quiet_bind; [done|]. intros. apply quiet_ret. Qed.
Lemma unmoved_send sid : quiet f (send_prompt te req sid).
Proof. unfold send_prompt. quietly. Qed.
#[local] Hint Resolve unmoved_failed unmoved_send : quiet.

Lemma unmoved_local : quiet f (runLocalAgent te req).
Proof.
  unfold runLocalAgent, local_session.
  quietly; unfold publishStatusWithMetadata, publishStatusWithMetadataAndErrorCategory;
    apply (unmoved_status_report (te_rpc te)).
Qed.
Lemma unmoved_rpc_agent : quiet f (runRpcAgent te req).
Proof. unfold runRpcAgent. quietly. Qed.
Lemma unmoved_shutdown sid : quiet f (shutdownDockerAgentSession te req sid).
Proof. unfold shutdownDockerAgentSession, stopTaskContainer. quietly. Qed.
Lemma unmoved_docker_unready message : quiet f (docker_unready te req message).
Proof. unfold docker_unready. quietly. Qed.
Lemma unmoved_kube_rpc_session : quiet f (kube_rpc_session te req).
Proof. unfold kube_rpc_session. quietly. Qed.
Lemma unmoved_clone_all targets : quiet f (clone_all te req targets).
Proof.
  induction targets as [|[repo dir] l IH]; cbn [clone_all]; [apply quiet_ret|].
  apply quiet_bind; [auto with quiet|]. intros _. destruct (te_clone te _); [apply quiet_ret|done].
Qed.
Lemma unmoved_clone_repositories : quiet f (clone_repositories te req).
Proof.
  unfold clone_repositories. destruct (taskRepositories req); [apply quiet_ret|].
  destruct (te_mkdir te); [apply quiet_ret|]. destruct (te_askpass te); [apply quiet_ret|apply unmoved_clone_all].
Qed.
End agent_parts.
End workless.
#[export] Hint Resolve unmoved_start unmoved_end unmoved_prompt unmoved_stop unmoved_clone unmoved_status
  unmoved_error unmoved_category unmoved_rpc unmoved_failed unmoved_send unmoved_local unmoved_rpc_agent
  unmoved_shutdown unmoved_docker_unready unmoved_kube_rpc_session unmoved_clone_repositories : quiet.

(** What an agent on a container holds of itself: nothing. *)
Section agents_hold.
Variable te : TaskEnv.
Variable req : TaskRequest.
Variable wsDir : string.

Lemma holding_checkpoint status message sid export ws :
  quiet holding (publish_checkpoint te req status message sid export ws).
Proof. by apply quiet_act. Qed.
#[local] Hint Resolve holding_checkpoint : quiet.

Lemma holding_docker_prompt sid : quiet holding (docker_prompt te req wsDir sid).
Proof. unfold docker_prompt, docker_failed, docker_completed, stopTaskContainer. quietly. Qed.
End agents_hold.
#[export] Hint Resolve holding_checkpoint holding_docker_prompt : quiet.

(** What is taken for a part is given back after it. *)
Lemma moves_bracket {A} S r opening closing (m : rpc A) :
  r ∉ S → hold1 S opening = {[r]} ∪ S → (∀ T, hold1 T closing = T ∖ {[r]}) → leaves ({[r]} ∪ S) m →
  leaves S (act opening ≫= λ _, m ≫= λ a, act closing ≫= λ _, mret a).
Proof.
  intros Hr Ho Hc Hm. apply (moves_bind _ (λ _, {[r]} ∪ S)); [by apply moves_act|]. intros _.
  apply (moves_bind _ (λ _, {[r]} ∪ S)); [exact Hm|]. intros a.
  apply (moves_bind _ (λ _, S)); [|intros; by apply moves_ret].
  apply moves_act. rewrite Hc. apply set_eq. set_solver.
Qed.

Lemma leaves_removed S a r : r ∉ S → (∀ T, hold1 T a = T ∖ {[r]}) → leaves S (act a).
Proof. intros Hr Ha. apply moves_act. rewrite Ha. apply set_eq. set_solver. Qed.

Section agents_move.
Variable te : TaskEnv.
Variable req : TaskRequest.
Variable wsDir : string.
Variable S : gset Res.
Hypothesis no_container : ∀ n, RContainer n ∉ S.
Hypothesis no_pod : ∀ n, RPod n ∉ S.

Lemma leaves_failed m : leaves S m → leaves S (failed m).
Proof. intros H. apply leaves_bind; [done|]. intros _. by apply moves_ret. Qed.

Lemma leaves_error message : leaves S (failed (publish_error (te_rpc te) req message)).
Proof. apply leaves_failed, leaves_quiet. auto with quiet. Qed.

Lemma leaves_remove : leaves S (removeTaskContainer req).
Proof. eapply leaves_removed; [apply no_container|]. done. Qed.

Lemma leaves_docker_run mount starting (session : rpc bool) :
  quiet holding session → leaves S (docker_run te req mount starting session).
Proof.
  intros H. unfold docker_run. apply leaves_bind; [apply leaves_remove|]. intros _.
  destruct (sv_command _); [apply leaves_error|]. destruct (sv_mount _); [apply leaves_error|].
  apply leaves_bind; [apply leaves_quiet; auto with quiet|]. intros _.
  destruct (sv_run _) as [[e out]|].
  - destruct (_ && _); [|apply leaves_error]. apply leaves_failed, leaves_quiet. auto with quiet.
  - apply (moves_bracket S (RContainer (containerNameForRequest req))); [apply no_container|done|done|].
    by apply leaves_quiet.
Qed.

Lemma leaves_docker : leaves S (runDockerAgent te req wsDir).
Proof.
  unfold runDockerAgent. destruct (_ == ""); [apply leaves_error|]. destruct (sv_port _); [apply leaves_error|].
  apply leaves_docker_run. unfold docker_session. quietly.
Qed.

Lemma leaves_docker_resume : leaves S (runDockerAgentResume te req wsDir).
Proof.
  unfold runDockerAgentResume. destruct (_ == ""); [apply leaves_error|]. destruct (_ == ""); [apply leaves_error|].
  destruct (te_identity te); [apply leaves_error|]. destruct (_ == ""); [apply leaves_error|].
  apply leaves_bind; [apply leaves_quiet; auto with quiet|]. intros _. destruct (sv_port _); [apply leaves_error|].
  apply leaves_docker_run. unfold docker_resume_session. quietly.
Qed.

Lemma leaves_docker_rpc : leaves S (runDockerRpcAgent te req).
Proof.
  unfold runDockerRpcAgent. destruct (_ == ""); [apply leaves_quiet; auto with quiet|].
  destruct (te_rpc_command te); [apply leaves_quiet; auto with quiet|].
  apply leaves_bind; [apply leaves_remove|]. intros _. destruct (sv_mount _).
  { apply leaves_bind; [apply leaves_quiet; auto with quiet|]. intros _. apply leaves_remove. }
  set (c := RContainer (containerNameForRequest req)).
  apply (moves_bind _ (λ _, {[c]} ∪ S)).
  - apply leaves_bind; [apply leaves_quiet; auto with quiet|]. intros _.
    apply (moves_bind _ (λ _, {[c]} ∪ S)); [by apply moves_act|]. intros _. apply leaves_quiet. auto with quiet.
  - intros _. apply moves_act. cbn. apply set_eq. pose proof (no_container (containerNameForRequest req)). set_solver.
Qed.

Lemma leaves_cleanup n : leaves S (cleanupKubernetesResources te n).
Proof.
  unfold cleanupKubernetesResources. apply leaves_bind; [|intros; by apply moves_ret].
  eapply leaves_removed; [apply no_pod|]. done.
Qed.

Notation pod := (RPod (ku_name (te_kube te))).

(** A clean-up leaves no pod, whatever there was. *)
Lemma moves_cleanup n T : T ⊆ {[pod]} ∪ S → S ⊆ T → moves T (cleanupKubernetesResourcesAndReport te req n) (λ _, S).
Proof.
  intros H1 H2. unfold cleanupKubernetesResourcesAndReport, cleanupKubernetesResources.
  pose proof (no_pod (ku_name (te_kube te))) as Hp.
  apply (moves_bind _ (λ _, S)).
  - apply (moves_bind _ (λ _, S)); [|intros; by apply moves_ret]. apply moves_act. cbn. apply set_eq. set_solver.
  - intros [e|]; [|by apply moves_ret]. apply leaves_bind; [apply leaves_quiet; auto with quiet|]. intros _. by apply moves_ret.
Qed.

Lemma moves_create : moves S (createKubernetesAgent te) (λ r, match r with Some _ => S | None => {[pod]} ∪ S end).
Proof.
  unfold createKubernetesAgent. apply leaves_bind; [apply leaves_cleanup|]. intros _.
  destruct (ku_stale _); [by apply moves_ret|]. destruct (ku_build _); [by apply moves_ret|].
  destruct (ku_secret _); [by apply moves_ret|].
  apply (moves_bind _ (λ _, {[pod]} ∪ S)); [by apply moves_act|]. intros _. destruct (ku_pod _); [|by apply moves_ret].
  apply (moves_bind _ (λ _, S)); [|intros; by apply moves_ret]. unfold cleanupKubernetesResources.
  apply (moves_bind _ (λ _, S)); [|intros; by apply moves_ret]. apply moves_act. cbn. apply set_eq.
  pose proof (no_pod (ku_name (te_kube te))). set_solver.
Qed.

(** A session may have removed its pod already. *)
Definition may_leave {A} (m : rpc A) : Prop :=
  ∀ s, held ({[pod]} ∪ S) (trace_of m s) = {[pod]} ∪ S ∨ held ({[pod]} ∪ S) (trace_of m s) = S.

Lemma may_leave_quiet {A} (m : rpc A) : quiet holding m → may_leave m.
Proof. intros H s. left. by apply leaves_quiet. Qed.

Lemma may_leave_after {A B} (m : rpc A) (k : A → rpc B) :
  quiet holding m → (∀ a, may_leave (k a)) → may_leave (m ≫= k).
Proof.
  intros Hm Hk s. rewrite trace_bind. unfold held. rewrite foldl_app. fold (held ({[pod]} ∪ S) (trace_of m s)).
  rewrite (leaves_quiet _ m Hm s). apply Hk.
Qed.

Lemma may_leave_cleanup {B} n (k : bool → rpc B) :
  (∀ b, quiet holding (k b)) → may_leave (cleanupKubernetesResourcesAndReport te req n ≫= k).
Proof.
  intros Hk s. right. revert s. change (moves ({[pod]} ∪ S) (cleanupKubernetesResourcesAndReport te req n ≫= k) (λ _, S)).
  apply (moves_bind _ (λ _, S)); [apply moves_cleanup; set_solver|]. intros b. by apply leaves_quiet.
Qed.

Lemma moves_session {A} n (m : rpc A) :
  may_leave m → moves ({[pod]} ∪ S) (m ≫= λ a, cleanupKubernetesResourcesAndReport te req n ≫= λ _, mret a) (λ _, S).
Proof.
  intros Hm s. rewrite trace_bind. unfold held. rewrite foldl_app. fold (held ({[pod]} ∪ S) (trace_of m s)).
  destruct (Hm s) as [-> | ->];
    refine (moves_bind _ (λ _, S) (λ _, S) _ _ _ _ (world_of m s));
    [apply moves_cleanup; set_solver|intros; by apply moves_ret
    |apply moves_cleanup; set_solver|intros; by apply moves_ret].
Qed.
End agents_move.

Section kube_moves.
Variable te : TaskEnv.
Variable S : gset Res.
Hypothesis no_container : ∀ n, RContainer n ∉ S.
Hypothesis no_pod : ∀ n, RPod n ∉ S.

Lemma may_leave_first {A B} (m : rpc A) (k : A → rpc B) :
  may_leave te S m → (∀ a, quiet holding (k a)) → may_leave te S (m ≫= k).
Proof.
  intros Hm Hk s. rewrite trace_bind. unfold held. rewrite foldl_app.
  fold (held ({[RPod (ku_name (te_kube te))]} ∪ S) (trace_of m s)).
  destruct (Hm s) as [-> | ->]; [left|right]; by apply (leaves_quiet _ (k _)).
Qed.

Lemma may_leave_kube_prompt req wsDir resume sid : may_leave te S (kube_prompt te req wsDir resume sid).
Proof.
  unfold kube_prompt. apply may_leave_after; [auto with quiet|]. intros _.
  apply may_leave_after; [auto with quiet|]. intros r. apply may_leave_first; [|intros; quietly].
  destruct r as [e|summary]; unfold kube_failed, kube_completed.
  - destruct (prompt_outcome _ _) as [status message]. destruct (sv_pause _);
      (apply may_leave_after; [quietly|intros _]); (apply may_leave_cleanup; [done|done|]);
      intros b; quietly.
  - apply may_leave_cleanup; [done|done|]. intros b. quietly.
Qed.

Lemma may_leave_kube_session req wsDir resume : may_leave te S (kube_session te req wsDir resume).
Proof.
  unfold kube_session. apply may_leave_after; [auto with quiet|]. intros _.
  destruct (ku_wait _); [apply may_leave_quiet; quietly|]. destruct (sv_ready _); [apply may_leave_quiet; quietly|].
  destruct resume; [apply may_leave_kube_prompt|]. destruct (sv_session _); [apply may_leave_quiet; quietly|].
  apply may_leave_kube_prompt.
Qed.

Lemma leaves_kube req wsDir resume : leaves S (runKubernetesAgent te req wsDir resume).
Proof.
  unfold runKubernetesAgent. destruct (_ == ""); [apply leaves_error|]. destruct (sv_command _); [apply leaves_error|].
  eapply moves_bind; [by apply moves_create|]. intros [e|]; [apply leaves_error|].
  apply moves_session; [done|done|]. apply may_leave_kube_session.
Qed.

Lemma leaves_kube_rpc req : leaves S (runKubernetesRpcAgent te req).
Proof.
  unfold runKubernetesRpcAgent. destruct (_ == ""); [apply leaves_quiet; auto with quiet|].
  destruct (te_rpc_command te); [apply leaves_quiet; auto with quiet|].
  eapply moves_bind; [by apply moves_create|]. intros [e|]; [apply leaves_quiet; auto with quiet|].
  apply moves_session; [done|done|]. apply may_leave_quiet. auto with quiet.
Qed.

Lemma leaves_agent req wsDir : leaves S (run_agent te req wsDir).
Proof.
  unfold run_agent. destruct (_ == ""); [apply leaves_error|].
  destruct (te_kind te).
  - destruct (te_mode te == "local"); [apply leaves_failed, leaves_quiet; auto with quiet|].
    destruct (te_mode te == "kubernetes"); [apply leaves_kube|by apply leaves_docker].
  - apply leaves_failed. destruct (te_mode te == "local"); [apply leaves_quiet; auto with quiet|].
    destruct (te_mode te == "kubernetes"); [apply leaves_kube_rpc|by apply leaves_docker_rpc].
  - apply leaves_error.
Qed.
End kube_moves.

(** The sets of a run contain no container and no pod. *)
Definition clear (S : gset Res) : Prop := (∀ n, RContainer n ∉ S) ∧ (∀ n, RPod n ∉ S).

Section run_moves.
Variable te : TaskEnv.

Lemma leaves_clone S req : leaves S (clone_repositories te req).
Proof. apply leaves_quiet. auto with quiet. Qed.

Lemma leaves_services {A} S req message (refused : rpc A) agent :
  RMcp ∉ S → RRelay ∉ S → (∀ T, leaves T refused) → (∀ req, leaves ({[RRelay]} ∪ ({[RMcp]} ∪ S)) (agent req)) →
  leaves S (with_services te req message refused agent).
Proof.
  intros Hm Hr Href Ha. unfold with_services.
  assert (∀ T e req', leaves T (publish_error (te_rpc te) req' e ≫= λ _, refused)) as Herr.
  { intros T e req'. apply leaves_bind; [apply leaves_quiet; auto with quiet|]. intros _. apply Href. }
  destruct (te_mcp te); [apply Herr|].
  apply (moves_bracket S RMcp); [done|done|done|]. cbv zeta.
  destruct (te_relay te); [apply Herr|].
  apply (moves_bracket _ RRelay); [set_solver|done|done|].
  destruct (te_config te); [apply Herr|apply Ha].
Qed.

Lemma leaves_in_workspace S req wsDir :
  clear S → RMcp ∉ S → RRelay ∉ S → leaves S (run_in_workspace te req wsDir).
Proof.
  intros [Hc Hp] Hm Hr. unfold run_in_workspace. apply leaves_bind; [apply leaves_clone|].
  intros [e|]; [apply leaves_error|]. destruct (te_identity te); [apply leaves_error|].
  destruct (te_extra te); [apply leaves_error|].
  apply leaves_services; [done|done|intros; by apply moves_ret|]. intros r.
  apply leaves_agent; set_solver.
Qed.

Lemma leaves_resumed S req : clear S → RMcp ∉ S → RRelay ∉ S → leaves S (run_resumed te req).
Proof.
  intros [Hc Hp] Hm Hr. unfold run_resumed.
  destruct (te_resume te); [apply leaves_quiet; auto with quiet|]. cbv zeta.
  destruct (te_kind te); [|apply leaves_quiet; auto with quiet..].
  apply leaves_bind; [|intros; by apply moves_ret].
  apply leaves_services; [done|done|intros; by apply moves_ret|]. intros r.
  destruct (_ == "kubernetes"); [|apply leaves_docker_resume; set_solver].
  destruct (te_identity te); [apply leaves_error|apply leaves_kube; set_solver].
Qed.
End run_moves.

(** ** The workspace a run reports *)

(** The terminal reports that name a workspace, twice where it is another one. *)
Definition claims (wsDir : string) (a : Act) : Z :=
  match a with
  | AReport r => if (rs_Status r == "running") || (rs_WorkspacePath r == "") then 0
                 else if rs_WorkspacePath r == wsDir then 1 else 2
  | _ => 0
  end.

#[export] Instance idle_claims wsDir : Idle (claims wsDir).
Proof. split; [done|]. intros r H. cbn. by rewrite H. Qed.

#[export] Instance workless_claims wsDir : Workless (claims wsDir).
Proof. split; [apply idle_claims| |done..]. intros r H. cbn. rewrite H. by rewrite orb_true_r. Qed.

Lemma claims_act wsDir a : claims wsDir a = 0 → quiet (claims wsDir) (act a).
Proof. intros H. by apply quiet_act. Qed.
#[export] Hint Extern 1 (quiet (claims _) (act _)) => (apply claims_act; reflexivity) : quiet.
#[export] Hint Resolve idle_claims workless_claims : quiet.

Section kept.
Variable te : TaskEnv.
Variable wsDir : string.
Hypothesis wsDir_given : wsDir ≠ "".

(** [m] names the workspace once where it keeps it and never where it does not,
    and keeps it only for a task that asked for a checkpoint. *)
Definition keeps (checkpoint : bool) (m : rpc bool) : Prop :=
  weighs (claims wsDir) (λ p : bool, if p then 1 else 0) m ∧ ∀ s, result_of m s = true → checkpoint = true.

Lemma keeps_after {A} c (m : rpc A) (k : A → rpc bool) :
  quiet (claims wsDir) m → (∀ a, keeps c (k a)) → keeps c (m ≫= k).
Proof.
  intros Hm Hk. split; [apply weighs_after; [done|intros a; apply Hk]|].
  intros s. rewrite result_bind. apply Hk.
Qed.

Lemma keeps_first {A} c (m : rpc bool) (k : bool → rpc A) :
  keeps c m → (∀ p, quiet (claims wsDir) (k p)) → keeps c (m ≫= λ p, k p ≫= λ _, mret p).
Proof.
  intros [Hm Hc] Hk. split.
  - apply (weighs_bind _ _ _ _ _ Hm). intros p. apply weighs_after; [done|]. intros _. apply weighs_ret. lia.
  - intros s. rewrite !result_bind. apply Hc.
Qed.

Lemma keeps_failed c m : quiet (claims wsDir) m → keeps c (failed m).
Proof.
  intros H. split; [apply weighs_after; [done|]; intros _; by apply weighs_ret|].
  intros s. unfold failed. by rewrite result_bind.
Qed.

Lemma keeps_refused c (m : rpc unit) : quiet (claims wsDir) m → keeps c (m ≫= λ _, mret false).
Proof. apply keeps_failed. Qed.

Section agents_keep.
Variable req : TaskRequest.
Notation checkpoint := (rq_CheckpointAfterSuccess req).

Lemma keeps_checkpoint p status message sid export :
  isTerminalStatus status = true → (p = true → checkpoint = true) →
  keeps checkpoint (publish_checkpoint te req status message sid export (if p then wsDir else "") ≫= λ _, mret p).
Proof.
  intros Hs Hp. split; [|intros s; by rewrite result_bind].
  apply (weighs_bind _ (λ _, if p then 1 else 0)); [|intros _; apply weighs_ret; destruct p; lia].
  apply weighs_call. intros _. unfold publishStatusWithMetadataAndCheckpoint, claims.
  pose proof (status_report_fields (te_getenv te) req (te_now te) status message "" [] sid export ""
    (if p then wsDir else "") (sv_usage (te_serve te))) as (_ & _ & _ & _ & _ & -> & -> & _).
  rewrite bool_decide_eq_false_2 by (by intros ->). destruct p; [|done].
  rewrite (bool_decide_eq_false_2 _ wsDir_given), bool_decide_eq_true_2 by done. done.
Qed.

Lemma keeps_docker_prompt sid : keeps checkpoint (docker_prompt te req wsDir sid).
Proof.
  unfold docker_prompt. apply keeps_after; [auto with quiet|]. intros r. apply keeps_first; [|intros; quietly].
  destruct r as [e|summary].
  - unfold docker_failed. pose proof (docker_outcome_terminal te e) as H.
    destruct (docker_outcome te e) as [[status message] category]. cbn in H.
    apply keeps_after; [quietly|]. intros _. apply keeps_after; [quietly|]. intros _.
    apply keeps_after; [auto with quiet|]. intros export. apply keeps_checkpoint; [done|].
    intros [? _]%andb_true_iff. done.
  - unfold docker_completed, stopTaskContainer. apply keeps_after; [quietly|]. intros export.
    by apply keeps_checkpoint.
Qed.

Lemma keeps_error c message : keeps c (failed (publish_error (te_rpc te) req message)).
Proof. apply keeps_failed. auto with quiet. Qed.

Lemma keeps_docker_unready message : keeps checkpoint (docker_unready te req message).
Proof. unfold docker_unready. apply keeps_refused. quietly. Qed.

Lemma keeps_docker_run mount starting session :
  keeps checkpoint session → keeps checkpoint (docker_run te req mount starting session).
Proof.
  intros H. unfold docker_run, removeTaskContainer. apply keeps_after; [auto with quiet|]. intros _.
  destruct (sv_command _); [apply keeps_error|]. destruct (sv_mount _); [apply keeps_error|].
  apply keeps_after; [auto with quiet|]. intros _. destruct (sv_run _) as [[e out]|].
  - destruct (_ && _); [apply keeps_failed; auto with quiet|apply keeps_error].
  - apply keeps_after; [auto with quiet|]. intros _. apply keeps_first; [done|]. intros. auto with quiet.
Qed.

Lemma keeps_docker : keeps checkpoint (runDockerAgent te req wsDir).
Proof.
  unfold runDockerAgent. destruct (_ == ""); [apply keeps_error|]. destruct (sv_port _); [apply keeps_error|].
  apply keeps_docker_run. unfold docker_session. destruct (sv_ready _).
  - apply keeps_after; [auto with quiet|]. intros _. apply keeps_docker_unready.
  - destruct (sv_session _); [apply keeps_error|]. apply keeps_after; [auto with quiet|]. intros _.
    apply keeps_docker_prompt.
Qed.

Lemma quiet_claims_cleanup n : quiet (claims wsDir) (cleanupKubernetesResourcesAndReport te req n).
Proof. unfold cleanupKubernetesResourcesAndReport, cleanupKubernetesResources. quietly. Qed.
Lemma quiet_claims_create : quiet (claims wsDir) (createKubernetesAgent te).
Proof. unfold createKubernetesAgent, cleanupKubernetesResources. quietly. Qed.
#[local] Hint Resolve quiet_claims_cleanup quiet_claims_create : quiet.

Lemma keeps_kube_prompt resume sid : keeps checkpoint (kube_prompt te req wsDir resume sid).
Proof.
  unfold kube_prompt. apply keeps_after; [auto with quiet|]. intros _. apply keeps_after; [auto with quiet|]. intros r.
  apply keeps_first; [|intros; quietly]. destruct r as [e|summary]; unfold kube_failed, kube_completed.
  - pose proof (prompt_outcome_terminal te ("prompt failed: " ^^ e)) as H.
    destruct (prompt_outcome _ _) as [status message]. cbn in H.
    assert (∀ status message : string, isTerminalStatus status = true → keeps checkpoint
      (when (classifyErrorCategory status message == "transport_error")
         (publish_event (te_rpc te) req (ku_diagnostics (te_kube te))) ≫= λ _,
       cleanupKubernetesResourcesAndReport te req 2 ≫= λ clean,
       (if (clean : bool) then readSessionExport te req else mret "") ≫= λ export,
       publish_checkpoint te req status message sid export
         (if checkpoint && (sv_drained (te_serve te) ||
            shouldPreserveWorkspaceOnPromptError (classifyErrorCategory status message)) then wsDir else "") ≫= λ _,
       mret (checkpoint && (sv_drained (te_serve te) ||
            shouldPreserveWorkspaceOnPromptError (classifyErrorCategory status message))))) as Hall.
    { intros st m Hst. apply keeps_after; [quietly|]. intros _. apply keeps_after; [auto with quiet|]. intros clean.
      apply keeps_after; [quietly|]. intros export. apply keeps_checkpoint; [done|]. by intros [? _]%andb_true_iff. }
    destruct (sv_pause _); by apply Hall.
  - apply keeps_after; [auto with quiet|]. intros clean. apply keeps_after; [quietly|]. intros export.
    by apply keeps_checkpoint.
Qed.

Lemma keeps_kube resume : keeps checkpoint (runKubernetesAgent te req wsDir resume).
Proof.
  unfold runKubernetesAgent. destruct (_ == ""); [apply keeps_error|]. destruct (sv_command _); [apply keeps_error|].
  apply keeps_after; [auto with quiet|]. intros [e|]; [apply keeps_error|].
  apply keeps_first; [|auto with quiet]. unfold kube_session. apply keeps_after; [auto with quiet|]. intros _.
  destruct (ku_wait _); [apply keeps_after; [auto with quiet|]; intros; apply keeps_error|].
  destruct (sv_ready _); [apply keeps_after; [auto with quiet|]; intros; apply keeps_error|].
  destruct resume; [apply keeps_kube_prompt|]. destruct (sv_session _); [apply keeps_error|apply keeps_kube_prompt].
Qed.

Lemma quiet_claims_docker_rpc : quiet (claims wsDir) (runDockerRpcAgent te req).
Proof. unfold runDockerRpcAgent, removeTaskContainer. quietly. Qed.
Lemma quiet_claims_kube_rpc : quiet (claims wsDir) (runKubernetesRpcAgent te req).
Proof. unfold runKubernetesRpcAgent. quietly. Qed.

Lemma keeps_agent : keeps checkpoint (run_agent te req wsDir).
Proof.
  unfold run_agent. destruct (_ == ""); [apply keeps_error|]. destruct (te_kind te).
  - destruct (te_mode te == "local"); [apply keeps_failed; auto with quiet|].
    destruct (te_mode te == "kubernetes"); [apply keeps_kube|apply keeps_docker].
  - apply keeps_failed. destruct (te_mode te == "local"); [auto with quiet|].
    destruct (te_mode te == "kubernetes"); [apply quiet_claims_kube_rpc|apply quiet_claims_docker_rpc].
  - apply keeps_error.
Qed.
End agents_keep.

Lemma keeps_services c req message agent :
  (∀ req', rq_CheckpointAfterSuccess req' = rq_CheckpointAfterSuccess req → keeps c (agent req')) →
  keeps c (with_services te req message (mret false) agent).
Proof.
  intros Ha. unfold with_services.
  assert (∀ e req', keeps c (publish_error (te_rpc te) req' e ≫= λ _, mret false)) as Herr.
  { intros. apply keeps_refused. auto with quiet. }
  destruct (te_mcp te); [apply Herr|]. apply keeps_after; [auto with quiet|]. intros _.
  apply keeps_first; [|auto with quiet]. cbv zeta. destruct (te_relay te); [apply Herr|].
  apply keeps_after; [auto with quiet|]. intros _. apply keeps_first; [|auto with quiet].
  destruct (te_config te); [apply Herr|]. apply Ha. unfold with_mcp. by destruct (te_token te == "").
Qed.

Lemma keeps_in_workspace req : keeps (rq_CheckpointAfterSuccess req) (run_in_workspace te req wsDir).
Proof.
  unfold run_in_workspace. apply keeps_after; [auto with quiet|]. intros [e|]; [apply keeps_error|].
  destruct (te_identity te); [apply keeps_error|]. destruct (te_extra te); [apply keeps_error|].
  apply keeps_services. intros r <-. apply keeps_agent.
Qed.
End kept.

(** ** The end of a run *)

(** From [S]: what is held, and what was reported of the workspace, at the end. *)
Definition ends_with (te : TaskEnv) (S : gset Res) (ws : string) (checkpoint : bool) (es : list Act) : Prop :=
  ∃ kept reported : bool,
    held S es = (if kept then {[RWorkspace]} ∪ S else S) ∧ weight (claims ws) es = (if reported then 1 else 0) ∧
    (reported = true → kept = true ∧ checkpoint = true) ∧
    (kept = true → checkpoint = true ∨ te_drained te = true).

Lemma ends_quiet {A} te S ws c (m : rpc A) s :
  leaves S m → quiet (claims ws) m → ends_with te S ws c (trace_of m s).
Proof. intros Hl Hc. exists false, false. by rewrite (Hl s), (Hc s). Qed.

(** What comes before does not matter to what is held, and reports no workspace. *)
Lemma ends_after {A B} te S ws c (m : rpc A) (k : A → rpc B) s :
  quiet holding m → quiet (claims ws) m → (∀ a s, ends_with te S ws c (trace_of (k a) s)) →
  ends_with te S ws c (trace_of (m ≫= k) s).
Proof.
  intros Hh Hc Hk. destruct (Hk (result_of m s) (world_of m s)) as (kept & reported & H1 & H2 & H3).
  exists kept, reported. rewrite trace_bind. unfold held. rewrite foldl_app, weight_app. fold (held S (trace_of m s)).
  rewrite (leaves_quiet S m Hh s), (Hc s). by rewrite Z.add_0_l.
Qed.

Lemma ends_fresh te S req ws s :
  clear S → RMcp ∉ S → RRelay ∉ S → RWorkspace ∉ S → te_create te = inr ws → ws ≠ "" →
  ends_with te S ws (rq_CheckpointAfterSuccess req) (trace_of (run_fresh te req) s).
Proof.
  intros [Hc0 Hp0] Hm Hr Hw0 E Hws. unfold run_fresh. rewrite E.
  set (m := run_in_workspace te req ws). set (s1 := world_of (act AWorkspaceCreate) s).
  exists (result_of m s1 || te_drained te), (result_of m s1).
  destruct (keeps_in_workspace te ws Hws req) as [Hw Hc]. fold m in Hw, Hc.
  assert (leaves ({[RWorkspace]} ∪ S) m) as Hl by (apply leaves_in_workspace; [split|..]; set_solver).
  rewrite !trace_bind. fold m. fold s1. split; [|split; [|split]].
  - unfold held. rewrite !foldl_app. change (foldl hold1 S (trace_of (act AWorkspaceCreate) s)) with ({[RWorkspace]} ∪ S).
    fold (held ({[RWorkspace]} ∪ S) (trace_of m s1)). rewrite (Hl s1).
    destruct (result_of m s1 || te_drained te); cbn; [done|]. apply set_eq. set_solver.
  - rewrite !weight_app, (Hw s1). change (weight (claims ws) (trace_of (act AWorkspaceCreate) s)) with 0.
    destruct (result_of m s1 || te_drained te); cbn; lia.
  - intros Hk. split; [by rewrite Hk|by apply (Hc s1)].
  - intros [Hk|Hk]%orb_true_iff; [left; by apply (Hc s1)|by right].
Qed.

Section the_run.
Variable te : TaskEnv.
Variable req : TaskRequest.
Variable ws : string.
Hypothesis created : match te_create te with inr w => w = ws | inl _ => True end.
Hypothesis ws_given : ws ≠ "".
Variable S : gset Res.
Hypothesis clear_S : clear S.
Hypothesis no_mcp : RMcp ∉ S.
Hypothesis no_relay : RRelay ∉ S.
Hypothesis no_workspace : RWorkspace ∉ S.

Lemma quiet_tracked_error f `{!Workless f} message :
  quiet f (publish_running te req "Preparing workspace..." ≫= λ _, publish_error (te_rpc te) req message).
Proof. pose proof (wl_idle (f := f)). quietly. Qed.

(** A request with the harness's name in it. *)
Lemma ends_tracked s :
  rq_ResumeWorkspacePath req = "" →
  ends_with te S ws (rq_CheckpointAfterSuccess req) (trace_of (run_tracked te req) s).
Proof.
  intros Hres. unfold run_tracked. apply ends_after; [auto with quiet|auto with quiet|]. intros _ s1. cbv zeta.
  set (r := if te_name te == "niffler" then _ else req).
  assert (rq_ResumeWorkspacePath r = "" ∧ rq_CheckpointAfterSuccess r = rq_CheckpointAfterSuccess req) as [Hr <-]
    by (unfold r; by destruct (te_name te == "niffler")).
  rewrite Hr. destruct (ValidateEndpointTokenEnvironment _ _).
  { apply ends_quiet; [apply leaves_quiet; auto with quiet|auto with quiet]. }
  change (negb ("" == "")) with false. cbv iota. destruct (te_create te) as [e|w] eqn:E.
  - unfold run_fresh. rewrite E. apply ends_quiet; [apply leaves_quiet; auto with quiet|auto with quiet].
  - rewrite created in E. by apply ends_fresh.
Qed.

Lemma leaves_tracked_resume :
  rq_ResumeWorkspacePath req ≠ "" → leaves S (run_tracked te req).
Proof.
  intros Hres. unfold run_tracked. apply leaves_bind; [apply leaves_quiet; auto with quiet|]. intros _. cbv zeta.
  set (r := if te_name te == "niffler" then _ else req).
  assert (rq_ResumeWorkspacePath r = rq_ResumeWorkspacePath req) as ->
    by (unfold r; by destruct (te_name te == "niffler")).
  destruct (ValidateEndpointTokenEnvironment _ _); [apply leaves_quiet; auto with quiet|].
  rewrite (bool_decide_eq_false_2 _ Hres). by apply leaves_resumed.
Qed.
End the_run.

(** The run between the claim's slot and its release. *)
Lemma run_slot te req s :
  (refusal te req = None → ∃ s1, trace_of (runTask te req) s =
     [ATrack (rq_ExecutionID req)] ++ trace_of (run_tracked te req) s1 ++ [AUntrack (rq_ExecutionID req); ARelease]) ∧
  (∀ message category, refusal te req = Some (message, category) →
     trace_of (runTask te req) s = trace_of (publish_category (te_rpc te) req message category) s ++ [ARelease]).
Proof.
  unfold runTask. split.
  - intros ->. exists s. rewrite !trace_bind. rewrite <- !app_assoc. done.
  - intros message category ->. by rewrite trace_bind.
Qed.

Lemma weight_elem {E} (f : E → Z) a es : (∀ x, 0 <= f x) → a ∈ es → f a <= weight f es.
Proof.
  intros Hf. assert (∀ l, 0 <= weight f l) as Hpos.
  { induction l as [|x l IH]; [done|]. cbn. specialize (Hf x). lia. }
  intros Ha. induction es as [|x es IH]; [by apply elem_of_nil in Ha|].
  apply elem_of_cons in Ha as [<-|Ha]; cbn; [specialize (Hpos es); lia|].
  specialize (IH Ha). specialize (Hf x). lia.
Qed.


(** C33. A workspace that is promised is there. When the terminal report of a fresh
    run names a workspace, it is the workspace the run was given, the task asked for
    a checkpoint, and the run ends without destroying it. *)
Theorem reported_workspace_kept te req ws s r :
  te_create te = inr ws → ws ≠ "" → rq_ResumeWorkspacePath req = "" →
  AReport r ∈ trace_of (runTask te req) s → isTerminalStatus (rs_Status r) = true → rs_WorkspacePath r ≠ "" →
  rs_WorkspacePath r = ws ∧ rq_CheckpointAfterSuccess req = true ∧
  held {[RSlot]} (trace_of (runTask te req) s) = {[RWorkspace]}.
Proof.
  intros E Hne Hres Hin Hterm Hpath. destruct (run_slot te req s) as [Hrun Hrefused].
  assert (∀ a, 0 <= claims ws a) as Hpos.
  { intros []; cbn; try done. repeat match goal with |- context [if ?b then _ else _] => destruct b end; lia. }
  assert (0 < claims ws (AReport r) ∧ (claims ws (AReport r) <= 1 → rs_WorkspacePath r = ws)) as [Hclaim Hws].
  { unfold claims. rewrite (bool_decide_eq_false_2 (rs_Status r = "running")) by (intros Hr; by rewrite Hr in Hterm).
    rewrite (bool_decide_eq_false_2 _ Hpath). cbn [orb]. destruct (decide (rs_WorkspacePath r = ws)) as [->|Hn].
    - by rewrite bool_decide_eq_true_2.
    - rewrite bool_decide_eq_false_2 by done. split; [lia|intros; exfalso; lia]. }
  pose proof (weight_elem (claims ws) (AReport r) _ Hpos Hin) as Hle.
  destruct (refusal te req) as [[message category]|] eqn:Er.
  { rewrite (Hrefused _ _ eq_refl), weight_app in Hle.
    assert (quiet (claims ws) (publish_category (te_rpc te) req message category)) as Hq by auto with quiet.
    rewrite (Hq s) in Hle. change (weight (claims ws) [ARelease]) with 0 in Hle. exfalso. lia. }
  destruct (Hrun eq_refl) as [s1 Et]. rewrite Et in Hle |- *.
  set (S0 := {[RTracked (rq_ExecutionID req)]} ∪ {[RSlot]} : gset Res).
  assert (clear S0) as Hclear by (split; set_solver).
  assert (match te_create te with inr w => w = ws | inl _ => True end) as Hc by (rewrite E; done).
  destruct (ends_tracked te req ws Hc Hne S0 Hclear ltac:(set_solver) ltac:(set_solver) ltac:(set_solver) s1 Hres)
    as (kept & reported & Hheld & Hweight & Hrep & _).
  rewrite !weight_app, Hweight in Hle. change (weight (claims ws) [ATrack _]) with 0 in Hle.
  change (weight (claims ws) [AUntrack _; ARelease]) with 0 in Hle. destruct reported; [|exfalso; lia]. destruct (Hrep eq_refl) as [-> Hck]. split; [apply Hws; lia|]. split; [done|].
  unfold held. rewrite !foldl_app. cbn [foldl hold1]. fold S0. fold (held S0 (trace_of (run_tracked te req) s1)).
  rewrite Hheld. apply set_eq. set_solver.
Qed.

(** Nothing is started for a claim that is refused. A run without an execution,
    with limits out of range, one that requires isolation on a runner that cannot
    enforce it and has not opted out, or a task that already runs here, ends with
    one report, an error, and the release of its slot: no workspace, clone,
    container, pod or process. Every other run is tracked first. *)
Theorem refused_starts_nothing te req s :
  (rq_ExecutionID req = "" ∨ rq_MaxMemoryMB req < 0 ∨ rq_MaxCPU req < 0 ∨
   (rq_IsolationRequired req = true ∧ enforcedIsolation (te_iso te) = false ∧
    ec_AllowUnisolated (iso_exec (te_iso te)) = false) ∨
   (∃ e, e ≠ "" ∧ findLiveExecutionForTaskLocked (te_tasks te) (rq_TaskID req) = e)) →
  ∃ r, trace_of (runTask te req) s = [AReport r; ARelease] ∧ rs_Status r = "error".
Proof.
  intros H. assert (∃ message category, refusal te req = Some (message, category)) as (message & category & E).
  { unfold refusal. destruct (decide (rq_ExecutionID req = "")) as [E1|E1];
      [rewrite E1; eexists _, _; reflexivity|rewrite (bool_decide_eq_false_2 _ E1)].
    cbv zeta. destruct (negb (validateTaskResourceLimits req == "")) eqn:E2; [by eexists _, _|].
    destruct (negb (checkIsolationPolicy (te_iso te) req == "")) eqn:E3; [by eexists _, _|].
    destruct H as [?|[H|[H|[(H1 & H2 & H3)|(e & He & H)]]]]; [done|exfalso..|].
    - unfold validateTaskResourceLimits in E2. apply Z.ltb_lt in H. rewrite H in E2. discriminate E2.
    - unfold validateTaskResourceLimits in E2. apply Z.ltb_lt in H. rewrite H in E2.
      destruct (rq_MaxMemoryMB req <? 0); discriminate E2.
    - unfold checkIsolationPolicy in E3. rewrite H1, H2, H3 in E3. discriminate E3.
    - rewrite H, (bool_decide_eq_false_2 _ He). by eexists _, _. }
  rewrite (proj2 (run_slot te req s) _ _ E). eexists. split; [reflexivity|]. apply status_report_fields.
Qed.

(** ** Clones *)

Definition clone_act (te : TaskEnv) (req : TaskRequest) (target : RepoRef * string) : Act :=
  AClone (gitCloneArgsForRepo target.1 target.2) (clone_token te req (Repos.URL target.1)).

Lemma clone_all_trace te req targets : ∀ s,
  ∃ n, trace_of (clone_all te req targets) s = map (clone_act te req) (take n targets) ∧
    (result_of (clone_all te req targets) s = None → take n targets = targets) ∧
    (∀ i target, (S i < n)%nat → targets !! i = Some target → te_clone te (gitCloneArgsForRepo target.1 target.2) = None).
Proof.
  induction targets as [|[repo dir] l IH]; intros s.
  { exists 0%nat. split; [done|]. split; [done|]. intros i t _ H. by rewrite lookup_nil in H. }
  cbn [clone_all]. rewrite trace_bind, result_bind. set (s1 := world_of _ s).
  destruct (te_clone te (gitCloneArgsForRepo repo dir)) as [e|] eqn:E.
  - exists 1%nat. split; [done|]. split; [done|]. intros i t Hi. lia.
  - destruct (IH s1) as (n & Ht & Hr & Hok). exists (S n). cbn [take map]. rewrite Ht.
    split; [done|]. split; [intros H; by rewrite (Hr H)|].
    intros [|i] t Hi; cbn [lookup list_lookup]; [intros [= <-]; exact E|]. apply Hok. lia.
Qed.

Lemma primary_index_spec repos : ∀ i k, primary_index i repos = Some k → (i <= k < i + length repos)%nat.
Proof.
  induction repos as [|r l IH]; intros i k; [done|]. cbn [primary_index length].
  destruct (Primary r); [intros [= <-]; lia|]. intros H. apply IH in H. lia.
Qed.

Lemma split_permutation repos : repos ≠ [] →
  let '(primary, secondaries) := splitTaskRepositories repos in
  ∃ i r, repos !! i = Some r ∧ primary = r{{ Primary := true }} ∧ secondaries = take i repos ++ drop (S i) repos.
Proof.
  destruct repos as [|first l]; [done|]. intros _. unfold splitTaskRepositories.
  set (i := default 0%nat (primary_index 0 (first :: l))).
  assert (i < length (first :: l))%nat as Hi.
  { unfold i. destruct (primary_index 0 (first :: l)) as [k|] eqn:E; [|cbn; lia].
    apply primary_index_spec in E. cbn [default]. unfold id. lia. }
  destruct (lookup_lt_is_Some_2 (first :: l) i Hi) as [r Hr]. exists i, r. split; [done|]. split; [|done].
  by rewrite (nth_lookup_Some _ _ _ _ Hr).
Qed.


(** ** A deadline *)

Lemma deadline_report te req wsDir sid export session :
  te_name te ∈ ["opencode"; "claude"; "codewhale"; "codex"; "niffler"] →
  let r := publishStatusWithMetadataAndCheckpoint (te_getenv te) req (te_now te) "error" (te_name te ^^ " timed out") []
             sid export "" wsDir (sv_usage (te_serve te)) in
  rs_Status r = "error" ∧ rs_WorkspacePath r = wsDir ∧ rs_ErrorCategory r = "runtime_error" ∧
  session_decision "error" session (report_event r) = SessionTerminal.
Proof.
  intros Hname. cbv zeta. unfold publishStatusWithMetadataAndCheckpoint.
  pose proof (status_report_fields (te_getenv te) req (te_now te) "error" (te_name te ^^ " timed out") "" [] sid
    export "" wsDir (sv_usage (te_serve te))) as (_ & _ & _ & _ & _ & Hs & Hw & Hc).
  assert (classifyErrorCategory "error" (te_name te ^^ " timed out") = "runtime_error") as Hr.
  { rewrite !elem_of_cons, elem_of_nil in Hname.
    destruct Hname as [-> | [-> | [-> | [-> | [-> | []]]]]]; vm_compute; reflexivity. }
  rewrite Hr in Hc. change (("error" == "error") || ("error" == "cancelled")) with true in Hc.
  change ("" == "") with true in Hc. cbv iota in Hc.
  split; [exact Hs|]. split; [exact Hw|]. split; [exact Hc|].
  match goal with |- context [report_event ?x] => generalize x, Hc end. clear. intros r Hc.
  assert (event_category (report_event r) = "runtime_error") as Hec.
  { unfold event_category. change (re_ErrorCategory (report_event r)) with (rs_ErrorCategory r). by rewrite Hc. }
  unfold session_decision. rewrite Hec. change (isRecoverablePromptError "runtime_error") with false.
  destruct (re_WorkspacePath (report_event r) == ""); [done|]. destruct session as [ses|]; [|done].
  change ("error" == "error") with true. change ("error" == "completed") with false. done.
Qed.

(** A task past its deadline is kept, and cannot be resumed. When the prompt of
    a checkpointed docker task ends by the task's own deadline, the run keeps the
    workspace as for a timeout and reports its path; but the report's text names the
    harness and "timed out", which no category of a timeout matches, so the control
    plane takes it for a runtime error and ends the session, whatever it was. *)
Theorem deadline_not_resumable te req wsDir sid e session s :
  te_name te ∈ ["opencode"; "claude"; "codewhale"; "codex"; "niffler"] →
  sv_ctx (te_serve te) = Some true → sv_stuck (te_serve te) = None → sv_pause (te_serve te) = false →
  sv_oom (te_serve te) = false → sandbox_crash te = None →
  classifyErrorCategory "error" ("prompt failed: " ^^ e) = "timeout" → rq_CheckpointAfterSuccess req = true →
  result_of (docker_failed te req wsDir sid e) s = true ∧
  ∃ es r, trace_of (docker_failed te req wsDir sid e) s = es ++ [AReport r] ∧
    rs_Status r = "error" ∧ rs_WorkspacePath r = wsDir ∧ rs_ErrorCategory r = "runtime_error" ∧
    session_decision "error" session (report_event r) = SessionTerminal.
Proof.
  intros Hname Hctx Hstuck Hpause Hoom Hcrash Hcat Hck. unfold docker_failed, docker_outcome, prompt_outcome.
  cbv zeta. rewrite Hctx, Hstuck, Hpause, Hoom, Hcrash, Hcat. unfold cancellationStatus.
  change ("timeout" == "transport_error") with false. rewrite Hck.
  change (shouldPreserveWorkspaceOnPromptError "timeout") with true. cbn [andb orb when].
  set (m := shutdownDockerAgentSession te req sid).
  split; [by rewrite !result_bind|].
  eexists (trace_of m _), _. split; [rewrite !trace_bind; reflexivity|].
  by apply deadline_report.
Qed.

(** ** Witnesses *)

Definition sample_serve : ServeEnv :=
  mkServeEnv None ["opencode"; "serve"] (λ _, None) None None None None "" [] (inr "ses_1") [("working", no_usage)]
    (inl "context deadline exceeded") None (Some true) false false false None (λ s, s) [] None (inr "{}") no_usage 1 1.

Definition sample_kube : KubeEnv :=
  mkKubeEnv "chetter-task-1" None None None None None (λ _, None) "" true None.

Definition sample_task_env : TaskEnv :=
  mkTaskEnv (mkRpcEnv (λ _, "") 50 (λ _, None) None (λ _, None) None false false false None "" "opencode" "stuck")
    sample_serve sample_kube (mkIsolationEnv sample_exec "" true) (λ _, None) (λ _, None) [] HServe []
    (inl "none") None "mcp-token" "http://10.0.0.2:1/credential" None None (inr sample_workspace) None None "pat"
    (λ _, inr "broker-token") (λ _, None) None None false.

Definition sample_task : TaskRequest :=
  sample_run{{ rq_CheckpointAfterSuccess := true;
               rq_Repos := [mkRepoRef "https://example.org/lib.git" "" false; mkRepoRef "acme/app" "main" true] }}.

Definition sample_stream : RpcStream := mkStream [] None false (new_state 0).


(** The reports of the sample's run that are terminal. *)
Definition terminal_reports (es : list Act) : list TaskResponse :=
  omap (λ a, match a with AReport r => if isTerminalStatus (rs_Status r) then Some r else None | _ => None end) es.

Lemma reported_workspace_kept_witness :
  ∃ r, AReport r ∈ trace_of (runTask sample_task_env sample_task) sample_stream ∧ rs_WorkspacePath r = sample_workspace ∧
    held {[RSlot]} (trace_of (runTask sample_task_env sample_task) sample_stream) = {[RWorkspace]}.
Proof.
  destruct (terminal_reports (trace_of (runTask sample_task_env sample_task) sample_stream)) as [|r l] eqn:E;
    [vm_compute in E; discriminate E|].
  assert (r ∈ terminal_reports (trace_of (runTask sample_task_env sample_task) sample_stream)) as Hr
    by (rewrite E; left).
  apply list_elem_of_omap in Hr as (a & Ha & Hr). destruct a as [r'| | | | | | | | | | | | | | | | | | |]; try discriminate Hr.
  destruct (isTerminalStatus (rs_Status r')) eqn:Et; [|discriminate Hr]. injection Hr as ->.
  assert (rs_WorkspacePath r ≠ "") as Hp by (vm_compute in E; injection E as <- <-; discriminate).
  destruct (reported_workspace_kept sample_task_env sample_task sample_workspace sample_stream r eq_refl
    ltac:(discriminate) eq_refl Ha Et Hp) as (Hw & _ & Hh).
  exists r. split; [exact Ha|]. split; [exact Hw|exact Hh].
Defined.

Lemma refused_starts_nothing_witness :
  ∃ r, trace_of (runTask sample_task_env (sample_task{{ rq_ExecutionID := "" }})) sample_stream =
    [AReport r; ARelease] ∧ rs_Status r = "error".
Proof.
  apply (refused_starts_nothing sample_task_env (sample_task{{ rq_ExecutionID := "" }}) sample_stream). left. reflexivity.
Defined.


Lemma deadline_not_resumable_witness :
  ∃ es r, trace_of (docker_failed sample_task_env sample_task sample_workspace "ses_1" "context deadline exceeded")
            sample_stream = es ++ [AReport r] ∧
    rs_WorkspacePath r = sample_workspace ∧ session_decision "error" None (report_event r) = SessionTerminal.
Proof.
  destruct (deadline_not_resumable sample_task_env sample_task sample_workspace "ses_1" "context deadline exceeded" None
    sample_stream) as (_ & es & r & Ht & _ & Hw & _ & Hd);
    [apply list_elem_of_In; cbn; tauto|reflexivity|reflexivity|reflexivity|reflexivity|vm_compute; reflexivity
    |vm_compute; reflexivity|reflexivity|].
  exists es, r. split; [exact Ht|]. split; [exact Hw|exact Hd].
Defined.
