(* ===== verification/RunnerDrain.v ===== *)
(** * The process of a runner

    The identity and the heartbeat commands of [runner/internal/controller/heartbeat.go],
    the deadlines of a drain, and the runner as the concurrent program it is: the
    claim loop of [runner_rpc.go], the goroutines of [runTask], the signal handler
    of [runner/cmd/runner/main.go] and the shutdown of [startConnectRPC] with
    [waitDrain] and [waitForTaskCleanup] are steps of one machine, taken in any
    order. Durations and times of this file are in nanoseconds, as Go has them. *)
From S2P Require Import Prelude GoStrings Status Repos Db Sample Submission Heartbeat RunnerReport RunnerContainer RunnerRpcRun RunnerTask.

(** ** The identity of a runner *)

Definition token_char (c : ascii) : bool :=
  in_range 97 122 c || in_range 65 90 c || in_range 48 57 c || (c == "-")%char || (c == "_")%char.

(** Rune by rune; a rune that is no token character becomes an underscore. *)
Fixpoint token_runes (skip : nat) (s : string) : string :=
  match s with
  | EmptyString => EmptyString
  | String c s' =>
    match skip with
    | S k => token_runes k s'
    | O => if token_char c then String c (token_runes 0 s') else String "_" (token_runes (rune_width s - 1) s')
    end
  end.

(** [strings.Trim(s, "_")] *)
Fixpoint drop_underscores (s : string) : string :=
  match s with
  | EmptyString => EmptyString
  | String c s' => if c == "_"%char then drop_underscores s' else s
  end.
Definition trim_underscores (s : string) : string :=
  rev_string (drop_underscores (rev_string (drop_underscores s))).

Definition sanitizeSubjectToken (value : string) : string :=
  let value := trimSpace value in
  if value == "" then "" else trim_underscores (token_runes 0 value).

Definition hex_digit (n : Z) : string :=
  String (ascii_of_N (Z.to_N (if n <? 10 then 48 + n else 87 + n))) "".

(** [%x] of a slice of bytes. *)
Definition hex_bytes (l : list Z) : string :=
  join "" (map (λ b, hex_digit (Z.shiftr b 4) ^^ hex_digit (Z.land b 15)) l).

Definition slice {A} (from to : nat) (l : list A) : list A := take (to - from) (drop from l).

(** The random bytes with the version and the variant of a UUID. *)
Definition generated_id (random : list Z) : string :=
  let b := alter (λ x, Z.lor (Z.land x 15) 64) 6%nat random in
  let b := alter (λ x, Z.lor (Z.land x 63) 128) 8%nat b in
  "runner-" ^^ hex_bytes (slice 0 4 b) ^^ "-" ^^ hex_bytes (slice 4 6 b) ^^ "-" ^^ hex_bytes (slice 6 8 b) ^^
  "-" ^^ hex_bytes (slice 8 10 b) ^^ "-" ^^ hex_bytes (drop 10 b).

(** The identifier, and what the file [.runner-id] holds afterwards; [file] is
    what it held ([None] where it cannot be read), [random] the bytes or the error
    of [rand.Read], [writable] whether the directory can be made and the file
    written. *)
Definition newRunnerID (getenv : string → string) (file : option string) (random : err + list Z) (writable : bool)
    : (err + string) * option string :=
  let value := sanitizeSubjectToken (getenv "RUNNER_ID") in
  if negb (value == "") then (inr value, file) else
  let stored := match file with Some data => sanitizeSubjectToken data | None => "" end in
  if negb (stored == "") then (inr stored, file) else
  match random with
  | inl _ => (inl (EMsg "generate runner id"), file)
  | inr b => let id := generated_id b in
             (inr id, if writable then Some (id ^^ LF) else file)
  end.

(** ** Settings *)

Fixpoint firstEnv (getenv : string → string) (keys : list string) : string :=
  match keys with
  | [] => ""
  | key :: keys => let value := trimSpace (getenv key) in
                   if negb (value == "") then value else firstEnv getenv keys
  end.

Fixpoint decimal (acc : Z) (s : string) : option Z :=
  match s with
  | EmptyString => Some acc
  | String c s => if in_range 48 57 c then decimal (acc * 10 + (Z.of_N (N_of_ascii c) - 48)) s else None
  end.

(** [strconv.Atoi], with 64 bits. *)
Definition Atoi (s : string) : option Z :=
  let '(negative, digits) := match s with
                             | String c t => if (c == "-")%char then (true, t)
                                             else if (c == "+")%char then (false, t) else (false, s)
                             | EmptyString => (false, s)
                             end in
  if digits == "" then None else
  v ← decimal 0 digits;
  let v := if (negative : bool) then - v else v in
  if int64_ok v then Some v else None.

Definition second : Z := 1000000000.

(** [time.Duration(seconds) * time.Second] *)
Definition seconds_duration (n : Z) : Z := int64_wrap (n * second).

Definition env_seconds (getenv : string → string) (key : string) (default : Z) : Z :=
  match Atoi (firstEnv getenv [key]) with
  | Some n => if 0 <? n then seconds_duration n else default
  | None => default
  end.

Definition defaultDrainTimeout : Z := 30 * second.
Definition defaultDrainHardKillTimeout : Z := 60 * second.
Definition defaultTaskTimeoutSec : Z := 3600.

Definition drainTimeout (getenv : string → string) : Z :=
  env_seconds getenv "CHETTER_DRAIN_TIMEOUT_SEC" defaultDrainTimeout.
Definition drainHardKillTimeout (getenv : string → string) : Z :=
  env_seconds getenv "CHETTER_DRAIN_HARD_KILL_TIMEOUT_SEC" defaultDrainHardKillTimeout.

Section memory.
Variable ParseFloat : string → option Float.

Definition containerMemoryMB (memory : string) : Z :=
  match ParseMemoryBytes ParseFloat memory with
  | inl _ => 0
  | inr bytes => int32_of (Z.shiftr (int64_wrap (int64_wrap (bytes + Z.shiftl 1 20) - 1)) 20)
  end.
End memory.

(** ** Sessions *)

(** How the context of a task ended: by its own deadline, or cancelled. *)
Inductive CtxEnd := EndDeadline | EndCancelled.

#[export] Instance CtxEnd_eq_dec : EqDecision CtxEnd.
Proof. solve_decision. Defined.

Record TaskSession := mkSession {
  ss_Request : TaskRequest;
  ss_StartedAt : Z;
  ss_ended : option CtxEnd;
  ss_PreserveWorkspace : bool;
  ss_PauseOnDrain : bool;
}.

(** A context ends once: what comes later does not change its cause. *)
Definition end_ctx (e : CtxEnd) (s : TaskSession) : TaskSession :=
  s{{ ss_ended := Some (default e (ss_ended s)) }}.
Definition Cancel : TaskSession → TaskSession := end_ctx EndCancelled.

Definition live_execution (tasks : gmap string TaskSession) (taskID : string) : string :=
  findLiveExecutionForTaskLocked ((λ p, (rq_ExecutionID (ss_Request p.2), rq_TaskID (ss_Request p.2))) <$> map_to_list tasks)
    taskID.

Definition executionKey (req : TaskRequest) : string := rq_ExecutionID req.

(** ** The drain deadline *)

Definition task_timeout (s : TaskSession) : Z :=
  let timeout := seconds_duration (rq_TimeoutSec (ss_Request s)) in
  if timeout <=? 0 then defaultTaskTimeoutSec * second else timeout.

Definition max_remaining (now : Z) (tasks : list TaskSession) : Z :=
  foldl (λ m s, let remaining := task_timeout s - (now - ss_StartedAt s) in if m <? remaining then remaining else m)
        0 tasks.

Definition ceiling_configured (getenv : string → string) : bool :=
  match Atoi (firstEnv getenv ["CHETTER_DRAIN_TIMEOUT_SEC"]) with Some n => 0 <? n | None => false end.

Definition computeDrainDeadline (getenv : string → string) (now : Z) (tasks : gmap string TaskSession) : Z :=
  let ceiling := drainTimeout getenv in
  if (size tasks =? 0)%nat then ceiling else
  let m := max_remaining now (map_to_list tasks).*2 in
  if ceiling_configured getenv && (ceiling <? m) then ceiling
  else if m <? 30 * second then 30 * second
  else m.

(** ** The state of the process *)

(** Where the claim loop stands: at its head, waiting for a slot, holding one,
    in the call of ClaimTask, with a claimed task before and after its last look
    at the draining flag, and ended. *)
Inductive Poller :=
| PTop | PAcquire | PReserved | PClaiming | PClaimed (req : TaskRequest) | PDispatch (req : TaskRequest) | PReturned.

(** Where a goroutine of [runTask] stands: started by the go statement, joined
    to [taskWG], entered in [tasks], past that (refused, or removed again), and
    with its slot released. *)
Inductive Phase := GSpawned | GJoined | GTracked | GLeft | GReleased.

#[export] Instance Phase_eq_dec : EqDecision Phase.
Proof. solve_decision. Defined.

Record Goroutine := mkGoroutine { g_req : TaskRequest; g_phase : Phase }.

(** Where [startConnectRPC] stands: waiting for its context, in [waitDrain] with
    a deadline, in [waitForTaskCleanup] after a drain in time or after a forced
    one, and at its end with the value stored in [forcedExit]. In [waitDrain] it
    looks at the tasks, and then waits. *)
Inductive Main :=
| MServing | MDrain (deadline : Z) (waiting : bool) | MCleanup (forced : bool) | MExited (forcedExit : bool).

(** The signal handler: no signal yet, past [BeginGracefulShutdown], and past
    [cancel()]. *)
Inductive Signal := SigNone | SigBegun | SigDone.

Record Runner := mkRunner {
  r_MaxConcurrent : nat;
  r_sem : nat;                            (* [len(r.sem)] *)
  r_tasks : gmap string TaskSession;
  r_cancelledTasks : gset string;
  r_draining : bool;
  r_runDone : bool;                       (* has the run context ended? *)
  r_taskWG : nat;
  r_totalStarted : Z;
  r_poller : Poller;
  r_goroutines : list Goroutine;
  r_signal : Signal;
  r_main : Main;
}.

(** [NewRunner]; the claim loop and the shutdown wait in [startConnectRPC]. *)
Definition NewRunner (maxConcurrent : nat) : Runner :=
  mkRunner maxConcurrent 0 ∅ ∅ false false 0 0 PTop [] SigNone MServing.

Definition slots (r : Runner) : nat := S (r_MaxConcurrent r).

(** *** Heartbeats and commands *)

Definition availableSlots (r : Runner) : nat := slots r - r_sem r.
Definition runningTasks (r : Runner) : nat := size (r_tasks r).


Definition currentExecutions (r : Runner) : list RunningExecution :=
  (λ p, mkRunning (rq_TaskID (ss_Request p.2)) (rq_AgentSessionID (ss_Request p.2)) (rq_UserPromptID (ss_Request p.2))
          p.1 (rq_ClaimID (ss_Request p.2))) <$> map_to_list (r_tasks r).

(** Does the runner sandbox its tasks, can it restore a checkpoint, and with
    which version of runsc? *)
Definition sandbox_support (getenv : string → string) (iso : IsolationEnv) : bool * bool * string :=
  let mode := ec_Backend (iso_exec iso) in
  let gvisorEnabled := if mode == "kubernetes" then equalFold (trimSpace (iso_RuntimeClass iso)) "gvisor"
                       else ec_UseGVisor (iso_exec iso) in
  if gvisorEnabled && (mode == "docker") then (gvisorEnabled, true, firstEnv getenv ["RUNSC_VERSION"])
  else (gvisorEnabled, false, "").

(** The report of a heartbeat, as Heartbeat.v receives it. *)
Definition runnerInfoProto (getenv : string → string) (iso : IsolationEnv) (runnerID status : string)
    (counters : Counters) (startedAt : option time) (rejected : Z) (r : Runner) : RunnerInfo :=
  mkRunnerInfo runnerID status
    (firstEnv getenv ["CHETTER_RUNNER_IMAGE"; "CONTAINER_IMAGE"])
    (firstEnv getenv ["CHETTER_RUNNER_IMAGE_DIGEST"])
    (firstEnv getenv ["CHETTER_RUNNER_VERSION"; "VERSION"; "GITHUB_SHA"])
    (int32_of (Z.of_nat (r_MaxConcurrent r)))
    (int32_of (Z.of_nat (length (currentExecutions r))))
    (int32_of (Z.of_nat (availableSlots r)))
    (enforcedIsolation iso) (r_totalStarted r) (totalCompleted counters) (totalErrors counters) startedAt rejected
    (currentExecutions r).

Definition startDrain (r : Runner) : bool * Runner :=
  if r_draining r then (false, r) else (true, r{{ r_draining := true }}).

Definition same_hierarchy (taskID agentSessionID userPromptID : string) (s : TaskSession) : bool :=
  (rq_TaskID (ss_Request s) == taskID) && (rq_AgentSessionID (ss_Request s) == agentSessionID) &&
  (rq_UserPromptID (ss_Request s) == userPromptID).

Definition cancelTask (taskID agentSessionID userPromptID executionID : string) (r : Runner) : Runner :=
  if bool_decide (executionID ∈ r_cancelledTasks r) then r else
  match r_tasks r !! executionID with
  | None => r
  | Some s =>
    if negb (same_hierarchy taskID agentSessionID userPromptID s) then r else
    r{{ r_cancelledTasks := {[ executionID ]} ∪ r_cancelledTasks r }}
     {{ r_tasks := <[ executionID := Cancel s ]> (r_tasks r) }}
  end.

Definition run_command (r : Runner) (c : RunnerCommand) : Runner :=
  match c with
  | CmdCancel taskID agentSessionID userPromptID executionID _ =>
      cancelTask taskID agentSessionID userPromptID executionID r
  | CmdDrain => (startDrain r).2
  end.

(** The commands in the answer to a heartbeat; an error has none. *)
Definition publishRunnerHeartbeatRPC (answer : err + list RunnerCommand) (r : Runner) : Runner :=
  match answer with inl _ => r | inr commands => foldl run_command r commands end.

(** Is a heartbeat sent? *)
Definition BeginGracefulShutdown (answer : err + list RunnerCommand) (r : Runner) : bool * Runner :=
  let '(first, r) := startDrain r in
  (first, if first then publishRunnerHeartbeatRPC answer r else r).

(** [cancel()] of the run context ends the context of every task with it. *)
Definition cancel_run (r : Runner) : Runner :=
  r{{ r_runDone := true }}{{ r_tasks := Cancel <$> r_tasks r }}.

(** *** Steps *)

(** What can happen next. [EHead] is the head of the claim loop, under host
    pressure or not; [quit] is that the wait for it to pass ends with the context.
    The goroutines are numbered by their place in the list. *)
Inductive Event :=
| EHead (paused quit : bool) | EAcquire | EAcquireQuit | ECheck | EClaim (resp : option TaskRequest) | ERecheck | EGo
| EJoin (i : nat) | EStart (i : nat) (now : Z) | EDeadline (executionID : string) | EEnd (i : nat)
| ERelease (i : nat) | EDone (i : nat)
| EHeartbeat (answer : err + list RunnerCommand) | ESignal (answer : err + list RunnerCommand) | ECancelRun
| EServeEnd (now : Z) | EDrainLook | EDrainWake | EDrainDeadline | ECleanupDone | EHardKill.

Definition guard_ (b : bool) (r : Runner) : option Runner := if b then Some r else None.

Definition at_ (p : Poller) (r : Runner) : Runner := r{{ r_poller := p }}.
Definition release (r : Runner) : Runner := r{{ r_sem := pred (r_sem r) }}.

(** [claimLoop] *)
Definition poll (e : Event) (r : Runner) : option Runner :=
  match r_poller r, e with
  | PTop, EHead paused quit =>
      if r_draining r then Some (at_ PReturned r)
      else if paused then (if quit then guard_ (r_runDone r) (at_ PReturned r) else Some r)
      else Some (at_ PAcquire r)
  | PAcquire, EAcquire =>
      guard_ (r_sem r <? slots r)%nat (at_ PReserved (r{{ r_sem := S (r_sem r) }}))
  | PAcquire, EAcquireQuit => guard_ (r_runDone r) (at_ PReturned r)
  | PReserved, ECheck => Some (if r_draining r then at_ PReturned (release r) else at_ PClaiming r)
  | PClaiming, EClaim None => Some (at_ (if r_runDone r then PReturned else PTop) (release r))
  | PClaiming, EClaim (Some req) => Some (at_ (PClaimed req) r)
  | PClaimed req, ERecheck => Some (if r_draining r then at_ PReturned (release r) else at_ (PDispatch req) r)
  | PDispatch req, EGo => Some (at_ PTop (r{{ r_goroutines := r_goroutines r ++ [mkGoroutine req GSpawned] }}))
  | _, _ => None
  end.

Section machine.
(** The isolation the runner can enforce, and its environment. *)
Variable iso : IsolationEnv.
Variable getenv : string → string.

(** The claims [runTask] refuses before it looks at its own tasks. *)
Definition refused_early (req : TaskRequest) : bool :=
  (rq_ExecutionID req == "") || negb (validateTaskResourceLimits req == "") || negb (checkIsolationPolicy iso req == "").

Definition move (i : nat) (g : Goroutine) (p : Phase) (r : Runner) : Runner :=
  r{{ r_goroutines := <[ i := g{{ g_phase := p }} ]> (r_goroutines r) }}.

Definition new_session (now : Z) (req : TaskRequest) (r : Runner) : TaskSession :=
  mkSession req now (if r_runDone r then Some EndCancelled else None) false false.

Definition track (now : Z) (req : TaskRequest) (r : Runner) : Runner :=
  r{{ r_tasks := <[ executionKey req := new_session now req r ]> (r_tasks r) }}
   {{ r_totalStarted := r_totalStarted r + 1 }}.

(** [runTask], from its first statement to the last of its deferred calls. *)
Definition task_step (i : nat) (g : Goroutine) (e : Event) (r : Runner) : option Runner :=
  match g_phase g, e with
  | GSpawned, EJoin _ => Some (move i g GJoined (r{{ r_taskWG := S (r_taskWG r) }}))
  | GJoined, EStart _ now =>
      Some (if refused_early (g_req g) || negb (live_execution (r_tasks r) (rq_TaskID (g_req g)) == "")
            then move i g GLeft r
            else move i g GTracked (track now (g_req g) r))
  | GTracked, EEnd _ => Some (move i g GLeft (r{{ r_tasks := delete (executionKey (g_req g)) (r_tasks r) }}))
  | GLeft, ERelease _ => Some (move i g GReleased (release r))
  | GReleased, EDone _ =>
      Some (r{{ r_taskWG := pred (r_taskWG r) }}{{ r_goroutines := delete i (r_goroutines r) }})
  | _, _ => None
  end.

Definition force (s : TaskSession) : TaskSession :=
  Cancel (if rq_CheckpointAfterSuccess (ss_Request s)
          then s{{ ss_PreserveWorkspace := true }}{{ ss_PauseOnDrain := true }} else s).

(** One turn of [waitDrain]: a look at the tasks, a wait that ends for a change or
    a tick, and the deadline. *)
Definition waitDrain (d : Z) (waiting : bool) (e : Event) (r : Runner) : option Runner :=
  match waiting, e with
  | false, EDrainLook => Some (r{{ r_main := if (runningTasks r =? 0)%nat then MCleanup false else MDrain d true }})
  | true, EDrainWake => Some (r{{ r_main := MDrain d false }})
  | true, EDrainDeadline => Some (r{{ r_tasks := force <$> r_tasks r }}{{ r_main := MCleanup true }})
  | _, _ => None
  end.

(** The terminal reports are made inside [runTask], so that the second barrier is
    open when the first one is. *)
Definition waitForTaskCleanup (forced : bool) (e : Event) (r : Runner) : option Runner :=
  match e with
  | ECleanupDone => guard_ (r_taskWG r =? 0)%nat (r{{ r_main := MExited forced }})
  | EHardKill => Some (r{{ r_main := MExited true }})
  | _ => None
  end.

(** The end of [startConnectRPC]. *)
Definition main_step (e : Event) (r : Runner) : option Runner :=
  match r_main r with
  | MServing =>
    match e with
    | EServeEnd now =>
        guard_ (r_runDone r)
          (r{{ r_main := if r_draining r then MDrain (computeDrainDeadline getenv now (r_tasks r)) false
                         else MExited false }})
    | _ => None
    end
  | MDrain d waiting => waitDrain d waiting e r
  | MCleanup forced => waitForTaskCleanup forced e r
  | MExited _ => None
  end.

Definition goroutine_of (e : Event) : option nat :=
  match e with EJoin i | EStart i _ | EEnd i | ERelease i | EDone i => Some i | _ => None end.

Definition step (r : Runner) (e : Event) : option Runner :=
  match r_main r with
  | MExited _ => None
  | _ =>
    match goroutine_of e with
    | Some i => g ← r_goroutines r !! i; task_step i g e r
    | None =>
      match e with
      | EDeadline executionID => Some (r{{ r_tasks := alter (end_ctx EndDeadline) executionID (r_tasks r) }})
      | EHeartbeat answer => Some (publishRunnerHeartbeatRPC answer r)
      | ESignal answer =>
          if r_signal r is SigNone then Some ((BeginGracefulShutdown answer r).2{{ r_signal := SigBegun }}) else None
      | ECancelRun => if r_signal r is SigBegun then Some (cancel_run r{{ r_signal := SigDone }}) else None
      | EServeEnd _ | EDrainLook | EDrainWake | EDrainDeadline | ECleanupDone | EHardKill => main_step e r
      | _ => poll e r
      end
    end
  end.

Fixpoint run (r : Runner) (es : list Event) : option Runner :=
  match es with [] => Some r | e :: es => r ← step r e; run r es end.

Inductive reachable (n : nat) : Runner → Prop :=
| reachable_new : reachable n (NewRunner n)
| reachable_step r e r' : reachable n r → step r e = Some r' → reachable n r'.
End machine.

(** ** Lemmas *)

(** *** Counting goroutines *)

Fixpoint tally (f : Phase → nat) (gs : list Goroutine) : nat :=
  match gs with [] => 0%nat | g :: gs => (f (g_phase g) + tally f gs)%nat end.

(** Those that hold a slot, and those [taskWG] counts. *)
Definition takes_slot (p : Phase) : nat := match p with GReleased => 0 | _ => 1 end.
Definition joined (p : Phase) : nat := match p with GSpawned => 0 | _ => 1 end.
Definition tracked (p : Phase) : nat := match p with GTracked => 1 | _ => 0 end.

Definition poller_holds (p : Poller) : nat :=
  match p with PReserved | PClaiming | PClaimed _ | PDispatch _ => 1 | _ => 0 end.

Lemma tally_app f gs gs' : tally f (gs ++ gs') = (tally f gs + tally f gs')%nat.
Proof. induction gs as [|g gs IH]; cbn; [done|]. rewrite IH. lia. Qed.

Lemma tally_insert f gs i g g' :
  gs !! i = Some g → (tally f (<[ i := g' ]> gs) + f (g_phase g) = tally f gs + f (g_phase g'))%nat.
Proof.
  revert i. induction gs as [|h gs IH]; intros [|i] Hi; [done|done| |].
  - injection Hi as ->. change (<[ 0%nat := g' ]> (g :: gs)) with (g' :: gs). cbn [tally]. lia.
  - change (<[ S i := g' ]> (h :: gs)) with (h :: <[ i := g' ]> gs). cbn [tally]. specialize (IH i Hi). lia.
Qed.

Lemma tally_delete f gs i g :
  gs !! i = Some g → (tally f (delete i gs) + f (g_phase g) = tally f gs)%nat.
Proof.
  revert i. induction gs as [|h gs IH]; intros [|i] Hi; [done|done| |].
  - injection Hi as ->. change (delete 0%nat (g :: gs)) with gs. cbn [tally]. lia.
  - change (delete (S i) (h :: gs)) with (h :: delete i gs). cbn [tally]. specialize (IH i Hi). lia.
Qed.

Lemma tally_zero f gs : tally f gs = 0%nat → ∀ g, g ∈ gs → f (g_phase g) = 0%nat.
Proof.
  induction gs as [|h gs IH]; cbn; intros H g Hg; [by apply elem_of_nil in Hg|].
  apply elem_of_cons in Hg as [->|Hg]; [lia|]. apply IH; [lia|done].
Qed.

Lemma tally_le f f' gs : (∀ p, (f p <= f' p)%nat) → (tally f gs <= tally f' gs)%nat.
Proof. intros Hf. induction gs as [|g gs IH]; cbn; [done|]. specialize (Hf (g_phase g)). lia. Qed.

(** *** Sessions under commands *)

Record milder (s s' : TaskSession) : Prop := {
  ml_request : ss_Request s' = ss_Request s;
  ml_preserve : ss_PreserveWorkspace s' = ss_PreserveWorkspace s;
  ml_pause : ss_PauseOnDrain s' = ss_PauseOnDrain s;
  ml_ended : ∀ e, ss_ended s = Some e → ss_ended s' = Some e;
}.

#[export] Instance milder_preorder : PreOrder milder.
Proof.
  split; [by intros s; constructor|]. intros s1 s2 s3 [A B C D] [A' B' C' D']. constructor; [congruence..|].
  intros e He. by apply D', D.
Qed.

Lemma end_ctx_milder e s : milder s (end_ctx e s).
Proof. constructor; cbn; [done|done|done|]. by intros e' ->. Qed.

Definition sessions_milder (m m' : gmap string TaskSession) : Prop :=
  ∀ x s', m' !! x = Some s' → ∃ s, m !! x = Some s ∧ milder s s'.

#[export] Instance sessions_milder_preorder : PreOrder sessions_milder.
Proof.
  split; [intros m x s H; by exists s|]. intros m1 m2 m3 H12 H23 x s Hs.
  destruct (H23 x s Hs) as (s2 & H2 & M2). destruct (H12 x s2 H2) as (s1 & H1 & M1).
  exists s1. split; [done|]. by transitivity s2.
Qed.

Lemma sessions_milder_alter e x m : sessions_milder m (alter (end_ctx e) x m).
Proof.
  intros y s. destruct (decide (x = y)) as [->|Hne].
  - rewrite lookup_alter_eq. intros (s0 & H0 & ->)%fmap_Some. exists s0. split; [done|apply end_ctx_milder].
  - rewrite lookup_alter_ne by done. by exists s.
Qed.

(** What the handlers of commands and of the signal change: the draining flag,
    in one direction, and the contexts of sessions. *)
Record commanded (r r' : Runner) : Prop := {
  cm_max : r_MaxConcurrent r' = r_MaxConcurrent r;
  cm_sem : r_sem r' = r_sem r;
  cm_draining : r_draining r = true → r_draining r' = true;
  cm_runDone : r_runDone r' = r_runDone r;
  cm_taskWG : r_taskWG r' = r_taskWG r;
  cm_started : r_totalStarted r' = r_totalStarted r;
  cm_poller : r_poller r' = r_poller r;
  cm_goroutines : r_goroutines r' = r_goroutines r;
  cm_signal : r_signal r' = r_signal r;
  cm_main : r_main r' = r_main r;
  cm_tasks : sessions_milder (r_tasks r) (r_tasks r');
}.

#[export] Instance commanded_preorder : PreOrder commanded.
Proof.
  split; [by intros r; constructor|].
  intros r1 r2 r3 [] []. constructor; [congruence|congruence|by eauto|congruence..|]. by etransitivity.
Qed.

Lemma startDrain_commanded r : commanded r (startDrain r).2.
Proof. unfold startDrain. destruct (r_draining r) eqn:E; [done|]. by constructor. Qed.

Lemma startDrain_draining r : r_draining (startDrain r).2 = true.
Proof. unfold startDrain. by destruct (r_draining r) eqn:E. Qed.

Lemma cancelTask_commanded t a u x r : commanded r (cancelTask t a u x r).
Proof.
  unfold cancelTask. case_bool_decide; [done|]. destruct (r_tasks r !! x) as [s|] eqn:Hs; [|done].
  destruct (negb _); [done|]. constructor; try done. cbn. intros y s'.
  destruct (decide (x = y)) as [<-|Hne].
  - rewrite lookup_insert_eq. intros [= <-]. exists s. split; [done|apply end_ctx_milder].
  - rewrite lookup_insert_ne by done. by exists s'.
Qed.

Lemma heartbeat_commanded answer r : commanded r (publishRunnerHeartbeatRPC answer r).
Proof.
  destruct answer as [e|cs]; [done|]. cbn. revert r. induction cs as [|c cs IH]; intros r; [done|]. cbn.
  etransitivity; [|apply IH]. destruct c as [|t a u x m]; cbn; [apply startDrain_commanded|apply cancelTask_commanded].
Qed.

Lemma shutdown_commanded answer r : commanded r (BeginGracefulShutdown answer r).2.
Proof.
  unfold BeginGracefulShutdown. pose proof (startDrain_commanded r) as H.
  destruct (startDrain r) as [[|] r']; cbn in *; [|done]. etransitivity; [exact H|apply heartbeat_commanded].
Qed.

Lemma shutdown_draining answer r : r_draining (BeginGracefulShutdown answer r).2 = true.
Proof.
  unfold BeginGracefulShutdown. pose proof (startDrain_draining r) as H.
  destruct (startDrain r) as [[|] r']; cbn in *; [|done]. by apply (cm_draining _ _ (heartbeat_commanded answer r')).
Qed.

(** *** The invariant *)

(** Has the drain forced its way? Then the flags of sessions may be set. *)
Definition forced_phase (m : Main) : bool :=
  match m with MCleanup f | MExited f => f | _ => false end.

Definition backed (gs : list Goroutine) (x : string) : Prop :=
  ∃ i g, gs !! i = Some g ∧ g_phase g = GTracked ∧ executionKey (g_req g) = x.

Record valid (n : nat) (r : Runner) : Prop := {
  v_max : r_MaxConcurrent r = n;
  v_sem : r_sem r = (poller_holds (r_poller r) + tally takes_slot (r_goroutines r))%nat;
  v_wg : r_taskWG r = tally joined (r_goroutines r);
  v_cap : (r_sem r <= S n)%nat;
  v_tasks : ∀ x s, r_tasks r !! x = Some s → backed (r_goroutines r) x;
  v_draining : r_signal r ≠ SigNone → r_draining r = true;
  v_done : r_runDone r = true → r_signal r = SigDone;
  v_main : r_main r ≠ MServing → r_runDone r = true;
  v_ended : r_runDone r = true → ∀ x s, r_tasks r !! x = Some s → ss_ended s ≠ None;
  v_flags : forced_phase (r_main r) = false →
            ∀ x s, r_tasks r !! x = Some s → ss_PreserveWorkspace s = false ∧ ss_PauseOnDrain s = false;
}.

Lemma valid_commanded n r r' : valid n r → commanded r r' → valid n r'.
Proof.
  intros [V1 V2 V3 V4 V5 V6 V7 V8 V9 V10] [C1 C2 C3 C4 C5 _ C7 C8 C9 C10 C11].
  constructor; rewrite ?C1, ?C2, ?C4, ?C5, ?C7, ?C8, ?C9, ?C10; auto.
  - intros x s (s0 & H0 & _)%C11. by apply (V5 x s0).
  - intros Hd x s (s0 & H0 & M)%C11. specialize (V9 Hd x s0 H0).
    destruct (ss_ended s0) as [e|] eqn:E; [|done]. by rewrite (ml_ended _ _ M e E).
  - intros Hf x s (s0 & H0 & M)%C11. rewrite (ml_preserve _ _ M), (ml_pause _ _ M). by apply (V10 Hf x).
Qed.

Lemma backed_insert gs i g p x :
  gs !! i = Some g → (g_phase g = GTracked → x ≠ executionKey (g_req g)) →
  backed gs x → backed (<[ i := g{{ g_phase := p }} ]> gs) x.
Proof.
  intros Hi Hne (j & h & Hj & Hp & Hx). destruct (decide (i = j)) as [<-|Hij].
  - rewrite Hi in Hj. injection Hj as <-. by destruct (Hne Hp).
  - exists j, h. by rewrite list_lookup_insert_ne by done.
Qed.

Lemma backed_delete gs i g x : gs !! i = Some g → g_phase g ≠ GTracked → backed gs x → backed (delete i gs) x.
Proof.
  intros Hi Hn (j & h & Hj & Hp & Hx). assert (i ≠ j) by congruence.
  destruct (decide (j < i)%nat).
  - exists j, h. by rewrite list_lookup_delete_lt by done.
  - exists (pred j), h. rewrite list_lookup_delete_ge by lia. by replace (S (pred j)) with j by lia.
Qed.

Lemma backed_app gs gs' x : backed gs x → backed (gs ++ gs') x.
Proof. intros (j & h & Hj & Hp & Hx). exists j, h. by rewrite (lookup_app_l_Some _ _ _ _ Hj). Qed.

(** One field of the poller and of the slots at a time. *)
Lemma valid_poller n r p k gs :
  valid n r → (k = poller_holds p + tally takes_slot gs)%nat → (k <= S n)%nat →
  tally joined gs = tally joined (r_goroutines r) → (∀ x, backed (r_goroutines r) x → backed gs x) →
  valid n (r{{ r_poller := p }}{{ r_sem := k }}{{ r_goroutines := gs }}).
Proof.
  intros [V1 V2 V3 V4 V5 V6 V7 V8 V9 V10] Hk Hcap Hj Hb. constructor; cbn; auto; [exact (eq_trans V3 (eq_sym Hj))|].
  intros x s Hs. exact (Hb x (V5 x s Hs)).
Qed.

Lemma valid_poll n r e r' : valid n r → poll e r = Some r' → valid n r'.
Proof.
  intros V. pose proof (v_sem n r V) as Hs. pose proof (v_cap n r V) as Hc. pose proof (v_max n r V) as Hm.
  assert (∀ p k, (k = poller_holds p + tally takes_slot (r_goroutines r))%nat → (k <= S n)%nat →
    valid n (r{{ r_poller := p }}{{ r_sem := k }})) as Hgo.
  { intros p k Hk Hcap. apply (valid_poller n r p k (r_goroutines r)); auto. }
  unfold poll, guard_, at_, release, slots.
  destruct (r_poller r) as [| | | |req|req|] eqn:Ep; destruct e; try discriminate; cbn [poller_holds] in Hs.
  - destruct (r_draining r) eqn:Ed.
    { intros [= <-]. apply (Hgo PReturned (r_sem r)); cbn; lia. }
    destruct paused; [destruct quit|].
    + destruct (r_runDone r); [|done]. intros [= <-]. apply (Hgo PReturned (r_sem r)); cbn; lia.
    + by intros [= <-].
    + intros [= <-]. apply (Hgo PAcquire (r_sem r)); cbn; lia.
  - destruct (Nat.ltb_spec (r_sem r) (S (r_MaxConcurrent r))) as [Hlt|]; [|done]. intros [= <-].
    apply (Hgo PReserved (S (r_sem r))); cbn; lia.
  - destruct (r_runDone r); [|done]. intros [= <-]. apply (Hgo PReturned (r_sem r)); cbn; lia.
  - destruct (r_draining r); intros [= <-].
    + apply (Hgo PReturned (pred (r_sem r))); cbn; lia.
    + apply (Hgo PClaiming (r_sem r)); cbn; lia.
  - destruct resp as [req|]; intros [= <-].
    + apply (Hgo (PClaimed req) (r_sem r)); cbn; lia.
    + apply (Hgo (if r_runDone r then PReturned else PTop) (pred (r_sem r))); destruct (r_runDone r); cbn; lia.
  - destruct (r_draining r); intros [= <-].
    + apply (Hgo PReturned (pred (r_sem r))); cbn; lia.
    + apply (Hgo (PDispatch req) (r_sem r)); cbn; lia.
  - intros [= <-].
    apply (valid_poller n r PTop (r_sem r) (r_goroutines r ++ [mkGoroutine req GSpawned]) V).
    + rewrite tally_app. cbn. lia.
    + lia.
    + rewrite tally_app. cbn. lia.
    + intros x. apply backed_app.
Qed.

Lemma valid_move n r i g p wg k m :
  valid n r → r_goroutines r !! i = Some g →
  (k = poller_holds (r_poller r) + tally takes_slot (<[ i := g{{ g_phase := p }} ]> (r_goroutines r)))%nat → (k <= S n)%nat →
  wg = tally joined (<[ i := g{{ g_phase := p }} ]> (r_goroutines r)) →
  (∀ x s, m !! x = Some s →
     (backed (<[ i := g{{ g_phase := p }} ]> (r_goroutines r)) x) ∧
     (r_runDone r = true → ss_ended s ≠ None) ∧
     (forced_phase (r_main r) = false → ss_PreserveWorkspace s = false ∧ ss_PauseOnDrain s = false)) →
  valid n (move i g p (r{{ r_taskWG := wg }}{{ r_sem := k }}{{ r_tasks := m }})).
Proof.
  destruct r as [mx sem tasks canc dr rd wg0 st po gs sg mn].
  intros [V1 V2 V3 V4 V5 V6 V7 V8 V9 V10] Hi Hk Hcap Hw Hm. cbn in *.
  constructor; cbn; auto; naive_solver.
Qed.

Section steps.
Variable iso : IsolationEnv.
Variable getenv : string → string.

Lemma valid_task n r i g e r' :
  valid n r → r_goroutines r !! i = Some g → task_step iso i g e r = Some r' → valid n r'.
Proof.
  intros V Hi. pose proof (v_sem n r V) as Hs. pose proof (v_cap n r V) as Hc. pose proof (v_wg n r V) as Hw.
  assert (∀ x s, r_tasks r !! x = Some s → (r_runDone r = true → ss_ended s ≠ None) ∧
     (forced_phase (r_main r) = false → ss_PreserveWorkspace s = false ∧ ss_PauseOnDrain s = false)) as Hold.
  { intros x s Hx. split; intros H; [by apply (v_ended n r V H x)|by apply (v_flags n r V H x)]. }
  assert (∀ p, (tally takes_slot (<[ i := g{{ g_phase := p }} ]> (r_goroutines r)) + takes_slot (g_phase g) =
                tally takes_slot (r_goroutines r) + takes_slot p)%nat) as Hh.
  { intros p. by rewrite (tally_insert _ _ _ _ _ Hi). }
  assert (∀ p, (tally joined (<[ i := g{{ g_phase := p }} ]> (r_goroutines r)) + joined (g_phase g) =
                tally joined (r_goroutines r) + joined p)%nat) as Hj.
  { intros p. by rewrite (tally_insert _ _ _ _ _ Hi). }
  unfold task_step. destruct (g_phase g) eqn:Eg; destruct e; try discriminate.
  - intros [= <-]. specialize (Hh GJoined). specialize (Hj GJoined). cbn [takes_slot joined] in Hh, Hj.
    apply (valid_move n r i g GJoined (S (r_taskWG r)) (r_sem r) (r_tasks r) V Hi); [lia..|].
    intros x s Hx. split; [|by apply (Hold x)]. apply backed_insert; [done|congruence|by apply (v_tasks n r V x s)].
  - destruct (_ || _); intros [= <-].
    + specialize (Hh GLeft). specialize (Hj GLeft). cbn [takes_slot joined] in Hh, Hj.
      apply (valid_move n r i g GLeft (r_taskWG r) (r_sem r) (r_tasks r) V Hi); [lia..|].
      intros x s Hx. split; [|by apply (Hold x)]. apply backed_insert; [done|congruence|by apply (v_tasks n r V x s)].
    + specialize (Hh GTracked). specialize (Hj GTracked). cbn [takes_slot joined] in Hh, Hj.
      assert (valid n (move i g GTracked (r{{ r_taskWG := r_taskWG r }}{{ r_sem := r_sem r }}
        {{ r_tasks := <[ executionKey (g_req g) := new_session now (g_req g) r ]> (r_tasks r) }}))) as V'.
      { apply valid_move; [done|done|lia..|]. intros x s.
        destruct (decide (executionKey (g_req g) = x)) as [<-|Hne].
        - rewrite lookup_insert_eq. intros [= <-]. split.
          + exists i, (g{{ g_phase := GTracked }}). split; [|by destruct g].
            apply list_lookup_insert_eq. by eapply lookup_lt_Some.
          + unfold new_session. cbn. split; [by intros ->|done].
        - rewrite lookup_insert_ne by done. intros Hx. split; [|by apply (Hold x)].
          apply backed_insert; [done|congruence|by apply (v_tasks n r V x s)]. }
      destruct V' as [V1 V2 V3 V4 V5 V6 V7 V8 V9 V10]. destruct r. by constructor.
  - intros [= <-]. specialize (Hh GLeft). specialize (Hj GLeft). cbn [takes_slot joined] in Hh, Hj.
    apply (valid_move n r i g GLeft (r_taskWG r) (r_sem r) (delete (executionKey (g_req g)) (r_tasks r)) V Hi); [lia..|].
    intros x s [Hne Hx]%lookup_delete_Some. split; [|by apply (Hold x)].
    apply backed_insert; [done|congruence|by apply (v_tasks n r V x s)].
  - intros [= <-]. specialize (Hh GReleased). specialize (Hj GReleased). cbn [takes_slot joined] in Hh, Hj.
    apply (valid_move n r i g GReleased (r_taskWG r) (pred (r_sem r)) (r_tasks r) V Hi); [lia..|].
    intros x s Hx. split; [|by apply (Hold x)]. apply backed_insert; [done|congruence|by apply (v_tasks n r V x s)].
  - intros [= <-]. pose proof (tally_delete takes_slot _ _ _ Hi) as Dh. pose proof (tally_delete joined _ _ _ Hi) as Dj.
    rewrite Eg in Dh, Dj. cbn [takes_slot joined] in Dh, Dj.
    destruct r as [mx sem tasks canc dr rd wg0 st po gs sg mn].
    destruct V as [V1 V2 V3 V4 V5 V6 V7 V8 V9 V10]. cbn in *. constructor; cbn; auto; [lia|lia|].
    intros x s Hx. apply (backed_delete _ _ g); [done|congruence|by apply (V5 x s)].
Qed.

Lemma valid_main n r e r' : valid n r → main_step getenv e r = Some r' → valid n r'.
Proof.
  intros V. unfold main_step, waitDrain, waitForTaskCleanup, guard_, runningTasks.
  destruct r as [mx sem tasks canc dr rd wg st po gs sg mn].
  destruct V as [V1 V2 V3 V4 V5 V6 V7 V8 V9 V10]. cbn in *.
  destruct mn as [|d w|f|f]; [destruct e; try discriminate| |destruct e; try discriminate|done].
  - destruct rd; [|done]. intros [= <-]. constructor; cbn; auto. intros _. by apply V10.
  - destruct w, e; try discriminate; intros [= <-]; constructor; cbn; auto.
    + intros x s. rewrite lookup_fmap. intros (s0 & H0 & _)%fmap_Some. by apply (V5 x s0).
    + intros Hd x s. rewrite lookup_fmap. intros (s0 & _ & ->)%fmap_Some. unfold force. by destruct (rq_CheckpointAfterSuccess _).
    + done.
    + intros _. by apply V10.
  - destruct (_ =? 0)%nat; [|done]. intros [= <-]. constructor; cbn; auto.
  - intros [= <-]. constructor; cbn; auto. done.
Qed.

Lemma valid_signal n r r' :
  valid n r → r_signal r = SigNone → commanded r r' → r_draining r' = true →
  valid n (r'{{ r_signal := SigBegun }}).
Proof.
  intros V Hs C Hd. pose proof (valid_commanded _ _ _ V C) as V'. pose proof (cm_signal _ _ C) as Hs'.
  destruct r' as [mx sem tasks canc dr rd wg st po gs sg mn].
  destruct V' as [V1 V2 V3 V4 V5 V6 V7 V8 V9 V10]. cbn in *. constructor; cbn; auto.
  intros Hrd. specialize (V7 Hrd). congruence.
Qed.

Lemma valid_cancel n r : valid n r → r_signal r = SigBegun → valid n (cancel_run r{{ r_signal := SigDone }}).
Proof.
  unfold cancel_run. destruct r as [mx sem tasks canc dr rd wg st po gs sg mn].
  intros [V1 V2 V3 V4 V5 V6 V7 V8 V9 V10] Hs. cbn in *. constructor; cbn; auto.
  - intros x s. rewrite lookup_fmap. intros (s0 & H0 & _)%fmap_Some. by apply (V5 x s0).
  - intros _. apply V6. congruence.
  - intros _ x s. rewrite lookup_fmap. by intros (s0 & _ & ->)%fmap_Some.
  - intros Hf x s. rewrite lookup_fmap. intros (s0 & H0 & ->)%fmap_Some. by apply (V10 Hf x s0).
Qed.

Lemma step_cases r e r' :
  step iso getenv r e = Some r' →
  (∃ i g, goroutine_of e = Some i ∧ r_goroutines r !! i = Some g ∧ task_step iso i g e r = Some r') ∨
  poll e r = Some r' ∨ main_step getenv e r = Some r' ∨
  (∃ x, e = EDeadline x ∧ r' = r{{ r_tasks := alter (end_ctx EndDeadline) x (r_tasks r) }}) ∨
  (∃ answer, e = EHeartbeat answer ∧ r' = publishRunnerHeartbeatRPC answer r) ∨
  (∃ answer, e = ESignal answer ∧ r_signal r = SigNone ∧
     r' = (BeginGracefulShutdown answer r).2{{ r_signal := SigBegun }}) ∨
  (e = ECancelRun ∧ r_signal r = SigBegun ∧ r' = cancel_run r{{ r_signal := SigDone }}).
Proof.
  unfold step. destruct (r_main r) eqn:Em; [| | |done];
    (destruct (goroutine_of e) as [i|] eqn:Eg;
      [intros (g & Hg & Ht)%bind_Some; left; by exists i, g|]);
    destruct e; try discriminate; try (by intros; right; left); try (by intros; right; right; left);
    try (destruct (r_signal r) eqn:Es; try discriminate); intros [= <-];
    do 3 right; first [left; by eexists|right];
    first [left; by eexists|right]; first [left; by eexists|right]; done.
Qed.

Lemma valid_step n r e r' : valid n r → step iso getenv r e = Some r' → valid n r'.
Proof.
  intros V [(i & g & _ & Hg & Ht)|[Hp|[Hm|[(x & _ & ->)|[(a & _ & ->)|[(a & _ & Hs & ->)|(_ & Hs & ->)]]]]]]%step_cases.
  - by eapply valid_task.
  - by eapply valid_poll.
  - by eapply valid_main.
  - apply (valid_commanded _ _ _ V). constructor; try done. apply sessions_milder_alter.
  - apply (valid_commanded _ _ _ V), heartbeat_commanded.
  - apply (valid_signal n r); [done|done|apply shutdown_commanded|apply shutdown_draining].
  - by apply valid_cancel.
Qed.

Lemma valid_reachable n r : reachable iso getenv n r → valid n r.
Proof.
  induction 1 as [|r e r' _ V Hs]; [|by eapply valid_step].
  constructor; cbn; try done. lia.
Qed.

Lemma reachable_run n r es r' : reachable iso getenv n r → run iso getenv r es = Some r' → reachable iso getenv n r'.
Proof.
  revert r. induction es as [|e es IH]; intros r Hr; cbn; [by intros [= <-]|].
  intros (r1 & H1 & H2)%bind_Some. apply (IH r1); [|done]. by eapply reachable_step.
Qed.
End steps.

(** *** As many tasks as slots *)

Lemma tasks_tracked n r : valid n r → (size (r_tasks r) <= tally tracked (r_goroutines r))%nat.
Proof.
  intros V. rewrite <- (size_dom (D := gset string)).
  set (keys := (λ g, executionKey (g_req g)) <$> filter (λ g, g_phase g = GTracked) (r_goroutines r)).
  transitivity (size (list_to_set (C := gset string) keys)).
  - apply subseteq_size. intros x Hx. apply elem_of_dom in Hx as [s Hs].
    destruct (v_tasks n r V x s Hs) as (i & g & Hi & Hp & <-). apply elem_of_list_to_set, list_elem_of_fmap.
    exists g. split; [done|]. apply list_elem_of_filter. split; [done|]. by eapply list_elem_of_lookup_2.
  - assert (∀ l : list string, (size (list_to_set (C := gset string) l) <= length l)%nat) as Hl.
    { induction l as [|x l IH]; cbn; [by rewrite size_empty|].
      pose proof (size_union_alt ({[ x ]} : gset string) (list_to_set l)) as Hu.
      assert (size (list_to_set l ∖ {[x]} : gset string) <= size (list_to_set l : gset string))%nat
        by (apply subseteq_size; set_solver).
      rewrite size_singleton in Hu. lia. }
    etransitivity; [apply Hl|]. unfold keys. rewrite length_fmap. clear.
    induction (r_goroutines r) as [|g gs IH]; [done|]. rewrite filter_cons. cbn [tally].
    case_decide as Hp; [rewrite Hp|]. all: cbn [length tracked]; lia.
Qed.

(** A runner with [k] running tasks, and the claim loop at its head. *)
Definition numbered (k : nat) : TaskRequest :=
  sample_task{{ rq_TaskID := "t" ^^ fmt_d (Z.of_nat k) }}{{ rq_ExecutionID := "e" ^^ fmt_d (Z.of_nat k) }}
             {{ rq_IsolationRequired := false }}.
Definition idle_session (k : nat) : TaskSession := mkSession (numbered k) 0 None false false.
Fixpoint busy_tasks (k : nat) : gmap string TaskSession :=
  match k with O => ∅ | S k => <[ executionKey (numbered k) := idle_session k ]> (busy_tasks k) end.
Definition busy (n k : nat) : Runner :=
  mkRunner n k (busy_tasks k) ∅ false false k (Z.of_nat k) PTop
    (map (λ j, mkGoroutine (numbered j) GTracked) (seq 0 k)) SigNone MServing.
Definition one_more (k : nat) : list Event :=
  [EHead false false; EAcquire; ECheck; EClaim (Some (numbered k)); ERecheck; EGo; EJoin k; EStart k 0].

Lemma busy_session k x s :
  busy_tasks k !! x = Some s → ∃ j, (j < k)%nat ∧ x = executionKey (numbered j) ∧ s = idle_session j.
Proof.
  induction k as [|k IH]; cbn [busy_tasks]; [by rewrite lookup_empty|].
  destruct (decide (executionKey (numbered k) = x)) as [<-|Hne].
  - rewrite lookup_insert_eq. intros [= <-]. exists k. split; [lia|done].
  - rewrite lookup_insert_ne by done. intros (j & ? & ?)%IH. exists j. split; [lia|done].
Qed.

Lemma claim_number_inj c j k : String c (fmt_d (Z.of_nat j)) = String c (fmt_d (Z.of_nat k)) → j = k.
Proof.
  intros H. assert (fmt_d (Z.of_nat j) = fmt_d (Z.of_nat k)) as E by (by injection H).
  apply (inj (pretty (A := Z))) in E. lia.
Qed.

Lemma numbered_key_inj j k : executionKey (numbered j) = executionKey (numbered k) → j = k.
Proof. apply (claim_number_inj "e"%char). Qed.

Lemma busy_new k : busy_tasks k !! executionKey (numbered k) = None.
Proof.
  destruct (_ !! _) as [s|] eqn:E; [|done]. apply busy_session in E as (j & Hj & Hx & _).
  apply numbered_key_inj in Hx. lia.
Qed.

Lemma busy_size k : size (busy_tasks k) = k.
Proof. induction k as [|k IH]; [done|]. cbn [busy_tasks]. by rewrite map_size_insert_None, IH by apply busy_new. Qed.

Lemma busy_live k : live_execution (busy_tasks k) (rq_TaskID (numbered k)) = "".
Proof.
  unfold live_execution, findLiveExecutionForTaskLocked.
  destruct (List.find _ _) as [p|] eqn:E; [|done]. apply List.find_some in E as [Hin Ht].
  apply list_elem_of_In, list_elem_of_fmap in Hin as ([x s] & -> & Hin). apply elem_of_map_to_list in Hin.
  apply busy_session in Hin as (j & Hj & _ & ->). apply bool_decide_eq_true in Ht. cbn in Ht.
  apply (claim_number_inj "t"%char j k) in Ht. lia.
Qed.

Lemma numbered_accepted iso k : refused_early iso (numbered k) = false.
Proof. reflexivity. Qed.

Lemma run_cons iso getenv r e r1 es r' :
  step iso getenv r e = Some r1 → run iso getenv r1 es = Some r' → run iso getenv r (e :: es) = Some r'.
Proof. cbn [run]. by intros ->. Qed.

Lemma busy_more iso getenv n k : (k <= n)%nat → run iso getenv (busy n k) (one_more k) = Some (busy n (S k)).
Proof.
  intros Hk.
  set (gs := map (λ j, mkGoroutine (numbered j) GTracked) (seq 0 k)).
  assert (length gs = k) as Hlen by (unfold gs; by rewrite length_map, length_seq).
  assert (∀ g, (gs ++ [g]) !! k = Some g) as Hat
    by (intros g; rewrite lookup_app_r, Hlen, Nat.sub_diag by lia; done).
  assert (∀ g g', <[ k := g' ]> (gs ++ [g]) = gs ++ [g']) as Hset
    by (intros g g'; rewrite insert_app_r_alt, Hlen, Nat.sub_diag by lia; done).
  set (st := λ p sem wg ts started gs, mkRunner n sem ts ∅ false false wg started p gs SigNone MServing).
  set (T := busy_tasks k). set (K := Z.of_nat k). set (req := numbered k).
  assert (step iso getenv (st PAcquire k k T K gs) EAcquire = Some (st PReserved (S k) k T K gs)) as H2.
  { unfold step, poll, guard_, slots, st. cbn [r_main goroutine_of r_poller r_sem r_MaxConcurrent].
    by rewrite (proj2 (Nat.ltb_lt k (S n))) by lia. }
  assert (step iso getenv (st PTop (S k) k T K (gs ++ [mkGoroutine req GSpawned])) (EJoin k) =
          Some (st PTop (S k) (S k) T K (gs ++ [mkGoroutine req GJoined]))) as H7.
  { unfold step, st. cbn [r_main goroutine_of r_goroutines]. rewrite Hat. cbn [mbind option_bind].
    change (Some (st PTop (S k) (S k) T K (<[ k := mkGoroutine req GJoined ]> (gs ++ [mkGoroutine req GSpawned]))) =
            Some (st PTop (S k) (S k) T K (gs ++ [mkGoroutine req GJoined]))). by rewrite Hset. }
  assert (step iso getenv (st PTop (S k) (S k) T K (gs ++ [mkGoroutine req GJoined])) (EStart k 0) =
          Some (st PTop (S k) (S k) (<[ executionKey req := idle_session k ]> T) (K + 1)
                   (gs ++ [mkGoroutine req GTracked]))) as H8.
  { unfold step, st. cbn [r_main goroutine_of r_goroutines]. rewrite Hat. cbn [mbind option_bind].
    unfold task_step. cbn [g_phase g_req r_tasks]. unfold T, req. rewrite busy_live, numbered_accepted.
    change (Some (st PTop (S k) (S k) (<[ executionKey req := idle_session k ]> T) (K + 1)
                     (<[ k := mkGoroutine req GTracked ]> (gs ++ [mkGoroutine req GJoined]))) =
            Some (st PTop (S k) (S k) (<[ executionKey req := idle_session k ]> T) (K + 1)
                     (gs ++ [mkGoroutine req GTracked]))). by rewrite Hset. }
  unfold one_more.
  eapply (run_cons _ _ _ _ (st PAcquire k k T K gs)); [reflexivity|].
  eapply run_cons; [exact H2|].
  eapply (run_cons _ _ _ _ (st PClaiming (S k) k T K gs)); [reflexivity|].
  eapply (run_cons _ _ _ _ (st (PClaimed req) (S k) k T K gs)); [reflexivity|].
  eapply (run_cons _ _ _ _ (st (PDispatch req) (S k) k T K gs)); [reflexivity|].
  eapply (run_cons _ _ _ _ (st PTop (S k) k T K (gs ++ [mkGoroutine req GSpawned]))); [reflexivity|].
  eapply run_cons; [exact H7|]. eapply run_cons; [exact H8|]. cbn [run].
  unfold busy, st. f_equal. rewrite seq_S, map_app. fold gs. f_equal. unfold K. lia.
Qed.

Lemma busy_reachable iso getenv n k : (k <= S n)%nat → reachable iso getenv n (busy n k).
Proof.
  induction k as [|k IH]; intros Hk; [constructor|].
  eapply reachable_run; [apply IH; lia|]. apply busy_more. lia.
Qed.

(** *** What a drain lets through *)

(** The tasks a process has taken on and not entered yet. *)
Definition pending (p : Phase) : nat := match p with GSpawned | GJoined => 1 | _ => 0 end.
Definition waiting (r : Runner) : nat :=
  match r_poller r with PDispatch _ => 1 | _ => 0 end + tally pending (r_goroutines r).

Definition budget (r : Runner) : Z := r_totalStarted r + Z.of_nat (waiting r).

Lemma budget_commanded r r' : commanded r r' → budget r' = budget r.
Proof. intros C. unfold budget, waiting. by rewrite (cm_started _ _ C), (cm_poller _ _ C), (cm_goroutines _ _ C). Qed.

Lemma budget_poll e r r' : r_draining r = true → poll e r = Some r' → r_draining r' = true ∧ budget r' <= budget r.
Proof.
  intros Hd. destruct r as [mx sem tasks canc dr rd wg st po gs sg mn]. cbn in Hd. subst dr.
  unfold poll, guard_, at_, release, budget, waiting.
  destruct po, e; try discriminate; cbn; repeat case_match; intros Hr; simplify_eq; cbn; split; try done; try lia.
  rewrite tally_app. cbn. lia.
Qed.

Lemma budget_task iso i g e r r' :
  r_goroutines r !! i = Some g → task_step iso i g e r = Some r' → r_draining r' = r_draining r ∧ budget r' <= budget r.
Proof.
  destruct r as [mx sem tasks canc dr rd wg st po gs sg mn]. cbn [r_goroutines]. intros Hi.
  assert (∀ p, (tally pending (<[ i := g{{ g_phase := p }} ]> gs) + pending (g_phase g) =
                tally pending gs + pending p)%nat) as Hp by (intros p; by rewrite (tally_insert _ _ _ _ _ Hi)).
  pose proof (tally_delete pending _ _ _ Hi) as Hx.
  pose proof (Hp GJoined) as HJ. pose proof (Hp GTracked) as HT.
  pose proof (Hp GLeft) as HL. pose proof (Hp GReleased) as HR. clear Hp.
  unfold task_step, move, track, release, budget, waiting.
  destruct (g_phase g) eqn:Eg, e; try discriminate; cbn [pending] in *; try destruct (_ || _); intros [= <-];
    (split; [done|]); cbn -[tally pending] in *; lia.
Qed.

Lemma budget_main getenv e r r' : main_step getenv e r = Some r' → r_draining r' = r_draining r ∧ budget r' = budget r.
Proof.
  destruct r as [mx sem tasks canc dr rd wg st po gs sg mn]. unfold main_step, waitDrain, waitForTaskCleanup, guard_, budget, waiting.
  destruct mn as [|d w|f|f]; cbn; [| | |done].
  - destruct e, rd; try discriminate. by intros [= <-].
  - destruct w, e; try discriminate; by intros [= <-].
  - destruct e; try discriminate; [destruct (_ =? 0)%nat; [|done]|]; by intros [= <-].
Qed.

Lemma budget_step iso getenv e r r' :
  r_draining r = true → step iso getenv r e = Some r' → r_draining r' = true ∧ budget r' <= budget r.
Proof.
  intros Hd
    [(i & g & _ & Hg & Ht)|[Hp|[Hm|[(x & _ & ->)|[(a & _ & ->)|[(a & _ & Hs & ->)|(_ & Hs & ->)]]]]]]%step_cases.
  - destruct (budget_task _ _ _ _ _ _ Hg Ht) as [-> ?]. done.
  - by eapply budget_poll.
  - destruct (budget_main _ _ _ _ Hm) as [-> ->]. done.
  - done.
  - pose proof (heartbeat_commanded a r) as C. rewrite (budget_commanded _ _ C). split; [by apply (cm_draining _ _ C)|done].
  - pose proof (shutdown_commanded a r) as C.
    change (r_draining (BeginGracefulShutdown a r).2 = true ∧ budget (BeginGracefulShutdown a r).2 <= budget r).
    rewrite (budget_commanded _ _ C). split; [apply shutdown_draining|done].
  - done.
Qed.

(** *** Exits *)

Lemma exited_wg iso getenv n r : reachable iso getenv n r → r_main r = MExited false → r_taskWG r = 0%nat.
Proof.
  intros [|r0 e r' Hr Hs]; [done|]. pose proof (valid_reachable _ _ _ _ Hr) as V. intros Hx.
  assert (r_main r0 ≠ MExited false) as Hn by (intros E; unfold step in Hs; by rewrite E in Hs).
  apply step_cases in Hs
    as [(i & g & _ & Hg & Ht)|[Hp|[Hm|[(x & _ & ->)|[(a & _ & ->)|[(a & _ & _ & ->)|(_ & _ & ->)]]]]]].
  - exfalso. apply Hn. rewrite <- Hx. unfold task_step in Ht.
    destruct (g_phase g), e; try discriminate; try destruct (_ || _); by injection Ht as <-.
  - exfalso. apply Hn. rewrite <- Hx. unfold poll, guard_ in Hp. clear -Hp.
    destruct (r_poller r0), e; try discriminate; repeat case_match; by simplify_eq.
  - unfold main_step, waitDrain, waitForTaskCleanup, guard_ in Hm. destruct (r_main r0) as [|d w|f|f] eqn:Em; [| | |by destruct f].
    + destruct e; try discriminate. destruct (r_runDone r0) eqn:Ed; [|done]. injection Hm as <-. cbn in Hx.
      rewrite (v_draining _ _ V) in Hx; [done|]. by rewrite (v_done _ _ V Ed).
    + destruct w, e; try discriminate; injection Hm as <-; cbn in Hx; try done. by destruct (_ =? 0)%nat.
    + destruct e; try discriminate; [|by injection Hm as <-].
      destruct (r_taskWG r0 =? 0)%nat eqn:E; [|done]. injection Hm as <-. cbn. by apply Nat.eqb_eq.
  - done.
  - exfalso. apply Hn. by rewrite <- (cm_main _ _ (heartbeat_commanded a r0)).
  - exfalso. apply Hn. by rewrite <- (cm_main _ _ (shutdown_commanded a r0)).
  - done.
Qed.

(** *** Identifiers *)

Definition plain_token (c : ascii) : bool := token_char c && negb (c == "_"%char).

Lemma token_runes_id s : all_bytes token_char s = true → token_runes 0 s = s.
Proof.
  induction s as [|c s IH]; [done|]. cbn [all_bytes token_runes]. intros [-> Hs]%andb_true_iff. by rewrite IH.
Qed.

Lemma token_runes_chars k s : all_bytes token_char (token_runes k s) = true.
Proof.
  revert k. induction s as [|c s IH]; intros [|k]; [done|done| |apply IH]. cbn [token_runes].
  destruct (token_char c) eqn:E; cbn [all_bytes]; [by rewrite E, IH|by rewrite IH].
Qed.

Lemma drop_underscores_chars p s : all_bytes p s = true → all_bytes p (drop_underscores s) = true.
Proof.
  induction s as [|c s IH]; [done|]. cbn [all_bytes drop_underscores]. intros [Hc Hs]%andb_true_iff.
  destruct (c == "_"%char); [by apply IH|]. cbn [all_bytes]. by rewrite Hc.
Qed.

Lemma drop_underscores_id s : all_bytes (λ c, negb (c == "_"%char)) s = true → drop_underscores s = s.
Proof.
  destruct s as [|c s]; [done|]. cbn [all_bytes drop_underscores]. intros [Hc _]%andb_true_iff.
  apply negb_true_iff in Hc. by rewrite Hc.
Qed.

Lemma trim_underscores_chars p s : all_bytes p s = true → all_bytes p (trim_underscores s) = true.
Proof.
  intros H. unfold trim_underscores. apply all_bytes_rev, drop_underscores_chars, all_bytes_rev.
  by apply drop_underscores_chars.
Qed.

Lemma trim_underscores_id s : all_bytes (λ c, negb (c == "_"%char)) s = true → trim_underscores s = s.
Proof.
  intros H. unfold trim_underscores. rewrite (drop_underscores_id s H).
  rewrite drop_underscores_id by (by apply all_bytes_rev). apply rev_string_involutive.
Qed.

Lemma sanitize_chars s : all_bytes token_char (sanitizeSubjectToken s) = true.
Proof.
  unfold sanitizeSubjectToken. cbv zeta. destruct (_ == ""); [done|]. apply trim_underscores_chars, token_runes_chars.
Qed.

Lemma token_no_space c : token_char c = true → is_space c = false.
Proof. revert c. intros [b0 b1 b2 b3 b4 b5 b6 b7]. by destruct b0, b1, b2, b3, b4, b5, b6, b7. Qed.

(** A token as a line of a file reads back. *)
Lemma sanitize_line s : all_bytes plain_token s = true → s ≠ "" → sanitizeSubjectToken (s ^^ LF) = s.
Proof.
  intros Hs Hne.
  assert (all_bytes token_char s = true) as Ht
    by (eapply all_bytes_weaken; [|exact Hs]; unfold plain_token; intros c H; by apply andb_true_iff in H as [? _]).
  assert (all_bytes (λ c, negb (is_space c)) s = true) as Hsp
    by (eapply all_bytes_weaken; [|exact Ht]; intros c H; cbn beta; by rewrite token_no_space).
  assert (trimSpace (s ^^ LF) = s) as E.
  { destruct s as [|c s]; [done|]. cbn [all_bytes] in Hsp. pose proof Hsp as [Hc _]%andb_true_iff.
    apply negb_true_iff in Hc. unfold trimSpace. rewrite app_cons. cbn [trim_left]. rewrite Hc.
    rewrite <- app_cons. unfold LF. rewrite rev_string_snoc. cbn [trim_left].
    change (is_space "010") with true. cbv iota.
    rewrite trim_left_nospace by (by apply all_bytes_rev). apply rev_string_involutive. }
  unfold sanitizeSubjectToken. cbv zeta. rewrite E, (bool_decide_eq_false_2 (s = "")), token_runes_id by done.
  apply trim_underscores_id. eapply all_bytes_weaken; [|exact Hs]. unfold plain_token. intros c H.
  by apply andb_true_iff in H as [_ ?].
Qed.

Lemma hex_digit_plain n : 0 <= n < 16 → all_bytes plain_token (hex_digit n) = true.
Proof.
  intros H. assert (n = 0 ∨ n = 1 ∨ n = 2 ∨ n = 3 ∨ n = 4 ∨ n = 5 ∨ n = 6 ∨ n = 7 ∨ n = 8 ∨ n = 9 ∨ n = 10 ∨ n = 11 ∨
    n = 12 ∨ n = 13 ∨ n = 14 ∨ n = 15) as Hn by lia.
  repeat (destruct Hn as [->|Hn]; [reflexivity|]). by subst n.
Qed.

Lemma concat_plain l : Forall (λ s, all_bytes plain_token s = true) l → all_bytes plain_token (join "" l) = true.
Proof.
  unfold join. induction 1 as [|s [|t l] Hs Hl IH]; [done|done|].
  change (String.concat "" (s :: t :: l)) with (s ^^ "" ^^ String.concat "" (t :: l)).
  by rewrite !all_bytes_app, Hs, IH.
Qed.

Definition byte_range (b : Z) : Prop := 0 <= b < 256.

Lemma hex_bytes_plain l : Forall byte_range l → all_bytes plain_token (hex_bytes l) = true.
Proof.
  intros H. apply concat_plain, Forall_map. eapply Forall_impl; [exact H|]. intros b Hb. cbn.
  unfold byte_range in Hb. rewrite all_bytes_app, !hex_digit_plain; [done| |].
  - change 15 with (Z.ones 4). rewrite Z.land_ones by lia. apply Z.mod_pos_bound. lia.
  - rewrite Z.shiftr_div_pow2 by lia. change (2 ^ 4) with 16. split; [apply Z.div_pos; lia|].
    apply Z.div_lt_upper_bound; lia.
Qed.

Lemma lor_range a b : byte_range a → byte_range b → byte_range (Z.lor a b).
Proof.
  unfold byte_range. intros Ha Hb.
  assert (0 <= Z.lor a b) as H0 by (apply Z.lor_nonneg; lia). split; [done|].
  destruct (decide (Z.lor a b = 0)) as [->|Hn]; [done|]. change 256 with (2 ^ 8). apply Z.log2_lt_pow2; [lia|].
  rewrite Z.log2_lor by lia.
  assert (∀ x, 0 <= x < 256 → Z.log2 x < 8) as Hl.
  { intros x Hx. destruct (decide (x = 0)) as [->|]; [done|]. apply Z.log2_lt_pow2; lia. }
  pose proof (Hl a Ha). pose proof (Hl b Hb). lia.
Qed.

Lemma land_range a n : 0 <= n <= 8 → byte_range (Z.land a (Z.ones n)).
Proof.
  intros Hn. rewrite Z.land_ones by lia. unfold byte_range.
  pose proof (Z.mod_pos_bound a (2 ^ n) ltac:(lia)). pose proof (Z.pow_le_mono_r 2 n 8 ltac:(lia) ltac:(lia)).
  change (2 ^ 8) with 256 in *. lia.
Qed.

Lemma generated_plain b : Forall byte_range b → all_bytes plain_token (generated_id b) = true.
Proof.
  intros Hb. unfold generated_id. cbv zeta.
  set (b' := alter _ 8%nat (alter _ 6%nat b)).
  assert (Forall byte_range b') as Hb'.
  { apply Forall_alter; [apply Forall_alter; [done|]|]; intros x _ _; apply lor_range; try (unfold byte_range; lia).
    - by apply (land_range x 4).
    - by apply (land_range x 6). }
  unfold slice. rewrite !all_bytes_app, !hex_bytes_plain; [done|..];
    repeat first [apply Forall_take|apply Forall_drop]; done.
Qed.

(** *** Remaining times *)

Definition remaining (now : Z) (s : TaskSession) : Z := task_timeout s - (now - ss_StartedAt s).

Lemma max_remaining_spec now l :
  0 <= max_remaining now l ∧ (∀ s, s ∈ l → remaining now s <= max_remaining now l).
Proof.
  unfold max_remaining. fold (remaining now).
  assert (∀ l m, m <= foldl (λ m s, if m <? remaining now s then remaining now s else m) m l ∧
    (∀ s, s ∈ l → remaining now s <= foldl (λ m s, if m <? remaining now s then remaining now s else m) m l)) as H.
  { clear l. intros l. induction l as [|s l IH]; intros m; cbn [foldl]; [split; [lia|by intros s ?%elem_of_nil]|].
    destruct (IH (if m <? remaining now s then remaining now s else m)) as [H1 H2].
    destruct (Z.ltb_spec m (remaining now s)); (split; [lia|]); intros s' [->|Hs]%elem_of_cons; auto; lia. }
  apply H.
Qed.

(** *** Capacity reports *)

(** The slots a heartbeat reports as free and those in use make up all of them. *)
Lemma availableSlots_rest n r : valid n r → (availableSlots r + r_sem r = S n)%nat.
Proof. intros V. unfold availableSlots, slots. rewrite (v_max _ _ V). pose proof (v_cap _ _ V). lia. Qed.

(** A heartbeat names exactly the tracked executions, each with the hierarchy its
    claim came with, and counts them. *)
Lemma heartbeat_names_tasks getenv iso id status counters started rejected r e :
  let info := runnerInfoProto getenv iso id status counters started rejected r in
  (e ∈ i_CurrentExecutions info ↔
   ∃ s, r_tasks r !! x_ExecutionId e = Some s ∧ x_TaskId e = rq_TaskID (ss_Request s) ∧
        x_AgentSessionId e = rq_AgentSessionID (ss_Request s) ∧ x_UserPromptId e = rq_UserPromptID (ss_Request s) ∧
        x_ClaimId e = rq_ClaimID (ss_Request s)) ∧
  length (i_CurrentExecutions info) = runningTasks r.
Proof.
  cbv zeta. cbn [runnerInfoProto i_CurrentExecutions]. unfold currentExecutions. split.
  - rewrite list_elem_of_fmap. split.
    + intros ([x s] & -> & Hin). apply elem_of_map_to_list in Hin. by exists s.
    + intros (s & Hs & H1 & H2 & H3 & H4). exists (x_ExecutionId e, s). split; [|by apply elem_of_map_to_list].
      destruct e. cbn in *. by subst.
  - by rewrite length_fmap, length_map_to_list.
Qed.

(** *** A heartbeat and its answer *)

(** A session that was cancelled has ended. *)
Definition marked (x : string) (r : Runner) : Prop :=
  x ∈ r_cancelledTasks r → ∀ s, r_tasks r !! x = Some s → ss_ended s ≠ None.

(** A command about the session ends it, if it names it in full; any other
    command leaves it running or ended as it was. *)
Lemma run_command_session r c x s :
  r_tasks r !! x = Some s → marked x r →
  ∃ s', r_tasks (run_command r c) !! x = Some s' ∧ milder s s' ∧ marked x (run_command r c) ∧
    ((∀ t a u m, c ≠ CmdCancel t a u x m) → s' = s) ∧
    (∀ m, c = CmdCancel (rq_TaskID (ss_Request s)) (rq_AgentSessionID (ss_Request s))
                        (rq_UserPromptID (ss_Request s)) x m → ss_ended s' ≠ None).
Proof.
  intros Hs Hm. destruct c as [|t a u y m].
  { exists s. cbn. unfold startDrain. destruct (r_draining r); by repeat split. }
  cbn. unfold cancelTask. case_bool_decide as Hc.
  { exists s. repeat split; try done. intros m' [= _ _ _ -> _]. by apply Hm. }
  destruct (r_tasks r !! y) as [sy|] eqn:Hy.
  2: { exists s. repeat split; try done. intros m' [= _ _ _ -> _]. congruence. }
  destruct (same_hierarchy t a u sy) eqn:Eh; cbn [negb].
  2: { exists s. repeat split; try done. intros m' [= -> -> -> -> _]. assert (sy = s) as -> by congruence.
       exfalso. by unfold same_hierarchy in Eh; rewrite !bool_decide_eq_true_2 in Eh. }
  cbn. destruct (decide (y = x)) as [->|Hne].
  - assert (sy = s) as -> by congruence. exists (Cancel s). rewrite lookup_insert_eq.
    split; [done|]. split; [apply end_ctx_milder|]. split.
    + intros _ s'. cbn. rewrite lookup_insert_eq. by intros [= <-].
    + split; [|done]. intros Hno. by destruct (Hno t a u m).
  - exists s. rewrite lookup_insert_ne by done. split; [done|]. split; [done|]. split; [|split; [done|]].
    + intros Hin s'. cbn in *. rewrite lookup_insert_ne by done. apply Hm. set_solver.
    + intros m' [= _ _ _ -> _]. done.
Qed.

Lemma heartbeat_session cmds x s : ∀ r,
  r_tasks r !! x = Some s → marked x r →
  ∃ s', r_tasks (publishRunnerHeartbeatRPC (inr cmds) r) !! x = Some s' ∧ milder s s' ∧
    (¬ cancelled_by x cmds → s' = s) ∧
    (∀ m, CmdCancel (rq_TaskID (ss_Request s)) (rq_AgentSessionID (ss_Request s)) (rq_UserPromptID (ss_Request s)) x m ∈ cmds →
          ss_ended s' ≠ None).
Proof.
  revert s. cbn [publishRunnerHeartbeatRPC]. induction cmds as [|c cmds IH]; intros s r Hs Hm.
  { exists s. split; [done|]. split; [done|]. split; [done|]. by intros m ?%elem_of_nil. }
  cbn [foldl]. destruct (run_command_session r c x s Hs Hm) as (s1 & H1 & M1 & Hm1 & Hno1 & Hc1).
  destruct (IH s1 _ H1 Hm1) as (s2 & H2 & M2 & Hno2 & Hc2). exists s2. split; [done|]. split; [by transitivity s1|]. split.
  - intros Hno. rewrite Hno2, Hno1; [done| |].
    + intros t a u m ->. apply Hno. exists t, a, u, m. by left.
    + intros (t & a & u & m & Hin). apply Hno. exists t, a, u, m. by right.
  - intros m [E|Hin]%elem_of_cons.
    + assert (ss_ended s1 ≠ None) as He by (by apply (Hc1 m)).
      destruct (ss_ended s1) as [e|] eqn:Ee; [|done]. by rewrite (ml_ended _ _ M2 e Ee).
    + apply (Hc2 m). by rewrite (ml_request _ _ M1).
Qed.

(** A limit is reported in whole MiB, rounded up, as far as 32 bits reach. *)
Lemma containerMemoryMB_rounds_up ParseFloat memory bytes :
  ParseMemoryBytes ParseFloat memory = inr bytes → 0 <= bytes < 2 ^ 50 →
  let mb := containerMemoryMB ParseFloat memory in
  bytes <= mb * 2 ^ 20 < bytes + 2 ^ 20.
Proof.
  intros E Hb. cbv zeta. unfold containerMemoryMB. rewrite E.
  change (Z.shiftl 1 20) with (2 ^ 20). change (2 ^ 50) with 1125899906842624 in Hb.
  assert (∀ z, - 2 ^ 63 <= z < 2 ^ 63 → int64_wrap z = z) as Hw.
  { intros z Hz. unfold int64_wrap. rewrite Z.mod_small; lia. }
  rewrite (Hw (bytes + 2 ^ 20)) by lia. rewrite Hw by lia.
  rewrite Z.shiftr_div_pow2 by lia. change (2 ^ 20) with 1048576.
  pose proof (Z.div_mod (bytes + 1048576 - 1) 1048576 ltac:(lia)) as Hdm.
  pose proof (Z.mod_pos_bound (bytes + 1048576 - 1) 1048576 ltac:(lia)) as Hm.
  set (q := (bytes + 1048576 - 1) / 1048576) in *.
  unfold int32_of. rewrite Z.mod_small; lia.
Qed.

(** ** Properties *)

(** C36. However the claim loop, the tasks, the commands and the shutdown interleave,
    a runner configured for [n] concurrent tasks runs at most [n + 1]: each task
    and the claim loop's own reservation take one slot of [n + 1]. The bound is
    reached: nothing keeps the claim loop from handing its slot to a task while
    [n] others run, so [n + 1] tasks do run at the same time. *)
Theorem concurrent_tasks iso getenv n :
  (∀ r, reachable iso getenv n r →
     (size (r_tasks r) + poller_holds (r_poller r) <= r_sem r)%nat ∧ (r_sem r <= S n)%nat) ∧
  ∃ r, reachable iso getenv n r ∧ size (r_tasks r) = S n ∧
       ∀ x s, r_tasks r !! x = Some s → ss_ended s = None.
Proof.
  split.
  - intros r Hr. pose proof (valid_reachable _ _ _ _ Hr) as V. pose proof (tasks_tracked _ _ V) as Ht.
    pose proof (v_sem _ _ V). pose proof (v_cap _ _ V).
    pose proof (tally_le tracked takes_slot (r_goroutines r) ltac:(intros []; cbn; lia)). lia.
  - exists (busy n (S n)). split; [by apply busy_reachable|]. split; [apply busy_size|].
    intros x s (j & _ & _ & ->)%busy_session. done.
Qed.

(** Once a runner drains it keeps draining, and of the tasks it has not entered
    it starts none but those it had taken on by then: a task claimed later, or
    not looked at again yet, is not started. *)
Theorem drain_starts_nothing_new iso getenv r es r' :
  r_draining r = true → run iso getenv r es = Some r' →
  r_draining r' = true ∧ r_totalStarted r' + Z.of_nat (waiting r') <= r_totalStarted r + Z.of_nat (waiting r).
Proof.
  revert r. induction es as [|e es IH]; intros r Hd; cbn; [by intros [= <-]|].
  intros (r1 & H1 & H2)%bind_Some. destruct (budget_step _ _ _ _ _ Hd H1) as [Hd1 Hb].
  destruct (IH r1 Hd1 H2) as [? ?]. unfold budget in Hb. split; [done|lia].
Qed.


(** A runner that leaves without having forced its tasks leaves none behind that
    it had entered: no task is tracked and no goroutine has joined the barrier.
    But a task whose goroutine has not joined it yet is not waited for: the
    process can report a clean drain and exit with a claimed task that nobody
    has run or reported. *)
Theorem clean_exit iso getenv n :
  (∀ r, reachable iso getenv n r → r_main r = MExited false →
     r_tasks r = ∅ ∧ ∀ g, g ∈ r_goroutines r → g_phase g = GSpawned) ∧
  ∃ r, reachable iso getenv n r ∧ r_main r = MExited false ∧ r_goroutines r = [mkGoroutine (numbered 0) GSpawned].
Proof.
  split.
  - intros r Hr Hm. pose proof (valid_reachable _ _ _ _ Hr) as V.
    pose proof (v_wg _ _ V) as Hw. rewrite (exited_wg _ _ _ _ Hr Hm) in Hw. symmetry in Hw.
    assert (∀ g, g ∈ r_goroutines r → g_phase g = GSpawned) as Hg.
    { intros g Hin. pose proof (tally_zero _ _ Hw g Hin) as Hz. by destruct (g_phase g). }
    split; [|done]. apply map_empty. intros x. destruct (r_tasks r !! x) as [s|] eqn:E; [|done].
    destruct (v_tasks _ _ V x s E) as (i & g & Hi & Hp & _). rewrite (Hg g) in Hp; [done|]. by eapply list_elem_of_lookup_2.
  - eexists. split; [|split].
    + eapply (reachable_run iso getenv n (NewRunner n)
        [EHead false false; EAcquire; ECheck; EClaim (Some (numbered 0)); ERecheck; ESignal (inr []); ECancelRun;
         EServeEnd 0; EDrainLook; EGo; ECleanupDone]).
      * apply reachable_new.
      * reflexivity.
    + reflexivity.
    + reflexivity.
Qed.

(** Nothing can hold up the end: once the run context has ended, at most three
    steps of the shutdown alone lead to the exit, whatever the tasks do. *)
Theorem drain_ends iso getenv n r :
  reachable iso getenv n r → r_runDone r = true → (∀ f, r_main r ≠ MExited f) →
  ∃ es r' f, (length es <= 4)%nat ∧ run iso getenv r es = Some r' ∧ r_main r' = MExited f ∧
    Forall (λ e, ∃ now, e = EServeEnd now ∨ e = EDrainLook ∨ e = EDrainDeadline ∨ e = EHardKill) es.
Proof.
  intros Hr Hd Hx. pose proof (valid_reachable _ _ _ _ Hr) as V.
  pose proof (v_draining _ _ V) as Hdr. rewrite (v_done _ _ V Hd) in Hdr. specialize (Hdr ltac:(done)).
  clear V Hr. destruct r as [mx sem tasks canc dr rd wg st po gs sg mn]. cbn in *. subst dr rd.
  assert (∀ d, ∃ es r' f, (length es <= 3)%nat ∧
    run iso getenv (mkRunner mx sem tasks canc true true wg st po gs sg (MDrain d false)) es = Some r' ∧
    r_main r' = MExited f ∧
    Forall (λ e, ∃ now, e = EServeEnd now ∨ e = EDrainLook ∨ e = EDrainDeadline ∨ e = EHardKill) es) as Hdrain.
  { intros d. destruct (size tasks =? 0)%nat eqn:E.
    - exists [EDrainLook; EHardKill]. cbn [run]. unfold step, main_step, waitDrain, waitForTaskCleanup, runningTasks. cbn. rewrite E. cbn.
      eexists _, _. repeat split; [lia|]. repeat constructor; exists 0; auto.
    - exists [EDrainLook; EDrainDeadline; EHardKill]. cbn [run]. unfold step, main_step, waitDrain, waitForTaskCleanup, runningTasks. cbn. rewrite E. cbn.
      eexists _, _. repeat split; [lia|]. repeat constructor; exists 0; auto. }
  destruct mn as [|d [|]|f|f].
  - destruct (Hdrain (computeDrainDeadline getenv 0 tasks)) as (es & r' & f & Hl & Hrun & Hm & Hes).
    exists (EServeEnd 0 :: es), r', f. cbn [length]. split; [lia|]. split; [exact Hrun|]. split; [done|].
    constructor; [exists 0; auto|done].
  - exists [EDrainDeadline; EHardKill]. eexists _, _. split; [cbn; lia|]. split; [reflexivity|]. split; [reflexivity|].
    repeat constructor; exists 0; auto.
  - destruct (Hdrain d) as (es & r' & f & Hl & ?). exists es, r', f. split; [lia|done].
  - exists [EHardKill]. eexists _, _. split; [cbn; lia|]. split; [reflexivity|]. split; [reflexivity|].
    repeat constructor; exists 0; auto.
  - by destruct (Hx f).
Qed.

(** A cancellation reaches one session: that of the named execution, if its task,
    session and prompt are the named ones and it was not cancelled before. All
    other sessions stay as they are, and a repeated cancellation of the
    execution, under whatever names, changes nothing. *)
Theorem cancel_reaches_one t a u x r :
  (∀ y, r_tasks (cancelTask t a u x r) !! y =
     if (y == x) && negb (bool_decide (x ∈ r_cancelledTasks r)) &&
        match r_tasks r !! x with Some s => same_hierarchy t a u s | None => false end
     then Cancel <$> r_tasks r !! y else r_tasks r !! y) ∧
  (∀ t' a' u', x ∈ r_cancelledTasks (cancelTask t a u x r) →
     cancelTask t' a' u' x (cancelTask t a u x r) = cancelTask t a u x r).
Proof.
  split.
  - intros y. unfold cancelTask. case_bool_decide as Hc; cbn [negb]; [by rewrite andb_false_r|]. rewrite andb_true_r.
    destruct (r_tasks r !! x) as [s|] eqn:Hs; [|by rewrite andb_false_r].
    destruct (same_hierarchy t a u s); cbn [negb]; [|by rewrite andb_false_r]. rewrite andb_true_r.
    transitivity ((<[ x := Cancel s ]> (r_tasks r) : gmap string TaskSession) !! y); [done|].
    destruct (decide (y = x)) as [->|Hne].
    + by rewrite lookup_insert_eq, (bool_decide_eq_true_2 (x = x)), Hs.
    + by rewrite lookup_insert_ne, (bool_decide_eq_false_2 (y = x)).
  - intros t' a' u' Hin. remember (cancelTask t a u x r) as r'. unfold cancelTask. by rewrite (bool_decide_eq_true_2 _ Hin).
Qed.

Lemma cancel_reaches_one_witness :
  cancelTask "other" "s" "p" (executionKey (numbered 0))
    (cancelTask (rq_TaskID (numbered 0)) (rq_AgentSessionID (numbered 0)) (rq_UserPromptID (numbered 0))
                (executionKey (numbered 0)) (busy 1 1)) =
  cancelTask (rq_TaskID (numbered 0)) (rq_AgentSessionID (numbered 0)) (rq_UserPromptID (numbered 0))
             (executionKey (numbered 0)) (busy 1 1).
Proof.
  apply (cancel_reaches_one (rq_TaskID (numbered 0)) (rq_AgentSessionID (numbered 0)) (rq_UserPromptID (numbered 0))
           (executionKey (numbered 0)) (busy 1 1)).
  vm_compute. reflexivity.
Defined.

(** With tasks in flight the drain waits at least thirty seconds and as long as
    the longest of them may still run, unless a ceiling is configured; then it
    waits no longer than the ceiling or thirty seconds. *)
Theorem drain_deadline_fits getenv now tasks :
  tasks ≠ ∅ →
  let d := computeDrainDeadline getenv now tasks in
  (ceiling_configured getenv = false →
     30 * second <= d ∧ ∀ x s, tasks !! x = Some s → remaining now s <= d) ∧
  (ceiling_configured getenv = true →
     d <= Z.max (drainTimeout getenv) (30 * second) ∧
     (d < drainTimeout getenv → ∀ x s, tasks !! x = Some s → remaining now s <= d)).
Proof.
  intros Hne. cbv zeta. unfold computeDrainDeadline.
  rewrite (proj2 (Nat.eqb_neq _ _)) by (by apply map_size_non_empty_iff).
  destruct (max_remaining_spec now (map_to_list tasks).*2) as [H0 Hm].
  assert (∀ x s, tasks !! x = Some s → remaining now s <= max_remaining now (map_to_list tasks).*2) as Hall.
  { intros x s Hs. apply Hm, list_elem_of_fmap. exists (x, s). split; [done|]. by apply elem_of_map_to_list. }
  cbv zeta. set (m := max_remaining _ _) in *. clearbody m. clear Hm.
  destruct (ceiling_configured getenv); (split; intros Hc; [done || (clear Hc)|done || (clear Hc)]); cbn [andb].
  - destruct (Z.ltb_spec (drainTimeout getenv) m); [split; [lia|intros; lia]|].
    destruct (Z.ltb_spec m (30 * second)); (split; [lia|]); intros Hd x s Hs; specialize (Hall x s Hs); lia.
  - destruct (Z.ltb_spec m (30 * second)); (split; [lia|]); intros x s Hs; specialize (Hall x s Hs); lia.
Qed.

(** A ceiling below thirty seconds does not hold: with ten seconds configured and
    a task with five seconds left, the drain may take thirty. *)
Lemma low_ceiling_ignored :
  let getenv key := if key == "CHETTER_DRAIN_TIMEOUT_SEC" then "10" else "" in
  drainTimeout getenv = 10 * second ∧
  computeDrainDeadline getenv (95 * second)
    {[ "e" := mkSession (sample_task{{ rq_TimeoutSec := 100 }}) 0 None false false ]} = 30 * second.
Proof. vm_compute. done. Qed.

(** The identifier a runner makes up for itself is made of characters that need
    no replacing, and it is the one every later start reads from the file. *)
Theorem runner_id_kept getenv file random id file' :
  newRunnerID getenv file random true = (inr id, file') →
  sanitizeSubjectToken (getenv "RUNNER_ID") = "" →
  (∀ b, random = inr b → Forall byte_range b) →
  all_bytes token_char id = true ∧ id ≠ "" ∧
  ∀ random' writable, newRunnerID getenv file' random' writable = (inr id, file').
Proof.
  intros Hrun Henv Hrange. unfold newRunnerID in Hrun. cbv zeta in Hrun. rewrite Henv in Hrun.
  change (negb ("" == "")) with false in Hrun. cbv iota in Hrun.
  set (stored := match file with Some data => _ | None => _ end) in *.
  destruct (decide (stored = "")) as [E|E].
  - rewrite (bool_decide_eq_true_2 _ E) in Hrun. cbn [negb] in Hrun. destruct random as [e|b]; [done|].
    injection Hrun as Hid Hfile.
    assert (all_bytes plain_token id = true) as Hp by (rewrite <- Hid; by apply generated_plain, Hrange).
    assert (id ≠ "") as Hne by (rewrite <- Hid; done).
    split; [|split; [done|]].
    { eapply all_bytes_weaken; [|exact Hp]. unfold plain_token. intros c H. by apply andb_true_iff in H as [? _]. }
    intros random' writable. unfold newRunnerID. cbv zeta. rewrite Henv, <- Hfile, Hid.
    rewrite sanitize_line by done. by rewrite (bool_decide_eq_false_2 _ Hne).
  - rewrite (bool_decide_eq_false_2 _ E) in Hrun. cbn [negb] in Hrun.
    assert (id = stored) as -> by congruence. assert (file' = file) as -> by congruence.
    split; [|split; [done|]].
    { unfold stored. destruct file; [apply sanitize_chars|done]. }
    intros random' writable. unfold newRunnerID. cbv zeta. rewrite Henv. fold stored.
    by rewrite (bool_decide_eq_false_2 _ E).
Qed.

(** C35. A heartbeat and its answer bring the runner in line with the control plane.
    Of the tasks it runs, one whose attempt it still holds - same claim, same
    prompt, session and task, running - goes on untouched, under a lease of two
    minutes from now; every other one has its context cancelled. *)
Theorem heartbeat_exchange getenv iso runnerID status counters started rejected auditing dbFails now db cmds db' r :
  Heartbeat auditing dbFails now (runnerInfoProto getenv iso runnerID status counters started rejected r) db = (inr cmds, db') →
  r_tasks r !! "" = None → (∀ x, marked x r) →
  let r' := publishRunnerHeartbeatRPC (inr cmds) r in
  ∀ x s, r_tasks r !! x = Some s →
    let e := mkRunning (rq_TaskID (ss_Request s)) (rq_AgentSessionID (ss_Request s)) (rq_UserPromptID (ss_Request s)) x
                       (rq_ClaimID (ss_Request s)) in
    (∀ a, holds runnerID db e a → r_tasks r' !! x = Some s ∧ execution_attempts db' !! x = Some (renew now a)) ∧
    ((∀ a, ¬ holds runnerID db e a) → ∃ s', r_tasks r' !! x = Some s' ∧ ss_ended s' ≠ None).
Proof.
  intros Hhb Hempty Hmark r' x s Hs e.
  set (info := runnerInfoProto getenv iso runnerID status counters started rejected r) in *.
  assert (∀ y, y ∈ i_CurrentExecutions info ↔ ∃ s, r_tasks r !! x_ExecutionId y = Some s ∧ y =
    mkRunning (rq_TaskID (ss_Request s)) (rq_AgentSessionID (ss_Request s)) (rq_UserPromptID (ss_Request s))
      (x_ExecutionId y) (rq_ClaimID (ss_Request s))) as Hlist.
  { intros y. pose proof (heartbeat_names_tasks getenv iso runnerID status counters started rejected r y) as [Hy _].
    fold info in Hy. rewrite Hy. clear Hy.
    destruct y as [t a u k c]. cbn. split.
    - intros (s' & Hs' & -> & -> & -> & ->). by exists s'.
    - intros (s' & Hs' & [= -> -> -> ->]). by exists s'. }
  destruct (heartbeat_outcome auditing dbFails now info db cmds db' Hhb) as (Hcancel & Hrenew & _ & Honly).
  { intros y (s' & Hs' & _)%Hlist Hy. rewrite Hy in Hs'. congruence. }
  assert (e ∈ i_CurrentExecutions info) as He by (apply Hlist; by exists s).
  destruct (heartbeat_session cmds x s r Hs (Hmark x)) as (s' & Hs' & _ & Hkeep & Hend). fold r' in Hs'. split.
  - intros a Ha. split; [|exact (Hrenew e a He Ha)]. rewrite Hs', Hkeep; [done|].
    intros (y & Hy & Hid & Hno)%Honly. apply Hlist in Hy as (s2 & Hs2 & Ey). rewrite Hid in Hs2, Ey.
    assert (s2 = s) as -> by congruence. rewrite Ey in Hno. by apply (Hno a).
  - intros Hno. exists s'. split; [done|]. destruct (Hcancel e He Hno) as (m & Hin). by apply (Hend m).
Qed.

(** ** Witnesses *)

Definition no_env (key : string) : string := "".

Definition sample_iso : IsolationEnv := mkIsolationEnv sample_exec "" false.

(** A shutdown with one task in flight. *)
Definition interrupted : Runner :=
  (cancel_run ((busy 1 1){{ r_draining := true }})){{ r_signal := SigDone }}{{ r_main := MDrain (600 * second) false }}.

Lemma interrupted_reachable : reachable sample_iso no_env 1 interrupted.
Proof.
  eapply (reachable_run _ _ _ (busy 1 1) [ESignal (inr []); ECancelRun; EServeEnd 0]); [|vm_compute; reflexivity].
  apply busy_reachable. lia.
Qed.

Lemma drain_starts_nothing_new_witness :
  ∃ r', run sample_iso no_env ((NewRunner 1){{ r_draining := true }}{{ r_sem := 1%nat }}{{ r_poller := PClaimed sample_task }})
          [ERecheck] = Some r' ∧ r_totalStarted r' + Z.of_nat (waiting r') <= 0.
Proof.
  set (r := (NewRunner 1){{ r_draining := true }}{{ r_sem := 1%nat }}{{ r_poller := PClaimed sample_task }}).
  destruct (run sample_iso no_env r [ERecheck]) as [r'|] eqn:E; [|vm_compute in E; discriminate].
  exists r'. split; [done|].
  destruct (drain_starts_nothing_new sample_iso no_env r [ERecheck] r' eq_refl E) as [_ H]. exact H.
Defined.


Lemma drain_ends_witness :
  ∃ es r' f, (length es <= 4)%nat ∧ run sample_iso no_env interrupted es = Some r' ∧ r_main r' = MExited f.
Proof.
  destruct (drain_ends sample_iso no_env 1 interrupted interrupted_reachable eq_refl ltac:(done))
    as (es & r' & f & H1 & H2 & H3 & _). by exists es, r', f.
Defined.

Lemma drain_deadline_fits_witness :
  let tasks := {[ "e" := mkSession sample_task 0 None false false ]} in
  30 * second <= computeDrainDeadline no_env (95 * second) tasks.
Proof.
  set (tasks := {[ "e" := mkSession sample_task 0 None false false ]} : gmap string TaskSession).
  destruct (drain_deadline_fits no_env (95 * second) tasks) as [H _]; [done|]. by apply H.
Defined.

Lemma runner_id_kept_witness :
  newRunnerID no_env (Some ("runner-00010203-0405-4607-8809-0a0b0c0d0e0f" ^^ LF)) (inl (EMsg "no entropy")) false =
  (inr "runner-00010203-0405-4607-8809-0a0b0c0d0e0f", Some ("runner-00010203-0405-4607-8809-0a0b0c0d0e0f" ^^ LF)).
Proof.
  apply (runner_id_kept no_env None (inr [0; 1; 2; 3; 4; 5; 6; 7; 8; 9; 10; 11; 12; 13; 14; 15])).
  - vm_compute. reflexivity.
  - reflexivity.
  - intros b [= <-]. repeat constructor; unfold byte_range; lia.
Defined.

(** The control plane knows nothing of the running task. *)
Lemma heartbeat_exchange_witness :
  let info := runnerInfoProto no_env sample_iso "r1" "active" (mkCounters ∅ 0 0) None 0 (busy 1 1) in
  ∃ cmds db' s', Heartbeat false false 9 info sample_db = (inr cmds, db') ∧
    r_tasks (publishRunnerHeartbeatRPC (inr cmds) (busy 1 1)) !! executionKey (numbered 0) = Some s' ∧ ss_ended s' ≠ None.
Proof.
  set (info := runnerInfoProto no_env sample_iso "r1" "active" (mkCounters ∅ 0 0) None 0 (busy 1 1)).
  destruct (Heartbeat false false 9 info sample_db) as [[e|cmds] db'] eqn:E; [vm_compute in E; discriminate|].
  destruct (heartbeat_exchange no_env sample_iso "r1" "active" (mkCounters ∅ 0 0) None 0 false false 9 sample_db cmds db'
              (busy 1 1) E eq_refl) with (x := executionKey (numbered 0)) (s := idle_session 0) as [_ H].
  - intros x Hin. exfalso. revert Hin. apply not_elem_of_empty.
  - vm_compute. reflexivity.
  - destruct H as (s' & H1 & H2); [|exists cmds, db', s'; exact (conj E (conj H1 H2))].
    intros a (Ha & _). vm_compute in Ha. discriminate.
Defined.
