(* ===== verification/RunnerReap.v ===== *)
(** * What a runner cleans up behind lost tasks

    [pruneOrphanedWorkspaces], [sweepOrphanedTaskContainers] and their helpers of
    [runner/internal/controller/runner.go]: leftover workspaces and containers are
    listed, the control plane is asked which of them may go ([PruneWorkspaces],
    Workspaces.v), and those are removed. What the docker commands print is an
    argument; the files are those of RunnerPaths.v. *)
From S2P Require Import Prelude GoStrings Status Repos GithubRepo Db Queries Sample Workspaces RunnerPaths RunnerTask.

Definition NUL : ascii := "000".
Definition NL : ascii := "010".
Definition TAB : ascii := "009".

(** The key of an execution in the maps of verdicts. *)
Definition verdict_key (taskID executionID : string) : string := taskID ^^ String NUL executionID.

(** The keys in an answer, which may have nil entries. *)
Definition verdict_keys (l : list (option (string * string))) : gset string :=
  list_to_set (omap (λ k, (λ p, verdict_key p.1 p.2) <$> k) l).

(** ** Workspaces *)

Section workspaces.
Variable limit : nat.
Variable root : string.
(** The executions the runner tracks when it looks for the n-th candidate. *)
Variable active : nat → gset string.
(** The answer of the control plane. *)
Variable verdict : list WorkspaceCandidate → err + list (option (string * string)).
(** How the removal of a workspace goes. *)
Variable chmod : string → string → option err.
Variable busy : string → string → nat → bool.

(** [os.ReadDir]: the names in a directory, and which are directories themselves;
    their order plays no part here. *)
Definition ReadDir (fs : FS) (p : string) : FsErr + list (string * bool) :=
  match lookup_path limit true fs p with
  | inl e => inl e
  | inr (q, NDir) =>
      inr (omap (λ kv, if bool_decide (kv.1 ≠ [] ∧ removelast kv.1 = q)
                       then Some (List.last kv.1 "", match kv.2 with NDir => true | _ => false end) else None)
                (map_to_list fs))
  | inr _ => inl ENOTDIR
  end.

Definition task_candidates (taskID : string) (executions : list (string * bool)) : list WorkspaceCandidate :=
  omap (λ e, if negb e.2 || negb (hasPrefix e.1 "exec_") then None
             else Some (mkCandidate taskID e.1 (Join (Join (Join root taskID) e.1) "workspace"))) executions.

Fixpoint all_candidates (fs : FS) (entries : list (string * bool)) : err + list WorkspaceCandidate :=
  match entries with
  | [] => inr []
  | (name, isDir) :: entries =>
    if negb isDir || negb (hasPrefix name "task_") then all_candidates fs entries else
    match ReadDir fs (Join root name) with
    | inl _ => inl (EFmt "read task workspace %s" [name])
    | inr executions =>
      match all_candidates fs entries with
      | inl e => inl e
      | inr rest => inr (task_candidates name executions ++ rest)
      end
    end
  end.

(** The executions whose workspaces went, and the files after it. *)
Fixpoint delete_safe (safe : gset string) (i : nat) (cs : list WorkspaceCandidate) (fs : FS)
    : list (string * string) * FS :=
  match cs with
  | [] => ([], fs)
  | c :: cs =>
    let '(t, x) := (w_TaskId c, w_ExecutionId c) in
    if negb (bool_decide (verdict_key t x ∈ safe)) || bool_decide (x ∈ active i) then delete_safe safe (S i) cs fs else
    let '(r, fs) := Destroy limit (chmod t x) (busy t x) fs root t x in
    let '(deleted, fs) := delete_safe safe (S i) cs fs in
    (match r with inl _ => deleted | inr _ => (t, x) :: deleted end, fs)
  end.

Definition pruneOrphanedWorkspaces (fs : FS) : (err + list (string * string)) * FS :=
  match ReadDir fs root with
  | inl ENOENT => (inr [], fs)
  | inl _ => (inl (EMsg "read workspace root"), fs)
  | inr entries =>
    match all_candidates fs entries with
    | inl e => (inl e, fs)
    | inr [] => (inr [], fs)
    | inr candidates =>
      match verdict candidates with
      | inl _ => (inl (EMsg "prune workspaces rpc"), fs)
      | inr keys => let '(deleted, fs) := delete_safe (verdict_keys keys) 0 candidates fs in (inr deleted, fs)
      end
    end
  end.
End workspaces.

(** ** Containers *)

Record containerReapCandidate := mkReapCandidate {
  rc_Name : string;
  rc_RunnerID : string;
  rc_TaskID : string;
  rc_ExecutionID : string;
  rc_WorkspacePath : string;
}.

Definition field (fields : list string) (i : nat) : string := trimSpace (default "" (fields !! i)).

Definition parse_container (line : string) : option containerReapCandidate :=
  if trimSpace line == "" then None else
  let fields := split_on TAB line in
  let c := mkReapCandidate (trimPrefix (field fields 0) "/") (field fields 1) (field fields 2) (field fields 3)
                           (field fields 4) in
  if (rc_Name c == "") || (rc_TaskID c == "") || (rc_ExecutionID c == "") then None else Some c.

(** The output of [docker ps], or its error. *)
Definition listTaskContainers (ps : err + string) : err + list containerReapCandidate :=
  match ps with
  | inl _ => inl (EMsg "docker ps")
  | inr out => inr (omap parse_container (split_on NL (trimSpace out)))
  end.

(** The output of [docker checkpoint ls], [None] where it fails. *)
Definition containerHasCheckpoint (ls : option string) : bool :=
  match ls with
  | None => false
  | Some out => existsb (λ line, let trimmed := trimSpace line in
                         negb (trimmed == "") && negb (hasPrefix (toUpper trimmed) "CHECKPOINT"))
                        (split_on NL (trimSpace out))
  end.

Definition taskContainerMinAge : Z := seconds 600.

Definition isActiveExecution (tasks : gset string) (executionID : string) : bool :=
  if executionID == "" then false else bool_decide (executionID ∈ tasks).

Section containers.
(** [time.Parse(time.RFC3339Nano, s)] *)
Variable parse_time : string → option time.

Definition age_entry (now : time) (line : string) : option (string * time) :=
  match cut TAB line with
  | None => None
  | Some (name, created) =>
    let name := trimPrefix (trimSpace name) "/" in
    match parse_time (trimSpace created) with
    | None => None
    | Some created => if name == "" then None else Some (name, now - created)
    end
  end.

(** The output of the one [docker inspect] of all candidates, [None] where it
    fails - also when a single one of them is gone. *)
Definition containerAges (inspect : list string → option string) (now : time)
    (candidates : list containerReapCandidate) : gmap string time :=
  match inspect (map rc_Name candidates) with
  | None => ∅
  | Some out => foldl (λ ages line, match age_entry now line with
                                    | Some (name, age) => <[ name := age ]> ages
                                    | None => ages
                                    end) ∅ (split_on NL (trimSpace out))
  end.

Record SweepEnv := mkSweepEnv {
  sw_mode : string;
  sw_ready : bool;                           (* are there a client and a run context? *)
  sw_ps : err + string;
  sw_inspect : list string → option string;
  sw_now : time;
  sw_active : nat → gset string;             (* the tracked executions at the n-th look *)
  sw_verdict : list WorkspaceCandidate → err + list (option (string * string));
  sw_checkpoints : string → option string;
}.
Variable env : SweepEnv.

Definition old_enough (ages : gmap string time) (c : containerReapCandidate) : bool :=
  match ages !! rc_Name c with Some age => negb (age <? taskContainerMinAge) | None => false end.

Fixpoint reapable (ages : gmap string time) (i : nat) (cs : list containerReapCandidate) : list containerReapCandidate :=
  match cs with
  | [] => []
  | c :: cs =>
    if isActiveExecution (sw_active env i) (rc_ExecutionID c) || negb (old_enough ages c) then reapable ages (S i) cs
    else c :: reapable ages (S i) cs
  end.

Definition candidate_of (c : containerReapCandidate) : WorkspaceCandidate :=
  mkCandidate (rc_TaskID c) (rc_ExecutionID c) (rc_WorkspacePath c).

Definition containerReapVerdict (verdicts : list WorkspaceCandidate) : err + gset string :=
  match sw_verdict env verdicts with inl e => inl e | inr keys => inr (verdict_keys keys) end.

Definition removable (safe : gset string) (c : containerReapCandidate) : bool :=
  bool_decide (verdict_key (rc_TaskID c) (rc_ExecutionID c) ∈ safe) &&
  negb (containerHasCheckpoint (sw_checkpoints env (rc_Name c))).

(** The containers [removeTaskContainer] is called for. *)
Definition sweepOrphanedTaskContainers : list containerReapCandidate :=
  if negb (sw_mode env == "docker") || negb (sw_ready env) then [] else
  match listTaskContainers (sw_ps env) with
  | inl _ => []
  | inr [] => []
  | inr candidates =>
    match reapable (containerAges (sw_inspect env) (sw_now env) candidates) 0 candidates with
    | [] => []
    | old => match containerReapVerdict (map candidate_of old) with
             | inl _ => []
             | inr safe => filter (λ c, removable safe c = true) old
             end
    end
  end.
End containers.

(** ** Lemmas *)

Definition no_nul (s : string) : Prop := all_bytes (λ c, negb (c == NUL)) s = true.

Lemma verdict_key_inj t x t' x' : no_nul t → no_nul t' → verdict_key t x = verdict_key t' x' → t = t' ∧ x = x'.
Proof.
  unfold no_nul, verdict_key. revert t'. induction t as [|c t IH]; intros [|c' t']; cbn [all_bytes].
  - by intros _ _ [= ->].
  - intros _ [Hc _]%andb_true_iff [= <- _]. done.
  - intros [Hc _]%andb_true_iff _ [= -> _]. done.
  - intros [_ Ht]%andb_true_iff [_ Ht']%andb_true_iff. rewrite !app_cons. intros E.
    assert (c = c') as -> by (by injection E). assert (t ^^ String NUL x = t' ^^ String NUL x') as E' by (by injection E).
    by destruct (IH t' Ht Ht' E') as [-> ->].
Qed.

Lemma verdict_keys_spec l k : k ∈ verdict_keys l ↔ ∃ t x, Some (t, x) ∈ l ∧ k = verdict_key t x.
Proof.
  unfold verdict_keys. rewrite elem_of_list_to_set, list_elem_of_omap. split.
  - intros ([[t x]|] & Hin & E); [|done]. injection E as <-. by exists t, x.
  - intros (t & x & Hin & ->). by exists (Some (t, x)).
Qed.

(** A safe key belongs to a candidate that nothing protects. *)
Lemma safe_candidate runnerID scope cs db safe t x :
  PruneWorkspaces runnerID scope cs db = inr safe →
  (∀ c, c ∈ cs → no_nul (w_TaskId c)) → no_nul t →
  verdict_key t x ∈ verdict_keys (Some <$> safe) →
  ∃ c, c ∈ cs ∧ w_TaskId c = t ∧ w_ExecutionId c = x ∧ protected runnerID scope c db = false.
Proof.
  unfold PruneWorkspaces. destruct (_ == _); [done|]. intros [_ Hs]%prune_loop_spec Hn Ht.
  rewrite verdict_keys_spec. intros (t' & x' & Hin & E). apply list_elem_of_fmap in Hin as (p & Hp & Hin).
  injection Hp as <-. apply Hs in Hin as (c & Hc & Hpair & Hprot). injection Hpair as -> ->.
  destruct (verdict_key_inj _ _ _ _ Ht (Hn c Hc) E) as [-> ->]. by exists c.
Qed.

(** *** Deleting workspaces *)

Definition touched (R : list string) (ks : list (string * string)) (fs fs' : FS) : Prop :=
  ∀ q, fs' !! q ≠ fs !! q → ∃ t x, (t, x) ∈ ks ∧ (q = R ++ [t] ∨ (R ++ [t; x]) `prefix_of` q).

Lemma touched_refl R ks fs : touched R ks fs fs.
Proof. by intros q. Qed.

Lemma dirs_within R t x fs fs' : within R t x fs fs' → dirs fs R → dirs fs' R.
Proof.
  intros Hw Hd q Hq. destruct q as [|s q]; [done|]. rewrite <- (Hd (s :: q) Hq). cbn [node].
  destruct (decide (fs' !! (s :: q) = fs !! (s :: q))) as [E|E]; [done|].
  apply prefix_length in Hq. destruct (Hw _ E) as [E2|Hp].
  - rewrite E2, length_app in Hq. cbn [length] in Hq. lia.
  - apply prefix_length in Hp. rewrite length_app in Hp. change (length [t; x]) with 2%nat in Hp. lia.
Qed.

Lemma delete_safe_touched limit root active chmod busy safe cs :
  rooted root = true → let R := clean_parts true [] (parts root) in
  ∀ i fs, dirs fs R →
  touched R (omap (λ p, if bool_decide (verdict_key (w_TaskId p.2) (w_ExecutionId p.2) ∈ safe) &&
                           negb (bool_decide (w_ExecutionId p.2 ∈ active p.1))
                        then Some (w_TaskId p.2, w_ExecutionId p.2) else None)
                  (zip (seq i (length cs)) cs))
          fs (delete_safe limit root active chmod busy safe i cs fs).2.
Proof.
  intros Hroot R. induction cs as [|c cs IH]; intros i fs Hd; [apply touched_refl|].
  cbn [delete_safe length seq zip_with omap list_omap]. cbv iota beta. cbn [fst snd].
  destruct (bool_decide (verdict_key _ _ ∈ safe)), (bool_decide (_ ∈ active i)); cbn [negb andb orb];
    [by apply IH| |by apply IH..].
  pose proof (destroy_isolated limit (chmod (w_TaskId c) (w_ExecutionId c)) (busy (w_TaskId c) (w_ExecutionId c)) fs root
                (w_TaskId c) (w_ExecutionId c) Hroot Hd) as Hx.
  destruct (Destroy _ _ _ _ _ _ _) as [r fs1]. destruct Hx as [Hx _]. fold R in Hx.
  specialize (IH (S i) fs1 (dirs_within _ _ _ _ _ Hx Hd)).
  destruct (delete_safe _ _ _ _ _ _ _ _ _) as [deleted fs2]. cbn [snd] in *.
  intros q Hq. destruct (decide (fs2 !! q = fs1 !! q)) as [E1|E1].
  - exists (w_TaskId c), (w_ExecutionId c). split; [left|]. apply Hx. by rewrite <- E1.
  - destruct (IH q E1) as (t & x & Hin & Ht). exists t, x. split; [by right|done].
Qed.

Lemma ReadDir_names limit fs p l n d :
  (∀ q m, fs !! q = Some m → Forall no_nul q) → ReadDir limit fs p = inr l → (n, d) ∈ l → no_nul n.
Proof.
  intros Hf. unfold ReadDir. destruct (lookup_path _ _ _ _) as [e|[q [| |]]]; try done. intros [= <-].
  rewrite list_elem_of_omap. intros ([k m] & Hin & E). cbn in E. case_bool_decide as Hk; [|done]. destruct Hk as [Hk _].
  injection E as <- _. apply elem_of_map_to_list, Hf in Hin.
  destruct (exists_last Hk) as (k2 & s & ->). rewrite List.last_last. apply Forall_app in Hin as [_ Hs]. by inversion Hs.
Qed.

Definition workspace_candidate (root t x : string) : WorkspaceCandidate :=
  mkCandidate t x (Join (Join (Join root t) x) "workspace").

Lemma all_candidates_spec limit root fs entries cs c :
  all_candidates limit root fs entries = inr cs → c ∈ cs →
  ∃ t x d, (t, d) ∈ entries ∧ hasPrefix t "task_" = true ∧ hasPrefix x "exec_" = true ∧ c = workspace_candidate root t x.
Proof.
  revert cs. induction entries as [|[t d] entries IH]; intros cs; cbn [all_candidates]; [by intros [= <-] ?%elem_of_nil|].
  assert (∀ cs, all_candidates limit root fs entries = inr cs → c ∈ cs →
    ∃ t' x d', (t', d') ∈ (t, d) :: entries ∧ hasPrefix t' "task_" = true ∧ hasPrefix x "exec_" = true ∧
      c = workspace_candidate root t' x) as Hrest.
  { intros cs' E Hin. destruct (IH cs' E Hin) as (t' & x & d' & ? & ?). exists t', x, d'. split; [by right|done]. }
  destruct (negb d || _) eqn:Ed; [by apply Hrest|]. apply orb_false_iff in Ed as [_ Ht%negb_false_iff].
  destruct (ReadDir _ _ _) as [e|ex]; [done|]. destruct (all_candidates _ _ _ _) as [e|rest] eqn:Er; [done|].
  intros [= <-] [Hin|Hin]%elem_of_app; [|by apply (Hrest rest)].
  apply list_elem_of_omap in Hin as ([x dx] & _ & E). cbn in E. destruct (negb dx || _) eqn:Ex; [done|].
  apply orb_false_iff in Ex as [_ Hx%negb_false_iff]. injection E as <-. exists t, x, d. split; [by left|done].
Qed.

(** The answer of the control plane from its tables. *)
Definition control_plane (runnerID : string) (scope : bool) (db : DB) (cs : list WorkspaceCandidate)
    : err + list (option (string * string)) :=
  match PruneWorkspaces runnerID scope cs db with inl e => inl e | inr safe => inr (Some <$> safe) end.

(** *** Listings *)

Definition visible (s : string) : Prop := all_bytes (λ c, negb (is_space c)) s = true.

(** A container as docker has it: names and labels without spaces, with an
    identity. *)
Record labelled (c : containerReapCandidate) : Prop := {
  lb_name : visible (rc_Name c);
  lb_runner : visible (rc_RunnerID c);
  lb_task : visible (rc_TaskID c);
  lb_execution : visible (rc_ExecutionID c);
  lb_path : visible (rc_WorkspacePath c);
  lb_identity : rc_Name c ≠ "" ∧ rc_TaskID c ≠ "" ∧ rc_ExecutionID c ≠ "";
  lb_plain : hasPrefix (rc_Name c) "/" = false;
}.

(** The line docker prints for it, and the lines of a listing. *)
Definition row (c : containerReapCandidate) : string :=
  rc_Name c ^^ String TAB (rc_RunnerID c ^^ String TAB (rc_TaskID c ^^ String TAB (rc_ExecutionID c ^^
    String TAB (rc_WorkspacePath c)))).
Definition listing (cs : list containerReapCandidate) : string := foldr (λ c out, row c ^^ String NL out) "" cs.

(** What is left of the last line, and of a listing, without the space at the end. *)
Definition last_row (c : containerReapCandidate) : string :=
  rc_Name c ^^ String TAB (rc_RunnerID c ^^ String TAB (rc_TaskID c ^^ String TAB (rc_ExecutionID c ^^
    (if rc_WorkspacePath c == "" then "" else String TAB (rc_WorkspacePath c))))).
Fixpoint trimmed (cs : list containerReapCandidate) : string :=
  match cs with
  | [] => ""
  | [c] => last_row c
  | c :: cs => row c ^^ String NL (trimmed cs)
  end.

Lemma visible_plain sep s : is_space sep = true → visible s → all_bytes (λ c, negb (c == sep)) s = true.
Proof.
  intros Hsep. apply all_bytes_weaken. intros c Hc. apply negb_true_iff, bool_decide_eq_false. intros ->.
  by rewrite Hsep in Hc.
Qed.

Lemma split_row c : labelled c →
  split_on TAB (row c) = [rc_Name c; rc_RunnerID c; rc_TaskID c; rc_ExecutionID c; rc_WorkspacePath c].
Proof.
  intros [H1 H2 H3 H4 H5 _ _]. unfold row. apply (visible_plain TAB) in H1, H2, H3, H4, H5; [|done..].
  by rewrite !split_on_app, split_on_plain by done.
Qed.

Lemma split_last_row c : labelled c →
  split_on TAB (last_row c) = [rc_Name c; rc_RunnerID c; rc_TaskID c; rc_ExecutionID c] ++
    (if rc_WorkspacePath c == "" then [] else [rc_WorkspacePath c]).
Proof.
  intros [H1 H2 H3 H4 H5 _ _]. unfold last_row. apply (visible_plain TAB) in H1, H2, H3, H4, H5; [|done..].
  rewrite !split_on_app by done. destruct (_ == "").
  - by rewrite string_app_nil_r, split_on_plain.
  - by rewrite split_on_app, split_on_plain by done.
Qed.

Lemma field_at fields i s : fields !! i = Some s → visible s → field fields i = s.
Proof. unfold field. intros ->. apply trimSpace_nospace. Qed.

(** Four or five fields make the container. *)
Lemma parse_fields line c : labelled c → trimSpace line ≠ "" →
  split_on TAB line = [rc_Name c; rc_RunnerID c; rc_TaskID c; rc_ExecutionID c] ++
    (if rc_WorkspacePath c == "" then [] else [rc_WorkspacePath c]) ∨
  split_on TAB line = [rc_Name c; rc_RunnerID c; rc_TaskID c; rc_ExecutionID c; rc_WorkspacePath c] →
  parse_container line = Some c.
Proof.
  intros [H1 H2 H3 H4 H5 (N1 & N2 & N3) Hp] Hne Hs. unfold parse_container.
  rewrite (bool_decide_eq_false_2 _ Hne).
  assert (mkReapCandidate (trimPrefix (field (split_on TAB line) 0) "/") (field (split_on TAB line) 1)
            (field (split_on TAB line) 2) (field (split_on TAB line) 3) (field (split_on TAB line) 4) = c) as ->.
  { assert (field (split_on TAB line) 4 = rc_WorkspacePath c) as Hf.
    { destruct Hs as [-> | ->]; [|by apply field_at].
      destruct (bool_decide_reflect (rc_WorkspacePath c = "")) as [E|E]; [by rewrite E|by apply field_at]. }
    rewrite Hf, (field_at _ 0 (rc_Name c)), (field_at _ 1 (rc_RunnerID c)), (field_at _ 2 (rc_TaskID c)),
      (field_at _ 3 (rc_ExecutionID c)); try done; try (by destruct Hs as [-> | ->]).
    unfold trimPrefix. rewrite Hp. by destruct c. }
  cbv zeta. by rewrite (bool_decide_eq_false_2 _ N1), (bool_decide_eq_false_2 _ N2), (bool_decide_eq_false_2 _ N3).
Qed.

Lemma all_bytes_trim_left p s : all_bytes p s = true → all_bytes p (trim_left s) = true.
Proof.
  induction s as [|c s IH]; [done|]. cbn [all_bytes trim_left]. intros [Hc Hs]%andb_true_iff.
  destruct (is_space c); [by apply IH|]. cbn [all_bytes]. by rewrite Hc.
Qed.

Lemma all_bytes_trim p s : all_bytes p s = true → all_bytes p (trimSpace s) = true.
Proof. intros H. unfold trimSpace. apply all_bytes_rev, all_bytes_trim_left, all_bytes_rev. by apply all_bytes_trim_left. Qed.

Lemma all_bytes_split p sep s : all_bytes p s = true → Forall (λ w, all_bytes p w = true) (split_on sep s).
Proof.
  induction s as [|c s IH]; [by constructor|]. cbn [all_bytes split_on]. intros [Hc Hs]%andb_true_iff.
  specialize (IH Hs). destruct (c == sep); [by constructor|].
  destruct IH as [|w ws Hw Hws]; constructor; try done; cbn [all_bytes]; by rewrite Hc, ?Hw.
Qed.

Definition starts_visible (s : string) : Prop := match s with EmptyString => False | String c _ => is_space c = false end.

Lemma starts_app s t : starts_visible s → starts_visible (s ^^ t).
Proof. by destruct s. Qed.

Lemma visible_starts s : visible s → s ≠ "" → starts_visible s.
Proof. destruct s as [|c s]; [done|]. unfold visible. cbn. intros [Hc _]%andb_true_iff _. by apply negb_true_iff in Hc. Qed.

Lemma visible_ends s : visible s → s ≠ "" → starts_visible (rev_string s).
Proof.
  intros Hv Hne. apply visible_starts; [by apply all_bytes_rev|]. intros E. apply Hne.
  by rewrite <- (rev_string_involutive s), E.
Qed.

Lemma trim_left_starts s : starts_visible s → trim_left s = s.
Proof. destruct s as [|c s]; [done|]. cbn. by intros ->. Qed.

Lemma trim_left_spaces w s : all_bytes is_space w = true → trim_left (w ^^ s) = trim_left s.
Proof. induction w as [|c w IH]; [done|]. cbn [all_bytes]. intros [Hc Hw]%andb_true_iff. rewrite app_cons. cbn [trim_left]. rewrite Hc. by apply IH. Qed.

Lemma trimSpace_tail u w :
  starts_visible u → starts_visible (rev_string u) → all_bytes is_space w = true → trimSpace (u ^^ w) = u.
Proof.
  intros Hu Hr Hw. unfold trimSpace. rewrite (trim_left_starts (u ^^ w)) by (by apply starts_app).
  rewrite rev_string_app, trim_left_spaces by (by apply all_bytes_rev).
  rewrite (trim_left_starts (rev_string u)) by done. apply rev_string_involutive.
Qed.

Lemma trimSpace_starts s : starts_visible s → trimSpace s ≠ "".
Proof.
  intros Hs. unfold trimSpace. rewrite (trim_left_starts s Hs). destruct s as [|c s]; [done|]. cbn in Hs.
  rewrite rev_string_cons, trim_left_snoc by done. by rewrite rev_string_snoc.
Qed.

Lemma row_starts c : labelled c → starts_visible (row c).
Proof. intros H. apply starts_app, visible_starts; apply H. Qed.

Lemma last_row_starts c : labelled c → starts_visible (last_row c).
Proof. intros H. apply starts_app, visible_starts; apply H. Qed.

Lemma ends_app s t : starts_visible (rev_string t) → starts_visible (rev_string (s ^^ t)).
Proof. intros H. rewrite rev_string_app. by apply starts_app. Qed.

Lemma ends_cons c t : starts_visible (rev_string t) → starts_visible (rev_string (String c t)).
Proof. intros H. rewrite rev_string_cons. by apply starts_app. Qed.

Lemma last_row_ends c : labelled c → starts_visible (rev_string (last_row c)).
Proof.
  intros H. unfold last_row. do 3 (apply ends_app, ends_cons).
  destruct (bool_decide_reflect (rc_WorkspacePath c = "")) as [E|E].
  - rewrite string_app_nil_r. apply visible_ends; apply H.
  - apply ends_app, ends_cons, visible_ends; [apply H|done].
Qed.

Lemma row_split c : row c = last_row c ^^ (if rc_WorkspacePath c == "" then String TAB "" else "").
Proof.
  unfold row, last_row. destruct (bool_decide_reflect (rc_WorkspacePath c = "")) as [E|E].
  - rewrite E, !string_app_nil_r. by rewrite !string_app_assoc, !app_cons, !string_app_assoc, !app_cons, !string_app_assoc.
  - by rewrite string_app_nil_r.
Qed.

(** A listing is its trimmed form and the space at its end. *)
Lemma listing_trimmed cs : cs ≠ [] → Forall labelled cs →
  starts_visible (trimmed cs) ∧ starts_visible (rev_string (trimmed cs)) ∧
  ∃ w, all_bytes is_space w = true ∧ listing cs = trimmed cs ^^ w.
Proof.
  induction cs as [|c [|d cs] IH]; intros Hne Hl; [done| |]; inversion_clear Hl as [|? ? Hc Hcs].
  - split; [by apply last_row_starts|]. split; [by apply last_row_ends|].
    exists ((if rc_WorkspacePath c == "" then String TAB "" else "") ^^ String NL "").
    split; [by destruct (_ == "")|]. cbn [listing foldr trimmed].
    rewrite row_split at 1. by rewrite string_app_assoc.
  - destruct (IH ltac:(done) Hcs) as (H1 & H2 & w & Hw & E).
    change (trimmed (c :: d :: cs)) with (row c ^^ String NL (trimmed (d :: cs))).
    split; [by apply starts_app, row_starts|]. split; [by apply ends_app, ends_cons|].
    exists w. split; [done|]. change (listing (c :: d :: cs)) with (row c ^^ String NL (listing (d :: cs))).
    by rewrite E, string_app_assoc, app_cons.
Qed.

Lemma no_newline c : labelled c → all_bytes (λ b, negb (b == NL)) (row c) = true.
Proof.
  intros [H1 H2 H3 H4 H5 _ _]. unfold row. apply (visible_plain NL) in H1, H2, H3, H4, H5; [|done..].
  rewrite all_bytes_app, H1. cbn [all_bytes]. rewrite all_bytes_app, H2. cbn [all_bytes].
  rewrite all_bytes_app, H3. cbn [all_bytes]. rewrite all_bytes_app, H4. cbn [all_bytes]. by rewrite H5.
Qed.

Lemma parse_trimmed cs : cs ≠ [] → Forall labelled cs → omap parse_container (split_on NL (trimmed cs)) = cs.
Proof.
  induction cs as [|c [|d cs] IH]; intros Hne Hl; [done| |]; inversion_clear Hl as [|? ? Hc Hcs].
  - cbn [trimmed]. rewrite split_on_plain.
    + cbn. rewrite (parse_fields _ c); [done|done|by apply trimSpace_starts, last_row_starts|left; by apply split_last_row].
    + pose proof (no_newline c Hc) as Hn. rewrite row_split, all_bytes_app in Hn. by apply andb_true_iff in Hn as [? _].
  - change (trimmed (c :: d :: cs)) with (row c ^^ String NL (trimmed (d :: cs))).
    rewrite split_on_app by (by apply no_newline). cbn [omap list_omap].
    rewrite (parse_fields (row c) c); [|done|by apply trimSpace_starts, row_starts|right; by apply split_row].
    f_equal. by apply IH.
Qed.

Lemma field_no_nul fields i : Forall no_nul fields → no_nul (field fields i).
Proof.
  intros H. unfold field. apply all_bytes_trim. destruct (fields !! i) as [s|] eqn:E; [|done]. cbn.
  by eapply Forall_lookup_1 in H.
Qed.

Lemma listed_candidate ps cs c :
  listTaskContainers ps = inr cs → c ∈ cs → (∀ out, ps = inr out → no_nul out) →
  no_nul (rc_TaskID c) ∧ rc_ExecutionID c ≠ "".
Proof.
  destruct ps as [e|out]; [done|]. intros [= <-] Hin Hn. apply list_elem_of_omap in Hin as (line & Hl & E).
  assert (no_nul line) as Hline.
  { assert (Forall no_nul (split_on NL (trimSpace out))) as Hall
      by (apply all_bytes_split, all_bytes_trim; by apply Hn).
    rewrite Forall_forall in Hall. by apply Hall. }
  unfold parse_container in E. cbv zeta in E. destruct (_ == ""); [done|].
  match type of E with (if ?b then _ else _) = _ => destruct b eqn:Eb; [done|] end.
  injection E as <-. cbn [rc_TaskID rc_ExecutionID rc_Name] in *.
  apply orb_false_iff in Eb as [_ Hx%bool_decide_eq_false]. split; [|done].
  apply field_no_nul, all_bytes_split, Hline.
Qed.

Lemma reapable_spec env ages cs c : ∀ i,
  c ∈ reapable env ages i cs →
  c ∈ cs ∧ old_enough ages c = true ∧ ∃ j, isActiveExecution (sw_active env j) (rc_ExecutionID c) = false.
Proof.
  induction cs as [|d cs IH]; intros i; cbn [reapable]; [by intros ?%elem_of_nil|].
  destruct (isActiveExecution _ _ || _) eqn:E.
  - intros (? & ? & ?)%IH. split; [by right|done].
  - apply orb_false_iff in E as [E1 E2%negb_false_iff]. intros [->|Hin]%elem_of_cons.
    + split; [by left|]. split; [done|]. by exists i.
    + destruct (IH (S i) Hin) as (? & ? & ?). split; [by right|done].
Qed.

(** ** Properties *)

(** C39. Pruning touches nothing but workspaces that nobody needs. Whatever changes in
    the files of a runner is the directory of an execution below the task
    directory of its root (or that task directory, when it has become empty),
    the runner did not track that execution when it looked, and the control plane
    has, for its workspace, no attempt running on this runner, no session kept
    for a resume and no ready checkpoint. *)
Theorem prune_spares limit root active chmod busy runnerID db fs q :
  rooted root = true → let R := clean_parts true [] (parts root) in
  dirs fs R → (∀ p m, fs !! p = Some m → Forall no_nul p) →
  (pruneOrphanedWorkspaces limit root active (control_plane runnerID false db) chmod busy fs).2 !! q ≠ fs !! q →
  ∃ t x i, hasPrefix t "task_" = true ∧ hasPrefix x "exec_" = true ∧
           (q = R ++ [t] ∨ (R ++ [t; x]) `prefix_of` q) ∧ x ∉ active i ∧
           protected runnerID false (workspace_candidate root t x) db = false.
Proof.
  intros Hroot R Hd Hf. unfold pruneOrphanedWorkspaces.
  destruct (ReadDir limit fs root) as [[]|entries] eqn:Ee; try done.
  destruct (all_candidates _ _ _ _) as [e|[|c0 cs0]] eqn:Ec; try done. set (cs := c0 :: cs0) in *.
  unfold control_plane. destruct (PruneWorkspaces _ _ _ _) as [e|safe] eqn:Es; [done|].
  pose proof (delete_safe_touched limit root active chmod busy (verdict_keys (Some <$> safe)) cs Hroot 0 fs Hd q) as Ht.
  destruct (delete_safe _ _ _ _ _ _ _ _ _) as [deleted fs']. cbn [snd] in *. intros Hq.
  destruct (Ht Hq) as (t & x & Hin & Hp). apply list_elem_of_omap in Hin as ([i c] & Hin & E). cbn [fst snd] in E.
  destruct (bool_decide (verdict_key _ _ ∈ _)) eqn:Hk; [|done]. apply bool_decide_eq_true in Hk.
  case_bool_decide as Ha; [done|]. injection E as <- <-. apply elem_of_zip_r in Hin.
  assert (∀ c, c ∈ cs → no_nul (w_TaskId c)) as Hn.
  { intros c' Hc'. destruct (all_candidates_spec _ _ _ _ _ _ Ec Hc') as (t' & x' & d' & Hin' & _ & _ & ->).
    cbn. by eapply ReadDir_names. }
  destruct (safe_candidate _ _ _ _ _ _ _ Es Hn (Hn c Hin) Hk) as (c' & Hc' & Et & Ex & Hprot).
  destruct (all_candidates_spec _ _ _ _ _ _ Ec Hc') as (t' & x' & d' & _ & Htask & Hexec & ->). cbn in Et, Ex.
  exists t', x', i. rewrite <- Et, <- Ex in *. done.
Qed.

(** C38. A container is removed only when the docker daemon lists it, it is known to
    be ten minutes old, this runner did not track its execution, no checkpoint is
    listed for it - or the listing failed -, and no runner at all runs an attempt
    for it according to the control plane, whose answer of an error removes
    nothing. When no other container has its identifiers, no ready checkpoint of
    its workspace exists either. *)
Theorem sweep_spares parse_time env runnerID db c :
  sw_verdict env = control_plane runnerID true db →
  (∀ out, sw_ps env = inr out → no_nul out) →
  c ∈ sweepOrphanedTaskContainers parse_time env →
  sw_mode env = "docker" ∧
  ∃ cs, listTaskContainers (sw_ps env) = inr cs ∧ c ∈ cs ∧
    (∃ age, containerAges parse_time (sw_inspect env) (sw_now env) cs !! rc_Name c = Some age ∧ taskContainerMinAge <= age) ∧
    (∃ i, rc_ExecutionID c ∉ sw_active env i) ∧
    containerHasCheckpoint (sw_checkpoints env (rc_Name c)) = false ∧
    live_attempt runnerID true (candidate_of c) db = false ∧
    ((∀ c', c' ∈ cs → rc_TaskID c' = rc_TaskID c → rc_ExecutionID c' = rc_ExecutionID c → c' = c) →
     ready_checkpoint runnerID true (candidate_of c) db = false).
Proof.
  intros Hv Hn. unfold sweepOrphanedTaskContainers.
  destruct (sw_mode env == "docker") eqn:Em; [|by intros ?%elem_of_nil]. cbn [negb orb].
  destruct (sw_ready env); [|by intros ?%elem_of_nil]. cbn [negb].
  destruct (listTaskContainers _) as [e|[|c0 cs0]] eqn:El; [by intros ?%elem_of_nil..|]. set (cs := c0 :: cs0) in *.
  destruct (reapable _ _ _ _) as [|o os] eqn:Er; [by intros ?%elem_of_nil|].
  unfold containerReapVerdict. rewrite Hv. unfold control_plane.
  destruct (PruneWorkspaces _ _ _ _) as [e|safe] eqn:Es; [by intros ?%elem_of_nil|].
  intros [Hr Hin]%list_elem_of_filter. unfold removable in Hr. apply andb_true_iff in Hr as [Hk Hck%negb_true_iff].
  apply bool_decide_eq_true in Hk.
  assert (∀ d, d ∈ o :: os → d ∈ cs ∧ old_enough (containerAges parse_time (sw_inspect env) (sw_now env) cs) d = true ∧
    ∃ j, isActiveExecution (sw_active env j) (rc_ExecutionID d) = false) as Hd.
  { intros d Hd. rewrite <- Er in Hd. by eapply reapable_spec. }
  destruct (Hd c Hin) as (Hcs & Hold & j & Hact). destruct (listed_candidate _ _ _ El Hcs Hn) as [Hnt Hx].
  assert (∀ w, w ∈ map candidate_of (o :: os) → ∃ d, d ∈ o :: os ∧ w = candidate_of d) as Hmap
    by (intros w (d & -> & Hw)%list_elem_of_fmap; by exists d).
  destruct (safe_candidate runnerID true (map candidate_of (o :: os)) db safe (rc_TaskID c) (rc_ExecutionID c))
    as (w & Hw & Et & Ex & Hprot); [done| |done|done|].
  { intros w (d & Hw & ->)%Hmap. destruct (Hd d Hw) as [Hdc _]. by apply (listed_candidate _ _ _ El Hdc Hn). }
  destruct (Hmap w Hw) as (d & Hdo & ->). cbn in Et, Ex.
  unfold protected in Hprot. apply orb_false_iff in Hprot as [[Hlive _]%orb_false_iff Hready].
  split; [by apply bool_decide_eq_true in Em|]. exists cs. split; [done|]. split; [done|]. split; [|split; [|split; [done|split]]].
  - unfold old_enough in Hold. destruct (_ !! _) as [age|]; [|done]. exists age. split; [done|].
    apply negb_true_iff, Z.ltb_ge in Hold. done.
  - exists j. unfold isActiveExecution in Hact. rewrite (bool_decide_eq_false_2 _ Hx) in Hact. by apply bool_decide_eq_false in Hact.
  - rewrite <- Hlive. unfold live_attempt, candidate_of. cbn. by rewrite Et, Ex.
  - intros Hu. rewrite (Hu d) in Hready; [done|by apply Hd|done..].
Qed.

(** Without an answer from the control plane nothing is removed. *)
Lemma no_verdict_no_removal parse_time env e :
  (∀ cs, sw_verdict env cs = inl e) → sweepOrphanedTaskContainers parse_time env = [].
Proof.
  intros Hv. unfold sweepOrphanedTaskContainers, containerReapVerdict. repeat case_match; try done; by rewrite Hv in *.
Qed.

(** The containers docker lists are those the sweep sees, in order, whatever
    labels are missing at the end of a line. *)
Theorem listing_roundtrip cs :
  Forall labelled cs → listTaskContainers (inr (listing cs)) = inr cs.
Proof.
  intros Hl. unfold listTaskContainers. f_equal. destruct (decide (cs = [])) as [->|Hne]; [done|].
  destruct (listing_trimmed cs Hne Hl) as (H1 & H2 & w & Hw & ->). rewrite trimSpace_tail by done.
  by apply parse_trimmed.
Qed.

(** ** Witnesses *)

Definition sample_container : containerReapCandidate :=
  mkReapCandidate "chetter-task-t1-a0" "r9" "t1" "a0" "".

Lemma sample_labelled : labelled sample_container.
Proof. by constructor. Qed.

Lemma listing_roundtrip_witness :
  listTaskContainers (inr (listing [sample_container; sample_container])) = inr [sample_container; sample_container].
Proof.
  apply (listing_roundtrip [sample_container; sample_container]).
  apply Forall_cons; split; [exact sample_labelled|]. apply Forall_cons; split; [exact sample_labelled|]. apply Forall_nil; exact I.
Defined.

(** Twenty minutes after the container was made, with what the daemon answers
    about checkpoints. *)
Definition sample_sweep (checkpoints : option string) : SweepEnv :=
  mkSweepEnv "docker" true (inr (listing [sample_container])) (λ _, Some ("/chetter-task-t1-a0" ^^ String TAB "T0"))
    (seconds 1200) (λ _, ∅) (control_plane "r1" true sample_db) (λ _, checkpoints).
Definition sample_parse_time (s : string) : option time := if s == "T0" then Some 0 else None.

(** A checkpoint holds a container back, but not when it cannot be listed. *)
Lemma unreadable_checkpoint_removed :
  sweepOrphanedTaskContainers sample_parse_time (sample_sweep (Some ("CHECKPOINT NAME" ^^ String NL "saved"))) = [] ∧
  sweepOrphanedTaskContainers sample_parse_time (sample_sweep None) = [sample_container].
Proof. vm_compute. done. Qed.

Lemma sweep_spares_witness :
  live_attempt "r1" true (candidate_of sample_container) sample_db = false ∧
  ∃ cs, listTaskContainers (sw_ps (sample_sweep None)) = inr cs ∧ sample_container ∈ cs.
Proof.
  destruct (sweep_spares sample_parse_time (sample_sweep None) "r1" sample_db sample_container)
    as (_ & cs & H1 & H2 & _ & _ & _ & H3 & _).
  - reflexivity.
  - intros out [= <-]. vm_compute. reflexivity.
  - assert (sweepOrphanedTaskContainers sample_parse_time (sample_sweep None) = [sample_container]) as -> by (vm_compute; reflexivity).
    by left.
  - split; [exact H3|]. exists cs. split; [exact H1|exact H2].
Defined.

Lemma nul_check (fs : FS) :
  forallb (λ kv, forallb (all_bytes (λ c, negb (c == NUL))) kv.1) (map_to_list fs) = true →
  ∀ p m, fs !! p = Some m → Forall no_nul p.
Proof.
  rewrite forallb_forall. intros H p m Hp. apply elem_of_map_to_list, list_elem_of_In, H in Hp. cbn in Hp.
  rewrite forallb_forall in Hp. apply Forall_forall. intros s Hs. by apply Hp, list_elem_of_In.
Qed.

(** The directories of [sample_fs], with an execution the control plane knows
    nothing about. *)
Lemma prune_spares_witness :
  let fs' := (pruneOrphanedWorkspaces 100 sample_root (λ _, ∅) (control_plane "r1" false sample_db)
                (λ _ _, None) (λ _ _ _, false) sample_fs).2 in
  fs' !! parts sample_workspace = None ∧
  ∃ t x i, hasPrefix t "task_" = true ∧ hasPrefix x "exec_" = true ∧
           x ∉ (λ _ : nat, ∅ : gset string) i ∧
           protected "r1" false (workspace_candidate sample_root t x) sample_db = false.
Proof.
  set (fs' := (pruneOrphanedWorkspaces 100 sample_root (λ _, ∅) (control_plane "r1" false sample_db)
                (λ _ _, None) (λ _ _ _, false) sample_fs).2).
  assert (fs' !! parts sample_workspace = None) as E by (vm_compute; reflexivity). split; [exact E|].
  destruct (prune_spares 100 sample_root (λ _, ∅) (λ _ _, None) (λ _ _ _, false) "r1" sample_db sample_fs
              (parts sample_workspace) eq_refl) as (t & x & i & H1 & H2 & _ & H3 & H4).
  - apply dirs_check. vm_compute. reflexivity.
  - apply nul_check. vm_compute. reflexivity.
  - change (fs' !! parts sample_workspace ≠ sample_fs !! parts sample_workspace). rewrite E. vm_compute. discriminate.
  - exists t, x, i. exact (conj H1 (conj H2 (conj H3 H4))).
Defined.
